(* ===== verification/_CoqProject ===== *)
-Q . S2P
Prelude.v
BlockBuffer.v
Buffers.v
ByteStream.v
Containers.v
Sender.v
Framing.v
Socket.v
Connection.v
Cnum.v
Timer.v
ConnMgr.v
Redis.v
Store.v
RedisCache.v
Proto.v
Config.v
Helper.v
Service.v
Dispatch.v
Handler.v
WhiteList.v
Console.v
Events.v
Server.v
Workers.v
Cluster.v
Reactor.v
Boot.v
Wire.v
Peers.v
Teardown.v
Trace.v
Client.v
Genesis.v
Startup.v
