(* ===== verification/Prelude.v ===== *)
(** * The FPay demo node

    A model of the node of [src/] and the theorems about it.  The node keeps account
    balances and a chain of blocks in Redis; clients send it JSON messages over TCP; a
    root node collects transactions and makes blocks, the other nodes forward
    transactions to their parent and fetch its blocks.  In production a daemon
    accepts the connections and hands each one, by its descriptor, to a worker process.

    ** From the wire to the store, and where each part is modelled

    - [Prelude]: integers of a width ([uwrap], [swrap]), bytes and byte order, the outcomes
      of the code ([res], [exn]) and the state-and-exception monad [M S] all the other
      files use; the monad's laws, [try_catch], and the shared tactics.
    - [BlockBuffer], [Buffers], [ByteStream], [Containers], [Sender]:
      [core/base/BlockBuffer.h] with its [ForwardBuffer], [ByteStream.h] with the
      operators of the container types, and the outgoing messages of [Sender.cpp] and
      [JsonSender.cpp].  The buffer is modelled with its uninitialised bytes and its
      allocator; class [Marshal] with [MarshalLaw] is the interface of the overloads of the
      stream operators.
    - [Framing]: [Request], [ForwardBuf] and the two protocol consumers of [core/proto/].
    - [Socket], [Connection]: [core/xnet/Socket.cpp] and [core/conn/Connection.cpp]
      with its buffers and filter.  The kernel is a script of answers and a log of the
      calls made, so a theorem quantifies over all behaviours of the kernel.
    - [Timer], [Events], [Boot]: the timer list and the loop of [core/xnet/]
      ([TimerList.cpp], [IOLoop.cpp], [EventHandler.cpp]); how the loop is made, the
      exceptions of [Exception.cpp] and the pointers of [env.h].
    - [ConnMgr]: the connection managers, the connection factory and [DirectWriter]
      ([core/conn/], [core/writer/]): connections are objects in a heap of pointers, and a
      use of a deleted one is undefined behaviour.  [Reactor] runs them inside the loop.
    - [Server], [WhiteList], [Workers], [Console]: accepting ([TcpAcceptor.cpp],
      [TcpServer.cpp], [WorkerTcpServer.cpp]), the address list, the master and its worker
      processes ([core/dispatcher/], [SignalHandler.cpp]) and the text console.
    - [Cnum], [Redis], [Store], [RedisCache]: numbers in text, [cache/RedisClient.cpp]
      over the hiredis library (class [Hiredis], its laws in [RedisLaws]), the pool of
      clients of [cache/RedisCache.cpp], and the interface [Store] ([StoreLaws]) the
      service is proved against; [RedisCache] has its instance.
    - [Proto], [Config], [Helper]: the messages of [server/FPProto.h] (JSON text is cereal's,
      class [Cereal] with [CerealLaw]), the configuration, random names.
    - [Service]: [server/FPService.cpp], every member function; [Cluster]: the making of
      blocks by several processes at once, one step per command to the server.
    - [Dispatch], [Handler]: from a request to its handler ([core/base/ServerContext.cpp],
      [CerealHandler.h]) and the handlers of [server/FPReqHandler.cpp], over class [Peer].
    - [Wire], [Peers]: an instance of [Peer], the connection a request came from: all the
      layers from [Socket::recv] to [Socket::send] in one step of the loop.  Class [Conns]
      with [ConnsLaw] says what the node needs of its connections; its instances are one
      connection ([Wire]) and those of the connection manager ([Peers], on top of the
      acceptor of [Server]).
    - [Teardown], [Trace]: what the destructors give back, and what the components print.
    - [Startup], [Client], [Genesis]: the programs.  [server/FPNodeServer.cpp] and
      [daemon/main.cpp] up to their loops, [test/test.cpp] and [test/initSuperWallet.cpp].

    State is a record per class with the members' names, an operation is a definition
    with the method's name; where two classes use one name the class is a prefix.
    C++ exceptions are [Throw]; [Undefined] is undefined behaviour, [AssertFail] a failed
    assertion, [ProcessExit] an exit, and none of the three is caught.

    ** What the theorems show

    - The ledger ([Service]): applying a block changes every balance by what its
      transactions ask for; the total changes only by what is paid from the account
      without a name, which has no balance: that is how the genesis block mints.
      Accepted, forwarded and negative transactions; a block drains the pool in order; the
      chain is replayed once; the lock excludes; what the code does not protect against
      (a cycle of blocks, a payment to the account named as a lock).
    - The programs together ([Startup], [Client]): the value the genesis program stores is
      what the client is told by the node that starts on it ([minted_value_answered]);
      the node understands every request the client builds ([client_served]); what a
      request of the client does and leaves open ([request_outcome]).
    - Interleavings ([Cluster]): one builder at a time, nothing queued once is built
      twice, and what is queued between the read and the deletion of the queue is lost.
    - The node end to end ([Handler]): whatever way a stream of messages is cut into
      reads, the node runs its handlers on the messages in order ([node_serves_stream]),
      and implements the specification of one reply per message ([node_refines_replies]);
      what bytes of a transaction do to the store and the wire; errors.  [Wire] proves it
      down to the kernel: partial reads, partial writes and writability events included
      ([clients_on_the_wire], against the interface of the connections).  [Peers] puts the
      acceptor and the manager under it ([clients_served_apart]): peers are accepted as
      the white list says, and whatever way their events and the ticks of the node's timer
      follow each other each client is sent the replies to its own messages, and nothing
      else; a client that leaves, in the middle of a message or with a reset, has its
      connection deleted and disturbs nobody; a worker that is handed descriptors serves
      them alike.
    - The store ([Redis], [RedisCache]): a pool of clients refines one key-value map, all
      eleven operations on data; every reply is freed but that of a refused SET NX.
    - The wire ([Buffers], [ByteStream], [Containers], [Sender], [Framing], [Proto],
      [Connection]): the buffer refines a list, whatever [malloc] answers, and returns its
      blocks, an erasure that is put off is an erasure, round trips of packets and messages,
      reading a map merges, the frame of an answer, independence of chunking, bytes leave in
      order, whatever the kernel takes of them.
    - The processes ([Workers], [Server]): the invariant of the workers, the session a
      connection begins with names its worker, a connection leaves the master once, a
      worker that ends is started again and one whose start fails never is; the acceptor
      admits what the list allows and loses no descriptor.
    - The loop and the managers ([Events], [ConnMgr]): the epoll set, the handler set and
      the socket flags agree in every reachable state for the handlers whose events were
      kept in step (what takes a handler out of step is part of the statement); when a
      periodic timer runs for ever, and a rival that starves it; the map and the heap of
      connections correspond, but for the NULLs [dispatchByIds] adds.
    - Small components ([WhiteList], [Console], [Config], [Teardown]): the addresses of a
      block, termination, a printed list read again, the words of a line, what [Load]
      accepts, destructors that delete each connection once.

    ** Fuel and bounds

    Loops that the data bounds take fuel from it: the acceptor one round per answer of the
    script, the JSON consumer one round per byte of input, a range of the white list 65538
    rounds (the guard of the code allows 65537), a signal read 17 records (the buffer has
    room for 16).  [queryBlockChain] and [msg_onData] take fuel as an argument, for their loops may
    diverge.
    [OutOfFuel] is an outcome of its own, no handler catches it, and the theorems
    that name a result show the fuel was enough.  The event loop runs over a list of
    [poll] results of any length.

    ** What is not modelled

    Logging and time-of-day strings; the TLS build of the connection filter; the
    XML and JSON texts themselves (TinyXML and cereal are parameters); the abstract
    interfaces of [core/base/base.h], which have no code but the members of [IConn]; the parsing of flags of the two
    servers (a library's); the joint run of the threads of the load test.
    In Wire.v and Peers.v the events are arrivals, writability, departures and the node's
    timer; the timeouts of connections and their delayed deletion are those of ConnMgr.v
    and Reactor.v.  The path from the daemon's acceptor to a worker's answer is not one
    theorem: Workers.v follows a descriptor to the channel of a worker, Peers.v from the
    channel to the answers ([worker_clients_served]); between them is the start of the
    worker's process, which the code leaves to undefined behaviour (Workers.v).
    Undefined behaviour that the model does not turn into [Undefined]: the missing return of
    [updateBalance] and sums of 64 bits that overflow, which wrap (Service.v); a format text
    of the Redis client that asks for arguments it is not given (Redis.v).  The answer of
    [malloc] to a size is fixed during one call of the components above the buffer; the
    theorems of Buffers.v and Connection.v let it change from call to call.  In Cluster.v
    the contents of a new block are any function of the last block and the transactions.
    In Service.v an operation runs without another process between its commands;
    interleavings are the matter of Cluster.v, for the making of blocks. *)

From stdpp Require Export base list strings gmap sorting numbers.
From Stdlib Require Export Strings.Byte.
From Stdlib Require Import Lia.

#[global] Open Scope Z_scope.

(** ** Machine integers

    A [w]-bit C++ integer is a [Z]; conversions write the wrap-around out. *)

Definition uwrap (w : Z) (z : Z) : Z := z mod 2 ^ w.
Definition swrap (w : Z) (z : Z) : Z := (z + 2 ^ (w - 1)) mod 2 ^ w - 2 ^ (w - 1).

Abbreviation u8 := (uwrap 8).
Abbreviation u16 := (uwrap 16).
Abbreviation u32 := (uwrap 32).
Abbreviation u64 := (uwrap 64).
Abbreviation s8 := (swrap 8).
Abbreviation s32 := (swrap 32).
Abbreviation s64 := (swrap 64).

Definition in_u (w z : Z) : Prop := 0 <= z < 2 ^ w.
Definition in_s (w z : Z) : Prop := - 2 ^ (w - 1) <= z < 2 ^ (w - 1).

#[global] Instance in_u_dec w z : Decision (in_u w z).
Proof. unfold in_u. apply _. Defined.
#[global] Instance in_s_dec w z : Decision (in_s w z).
Proof. unfold in_s. apply _. Defined.

Create HintDb fpay.
Create Rewrite HintDb fpay_len.

Lemma uwrap_small w z : in_u w z → uwrap w z = z.
Proof. intros H. apply Z.mod_small. exact H. Qed.

Lemma uwrap_range w z : 0 <= w → in_u w (uwrap w z).
Proof. intros Hw. apply Z.mod_pos_bound. by apply Z.pow_pos_nonneg. Qed.

Lemma uwrap_idemp w z : uwrap w (uwrap w z) = uwrap w z.
Proof. unfold uwrap. by rewrite Zmod_mod. Qed.

Lemma swrap_small w z : 0 < w → in_s w z → swrap w z = z.
Proof.
  intros Hw [Hl Hh]. unfold swrap.
  assert (2 ^ w = 2 * 2 ^ (w - 1)) as E.
  { rewrite <- Z.pow_succ_r by lia. f_equal. lia. }
  rewrite Z.mod_small by lia. lia.
Qed.

Lemma swrap_range w z : 0 < w → in_s w (swrap w z).
Proof.
  intros Hw. unfold in_s, swrap.
  assert (2 ^ w = 2 * 2 ^ (w - 1)) as E.
  { rewrite <- Z.pow_succ_r by lia. f_equal. lia. }
  pose proof (Z.pow_pos_nonneg 2 w ltac:(lia) ltac:(lia)).
  pose proof (Z.mod_pos_bound (z + 2 ^ (w - 1)) (2 ^ w) ltac:(lia)). lia.
Qed.

#[export] Hint Resolve uwrap_range : fpay.

(** [(a << n) | b] when [b] fits below the shift. *)
Lemma lor_shiftl_add a b n :
  0 <= n → 0 <= b < 2 ^ n → Z.lor (Z.shiftl a n) b = a * 2 ^ n + b.
Proof.
  intros Hn Hb. rewrite <- (Z.shiftl_mul_pow2 a n) by done.
  rewrite <- Z.add_lor_land.
  assert (Z.land (Z.shiftl a n) b = 0) as ->; [|lia].
  apply Z.bits_inj'. intros i Hi. rewrite Z.land_spec, Z.bits_0.
  destruct (Z.lt_ge_cases i n).
  - by rewrite Z.shiftl_spec_low.
  - rewrite <- (Z.mod_small b (2 ^ n)) by done.
    by rewrite Z.mod_pow2_bits_high, andb_false_r by lia.
Qed.

Lemma land_ones_uwrap a n : 0 <= n → Z.land a (Z.ones n) = uwrap n a.
Proof. apply Z.land_ones. Qed.


(** [lia] with the quotient and remainder equations. *)
Ltac lia_divmod := Z.div_mod_to_equations; lia.

Lemma swrap_cong w a b : a mod 2 ^ w = b mod 2 ^ w → swrap w a = swrap w b.
Proof.
  intros E. unfold swrap. f_equal. rewrite Zplus_mod, E, <- Zplus_mod. done.
Qed.

Lemma swrap_mod w a : 0 < w → swrap w a mod 2 ^ w = a mod 2 ^ w.
Proof.
  intros Hw. unfold swrap. rewrite Zminus_mod_idemp_l. f_equal. lia.
Qed.

Lemma swrap_idemp w a : 0 < w → swrap w (swrap w a) = swrap w a.
Proof. intros Hw. by apply swrap_cong, swrap_mod. Qed.

Lemma swrap_add_r w a b : 0 < w → swrap w (a + swrap w b) = swrap w (a + b).
Proof. intros Hw. apply swrap_cong. by rewrite Zplus_mod, swrap_mod, <- Zplus_mod. Qed.

Lemma swrap_add_l w a b : 0 < w → swrap w (swrap w a + b) = swrap w (a + b).
Proof. intros Hw. apply swrap_cong. by rewrite Zplus_mod, swrap_mod, <- Zplus_mod. Qed.

(** ** Bytes *)

#[global] Instance byte_eq_dec : EqDecision byte := Byte.byte_eq_dec.

Definition byte_val (b : byte) : Z := Z.of_N (Byte.to_N b).
(** The conversion of an integer to [unsigned char]. *)
Definition byte_of (z : Z) : byte :=
  match Byte.of_N (Z.to_N (z mod 256)) with Some b => b | None => x00 end.
(** [char] is signed on the x86-64 target. *)
Definition schar_val (b : byte) : Z := s8 (byte_val b).

Lemma byte_val_range b : 0 <= byte_val b < 256.
Proof.
  unfold byte_val. pose proof (Byte.to_N_bounded b). lia.
Qed.

Lemma byte_of_val b : byte_of (byte_val b) = b.
Proof.
  unfold byte_of. rewrite Z.mod_small by apply byte_val_range.
  unfold byte_val. rewrite N2Z.id. by rewrite Byte.of_to_N.
Qed.

Lemma byte_val_of z : byte_val (byte_of z) = z mod 256.
Proof.
  unfold byte_of. pose proof (Z.mod_pos_bound z 256 ltac:(lia)).
  destruct (Byte.of_N (Z.to_N (z mod 256))) as [b|] eqn:E.
  - unfold byte_val. apply Byte.to_of_N in E. lia.
  - apply Byte.of_N_None_iff in E. lia.
Qed.

Lemma byte_val_inj b1 b2 : byte_val b1 = byte_val b2 → b1 = b2.
Proof. intros E. by rewrite <- (byte_of_val b1), E, byte_of_val. Qed.

(** The [n] bytes of [z] as a little-endian machine stores them, and back. *)
Fixpoint le_bytes (n : nat) (z : Z) : list byte :=
  match n with
  | O => []
  | S n => byte_of z :: le_bytes n (z / 256)
  end.

Fixpoint le_value (l : list byte) : Z :=
  match l with
  | [] => 0
  | b :: l => byte_val b + 256 * le_value l
  end.

(** Network order. *)
Definition be_bytes (n : nat) (z : Z) : list byte := reverse (le_bytes n z).
Definition be_value (l : list byte) : Z := le_value (reverse l).

Lemma length_le_bytes n z : length (le_bytes n z) = n.
Proof. revert z. induction n; intros; simpl; by f_equal. Qed.

Lemma length_be_bytes n z : length (be_bytes n z) = n.
Proof. unfold be_bytes. by rewrite length_reverse, length_le_bytes. Qed.

Lemma le_value_range l : 0 <= le_value l < 256 ^ Z.of_nat (length l).
Proof.
  induction l as [|b l IH]; simpl; [lia|].
  pose proof (byte_val_range b).
  rewrite Nat2Z.inj_succ, Z.pow_succ_r by lia. lia.
Qed.

Lemma le_value_bytes n z : le_value (le_bytes n z) = z mod 256 ^ Z.of_nat n.
Proof.
  revert z. induction n as [|n IH]; intros z; simpl; [by rewrite Z.mod_1_r|].
  rewrite IH, byte_val_of, Nat2Z.inj_succ, Z.pow_succ_r by lia.
  pose proof (Z.pow_pos_nonneg 256 (Z.of_nat n) ltac:(lia) ltac:(lia)).
  by rewrite Z.rem_mul_r by lia.
Qed.

Lemma le_bytes_value l : le_bytes (length l) (le_value l) = l.
Proof.
  induction l as [|b l IH]; simpl; [done|].
  pose proof (byte_val_range b). f_equal.
  - apply byte_val_inj. rewrite byte_val_of, Z.mul_comm, Z.mod_add by lia.
    by rewrite Z.mod_small.
  - rewrite Z.mul_comm, Z.div_add, Z.div_small by lia. by rewrite Z.add_0_l.
Qed.

Lemma be_value_bytes n z : be_value (be_bytes n z) = z mod 256 ^ Z.of_nat n.
Proof. unfold be_value, be_bytes. by rewrite reverse_involutive, le_value_bytes. Qed.

Lemma be_bytes_value l : be_bytes (length l) (be_value l) = l.
Proof.
  unfold be_value, be_bytes. rewrite <- length_reverse, le_bytes_value.
  apply reverse_involutive.
Qed.

#[export] Hint Rewrite length_le_bytes length_be_bytes @length_app @length_take @length_drop : fpay_len.

(** ** Lengths and slices indexed by [Z] ([size_t]) *)

Definition zlen {A} (l : list A) : Z := Z.of_nat (length l).
Definition ztake {A} (n : Z) (l : list A) : list A := take (Z.to_nat n) l.
Definition zdrop {A} (n : Z) (l : list A) : list A := drop (Z.to_nat n) l.

Section slices.
  Context {A : Type}.
  Implicit Types l k : list A.

Lemma zlen_nonneg l : 0 <= zlen l.
Proof. unfold zlen. lia. Qed.
Lemma zlen_nil : zlen (@nil A) = 0.
Proof. done. Qed.
Lemma zlen_cons x l : zlen (x :: l) = 1 + zlen l.
Proof. unfold zlen. simpl. lia. Qed.
Lemma zlen_app l k : zlen (l ++ k) = zlen l + zlen k.
Proof. unfold zlen. rewrite length_app. lia. Qed.
Lemma zlen_ztake n l : 0 <= n <= zlen l → zlen (ztake n l) = n.
Proof. unfold zlen, ztake. rewrite length_take. lia. Qed.
Lemma zlen_zdrop n l : 0 <= n <= zlen l → zlen (zdrop n l) = zlen l - n.
Proof. unfold zlen, zdrop. rewrite length_drop. lia. Qed.
Lemma zlen_zero l : zlen l = 0 → l = [].
Proof. unfold zlen. destruct l; [done|]. simpl. lia. Qed.

Lemma zlen_pos l : l ≠ [] → 0 < zlen l.
Proof. unfold zlen. destruct l; [done|]. simpl. lia. Qed.

Lemma ztake_zdrop n l : ztake n l ++ zdrop n l = l.
Proof. apply take_drop. Qed.
Lemma ztake_all n l : zlen l <= n → ztake n l = l.
Proof. unfold zlen, ztake. intros. apply take_ge. lia. Qed.
Lemma zdrop_all n l : zlen l <= n → zdrop n l = [].
Proof. unfold zlen, zdrop. intros. apply drop_ge. lia. Qed.
Lemma ztake_0 l : ztake 0 l = [].
Proof. done. Qed.
Lemma zdrop_0 l : zdrop 0 l = l.
Proof. done. Qed.
Lemma ztake_app_le n l k : n <= zlen l → ztake n (l ++ k) = ztake n l.
Proof. unfold zlen, ztake. intros. apply take_app_le. lia. Qed.
Lemma ztake_app_length l k n : n = zlen l → ztake n (l ++ k) = l.
Proof. intros ->. unfold zlen, ztake. rewrite Nat2Z.id. apply take_app_length. Qed.
Lemma zdrop_app_length l k n : n = zlen l → zdrop n (l ++ k) = k.
Proof. intros ->. unfold zlen, zdrop. rewrite Nat2Z.id. apply drop_app_length. Qed.
Lemma zdrop_app_le n l k : n <= zlen l → zdrop n (l ++ k) = zdrop n l ++ k.
Proof. unfold zlen, zdrop. intros. apply drop_app_le. lia. Qed.
Lemma zdrop_app_ge n l k : zlen l <= n → zdrop n (l ++ k) = zdrop (n - zlen l) k.
Proof.
  unfold zlen, zdrop. intros. rewrite drop_app_ge by lia. f_equal. lia.
Qed.
Lemma ztake_app_ge n l k : zlen l <= n → ztake n (l ++ k) = l ++ ztake (n - zlen l) k.
Proof.
  unfold zlen, ztake. intros. rewrite take_app_ge by lia. do 2 f_equal. lia.
Qed.
Lemma ztake_ztake n m l : ztake n (ztake m l) = ztake (Z.min n m) l.
Proof. unfold ztake. rewrite take_take. f_equal. lia. Qed.
Lemma zdrop_zdrop n m l : 0 <= n → 0 <= m → zdrop n (zdrop m l) = zdrop (m + n) l.
Proof. unfold zdrop. intros. rewrite drop_drop. f_equal. lia. Qed.
Lemma zdrop_ztake n m l : 0 <= n → zdrop n (ztake m l) = ztake (m - n) (zdrop n l).
Proof. unfold zdrop, ztake. intros. rewrite skipn_firstn_comm. f_equal. lia. Qed.
End slices.

#[export] Hint Rewrite @zlen_nil @zlen_cons @zlen_app : fpay_len.
#[export] Hint Resolve zlen_nonneg : fpay.

(** ** Exceptions, and the monad of stateful code that can throw

    The state is kept when an exception is thrown, as C++ keeps what the body
    did before the [throw]. *)

Inductive exn :=
  | ReadStreamExn
  | WriteStreamExn
  | CerealExn               (** [cereal::Exception] and its subclasses *)
  | BufferOverflow
  | BufferOverflowAll
  | SocketExn (en : Z)
  | RuntimeError
  | InvalidArgument         (** [std::invalid_argument] *)
  | OutOfRange              (** [std::out_of_range] *)
  | AssertFail              (** a failed [assert]: the process aborts *)
  | Undefined               (** undefined behaviour, e.g. a call through a dangling pointer *)
  | ProcessExit (code : Z)  (** [exit]: no handler catches it *)
  | OutOfFuel.              (** not a C++ outcome: a loop that has not ended within the fuel *)

#[global] Instance exn_eq_dec : EqDecision exn.
Proof. solve_decision. Defined.

Inductive res (A : Type) :=
  | Ok (a : A)
  | Throw (e : exn).
Arguments Ok {_} _.
Arguments Throw {_} _.

#[global] Instance res_eq_dec {A} `{EqDecision A} : EqDecision (res A).
Proof. solve_decision. Defined.

Definition M (S A : Type) : Type := S → res A * S.

#[global] Instance M_ret {S} : MRet (M S) := λ A a s, (Ok a, s).
#[global] Instance M_bind {S} : MBind (M S) := λ A B f m s,
  match m s with
  | (Ok a, s') => f a s'
  | (Throw e, s') => (Throw e, s')
  end.

Definition throw {S A} (e : exn) : M S A := λ s, (Throw e, s).
Definition get {S} : M S S := λ s, (Ok s, s).
Definition put {S} (s : S) : M S unit := λ _, (Ok tt, s).
Definition modify {S} (f : S → S) : M S unit := λ s, (Ok tt, f s).
Definition gets {S A} (f : S → A) : M S A := λ s, (Ok (f s), s).

(** [try { m } catch ...]: [h e] is the handler that matches [e], if any. *)
Definition try_catch {S A} (m : M S A) (h : exn → option (M S A)) : M S A := λ s,
  match m s with
  | (Throw e, s') => match h e with Some k => k s' | None => (Throw e, s') end
  | r => r
  end.

(** A function that only throws (no state of its own). *)
Definition lift_res {S A} (r : res A) : M S A := λ s, (r, s).

#[global] Instance res_ret : MRet res := λ A a, Ok a.
#[global] Instance res_bind : MBind res := λ A B f r,
  match r with Ok a => f a | Throw e => Throw e end.

Lemma res_bind_Ok {A B} (r : res A) (f : A → res B) a : r = Ok a → (r ≫= f) = f a.
Proof. by intros ->. Qed.

Section monad_laws.
  Context {S : Type}.

Lemma bind_ret_l {A B} (a : A) (f : A → M S B) s : (mret a ≫= f) s = f a s.
Proof. done. Qed.
Lemma bind_assoc {A B C} (m : M S A) (f : A → M S B) (g : B → M S C) s :
  ((m ≫= f) ≫= g) s = (m ≫= λ a, f a ≫= g) s.
Proof. unfold mbind, M_bind. by destruct (m s) as [[a|e] s']. Qed.
Lemma bind_Ok {A B} (m : M S A) (f : A → M S B) s a s' :
  m s = (Ok a, s') → (m ≫= f) s = f a s'.
Proof. unfold mbind, M_bind. by intros ->. Qed.
Lemma bind_Throw {A B} (m : M S A) (f : A → M S B) s e s' :
  m s = (Throw e, s') → (m ≫= f) s = (Throw e, s').
Proof. unfold mbind, M_bind. by intros ->. Qed.
Lemma bind_inv_Ok {A B} (m : M S A) (f : A → M S B) s b s'' :
  (m ≫= f) s = (Ok b, s'') → ∃ a s', m s = (Ok a, s') ∧ f a s' = (Ok b, s'').
Proof.
  unfold mbind, M_bind. destruct (m s) as [[a|e] s']; [eauto|done].
Qed.
End monad_laws.

(** A computation whose outcome is known, named by its final state. *)
Lemma run_eta {A B} (p : A * B) (a : A) : p.1 = a → p = (a, p.2).
Proof. by destruct p; intros <-. Qed.

(** Rewrites a run of [m ≫= f] with the run of [m] found in the context. *)
Ltac step_bind H := erewrite bind_Ok by exact H.
(** Splits a successful run of a bind into the runs of its two parts. *)
Ltac inv_bind H :=
  let a := fresh "a" in let s := fresh "s" in let H1 := fresh "Hrun" in
  apply bind_inv_Ok in H as (a & s & H1 & H).

(** ** Strings as byte sequences ([std::string]) *)

Definition bytes_of (s : string) : list byte := String.list_byte_of_string s.
Definition string_of (l : list byte) : string := String.string_of_list_byte l.

Lemma string_of_bytes_of s : string_of (bytes_of s) = s.
Proof. apply String.string_of_list_byte_of_string. Qed.
Lemma bytes_of_string_of l : bytes_of (string_of l) = l.
Proof. apply String.list_byte_of_string_of_list_byte. Qed.

Lemma bytes_of_cons a s : bytes_of (String a s) = Ascii.byte_of_ascii a :: bytes_of s.
Proof. done. Qed.

Lemma bytes_of_app s1 s2 : bytes_of (s1 +:+ s2) = bytes_of s1 ++ bytes_of s2.
Proof.
  induction s1 as [|a s1 IH]; [done|].
  change (String a s1 +:+ s2) with (String a (s1 +:+ s2)).
  by rewrite !bytes_of_cons, IH.
Qed.

Definition str_empty (s : string) : bool :=
  match s with EmptyString => true | _ => false end.

Lemma str_empty_true s : str_empty s = true ↔ s = ""%string.
Proof. by destruct s. Qed.
Lemma str_empty_false s : str_empty s = false ↔ s ≠ ""%string.
Proof. by destruct s. Qed.

Lemma str_app_cons c s1 s2 : String c s1 +:+ s2 = String c (s1 +:+ s2).
Proof. done. Qed.
Lemma str_app_nil_r (s : string) : s +:+ EmptyString = s.
Proof. induction s as [|c s IH]; [done|]. by rewrite str_app_cons, IH. Qed.
Lemma str_app_assoc s1 s2 s3 : (s1 +:+ s2) +:+ s3 = s1 +:+ (s2 +:+ s3).
Proof. induction s1 as [|c s1 IH]; [done|]. by rewrite !str_app_cons, IH. Qed.

(** ** A [std::set], or the keys of a [std::map], in the order of their iterators *)

Definition key_order (s : gset Z) : list Z := merge_sort Z.le (elements s).

Lemma elem_of_key_order i s : i ∈ key_order s ↔ i ∈ s.
Proof. unfold key_order. by rewrite merge_sort_Permutation, elem_of_elements. Qed.
Lemma NoDup_key_order s : NoDup (key_order s).
Proof. unfold key_order. rewrite merge_sort_Permutation. apply NoDup_elements. Qed.
