(* ===== verification/BlockBuffer.v ===== *)
(** * BlockBuffer.v: the growable memory block of [core/base/BlockBuffer.h]

    [BlockBuffer<BlockAllocator, MaxBlocks>] keeps a malloc'ed block of
    [m_block * requested_size] bytes of which the first [m_size] are in use.
    The allocated memory is modelled byte by byte, the uninitialised part
    included: its bytes come from the [Heap], which also decides whether an
    allocation succeeds.  [content] is the abstract value of a buffer (the bytes
    in use) and the theorems say which list operation each method performs on
    it.  Whole sequences of operations, and [ForwardBuffer], are in Buffers.v. *)

From S2P Require Import Prelude.

(** ** Template parameters and environment *)

(** [allocator::requested_size] and [MaxBlocks], with the range the two
    instantiations of the program ([PackBuffer], [Connection]) stay in. *)
Class BlockParams := {
  requested_size : Z;
  max_blocks : Z;
  requested_size_pos : 0 < requested_size;
  max_blocks_nonneg : 0 <= max_blocks;
  maxsize_bound : max_blocks * requested_size < 2 ^ 31;
}.

(** The C heap: whether [malloc] of a size succeeds, and what the memory holds. *)
Record Heap := { heap_has : Z → bool; heap_junk : nat → byte }.

(** [default_block_allocator_malloc_free::ordered_malloc] *)
Definition ordered_malloc `{BlockParams} (h : Heap) (n : Z) : option (list byte) :=
  if heap_has h (requested_size * n)
  then Some (heap_junk h <$> seq 0 (Z.to_nat (requested_size * n)))
  else None.

(** ** State *)

Record BlockBuffer := mkBB { m_data : list byte; m_size : Z; m_block : Z }.
(** The two static counters. *)
Record BlockStats := mkStats { s_current_total_blocks : Z; s_peak_total_blocks : Z }.
Definition BState : Type := BlockBuffer * BlockStats.

Definition npos : Z := 2 ^ 64 - 1.

Section block_buffer.
  Context `{BP : BlockParams}.

Definition new_BlockBuffer : BlockBuffer := mkBB [] 0 0.

Definition capacity (b : BlockBuffer) : Z := m_block b * requested_size.
Definition maxsize : Z := max_blocks * requested_size.
Definition freespace (b : BlockBuffer) : Z := capacity b - m_size b.
Definition maxfree (b : BlockBuffer) : Z := maxsize - m_size b.
Definition bb_empty (b : BlockBuffer) : bool := m_size b =? 0.

(** [memcpy]/[memmove]/[memset] of [src] to offset [off] of a block. *)
Definition overwrite (mem : list byte) (off : Z) (src : list byte) : list byte :=
  ztake off mem ++ src ++ zdrop (off + zlen src) mem.

Definition set_size (b : BlockBuffer) (n : Z) : BlockBuffer := mkBB (m_data b) n (m_block b).

(** [free()]: note that [m_size] keeps its value. *)
Definition bb_free (st : BState) : BState :=
  let (b, s) := st in
  if 0 <? m_block b
  then (mkBB [] (m_size b) 0,
        mkStats (s_current_total_blocks s - m_block b) (s_peak_total_blocks s))
  else st.

(** [~BlockBuffer()]: what is left is the counters. *)
Definition bb_destroy (st : BState) : BlockStats := snd (bb_free st).

(** The blocks that [increase_capacity] asks for. *)
Definition newblocks (b : BlockBuffer) (increase_size : Z) : Z :=
  let need := increase_size - freespace b in
  m_block b + need / requested_size + (if 0 <? need mod requested_size then 1 else 0).

Definition increase_capacity (h : Heap) (increase_size : Z) (st : BState) : bool * BState :=
  let (b, s) := st in
  if increase_size =? 0 then (true, st)
  else if increase_size <=? freespace b then (true, st)
  else
    let newblock := newblocks b increase_size in
    if max_blocks <? newblock then (false, st)
    else match ordered_malloc h newblock with
         | None => (false, st)
         | Some newdata =>
             let newdata := if 0 <? m_block b
                            then overwrite newdata 0 (ztake (m_size b) (m_data b))
                            else newdata in
             let cur := s_current_total_blocks s + (newblock - m_block b) in
             let peak := if s_peak_total_blocks s <? cur then cur else s_peak_total_blocks s in
             (true, (mkBB newdata (m_size b) newblock, mkStats cur peak))
         end.

(** [append(app, len)]: [app] are the [len] bytes the pointer designates. *)
Definition append (h : Heap) (app : list byte) (st : BState) : bool * BState :=
  if zlen app =? 0 then (true, st)
  else match increase_capacity h (zlen app) st with
       | (true, (b, s)) =>
           (true, (mkBB (overwrite (m_data b) (m_size b) app) (m_size b + zlen app) (m_block b), s))
       | (false, st') => (false, st')
       end.

Definition reserve (h : Heap) (n : Z) (st : BState) : bool * BState :=
  if n <=? capacity (fst st) then (true, st)
  else increase_capacity h (n - capacity (fst st)) st.

Definition resize (h : Heap) (n : Z) (c : byte) (st : BState) : bool * BState :=
  if m_size (fst st) <? n then
    let len := n - m_size (fst st) in
    match increase_capacity h len st with
    | (true, (b, s)) =>
        (true, (mkBB (overwrite (m_data b) (m_size b) (replicate (Z.to_nat len) c)) n (m_block b), s))
    | (false, st') => (false, st')
    end
  else (true, (set_size (fst st) n, snd st)).

Definition bb_replace (h : Heap) (pos : Z) (rep : list byte) (st : BState) : bool * BState :=
  let (b, s) := st in
  if m_size b <=? pos then append h rep st
  else if m_size b <=? u64 (pos + zlen rep) then append h rep (set_size b pos, s)
  else if 0 <? zlen rep
       then (true, (mkBB (overwrite (m_data b) pos rep) (m_size b) (m_block b), s))
       else (true, st).

(** [erase(pos, n, hold)]; [None] is the failed [assert (pos <= size())]. *)
Definition erase (pos n : Z) (hold : bool) (st : BState) : option BState :=
  let (b, s) := st in
  if m_size b <? pos then None
  else
    let m := m_size b - pos in
    let b' := if m <=? n then set_size b pos
              else mkBB (overwrite (m_data b) pos (ztake (m - n) (zdrop (pos + n) (m_data b))))
                        (m_size b - n) (m_block b) in
    Some (if bb_empty b' && negb hold then bb_free (b', s) else (b', s)).

(** ** Representation invariant and abstract value *)

(** The bytes in use. *)
Definition content (b : BlockBuffer) : list byte := ztake (m_size b) (m_data b).

Record bb_wf (b : BlockBuffer) : Prop := {
  wf_mem : zlen (m_data b) = capacity b;
  wf_block : 0 <= m_block b <= max_blocks;
  wf_size : 0 <= m_size b <= capacity b;
}.

Lemma capacity_le_max b : bb_wf b → capacity b <= maxsize.
Proof.
  intros []. unfold capacity, maxsize. pose proof requested_size_pos. nia.
Qed.

Lemma new_BlockBuffer_wf : bb_wf new_BlockBuffer.
Proof.
  pose proof max_blocks_nonneg. split; cbn; try done; lia.
Qed.

Lemma length_content b : bb_wf b → zlen (content b) = m_size b.
Proof. intros []. apply zlen_ztake. lia. Qed.

Lemma zlen_overwrite mem off src :
  0 <= off → off + zlen src <= zlen mem → zlen (overwrite mem off src) = zlen mem.
Proof.
  intros. pose proof (zlen_nonneg src). unfold overwrite.
  rewrite !zlen_app, zlen_ztake, zlen_zdrop by lia. lia.
Qed.

Lemma ztake_overwrite_end mem off src n :
  0 <= off → off + zlen src <= zlen mem → n = off + zlen src →
  ztake n (overwrite mem off src) = ztake off mem ++ src.
Proof.
  intros ? ? ->. pose proof (zlen_nonneg src). unfold overwrite. rewrite app_assoc.
  apply ztake_app_length. rewrite zlen_app, zlen_ztake; lia.
Qed.

Lemma ztake_overwrite_inside mem off src n :
  0 <= off → off + zlen src <= n → n <= zlen mem →
  ztake n (overwrite mem off src) =
    ztake off (ztake n mem) ++ src ++ zdrop (off + zlen src) (ztake n mem).
Proof.
  intros. pose proof (zlen_nonneg src). unfold overwrite.
  rewrite ztake_app_ge by (rewrite zlen_ztake; lia).
  rewrite zlen_ztake by lia. rewrite ztake_app_ge by lia.
  rewrite ztake_ztake, Z.min_l by lia. rewrite zdrop_ztake by lia.
  do 3 f_equal. lia.
Qed.

Lemma ordered_malloc_length h n mem :
  0 <= n → ordered_malloc h n = Some mem → zlen mem = n * requested_size.
Proof.
  pose proof requested_size_pos. unfold ordered_malloc, zlen.
  destruct (heap_has _ _); [|done]. intros ? [= <-].
  rewrite length_fmap, length_seq. lia.
Qed.

(** The number of blocks asked for is the least that makes room. *)
Lemma newblocks_spec b n :
  bb_wf b → freespace b < n →
  m_block b < newblocks b n ∧
  m_size b + n <= newblocks b n * requested_size < m_size b + n + requested_size.
Proof.
  intros [] Hn. pose proof requested_size_pos. unfold newblocks, freespace, capacity in *.
  set (need := n - (m_block b * requested_size - m_size b)) in *.
  pose proof (Z_div_mod_eq_full need requested_size).
  pose proof (Z.mod_pos_bound need requested_size requested_size_pos).
  destruct (Z.ltb_spec 0 (need mod requested_size)); nia.
Qed.

(** What a successful or failed [increase_capacity] leaves behind. *)
Lemma increase_capacity_spec h n b s ok b' s' :
  bb_wf b → 0 <= n → increase_capacity h n (b, s) = (ok, (b', s')) →
  if ok then bb_wf b' ∧ m_size b' = m_size b ∧ content b' = content b ∧ n <= freespace b'
  else b' = b ∧ s' = s ∧ freespace b < n ∧
       (max_blocks < newblocks b n ∨ ordered_malloc h (newblocks b n) = None).
Proof.
  intros Hwf Hn. unfold increase_capacity.
  pose proof Hwf as [Hmem Hblk Hsz].
  destruct (Z.eqb_spec n 0) as [->|Hn0]; [intros [= <- <- <-]; unfold freespace; auto with lia|].
  destruct (Z.leb_spec n (freespace b)); [intros [= <- <- <-]; auto|].
  destruct (newblocks_spec b n Hwf ltac:(lia)) as [Hlt [Hge _]].
  destruct (Z.ltb_spec max_blocks (newblocks b n)); [intros [= <- <- <-]; auto|].
  destruct (ordered_malloc h (newblocks b n)) as [mem|] eqn:Em; [|intros [= <- <- <-]; auto].
  apply ordered_malloc_length in Em; [|lia].
  intros [= <- <- <-].
  set (mem' := if 0 <? m_block b then _ else _).
  assert (zlen (ztake (m_size b) (m_data b)) = m_size b) as Hc by (apply zlen_ztake; lia).
  assert (zlen mem' = newblocks b n * requested_size ∧ ztake (m_size b) mem' = content b) as [Hm Hct].
  { unfold mem', content. destruct (Z.ltb_spec 0 (m_block b)).
    - rewrite zlen_overwrite by lia. split; [done|].
      rewrite ztake_overwrite_end by lia. done.
    - unfold capacity in *. assert (m_block b = 0) as Hz by lia.
      rewrite Hz in Hsz. assert (m_size b = 0) as -> by lia. by split. }
  split_and!; [split|..]; unfold capacity, freespace, content; cbn; try done; unfold capacity; cbn; lia.
Qed.


(** Room within [maxsize] is always found when memory is available. *)
Lemma increase_capacity_ok h n b s :
  bb_wf b → 0 <= n → (∀ k, heap_has h k = true) → m_size b + n <= maxsize →
  fst (increase_capacity h n (b, s)) = true.
Proof.
  intros Hwf Hn Hh Hmax. destruct (increase_capacity h n (b, s)) as [[] [b' s']] eqn:E; [done|].
  destruct (increase_capacity_spec _ _ _ _ _ _ _ Hwf Hn E) as (_ & _ & Hf & [Hb|Hm]).
  - destruct (newblocks_spec b _ Hwf Hf) as (_ & _ & Hlt). unfold maxsize in Hmax.
    pose proof requested_size_pos. assert (max_blocks + 1 <= newblocks b n) by lia. nia.
  - unfold ordered_malloc in Hm. by rewrite Hh in Hm.
Qed.

Lemma append_spec h app b s ok b' s' :
  bb_wf b → append h app (b, s) = (ok, (b', s')) →
  if ok then bb_wf b' ∧ content b' = content b ++ app
  else b' = b ∧ s' = s ∧ app ≠ [] ∧ freespace b < zlen app ∧
       (max_blocks < newblocks b (zlen app) ∨ ordered_malloc h (newblocks b (zlen app)) = None).
Proof.
  intros Hwf. unfold append.
  destruct (Z.eqb_spec (zlen app) 0) as [H0|H0].
  { apply zlen_zero in H0 as ->. intros [= <- <- <-]. by rewrite app_nil_r. }
  destruct (increase_capacity h (zlen app) (b, s)) as [ok1 [b1 s1]] eqn:Ei.
  pose proof (increase_capacity_spec _ _ _ _ _ _ _ Hwf (zlen_nonneg app) Ei) as Hi.
  destruct ok1; intros [= <- <- <-].
  - destruct Hi as (Hwf1 & Hsz & Hct & Hfree). destruct Hwf1 as [Hm1 Hb1 Hs1].
    unfold freespace, capacity in *. pose proof (zlen_nonneg app).
    split; [split; cbn; unfold capacity; cbn|].
    + rewrite zlen_overwrite; lia.
    + done.
    + lia.
    + rewrite <- Hct. unfold content; cbn. by rewrite ztake_overwrite_end by lia.
  - destruct Hi as (-> & -> & Hf & Hr). split_and!; try done. by intros ->.
Qed.

(** An [append] within [maxsize] succeeds when memory is available, one beyond it never does. *)
Lemma append_ok h app b s :
  bb_wf b → (∀ n, heap_has h n = true) → m_size b + zlen app <= maxsize →
  fst (append h app (b, s)) = true.
Proof.
  intros Hwf Hh Hmax. unfold append. destruct (zlen app =? 0); [done|].
  pose proof (increase_capacity_ok h (zlen app) b s Hwf (zlen_nonneg app) Hh Hmax) as Hok.
  by destruct (increase_capacity h (zlen app) (b, s)) as [[] [b' s']].
Qed.

Lemma append_too_big h app b s :
  bb_wf b → maxsize < m_size b + zlen app → append h app (b, s) = (false, (b, s)).
Proof.
  intros Hwf Hmax. destruct (append h app (b, s)) as [[] [b' s']] eqn:E.
  - destruct (append_spec _ _ _ _ _ _ _ Hwf E) as [Hwf' Hc].
    apply (f_equal zlen) in Hc. rewrite zlen_app, !length_content in Hc by done.
    pose proof (capacity_le_max b' Hwf'). destruct Hwf'. lia.
  - by destruct (append_spec _ _ _ _ _ _ _ Hwf E) as (-> & -> & _).
Qed.

Lemma resize_spec h n c b s ok b' s' :
  bb_wf b → 0 <= n → resize h n c (b, s) = (ok, (b', s')) →
  if ok then bb_wf b' ∧
    content b' = ztake n (content b) ++ replicate (Z.to_nat (n - m_size b)) c
  else b' = b ∧ s' = s ∧ m_size b < n.
Proof.
  intros Hwf Hn. unfold resize; cbn [fst snd].
  destruct (Z.ltb_spec (m_size b) n) as [Hlt|Hge].
  - destruct (increase_capacity h (n - m_size b) (b, s)) as [ok1 [b1 s1]] eqn:Ei.
    apply increase_capacity_spec in Ei; [|done|lia].
    destruct ok1; intros [= <- <- <-].
    + destruct Ei as (Hwf1 & Hsz & Hct & Hfree). destruct Hwf1 as [Hm1 Hb1 Hs1].
      unfold freespace, capacity in *.
      assert (zlen (replicate (Z.to_nat (n - m_size b)) c) = n - m_size b) as Hr.
      { unfold zlen. rewrite length_replicate. lia. }
      split; [split; cbn; unfold capacity; cbn; rewrite ?zlen_overwrite; lia|].
      rewrite (ztake_all n) by (rewrite length_content; [lia|done]).
      rewrite <- Hct. unfold content; cbn. by rewrite ztake_overwrite_end by lia.
    + destruct Ei as (-> & -> & _). auto.
  - intros [= <- <- <-]. destruct Hwf as [Hm Hb Hs]. split; [split; cbn; try done; unfold set_size, capacity in *; cbn; lia|].
    rewrite Z2Nat.nonpos, app_nil_r by lia. unfold content; cbn.
    by rewrite ztake_ztake, Z.min_l by lia.
Qed.

Lemma resize_ok h n c b s :
  bb_wf b → (∀ k, heap_has h k = true) → n <= maxsize → fst (resize h n c (b, s)) = true.
Proof.
  intros Hwf Hh Hmax. unfold resize; cbn [fst]. destruct (Z.ltb_spec (m_size b) n); [|done].
  pose proof (increase_capacity_ok h (n - m_size b) b s Hwf ltac:(lia) Hh ltac:(lia)) as Hok.
  by destruct (increase_capacity h (n - m_size b) (b, s)) as [[] [b' s']].
Qed.

(** [reserve(n)] asks [increase_capacity] for [n - capacity()] {i free} bytes, so a
    [true] only promises that much free space, not a capacity of [n]. *)
Lemma reserve_spec h n b s ok b' s' :
  bb_wf b → 0 <= n → reserve h n (b, s) = (ok, (b', s')) →
  if ok then bb_wf b' ∧ content b' = content b ∧ n - capacity b <= freespace b'
  else b' = b ∧ s' = s ∧ capacity b < n.
Proof.
  intros Hwf Hn. unfold reserve; cbn [fst].
  destruct (Z.leb_spec n (capacity b)).
  - intros [= <- <- <-]. pose proof Hwf as []. unfold freespace. auto with lia.
  - intros Ei. apply increase_capacity_spec in Ei; [|done|lia].
    destruct ok; [by destruct Ei as (? & ? & ? & ?)|by destruct Ei as (-> & -> & _)].
Qed.

Lemma set_size_wf b n : bb_wf b → 0 <= n <= m_size b → bb_wf (set_size b n).
Proof. intros [] ?. split; cbn; unfold set_size, capacity in *; cbn; lia. Qed.

Lemma set_size_content b n : 0 <= n <= m_size b → content (set_size b n) = ztake n (content b).
Proof. intros. unfold content; cbn. by rewrite ztake_ztake, Z.min_l by lia. Qed.

(** The list operation [replace] performs. *)
Definition replace_list (l : list byte) (pos : Z) (rep : list byte) : list byte :=
  if zlen l <=? pos then l ++ rep
  else ztake pos l ++ rep ++ zdrop (pos + zlen rep) l.

Lemma bb_replace_spec h pos rep b s ok b' s' :
  bb_wf b → 0 <= pos → pos + zlen rep < 2 ^ 64 →
  bb_replace h pos rep (b, s) = (ok, (b', s')) →
  if ok then bb_wf b' ∧ content b' = replace_list (content b) pos rep
  else s' = s ∧ m_size b < pos + zlen rep ∧ b' = if m_size b <=? pos then b else set_size b pos.
Proof.
  intros Hwf Hpos H64. pose proof (zlen_nonneg rep). unfold bb_replace, replace_list.
  rewrite length_content, uwrap_small by (done || (unfold in_u; lia)).
  destruct (Z.leb_spec (m_size b) pos) as [Hp|Hp].
  { intros E. apply append_spec in E; [|done]. destruct ok; [done|].
    destruct E as (-> & -> & Hne%zlen_pos & _). split_and!; [done|lia|done]. }
  destruct (Z.leb_spec (m_size b) (pos + zlen rep)) as [Hq|Hq].
  - intros E. apply append_spec in E; [|by apply set_size_wf; [|lia]].
    rewrite set_size_content in E by lia.
    destruct ok.
    + destruct E as [? ->]. split; [done|]. rewrite (zdrop_all (pos + zlen rep)), app_nil_r; [done|].
      rewrite length_content; [lia|done].
    + destruct E as (-> & -> & _ & Hf & _). split_and!; [done| |done].
      pose proof Hwf as []. unfold freespace, capacity in *. cbn in Hf. lia.
  - pose proof Hwf as [Hm Hb Hs].
    destruct (Z.ltb_spec 0 (zlen rep)); intros [= <- <- <-].
    + split; [split; cbn; unfold capacity in *; cbn; rewrite ?zlen_overwrite; lia|].
      unfold content; cbn. by rewrite ztake_overwrite_inside by lia.
    + assert (zlen rep = 0) as Hz by lia. apply zlen_zero in Hz as ->.
      split; [done|]. rewrite zlen_nil, Z.add_0_r. cbn. by rewrite ztake_zdrop.
Qed.

Lemma erase_spec pos n hold b s :
  bb_wf b → 0 <= pos → 0 <= n →
  match erase pos n hold (b, s) with
  | None => m_size b < pos
  | Some (b', _) => pos <= m_size b ∧ bb_wf b' ∧
      content b' = ztake pos (content b) ++ zdrop (pos + n) (content b)
  end.
Proof.
  intros Hwf Hpos Hn. pose proof Hwf as [Hm Hb Hs]. unfold erase.
  destruct (Z.ltb_spec (m_size b) pos) as [|Hp]; [done|].
  set (b1 := if _ <=? _ then _ else _).
  assert (bb_wf b1 ∧ content b1 = ztake pos (content b) ++ zdrop (pos + n) (content b)) as [Hwf1 Hc1].
  { unfold b1. destruct (Z.leb_spec (m_size b - pos) n).
    - split; [apply set_size_wf; [done|lia]|]. rewrite set_size_content by lia.
      rewrite (zdrop_all (pos + n)), app_nil_r; [done|]. rewrite length_content; [lia|done].
    - set (src := ztake _ _).
      assert (zlen src = m_size b - pos - n) as Hsrc.
      { unfold src. rewrite zlen_ztake; [lia|]. rewrite zlen_zdrop; lia. }
      split; [split; cbn; unfold capacity in *; cbn; rewrite ?zlen_overwrite; lia|].
      unfold content; cbn. rewrite ztake_overwrite_end by lia.
      rewrite ztake_ztake, Z.min_l by lia. f_equal.
      rewrite zdrop_ztake by lia. unfold src. f_equal. lia. }
  destruct (bb_empty b1 && negb hold) eqn:Eh; [|done].
  apply andb_prop in Eh as [He _]. unfold bb_empty in He. apply Z.eqb_eq in He.
  unfold bb_free. destruct (Z.ltb_spec 0 (m_block b1)); [|done].
  split_and!; [done| |].
  - split; cbn; unfold capacity in *; cbn; rewrite ?zlen_nil; pose proof max_blocks_nonneg; lia.
  - rewrite <- Hc1. unfold content; cbn. by rewrite He.
Qed.

(** ** The static counters *)

(** [s_current_total_blocks] moves with the blocks a buffer holds, and the peak bounds it. *)
Definition stats_step (b : BlockBuffer) (s : BlockStats) (b' : BlockBuffer) (s' : BlockStats) : Prop :=
  s_current_total_blocks s' = s_current_total_blocks s + (m_block b' - m_block b) ∧
  s_peak_total_blocks s <= s_peak_total_blocks s' ∧
  (s_current_total_blocks s <= s_peak_total_blocks s →
   s_current_total_blocks s' <= s_peak_total_blocks s').

Lemma increase_capacity_stats h n b s ok b' s' :
  0 <= m_block b → increase_capacity h n (b, s) = (ok, (b', s')) → stats_step b s b' s'.
Proof.
  intros Hb. unfold increase_capacity, stats_step.
  destruct (n =? 0); [intros [= <- <- <-]; lia|].
  destruct (n <=? freespace b); [intros [= <- <- <-]; lia|].
  destruct (max_blocks <? _); [intros [= <- <- <-]; lia|].
  destruct (ordered_malloc _ _); [|intros [= <- <- <-]; lia].
  intros [= <- <- <-]. cbn. destruct (Z.ltb_spec (s_peak_total_blocks s)
    (s_current_total_blocks s + (newblocks b n - m_block b))); lia.
Qed.

Lemma append_stats h app b s ok b' s' :
  0 <= m_block b → append h app (b, s) = (ok, (b', s')) → stats_step b s b' s'.
Proof.
  intros Hb. unfold append. destruct (zlen app =? 0).
  { intros [= <- <- <-]. unfold stats_step. lia. }
  destruct (increase_capacity h (zlen app) (b, s)) as [[] [b1 s1]] eqn:Ei;
    intros [= <- <- <-]; by apply increase_capacity_stats in Ei.
Qed.

Lemma erase_stats pos n hold b s b' s' :
  0 <= m_block b → erase pos n hold (b, s) = Some (b', s') → stats_step b s b' s'.
Proof.
  intros Hb. unfold erase. destruct (_ <? pos); [done|].
  set (b1 := if _ <=? _ then _ else _).
  assert (m_block b1 = m_block b) as E by (unfold b1; by case_match).
  unfold bb_free, stats_step.
  destruct (bb_empty b1 && negb hold); [destruct (Z.ltb_spec 0 (m_block b1))|];
    intros [= <- <-]; cbn; lia.
Qed.

Lemma resize_stats h n c b s ok b' s' :
  0 <= m_block b → resize h n c (b, s) = (ok, (b', s')) → stats_step b s b' s'.
Proof.
  intros Hb. unfold resize; cbn [fst snd]. destruct (m_size b <? n).
  - destruct (increase_capacity h (n - m_size b) (b, s)) as [[] [b1 s1]] eqn:Ei;
      intros [= <- <- <-]; by apply increase_capacity_stats in Ei.
  - intros [= <- <- <-]. unfold stats_step. cbn. lia.
Qed.

Lemma reserve_stats h n b s ok b' s' :
  0 <= m_block b → reserve h n (b, s) = (ok, (b', s')) → stats_step b s b' s'.
Proof.
  intros Hb. unfold reserve; cbn [fst]. destruct (n <=? capacity b).
  - intros [= <- <- <-]. unfold stats_step. lia.
  - by apply increase_capacity_stats.
Qed.

Lemma bb_replace_stats h pos rep b s ok b' s' :
  0 <= m_block b → bb_replace h pos rep (b, s) = (ok, (b', s')) → stats_step b s b' s'.
Proof.
  intros Hb. unfold bb_replace. destruct (m_size b <=? pos); [by apply append_stats|].
  destruct (m_size b <=? _); [intros E; by apply append_stats in E|].
  destruct (0 <? zlen rep); intros [= <- <- <-]; unfold stats_step; cbn; lia.
Qed.

(** The destructor returns the blocks the buffer holds. *)
Lemma bb_destroy_stats b s :
  0 <= m_block b → s_current_total_blocks (bb_destroy (b, s)) = s_current_total_blocks s - m_block b.
Proof. intros Hb. unfold bb_destroy, bb_free. destruct (Z.ltb_spec 0 (m_block b)); cbn; lia. Qed.

End block_buffer.
