(* ===== verification/Buffers.v ===== *)
(** * Buffers.v: a block buffer as a bounded list, and [ForwardBuffer]

    What a whole sequence of calls on a [BlockBuffer] of BlockBuffer.v does: it behaves
    as a list of at most [maxsize] bytes ([buffer_refines_list]) and returns every block
    it took ([blocks_returned]).  Then the template [ForwardBuffer] of the same header, which
    defers the erasing of a prefix to its destructor. *)

From S2P Require Import Prelude BlockBuffer.
From Stdlib Require Import Lia.

(** ** The calls on a buffer, and the list they are promised to act on *)

Inductive bop :=
  | BAppend (app : list byte)
  | BResize (n : Z) (c : byte)
  | BReserve (n : Z)
  | BReplace (pos : Z) (rep : list byte)
  | BErase (pos n : Z) (hold : bool).

(** The arguments are [size_t]s, and a source does not wrap around the address space. *)
Definition bop_args (op : bop) : Prop :=
  match op with
  | BAppend _ => True
  | BResize n _ | BReserve n => 0 <= n
  | BReplace pos rep => 0 <= pos ∧ pos + zlen rep < 2 ^ 64
  | BErase pos n _ => 0 <= pos ∧ 0 <= n
  end.

#[global] Instance bop_args_dec op : Decision (bop_args op).
Proof. destruct op; apply _. Defined.

Fixpoint run_ops {O S A} (f : O → M S A) (ops : list O) : M S (list A) :=
  match ops with
  | [] => mret []
  | op :: ops => r ← f op; rs ← run_ops f ops; mret (r :: rs)
  end.

(** The promise to the users of a buffer: a list, and the number of blocks it is granted. *)
Abbreviation granted := (list byte * Z)%type.

Section buffer.
  Context `{BP : BlockParams}.

(** A call, and what [malloc] answers while it runs: each call asks at most once, so
    its answers may change from call to call. *)
Definition bb_call (call : Heap * bop) : M BState bool := λ st,
  let h := call.1 in
  match call.2 with
  | BAppend app => let (ok, st') := append h app st in (Ok ok, st')
  | BResize n c => let (ok, st') := resize h n c st in (Ok ok, st')
  | BReserve n => let (ok, st') := reserve h n st in (Ok ok, st')
  | BReplace pos rep => let (ok, st') := bb_replace h pos rep st in (Ok ok, st')
  | BErase pos n hold =>
      match erase pos n hold st with Some st' => (Ok true, st') | None => (Throw AssertFail, st) end
  end.

(** *** The promise *)

(** The fewest blocks that hold [n] bytes. *)
Definition blocks_for (n : Z) : Z := (n + requested_size - 1) / requested_size.

(** Room for [n] more bytes: there already, or in a larger grant, which stays within
    [maxsize] and which the heap must have. *)
Definition grant (has : Z → bool) (n : Z) (v : granted) : bool * Z :=
  let (l, k) := v in
  if zlen l + n <=? k * requested_size then (true, k)
  else
    let k' := blocks_for (zlen l + n) in
    if (zlen l + n <=? maxsize) && has (requested_size * k') then (true, k') else (false, k).

Definition spec_append (has : Z → bool) (app : list byte) (v : granted) : bool * granted :=
  let (ok, k) := grant has (zlen app) v in (ok, (if ok then v.1 ++ app else v.1, k)).

Definition spec_call (call : Heap * bop) : M granted bool := λ v,
  let has := heap_has call.1 in
  let (l, k) := v in
  match call.2 with
  | BAppend app => let (ok, v') := spec_append has app v in (Ok ok, v')
  | BResize n c =>
      if n <=? zlen l then (Ok true, (ztake n l, k))
      else let (ok, v') := spec_append has (replicate (Z.to_nat (n - zlen l)) c) v in (Ok ok, v')
  | BReserve n =>
      (* [n - capacity] {i free} bytes are asked for: the free space counts twice *)
      let (ok, k') := grant has (Z.max 0 (n - k * requested_size)) v in (Ok ok, (l, k'))
  | BReplace pos rep =>
      if pos + zlen rep <? zlen l then (Ok true, (replace_list l pos rep, k))
      else let (ok, v') := spec_append has rep (ztake pos l, k) in (Ok ok, v')
  | BErase pos n hold =>
      if zlen l <? pos then (Throw AssertFail, v)
      else let l' := ztake pos l ++ zdrop (pos + n) l in
           (Ok true, (l', if bool_decide (l' = []) && negb hold then 0 else k))
  end.

(** What a buffer is worth to its users. *)
Definition abs (b : BlockBuffer) : granted := (content b, m_block b).

(** *** The methods keep the promise *)

Lemma blocks_for_unique n k :
  n <= k * requested_size < n + requested_size → blocks_for n = k.
Proof.
  intros Hk. pose proof requested_size_pos. symmetry. unfold blocks_for.
  apply Z.div_unique_pos with (r := n + requested_size - 1 - requested_size * k); lia.
Qed.

Lemma increase_capacity_grant h n b s :
  bb_wf b → 0 <= n →
  grant (heap_has h) n (abs b) =
    ((increase_capacity h n (b, s)).1, m_block (fst (increase_capacity h n (b, s)).2)).
Proof.
  intros Hwf Hn. pose proof requested_size_pos. unfold grant, abs. rewrite length_content by done.
  unfold increase_capacity. pose proof Hwf as [_ _ Hsz]. unfold capacity in Hsz.
  destruct (Z.eqb_spec n 0) as [->|Hn0].
  { destruct (Z.leb_spec (m_size b + 0) (m_block b * requested_size)); [done|lia]. }
  change (freespace b) with (m_block b * requested_size - m_size b).
  destruct (Z.leb_spec n (m_block b * requested_size - m_size b)) as [Hf|Hf];
    destruct (Z.leb_spec (m_size b + n) (m_block b * requested_size)); try lia; [done|].
  destruct (newblocks_spec b n Hwf) as [_ [Hge Hlt]]; [unfold freespace, capacity; lia|].
  rewrite (blocks_for_unique _ (newblocks b n)) by lia. unfold maxsize, ordered_malloc.
  destruct (Z.ltb_spec max_blocks (newblocks b n)), (Z.leb_spec (m_size b + n) (max_blocks * requested_size));
    try nia; [done|]. cbn [andb]. by destruct (heap_has h _).
Qed.

Lemma append_abs h app b s :
  bb_wf b → spec_append (heap_has h) app (abs b) = ((append h app (b, s)).1, abs (fst (append h app (b, s)).2)).
Proof.
  intros Hwf. unfold spec_append. rewrite (increase_capacity_grant h _ b s Hwf (zlen_nonneg app)).
  destruct (append h app (b, s)) as [ok [b' s']] eqn:E. pose proof E as Ea. revert E.
  unfold append. destruct (Z.eqb_spec (zlen app) 0) as [H0|H0].
  { intros [= <- <- <-]. apply zlen_zero in H0 as ->. unfold abs. cbn. by rewrite app_nil_r. }
  apply append_spec in Ea; [|done].
  destruct (increase_capacity h (zlen app) (b, s)) as [[] [b1 s1]]; intros [= <- <- <-]; cbn [fst snd].
  - destruct Ea as [_ Hc]. unfold abs. by rewrite Hc.
  - by destruct Ea as (-> & _).
Qed.

Lemma resize_abs h n c b s :
  bb_wf b → 0 <= n → spec_call (h, BResize n c) (abs b) =
    (Ok (resize h n c (b, s)).1, abs (fst (resize h n c (b, s)).2)).
Proof.
  intros Hwf Hn. unfold spec_call, abs; cbn [fst snd]. rewrite length_content by done.
  unfold resize; cbn [fst snd].
  destruct (Z.leb_spec n (m_size b)), (Z.ltb_spec (m_size b) n); try lia.
  { unfold abs. cbn [fst snd]. destruct Hwf. rewrite set_size_content by lia. done. }
  set (cs := replicate (Z.to_nat (n - m_size b)) c).
  assert (Hcs : zlen cs = n - m_size b) by (unfold zlen, cs; rewrite length_replicate; lia).
  pose proof (append_abs h cs b s Hwf) as Ha. unfold abs in Ha. rewrite Ha. unfold append. rewrite Hcs.
  destruct (Z.eqb_spec (n - m_size b) 0); [lia|].
  pose proof (increase_capacity_spec h (n - m_size b) b s) as Hi.
  destruct (increase_capacity h (n - m_size b) (b, s)) as [[] [b1 s1]]; [|done].
  destruct (Hi _ _ _ Hwf ltac:(lia) eq_refl) as (_ & Hs1 & _). cbn [fst snd].
  rewrite Hs1. unfold cs. by replace (m_size b + (n - m_size b)) with n by lia.
Qed.

Lemma reserve_abs h n b s :
  bb_wf b → 0 <= n → spec_call (h, BReserve n) (abs b) =
    (Ok (reserve h n (b, s)).1, abs (fst (reserve h n (b, s)).2)).
Proof.
  intros Hwf Hn. unfold spec_call, abs; cbn [fst snd].
  change (content b, m_block b) with (abs b). unfold reserve; cbn [fst].
  unfold capacity. destruct (Z.leb_spec n (m_block b * requested_size)).
  - rewrite Z.max_l by lia. rewrite (increase_capacity_grant h 0 b s) by (done || lia).
    done.
  - rewrite Z.max_r by lia. rewrite (increase_capacity_grant h _ b s) by (done || lia).
    destruct (increase_capacity _ _ _) as [ok [b' s']] eqn:E. cbn [fst snd]. unfold abs.
    apply increase_capacity_spec in E; [|done|lia]. destruct ok; [by destruct E as (_ & _ & -> & _)|].
    by destruct E as (-> & _).
Qed.

Lemma replace_abs h pos rep b s :
  bb_wf b → bop_args (BReplace pos rep) → spec_call (h, BReplace pos rep) (abs b) =
    (Ok (bb_replace h pos rep (b, s)).1, abs (fst (bb_replace h pos rep (b, s)).2)).
Proof.
  intros Hwf [Hpos H64]. pose proof (zlen_nonneg rep). unfold spec_call, abs; cbn [fst snd].
  rewrite length_content by done. unfold bb_replace. rewrite uwrap_small by (unfold in_u; lia).
  destruct (Z.leb_spec (m_size b) pos); [|destruct (Z.leb_spec (m_size b) (pos + zlen rep))].
  - destruct (Z.ltb_spec (pos + zlen rep) (m_size b)); [lia|].
    rewrite ztake_all by (rewrite length_content; done || lia).
    change (content b, m_block b) with (abs b). by rewrite (append_abs h rep b s Hwf).
  - destruct (Z.ltb_spec (pos + zlen rep) (m_size b)); [lia|].
    rewrite <- set_size_content by lia. change (m_block b) with (m_block (set_size b pos)).
    change (content ?x, m_block ?x) with (abs x).
    rewrite (append_abs h rep (set_size b pos) s); [done|]. by apply set_size_wf; [|lia].
  - destruct (Z.ltb_spec (pos + zlen rep) (m_size b)); [|lia].
    destruct (bb_replace h pos rep (b, s)) as [ok [b' s']] eqn:E. pose proof E as Es.
    apply bb_replace_spec in Es; [|done..]. revert E. unfold bb_replace.
    rewrite uwrap_small by (unfold in_u; lia).
    destruct (Z.leb_spec (m_size b) pos); [lia|].
    destruct (Z.leb_spec (m_size b) (pos + zlen rep)); [lia|].
    destruct (0 <? zlen rep); intros [= <- <- <-]; destruct Es as [_ <-]; done.
Qed.

Lemma erase_abs h pos n hold b s :
  bb_wf b → 0 <= pos → 0 <= n → spec_call (h, BErase pos n hold) (abs b) =
    match erase pos n hold (b, s) with
    | Some (b', _) => (Ok true, abs b')
    | None => (Throw AssertFail, abs b)
    end.
Proof.
  intros Hwf Hp Hn. unfold spec_call, abs; cbn [fst snd]. rewrite length_content by done.
  pose proof (erase_spec pos n hold b s Hwf Hp Hn) as He. unfold erase in *.
  destruct (Z.ltb_spec (m_size b) pos) as [|_]; [done|].
  set (b1 := if _ <=? _ then _ else _) in *.
  assert (Hb1 : m_block b1 = m_block b) by (unfold b1; by destruct (_ <=? _)).
  clearbody b1. set (l := ztake pos _ ++ _) in *. destruct (bb_empty b1 && negb hold) eqn:Ef.
  - apply andb_prop in Ef as [Hz%Z.eqb_eq ->]. rewrite andb_true_r. unfold bb_free in *. rewrite Hb1 in *.
    destruct Hwf as [_ Hblk _].
    destruct (Z.ltb_spec 0 (m_block b)); destruct He as (_ & _ & Hc); unfold content in *; cbn [m_size m_data] in *;
      rewrite Hz in Hc; rewrite <- Hc, Hz; [done|]. rewrite bool_decide_true by done. by replace (m_block b1) with 0 by lia.
  - destruct He as (_ & Hwf1 & Hc). rewrite Hc, Hb1.
    assert (bool_decide (l = []) = bb_empty b1) as ->; [|by rewrite Ef].
    rewrite <- Hc. unfold bb_empty. rewrite <- length_content by done. case_bool_decide as Hl.
    + by rewrite Hl.
    + symmetry. apply Z.eqb_neq. by intros ?%zlen_zero.
Qed.

(** A call keeps the representation whatever the heap answers. *)
Lemma call_wf h op b s :
  bb_wf b → bop_args op → bb_wf (fst (bb_call (h, op) (b, s)).2).
Proof.
  intros Hwf Hop. unfold bb_call; cbn [fst snd]. destruct op as [app|n c|n|pos rep|pos n hold].
  - destruct (append h app (b, s)) as [[] [b1 s1]] eqn:E; apply append_spec in E; try done; [by destruct E|].
    by destruct E as (-> & _).
  - destruct (resize h n c (b, s)) as [[] [b1 s1]] eqn:E; apply resize_spec in E; try done; [by destruct E|].
    by destruct E as (-> & _).
  - destruct (reserve h n (b, s)) as [[] [b1 s1]] eqn:E; apply reserve_spec in E; try done; [by destruct E|].
    by destruct E as (-> & _).
  - destruct Hop as [Hp H64]. destruct (bb_replace h pos rep (b, s)) as [[] [b1 s1]] eqn:E;
      apply bb_replace_spec in E; try done; [by destruct E|]. destruct E as (_ & _ & ->).
    destruct (Z.leb_spec (m_size b) pos); [done|]. apply set_size_wf; [done|]. cbn. lia.
  - destruct Hop as [Hp Hn]. pose proof (erase_spec pos n hold b s Hwf Hp Hn) as He.
    destruct (erase pos n hold (b, s)) as [[b1 s1]|]; [by destruct He as (_ & ? & _)|done].
Qed.

(** One call: the result of the promise, whose state is what the buffer is worth. *)
Definition keeps {A} (r : res A * BState) (o : res A * granted) : Prop :=
  bb_wf (fst r.2) ∧ o = (r.1, abs (fst r.2)).

Lemma call_keeps h op b s :
  bb_wf b → bop_args op → keeps (bb_call (h, op) (b, s)) (spec_call (h, op) (abs b)).
Proof.
  intros Hwf Hop. split; [by apply call_wf|].
  destruct op as [app|n c|n|pos rep|pos n hold].
  - unfold spec_call. cbn [snd fst]. rewrite (append_abs h app b s Hwf).
    unfold bb_call; cbn [fst snd]. by destruct (append h app (b, s)).
  - rewrite (resize_abs h n c b s Hwf Hop). unfold bb_call; cbn [fst snd]. by destruct (resize h n c (b, s)).
  - rewrite (reserve_abs h n b s Hwf Hop). unfold bb_call; cbn [fst snd]. by destruct (reserve h n (b, s)).
  - rewrite (replace_abs h pos rep b s Hwf Hop). unfold bb_call; cbn [fst snd]. by destruct (bb_replace h pos rep (b, s)).
  - destruct Hop as [Hp Hn]. rewrite (erase_abs h pos n hold b s Hwf Hp Hn). unfold bb_call; cbn [fst snd].
    by destruct (erase pos n hold (b, s)) as [[b' s']|].
Qed.

(** C12: any sequence of calls on a buffer behaves as the same calls on a list that is granted
    at most [maxsize] bytes in whole blocks, whatever [malloc] answers at each call: the same
    results, [reserve]'s included, the same failed assertion, the bytes in use are the list, and
    the blocks held are those granted. *)
Theorem buffer_refines_list calls b s :
  bb_wf b → Forall (λ c, bop_args c.2) calls →
  keeps (run_ops bb_call calls (b, s)) (run_ops spec_call calls (abs b)).
Proof.
  intros Hwf Hops. revert b s Hwf. induction Hops as [|[h op] calls Hop Hops IH]; intros b s Hwf; [done|].
  cbn [run_ops]. destruct (call_keeps h op b s Hwf Hop) as [Hwf1 E2].
  destruct (bb_call (h, op) (b, s)) as [r [b1 s1]] eqn:E1. cbn [fst snd] in *.
  destruct r as [r|e].
  2: { erewrite (bind_Throw (bb_call (h, op))), (bind_Throw (spec_call (h, op))) by eassumption. by split. }
  erewrite (bind_Ok (bb_call (h, op))), (bind_Ok (spec_call (h, op))) by eassumption.
  destruct (IH b1 s1 Hwf1) as [Hwf2 E4].
  destruct (run_ops bb_call calls (b1, s1)) as [r2 [b2 s2]] eqn:E3. cbn [fst snd] in *. destruct r2 as [r2|e].
  - by erewrite (bind_Ok (run_ops bb_call calls)), (bind_Ok (run_ops spec_call calls)) by eassumption.
  - by erewrite (bind_Throw (run_ops bb_call calls)), (bind_Throw (run_ops spec_call calls)) by eassumption.
Qed.

(** ** The blocks *)

Lemma stats_step_trans b s b1 s1 b2 s2 :
  stats_step b s b1 s1 → stats_step b1 s1 b2 s2 → stats_step b s b2 s2.
Proof. unfold stats_step. lia. Qed.

Lemma call_stats h op b s r b' s' :
  0 <= m_block b → bb_call (h, op) (b, s) = (r, (b', s')) → stats_step b s b' s'.
Proof.
  intros Hb. unfold bb_call; cbn [fst snd]. destruct op as [app|n c|n|pos rep|pos n hold].
  - destruct (append h app (b, s)) as [ok [b1 s1]] eqn:E. intros [= <- <- <-]. by eapply append_stats.
  - destruct (resize h n c (b, s)) as [ok [b1 s1]] eqn:E. intros [= <- <- <-]. by eapply resize_stats.
  - destruct (reserve h n (b, s)) as [ok [b1 s1]] eqn:E. intros [= <- <- <-]. by eapply reserve_stats.
  - destruct (bb_replace h pos rep (b, s)) as [ok [b1 s1]] eqn:E. intros [= <- <- <-]. by eapply bb_replace_stats.
  - destruct (erase pos n hold (b, s)) as [[b1 s1]|] eqn:E; intros [= <- <- <-]; [by eapply erase_stats|].
    unfold stats_step. lia.
Qed.

Lemma run_ops_stats calls b s :
  bb_wf b → Forall (λ c, bop_args c.2) calls →
  let st := (run_ops bb_call calls (b, s)).2 in bb_wf (fst st) ∧ stats_step b s (fst st) (snd st).
Proof.
  intros Hwf Hops. revert b s Hwf. induction Hops as [|[h op] calls Hop Hops IH]; intros b s Hwf.
  { split; [done|]. unfold stats_step. cbn. lia. }
  cbn [run_ops]. pose proof (call_wf h op b s Hwf Hop) as Hwf1.
  destruct (bb_call (h, op) (b, s)) as [r [b1 s1]] eqn:E1. cbn [fst snd] in Hwf1.
  assert (Hst : stats_step b s b1 s1) by (eapply call_stats; [apply Hwf|done]).
  destruct r as [r|e]; [|erewrite (bind_Throw (bb_call (h, op))) by eassumption; done].
  erewrite (bind_Ok (bb_call (h, op))) by eassumption. destruct (IH b1 s1 Hwf1) as [Hwf2 Hst2].
  destruct (run_ops bb_call calls (b1, s1)) as [r2 st2] eqn:E2. cbn [fst snd] in *.
  destruct r2 as [r2|e]; [erewrite (bind_Ok (run_ops bb_call calls)) by eassumption
                         |erewrite (bind_Throw (run_ops bb_call calls)) by eassumption];
    (split; [done|by eapply stats_step_trans]).
Qed.

(** C38: whatever is called on a buffer, and whatever [malloc] answers each time, its destructor returns
    every block: the counter of blocks in use is what it was, and the peak bounded it. *)
Theorem blocks_returned calls s :
  Forall (λ c, bop_args c.2) calls → s_current_total_blocks s <= s_peak_total_blocks s →
  let st := (run_ops bb_call calls (new_BlockBuffer, s)).2 in
  s_current_total_blocks (bb_destroy st) = s_current_total_blocks s ∧
  s_current_total_blocks s + m_block (fst st) <= s_peak_total_blocks (snd st).
Proof.
  intros Hops Hs. cbn zeta. destruct (run_ops_stats calls new_BlockBuffer s new_BlockBuffer_wf Hops) as [Hwf Hst].
  destruct (run_ops bb_call calls (new_BlockBuffer, s)) as [r [b' s']]. cbn [fst snd] in *.
  destruct Hst as (Hc & _ & Hp). specialize (Hp Hs). cbn [m_block new_BlockBuffer] in Hc.
  rewrite bb_destroy_stats by apply Hwf. lia.
Qed.

End buffer.

(** Two blocks of four bytes, as an example. *)
Definition two_blocks : BlockParams.
Proof. refine {| requested_size := 4; max_blocks := 2 |}; abstract lia. Defined.
Definition plain_heap : Heap := {| heap_has _ := true; heap_junk _ := x2a |}.

Definition no_heap : Heap := {| heap_has _ := false; heap_junk _ := x2a |}.

(** The append of seven bytes does not fit; the second reservation meets a full heap. *)
Definition demo_calls : list (Heap * bop) :=
  (pair plain_heap <$>
    [BAppend [x01; x02; x03]; BReplace 1 [x04; x05; x06]; BErase 0 2 false;
     BAppend [x07; x08; x09; x0a; x0b; x0c; x0d]; BResize 3 x00; BReserve 9]) ++
  [(no_heap, BResize 1 x00); (no_heap, BErase 0 1 false); (no_heap, BReserve 2); (plain_heap, BErase 4 1 false)].

Lemma buffer_refines_list_witness :
  keeps (BP := two_blocks)
    (run_ops (bb_call (BP := two_blocks)) demo_calls (new_BlockBuffer, mkStats 0 0))
    (run_ops (spec_call (BP := two_blocks)) demo_calls (abs new_BlockBuffer)).
Proof.
  apply (buffer_refines_list (BP := two_blocks) demo_calls new_BlockBuffer (mkStats 0 0)).
  - apply new_BlockBuffer_wf.
  - repeat constructor; vm_compute; congruence.
Defined.

(** The same with the last, failing, assertion left out: two of the calls are refused. *)
Example demo_results :
  (run_ops (spec_call (BP := two_blocks)) (take 9 demo_calls) (abs new_BlockBuffer)) =
    (Ok [true; true; true; false; true; true; true; true; false], ([], 0)).
Proof. by vm_compute. Qed.

Lemma blocks_returned_witness :
  let st := (run_ops (bb_call (BP := two_blocks)) demo_calls (new_BlockBuffer, mkStats 5 9)).2 in
  s_current_total_blocks (bb_destroy st) = 5 ∧
  5 + m_block (fst st) <= s_peak_total_blocks (snd st).
Proof.
  apply (blocks_returned (BP := two_blocks) demo_calls (mkStats 5 9)).
  - repeat constructor; vm_compute; congruence.
  - cbn. lia.
Defined.

(** [reserve] counts the free space twice: it may succeed without the capacity it was asked for. *)
Example reserve_too_little :
  let (ok, st) := reserve (BP := two_blocks) plain_heap 4 (new_BlockBuffer, mkStats 0 0) in
  let (ok', st') := reserve (BP := two_blocks) plain_heap 8 st in
  ok = true ∧ ok' = true ∧ capacity (BP := two_blocks) (fst st') = 4.
Proof. by vm_compute. Qed.

(** ** ForwardBuffer: a view that erases its prefix when it is destroyed *)

(** [m_sb] is the buffer of the state or, once released, [NULL]. *)
Record ForwardBuffer := mkFwd { fw_sb : bool; fw_pos : Z }.
Abbreviation FState := (ForwardBuffer * BState)%type.

Section forward.
  Context `{BP : BlockParams}.

Definition ForwardBuffer_new : ForwardBuffer := mkFwd true 0.

(** [m_sb->...]: a call through a null pointer is undefined. *)
Definition with_sb {A} (f : ForwardBuffer → BState → res A * FState) : M FState A := λ st,
  if fw_sb st.1 then f st.1 st.2 else (Throw Undefined, st).

(** The bytes from [data()] to the end of the buffer. *)
Definition fwd_data : M FState (list byte) :=
  with_sb (λ f bs, (Ok (zdrop (fw_pos f) (content bs.1)), (f, bs))).
Definition fwd_size : M FState Z :=
  with_sb (λ f bs, (Ok (u64 (m_size bs.1 - fw_pos f)), (f, bs))).
Definition fwd_empty : M FState bool :=
  with_sb (λ f bs, (Ok (m_size bs.1 =? fw_pos f), (f, bs))).
Definition fwd_erase (pos n : Z) : M FState unit :=
  with_sb (λ f bs,
    if pos =? 0 then
      let f' := mkFwd true (u64 (fw_pos f + n)) in
      (if m_size bs.1 <? fw_pos f' then Throw AssertFail else Ok tt, (f', bs))
    else
      match erase (u64 (fw_pos f + pos)) n false bs with
      | Some bs' => (Ok tt, (f, bs'))
      | None => (Throw AssertFail, (f, bs))
      end).
Definition fwd_release : M FState unit := modify (λ st, (mkFwd false (fw_pos st.1), st.2)).
(** The destructor. *)
Definition fwd_destroy : M FState unit := λ st,
  if fw_sb st.1 then
    match erase 0 (fw_pos st.1) false st.2 with
    | Some bs' => (Ok tt, (st.1, bs'))
    | None => (Throw AssertFail, st)
    end
  else (Ok tt, st).

Fixpoint fwd_erases (ops : list (Z * Z)) : M FState unit :=
  match ops with
  | [] => mret tt
  | (pos, n) :: ops => fwd_erase pos n ;; fwd_erases ops
  end.

(** The list the erasures leave, one after the other, and what the assertions demand of them. *)
Definition erase_list (l : list byte) (op : Z * Z) : list byte := ztake op.1 l ++ zdrop (op.1 + op.2) l.
Fixpoint erasable (l : list byte) (ops : list (Z * Z)) : Prop :=
  match ops with
  | [] => True
  | (pos, n) :: ops =>
      0 <= pos <= zlen l ∧ 0 <= n ∧ (pos = 0 → n <= zlen l) ∧ erasable (erase_list l (pos, n)) ops
  end.

(** The state of a view of [l] in a buffer: a prefix that is to be erased, then [l]. *)
Record views (st : FState) (l : list byte) : Prop := {
  v_sb : fw_sb st.1 = true;
  v_wf : bb_wf (fst st.2);
  v_pos : 0 <= fw_pos st.1 <= m_size (fst st.2);
  v_data : zdrop (fw_pos st.1) (content (fst st.2)) = l;
}.

Lemma views_size st l : views st l → zlen l = m_size (fst st.2) - fw_pos st.1.
Proof.
  intros [_ Hwf Hp <-]. rewrite zlen_zdrop; [by rewrite length_content|by rewrite length_content].
Qed.

Lemma m_size_small b : bb_wf b → m_size b < 2 ^ 31.
Proof. intros Hwf. pose proof (capacity_le_max b Hwf). pose proof maxsize_bound. destruct Hwf. unfold maxsize in *. lia. Qed.

Lemma fwd_erase_views pos n st l :
  views st l → 0 <= pos <= zlen l → 0 <= n → (pos = 0 → n <= zlen l) →
  ∃ st', fwd_erase pos n st = (Ok tt, st') ∧ views st' (erase_list l (pos, n)).
Proof.
  intros Hv Hpos Hn H0. pose proof (views_size _ _ Hv) as Hl. destruct Hv as [Hs Hwf Hp Hd].
  destruct st as [[sb p] [b s]]. cbn [fst snd fw_sb fw_pos] in *. subst sb.
  pose proof (m_size_small b Hwf). unfold fwd_erase, with_sb. cbn [fst snd fw_sb fw_pos].
  unfold erase_list; cbn [fst snd].
  destruct (Z.eqb_spec pos 0) as [->|Hne].
  - specialize (H0 eq_refl). rewrite uwrap_small by (unfold in_u; lia).
    destruct (Z.ltb_spec (m_size b) (p + n)); [lia|]. eexists; split; [reflexivity|].
    split; cbn [fst snd fw_sb fw_pos]; [done|done|lia|]. rewrite ztake_0. cbn [app].
    by rewrite <- Hd, zdrop_zdrop by lia.
  - rewrite uwrap_small by (unfold in_u; lia).
    pose proof (erase_spec (p + pos) n false b s Hwf ltac:(lia) Hn) as He.
    destruct (erase (p + pos) n false (b, s)) as [[b' s']|]; [|lia].
    destruct He as (_ & Hwf' & Hc). eexists; split; [reflexivity|].
    assert (Hsz : p <= m_size b').
    { rewrite <- length_content, Hc, zlen_app, zlen_ztake by (rewrite ?length_content; done || lia).
      pose proof (zlen_nonneg (zdrop (p + pos + n) (content b))). lia. }
    split; cbn [fst snd fw_sb fw_pos]; [done|done|lia|].
    rewrite Hc, zdrop_app_le by (rewrite zlen_ztake; rewrite ?length_content; done || lia).
    rewrite zdrop_ztake, Hd by lia. replace (p + pos - p) with pos by lia. f_equal.
    rewrite <- Hd, zdrop_zdrop by lia. f_equal. lia.
Qed.

Lemma fwd_erases_views ops st l :
  views st l → erasable l ops →
  ∃ st', fwd_erases ops st = (Ok tt, st') ∧ views st' (foldl erase_list l ops).
Proof.
  revert st l. induction ops as [|[pos n] ops IH]; intros st l Hv Hops; [by exists st|].
  destruct Hops as (Hpos & Hn & H0 & Hops). cbn [fwd_erases foldl].
  destruct (fwd_erase_views pos n st l Hv Hpos Hn H0) as (st1 & E1 & Hv1).
  destruct (IH st1 _ Hv1 Hops) as (st2 & E2 & Hv2). exists st2.
  by erewrite bind_Ok by exact E1.
Qed.

(** C39: a [ForwardBuffer] is the buffer with every erasure done at once: at each point
    it shows the list so erased, and after its destructor the buffer holds exactly that list. *)
Theorem forward_defers_erase ops1 ops2 b s :
  bb_wf b → erasable (content b) (ops1 ++ ops2) →
  ∃ st1 st2 b' s',
    fwd_erases ops1 (ForwardBuffer_new, (b, s)) = (Ok tt, st1) ∧
    fwd_data st1 = (Ok (foldl erase_list (content b) ops1), st1) ∧
    fwd_size st1 = (Ok (zlen (foldl erase_list (content b) ops1)), st1) ∧
    (fwd_erases ops2 ;; fwd_destroy) st1 = (Ok tt, (st2, (b', s'))) ∧
    bb_wf b' ∧ content b' = foldl erase_list (content b) (ops1 ++ ops2).
Proof.
  intros Hwf Hops.
  assert (Hv0 : views (ForwardBuffer_new, (b, s)) (content b)).
  { split; cbn; [done|done| |by rewrite zdrop_0]. destruct Hwf. lia. }
  assert (Hsplit : ∀ l, erasable l (ops1 ++ ops2) → erasable l ops1 ∧ erasable (foldl erase_list l ops1) ops2).
  { clear. induction ops1 as [|[p n] ops IH]; intros l; [done|]. cbn. intros (? & ? & ? & H).
    destruct (IH _ H). tauto. }
  destruct (Hsplit _ Hops) as [Hops1 Hops2].
  destruct (fwd_erases_views ops1 _ _ Hv0 Hops1) as (st1 & E1 & Hv1).
  destruct (fwd_erases_views ops2 _ _ Hv1 Hops2) as (st2 & E2 & Hv2).
  pose proof (views_size _ _ Hv1) as Hs1. rewrite <- foldl_app in Hv2.
  destruct Hv1 as [V1 V2 V3 V4], Hv2 as [W1 W2 W3 W4].
  destruct st2 as [[sb p] [b2 s2]]. cbn [fst snd fw_sb fw_pos] in *. subst sb.
  pose proof (erase_spec 0 p false b2 s2 W2 ltac:(lia) ltac:(lia)) as He.
  destruct (erase 0 p false (b2, s2)) as [[b' s']|] eqn:E3; [|destruct W2; lia].
  destruct He as (_ & Hwf' & Hc). exists st1, (mkFwd true p), b', s'. split_and!.
  - exact E1.
  - unfold fwd_data, with_sb. rewrite V1, V4. by destruct st1.
  - unfold fwd_size, with_sb. rewrite V1, Hs1. pose proof (m_size_small _ V2).
    rewrite uwrap_small by (unfold in_u; lia). by destruct st1.
  - erewrite bind_Ok by exact E2. unfold fwd_destroy. cbn [fst snd fw_sb fw_pos]. by rewrite E3.
  - done.
  - rewrite Hc, ztake_0. cbn [app]. by rewrite Z.add_0_l.
Qed.

(** A released view leaves the buffer alone, and must not be used any more. *)
Lemma fwd_released st :
  (fwd_release ;; fwd_destroy) st = (Ok tt, (mkFwd false (fw_pos st.1), st.2)) ∧
  (fwd_release ;; fwd_size) st = (Throw Undefined, (mkFwd false (fw_pos st.1), st.2)).
Proof. done. Qed.

End forward.

Definition demo_buffer : BlockBuffer := mkBB [x01; x02; x03; x04; x05; x06; x2a; x2a] 6 2.

Lemma forward_defers_erase_witness :
  ∃ st1 st2 b' s',
    fwd_erases [(0, 2)] (ForwardBuffer_new, (demo_buffer, mkStats 2 2)) = (Ok tt, st1) ∧
    fwd_data st1 = (Ok [x03; x04; x05; x06], st1) ∧
    fwd_size st1 = (Ok 4, st1) ∧
    (fwd_erases [(1, 1); (0, 1)] ;; fwd_destroy) st1 = (Ok tt, (st2, (b', s'))) ∧
    bb_wf (BP := two_blocks) b' ∧ content b' = [x05; x06].
Proof.
  apply (forward_defers_erase (BP := two_blocks) [(0, 2)] [(1, 1); (0, 1)] demo_buffer (mkStats 2 2)).
  - split; vm_compute; repeat split; congruence.
  - vm_compute. repeat split; congruence.
Defined.
