(* ===== verification/ByteStream.v ===== *)
(** * ByteStream.v: the binary streams of [core/base/ByteStream.h]

    Byte-order helpers ([XHTONS], [XHTONL], [XHTONLL]), the throwing
    [PackBuffer], [BinWriteStream] and [BinReadStream], and the overloads of
    [operator<<] / [operator>>] as a type class [Marshal].  The laws of the class
    ([MarshalLaw]) say which bytes an overload writes and that reading them back
    gives the value; the
    overloads of the scalars, strings, pairs and vectors have their instances here, the
    others in Containers.v. *)

From S2P Require Import Prelude BlockBuffer.

(** ** Byte order *)

Definition XHTONS (i16 : Z) : Z := u16 (Z.lor (Z.shiftl i16 8) (Z.shiftr i16 8)).
Definition XHTONL (i32 : Z) : Z :=
  u32 (Z.lor (Z.shiftl (XHTONS (u16 i32)) 16) (XHTONS (u16 (Z.shiftr i32 16)))).
Definition XHTONLL (i64 : Z) : Z :=
  u64 (Z.lor (Z.shiftl (XHTONL (u32 i64)) 32) (XHTONL (u32 (Z.shiftr i64 32)))).

Lemma XHTONS_value v : in_u 16 v → XHTONS v = (v mod 256) * 256 + v / 256.
Proof.
  unfold in_u. intros Hv. unfold XHTONS, uwrap. rewrite Z.shiftr_div_pow2 by lia.
  rewrite lor_shiftl_add by lia_divmod.
  change (2 ^ 8) with 256. change (2 ^ 16) with 65536 in *. lia_divmod.
Qed.

Lemma XHTONS_involutive v : in_u 16 v → XHTONS (XHTONS v) = v.
Proof.
  intros Hv. assert (E : XHTONS v = (v mod 256) * 256 + v / 256) by by apply XHTONS_value.
  rewrite XHTONS_value; rewrite E; unfold in_u in *; lia_divmod.
Qed.
Lemma XHTONS_range v : in_u 16 (XHTONS v).
Proof. by apply uwrap_range. Qed.

Lemma XHTONL_value v :
  in_u 32 v → XHTONL v = XHTONS (v mod 2 ^ 16) * 2 ^ 16 + XHTONS (v / 2 ^ 16).
Proof.
  unfold in_u. intros Hv. unfold XHTONL. rewrite Z.shiftr_div_pow2 by lia.
  rewrite (uwrap_small 16 (v / 2 ^ 16)) by (unfold in_u; lia_divmod).
  pose proof (XHTONS_range (v / 2 ^ 16)). pose proof (XHTONS_range (u16 v)).
  unfold in_u in *. rewrite lor_shiftl_add by lia.
  change (v mod 2 ^ 16) with (u16 v). apply uwrap_small. unfold in_u. lia.
Qed.

Lemma XHTONL_range v : in_u 32 (XHTONL v).
Proof. by apply uwrap_range. Qed.

Lemma XHTONLL_value v :
  in_u 64 v → XHTONLL v = XHTONL (v mod 2 ^ 32) * 2 ^ 32 + XHTONL (v / 2 ^ 32).
Proof.
  unfold in_u. intros Hv. unfold XHTONLL. rewrite Z.shiftr_div_pow2 by lia.
  rewrite (uwrap_small 32 (v / 2 ^ 32)) by (unfold in_u; lia_divmod).
  pose proof (XHTONL_range (v / 2 ^ 32)). pose proof (XHTONL_range (u32 v)).
  unfold in_u in *. rewrite lor_shiftl_add by lia.
  change (v mod 2 ^ 32) with (u32 v). apply uwrap_small. unfold in_u. lia.
Qed.

(** Storing a swapped integer little-endian writes it in network order. *)
Lemma le_bytes_app n m z :
  le_bytes (n + m) z = le_bytes n z ++ le_bytes m (z / 256 ^ Z.of_nat n).
Proof.
  revert z. induction n as [|n IH]; intros z; simpl; [by rewrite Z.div_1_r|].
  rewrite IH, Nat2Z.inj_succ, Z.pow_succ_r, Z.div_div by lia. done.
Qed.

Lemma le_bytes_mod n k z : le_bytes n (k * 256 ^ Z.of_nat n + z) = le_bytes n z.
Proof.
  revert k z. induction n as [|n IH]; intros k z; [done|]. cbn [le_bytes].
  rewrite Nat2Z.inj_succ, Z.pow_succ_r by lia.
  replace (k * (256 * 256 ^ Z.of_nat n) + z) with (z + (k * 256 ^ Z.of_nat n) * 256) by lia.
  f_equal.
  - unfold byte_of. by rewrite Z_mod_plus_full.
  - rewrite Z.div_add, Z.add_comm by lia. apply IH.
Qed.

Lemma be_bytes_app n m z :
  be_bytes (n + m) z = be_bytes m (z / 256 ^ Z.of_nat n) ++ be_bytes n z.
Proof. unfold be_bytes. by rewrite le_bytes_app, reverse_app. Qed.

Lemma le_bytes_halves n a b :
  0 <= b < 256 ^ Z.of_nat n →
  le_bytes (n + n) (a * 256 ^ Z.of_nat n + b) = le_bytes n b ++ le_bytes n a.
Proof.
  intros Hb. rewrite le_bytes_app, le_bytes_mod. do 2 f_equal.
  rewrite Z.add_comm, Z.div_add, Z.div_small by lia. lia.
Qed.

Lemma be_bytes_small n v : be_bytes n (v mod 256 ^ Z.of_nat n) = be_bytes n v.
Proof.
  unfold be_bytes. f_equal.
  rewrite (Z_div_mod_eq_full v (256 ^ Z.of_nat n)) at 2.
  by rewrite Z.mul_comm, le_bytes_mod.
Qed.

Lemma le_bytes_XHTONS v : in_u 16 v → le_bytes 2 (XHTONS v) = be_bytes 2 v.
Proof.
  intros Hv. rewrite XHTONS_value by done. unfold in_u in Hv.
  change 256 with (256 ^ Z.of_nat 1) at 3. change 2%nat with (1 + 1)%nat.
  rewrite le_bytes_halves by (change (256 ^ Z.of_nat 1) with 256; lia_divmod).
  rewrite be_bytes_app. change (256 ^ Z.of_nat 1) with 256.
  change (v mod 256) with (v mod 256 ^ Z.of_nat 1). cbn [le_bytes be_bytes].
  unfold be_bytes. cbn. f_equal. f_equal. unfold byte_of. by rewrite Zmod_mod.
Qed.

Lemma le_bytes_XHTONL v : in_u 32 v → le_bytes 4 (XHTONL v) = be_bytes 4 v.
Proof.
  intros Hv. rewrite XHTONL_value by done. unfold in_u in Hv.
  change (2 ^ 16) with (256 ^ Z.of_nat 2). change 4%nat with (2 + 2)%nat.
  rewrite le_bytes_halves by apply XHTONS_range.
  rewrite be_bytes_app. change (256 ^ Z.of_nat 2) with (2 ^ 16).
  rewrite !le_bytes_XHTONS by (unfold in_u; lia_divmod). f_equal.
  apply (be_bytes_small 2).
Qed.

Lemma le_bytes_XHTONLL v : in_u 64 v → le_bytes 8 (XHTONLL v) = be_bytes 8 v.
Proof.
  intros Hv. rewrite XHTONLL_value by done. unfold in_u in Hv.
  change (2 ^ 32) with (256 ^ Z.of_nat 4). change 8%nat with (4 + 4)%nat.
  rewrite le_bytes_halves by apply XHTONL_range.
  rewrite be_bytes_app. change (256 ^ Z.of_nat 4) with (2 ^ 32).
  rewrite !le_bytes_XHTONL by (unfold in_u; lia_divmod). f_equal.
  apply (be_bytes_small 4).
Qed.

(** Loading a swapped integer reads network order. *)
Lemma XHTON_load n (swap : Z → Z) l :
  length l = n →
  (∀ v, 0 <= v < 256 ^ Z.of_nat n → 0 <= swap v < 256 ^ Z.of_nat n ∧ le_bytes n (swap v) = be_bytes n v) →
  swap (le_value l) = be_value l.
Proof.
  intros Hl Hs. pose proof (le_value_range l) as Hr. rewrite Hl in Hr.
  destruct (Hs _ Hr) as [Hsr Hb].
  apply (f_equal le_value) in Hb. rewrite le_value_bytes, Z.mod_small in Hb by done.
  rewrite Hb. unfold be_bytes, be_value. rewrite <- Hl, le_bytes_value. done.
Qed.

Lemma XHTONS_load l : length l = 2%nat → XHTONS (le_value l) = be_value l.
Proof.
  intros Hl. apply (XHTON_load 2); [done|]. intros v Hv.
  split; [apply XHTONS_range|by apply le_bytes_XHTONS].
Qed.
Lemma XHTONL_load l : length l = 4%nat → XHTONL (le_value l) = be_value l.
Proof.
  intros Hl. apply (XHTON_load 4); [done|]. intros v Hv.
  split; [apply XHTONL_range|by apply le_bytes_XHTONL].
Qed.
Lemma XHTONLL_load l : length l = 8%nat → XHTONLL (le_value l) = be_value l.
Proof.
  intros Hl. apply (XHTON_load 8); [done|]. intros v Hv.
  split; [apply uwrap_range; lia|by apply le_bytes_XHTONLL].
Qed.

(** ** PackBuffer: the buffer whose failures are exceptions *)

(** [BlockBuffer<def_block_alloc_16k, 65536>] *)
#[export] Instance PackBlock : BlockParams.
Proof. refine {| requested_size := 16 * 1024; max_blocks := 65536 |}; abstract lia. Defined.

Section pack_buffer.
  Context (h : Heap).

Definition pb_check (f : BState → bool * BState) : M BState unit := λ st,
  let (ok, st') := f st in
  if ok then (Ok tt, st') else (Throw WriteStreamExn, st').

Definition pb_size : M BState Z := gets (λ st, m_size (fst st)).
Definition pb_resize (n : Z) : M BState unit := pb_check (resize h n x00).
Definition pb_append (data : list byte) : M BState unit := pb_check (append h data).
Definition pb_replace (pos : Z) (rep : list byte) : M BState unit := pb_check (bb_replace h pos rep).
Definition pb_reserve (n : Z) : M BState unit := pb_check (reserve h n).

(** The C string at the start of a byte sequence ([strlen]). *)
Fixpoint cstr (l : list byte) : list byte :=
  match l with
  | [] => []
  | b :: l => if decide (b = x00) then [] else b :: cstr l
  end.
Definition pb_append_cstr (data : list byte) : M BState unit := pb_append (cstr data).

(** ** BinWriteStream: a view of a [PackBuffer] from [m_offset] on *)

(** The constructor; the stream is its [m_offset]. *)
Definition BinWriteStream_new (off : Z) : M BState Z :=
  sz ← pb_size;
  pb_resize (sz + off) ;;
  mret (sz + off).

Definition bws_data (m_offset : Z) (st : BState) : list byte := zdrop m_offset (content (fst st)).
Definition bws_size (m_offset : Z) (st : BState) : Z := u64 (m_size (fst st) - m_offset).

Definition writeByte (s : list byte) : M BState unit := pb_append s.
Definition writeUint8 (v : Z) : M BState unit := writeByte (le_bytes 1 v).
Definition writeUint16 (v : Z) : M BState unit := writeByte (le_bytes 2 (XHTONS v)).
Definition writeUint32 (v : Z) : M BState unit := writeByte (le_bytes 4 (XHTONL v)).
Definition writeUint64 (v : Z) : M BState unit := writeByte (le_bytes 8 (XHTONLL v)).

Definition writeVarstr (s : list byte) : M BState unit :=
  if 0xFFFF <? zlen s then throw WriteStreamExn
  else (writeUint16 (u16 (zlen s)) ;; writeByte s).
Definition writeVarstr32 (s : list byte) : M BState unit :=
  if 0xFFFFFFFF <? zlen s then throw WriteStreamExn
  else (writeUint32 (u32 (zlen s)) ;; writeByte s).

(** [wchar_t] is four bytes wide on the target; [ws] are the code units. *)
Definition wstring_mem (ws : list Z) : list byte := ws ≫= le_bytes 4.
Definition writeVarwstring32 (ws : list Z) : M BState unit :=
  let len := zlen ws * 2 in
  writeUint32 (u32 len) ;; writeByte (ztake len (wstring_mem ws)).

Definition bws_replace (pos : Z) (data : list byte) : M BState Z :=
  pb_replace pos data ;; mret (pos + zlen data).
Definition replaceUint8 (pos v : Z) : M BState Z := bws_replace pos (le_bytes 1 v).
Definition replaceUint16 (pos v : Z) : M BState Z := bws_replace pos (le_bytes 2 (XHTONS v)).
Definition replaceUint32 (pos v : Z) : M BState Z := bws_replace pos (le_bytes 4 (XHTONL v)).

End pack_buffer.

(** ** BinReadStream: the bytes between [m_data] and [m_data + m_size] *)

Abbreviation RS := (list byte).

(** The constructor and [reset]: [size] bytes from [data] on. *)
Definition BinReadStream_new (data : list byte) (size : Z) : RS := ztake size data.
Definition BinReadStream_reset (data : list byte) (size : Z) : M RS unit := put (ztake size data).
Definition brs_empty : M RS bool := gets (λ rs, zlen rs =? 0).
Definition brs_size : M RS Z := gets zlen.

(** [pop_fetch_ptr]: the bytes at the returned pointer. *)
Definition pop_fetch_ptr (k : Z) : M RS (list byte) := λ rs,
  if zlen rs <? k then (Throw ReadStreamExn, rs) else (Ok (ztake k rs), zdrop k rs).

Definition readUint8 : M RS Z := λ rs,
  if zlen rs <? 1 then (Throw ReadStreamExn, rs) else (Ok (le_value (ztake 1 rs)), zdrop 1 rs).
Definition readUint16 : M RS Z := λ rs,
  if zlen rs <? 2 then (Throw ReadStreamExn, rs) else (Ok (XHTONS (le_value (ztake 2 rs))), zdrop 2 rs).
Definition readUint32 : M RS Z := λ rs,
  if zlen rs <? 4 then (Throw ReadStreamExn, rs) else (Ok (XHTONL (le_value (ztake 4 rs))), zdrop 4 rs).
Definition peekUint32 : M RS Z := λ rs,
  if zlen rs <? 4 then (Throw ReadStreamExn, rs) else (Ok (XHTONL (le_value (ztake 4 rs))), rs).
Definition readUint64 : M RS Z := λ rs,
  if zlen rs <? 8 then (Throw ReadStreamExn, rs) else (Ok (XHTONLL (le_value (ztake 8 rs))), zdrop 8 rs).

Definition readVarstr_ptr : M RS (list byte) := n ← readUint16; pop_fetch_ptr n.
Definition readVarstr32_ptr : M RS (list byte) := n ← readUint32; pop_fetch_ptr n.
Definition readVarstr : M RS string := vs ← readVarstr_ptr; mret (string_of vs).
Definition readVarstr32 : M RS string := vs ← readVarstr32_ptr; mret (string_of vs).

(** The [n] four-byte code units at the start of a block of memory. *)
Fixpoint wchars (n : nat) (mem : list byte) : list Z :=
  match n with O => [] | S n => le_value (ztake 4 mem) :: wchars n (zdrop 4 mem) end.
(** The [std::wstring] is built from [vs.size() / 2] code units: it reads [4 * (size / 2)] bytes
    from the pointer, whatever [vs.size()] is; past the stream it is undefined. *)
Definition readVarwstring32 : M RS (list Z) := λ rs,
  match readVarstr32_ptr rs with
  | (Ok vs, rest) =>
      let n := zlen vs / 2 in
      if zlen vs + zlen rest <? 4 * n then (Throw Undefined, rest)
      else (Ok (wchars (Z.to_nat n) (vs ++ rest)), rest)
  | (Throw e, rest) => (Throw e, rest)
  end.

Definition pop_fetch (k : Z) : M RS string := p ← pop_fetch_ptr k; mret (string_of p).
Definition finish : M RS unit :=
  e ← brs_empty; if negb e then throw ReadStreamExn else mret tt.

(** ** The overloads of [operator<<] and [operator>>] *)

(** [unmarshal old] is [p >> x] for a variable [x] that holds [old]; [dflt] is a
    default-constructed value. *)
Class Marshal (A : Type) := {
  dflt : A;
  marshal : Heap → A → M BState unit;
  unmarshal : A → M RS A;
}.

Definition read_bool : M RS bool := v ← readUint8; mret (negb (v =? 0)).
#[export] Instance Marshal_bool : Marshal bool := {|
  dflt := false;
  marshal h sign := writeUint8 h (if sign then 1 else 0);
  unmarshal _ := read_bool;
|}.

(** The unsigned types are told apart by their width. *)
Record uint (w : Z) := U { uval : Z }.
Arguments U {_} _.
Arguments uval {_} _.

Definition read_u8 : M RS (uint 8) := v ← readUint8; mret (U v).
#[export] Instance Marshal_u8 : Marshal (uint 8) := {|
  dflt := U 0;
  marshal h v := writeUint8 h (uval v);
  unmarshal _ := read_u8;
|}.
Definition read_u16 : M RS (uint 16) := v ← readUint16; mret (U v).
#[export] Instance Marshal_u16 : Marshal (uint 16) := {|
  dflt := U 0;
  marshal h v := writeUint16 h (uval v);
  unmarshal _ := read_u16;
|}.
Definition read_u32 : M RS (uint 32) := v ← readUint32; mret (U v).
#[export] Instance Marshal_u32 : Marshal (uint 32) := {|
  dflt := U 0;
  marshal h v := writeUint32 h (uval v);
  unmarshal _ := read_u32;
|}.
Definition read_u64 : M RS (uint 64) := v ← readUint64; mret (U v).
#[export] Instance Marshal_u64 : Marshal (uint 64) := {|
  dflt := U 0;
  marshal h v := writeUint64 h (uval v);
  unmarshal _ := read_u64;
|}.
Definition read_string : M RS string := readVarstr.
#[export] Instance Marshal_string : Marshal string := {|
  dflt := ""%string;
  marshal h s := writeVarstr h (bytes_of s);
  unmarshal _ := read_string;
|}.
(** Both overloads for pairs, the one with a constant key (for maps) included. *)
Definition read_pair {A B} `{Marshal A, Marshal B} (p : A * B) : M RS (A * B) :=
  a ← unmarshal p.1; b ← unmarshal p.2; mret (a, b).
#[export] Instance Marshal_pair {A B} `{Marshal A, Marshal B} : Marshal (A * B) := {|
  dflt := (dflt, dflt);
  marshal h p := marshal h p.1 ;; marshal h p.2;
  unmarshal := read_pair;
|}.

(** [marshal_container] and [unmarshal_container] with a [back_inserter]. *)
Fixpoint marshal_elems {A} `{Marshal A} (h : Heap) (c : list A) : M BState unit :=
  match c with
  | [] => mret tt
  | x :: c => marshal h x ;; marshal_elems h c
  end.
Definition marshal_container {A} `{Marshal A} (h : Heap) (c : list A) : M BState unit :=
  writeUint32 h (u32 (zlen c)) ;; marshal_elems h c.
Fixpoint unmarshal_elems {A} `{Marshal A} (count : nat) (vec : list A) : M RS (list A) :=
  match count with
  | O => mret vec
  | S count => tmp ← unmarshal dflt; unmarshal_elems count (vec ++ [tmp])
  end.
Definition unmarshal_container {A} `{Marshal A} (vec : list A) : M RS (list A) :=
  count ← readUint32; unmarshal_elems (Z.to_nat count) vec.
Definition read_vector {A} `{Marshal A} (vec : list A) : M RS (list A) := unmarshal_container vec.
#[export] Instance Marshal_vector {A} `{Marshal A} : Marshal (list A) := {|
  dflt := [];
  marshal := marshal_container;
  unmarshal := read_vector;
|}.

(** ** PacketToString and StringToPacket *)

Definition PacketToString {A} `{Marshal A} (h : Heap) (s : BlockStats) (x : A) : res string :=
  match (off ← BinWriteStream_new h 0; marshal h x ;; gets (bws_data off))
          (new_BlockBuffer, s) with
  | (Ok data, _) => Ok (string_of data)
  | (Throw e, _) => Throw e
  end.

(** The result and the object after the call ([objOut] if it was not assigned). *)
Definition StringToPacket {A} `{Marshal A} (strIn : string) (objOut : A) : res (bool * A) :=
  match unmarshal objOut (bytes_of strIn) with
  | (Ok a, _) => Ok (true, a)
  | (Throw ReadStreamExn, _) => Ok (false, objOut)
  | (Throw e, _) => Throw e
  end.

(** ** Laws *)

(** Memory is available for every size the program asks for. *)
Definition heap_avail (h : Heap) : Prop := ∀ n, heap_has h n = true.

(** [m] appends exactly [l] whenever it fits. *)
Definition appends (h : Heap) (m : M BState unit) (l : list byte) : Prop :=
  ∀ b s, heap_avail h → bb_wf b → m_size b + zlen l <= maxsize →
    ∃ b' s', m (b, s) = (Ok tt, (b', s')) ∧ bb_wf b' ∧ content b' = content b ++ l.

Lemma appends_content_size b b' l :
  bb_wf b → bb_wf b' → content b' = content b ++ l → m_size b' = m_size b + zlen l.
Proof.
  intros Hb Hb' E. apply (f_equal zlen) in E.
  by rewrite zlen_app, !length_content in E by done.
Qed.

(** A new stream [off] bytes past the end: the gap is zero-filled. *)
Lemma BinWriteStream_new_spec h off b s :
  heap_avail h → bb_wf b → 0 <= off → m_size b + off <= maxsize →
  ∃ b' s', BinWriteStream_new h off (b, s) = (Ok (m_size b + off), (b', s')) ∧ bb_wf b' ∧
    content b' = content b ++ replicate (Z.to_nat off) x00.
Proof.
  intros Hh Hwf Hoff Hmax.
  unfold BinWriteStream_new, pb_size, gets, pb_resize, pb_check, mbind, M_bind; cbn [fst].
  pose proof (resize_ok h (m_size b + off) x00 b s Hwf Hh Hmax) as Hok.
  destruct (resize h (m_size b + off) x00 (b, s)) as [ok [b' s']] eqn:E.
  cbn in Hok. subst ok. pose proof Hwf as [].
  apply resize_spec in E as [Hwf' Hc]; [|done|lia].
  exists b', s'. split_and!; [done..|].
  rewrite Hc, ztake_all by (rewrite length_content; [lia|done]). do 2 f_equal. lia.
Qed.

Lemma appends_ret h : appends h (mret tt) [].
Proof. intros b s _ Hwf _. exists b, s. by rewrite app_nil_r. Qed.

Lemma appends_bind h m k l1 l2 :
  appends h m l1 → appends h k l2 → appends h (m ;; k) (l1 ++ l2).
Proof.
  intros Hm Hk b s Hh Hwf Hsz. rewrite zlen_app in Hsz.
  pose proof (zlen_nonneg l1). pose proof (zlen_nonneg l2).
  destruct (Hm b s) as (b1 & s1 & E1 & Hwf1 & C1); [done..|lia|].
  pose proof (appends_content_size _ _ _ Hwf Hwf1 C1).
  destruct (Hk b1 s1) as (b2 & s2 & E2 & Hwf2 & C2); [done..|lia|].
  exists b2, s2. split_and!; [by step_bind E1|done|].
  by rewrite C2, C1, app_assoc.
Qed.

Lemma appends_write h l : appends h (pb_append h l) l.
Proof.
  intros b s Hh Hwf Hsz. unfold pb_append, pb_check.
  pose proof (append_ok h l b s Hwf Hh Hsz) as Hok.
  destruct (append h l (b, s)) as [ok [b' s']] eqn:E. cbn in Hok. subst ok.
  apply append_spec in E; [|done]. destruct E. by exists b', s'.
Qed.

Lemma appends_uint8 h v : appends h (writeUint8 h v) (be_bytes 1 v).
Proof. apply appends_write. Qed.
Lemma appends_uint16 h v : in_u 16 v → appends h (writeUint16 h v) (be_bytes 2 v).
Proof. intros. unfold writeUint16. rewrite le_bytes_XHTONS by done. apply appends_write. Qed.
Lemma appends_uint32 h v : in_u 32 v → appends h (writeUint32 h v) (be_bytes 4 v).
Proof. intros. unfold writeUint32. rewrite le_bytes_XHTONL by done. apply appends_write. Qed.
Lemma appends_uint64 h v : in_u 64 v → appends h (writeUint64 h v) (be_bytes 8 v).
Proof. intros. unfold writeUint64. rewrite le_bytes_XHTONLL by done. apply appends_write. Qed.

(** [r] reads exactly [l], giving [a], whatever follows. *)
Definition reads {A} (r : M RS A) (l : list byte) (a : A) : Prop :=
  ∀ rest, r (l ++ rest) = (Ok a, rest).

Lemma reads_ret {A} (a : A) : reads (mret a) [] a.
Proof. by intros rest. Qed.
Lemma reads_bind {A B} (r : M RS A) (f : A → M RS B) l1 l2 a b :
  reads r l1 a → reads (f a) l2 b → reads (r ≫= f) (l1 ++ l2) b.
Proof.
  intros Hr Hf rest. rewrite <- app_assoc. erewrite bind_Ok by apply Hr. apply Hf.
Qed.
Lemma reads_map {A B} (r : M RS A) (f : A → B) l a :
  reads r l a → reads (a ← r; mret (f a)) l (f a).
Proof. intros Hr rest. by erewrite bind_Ok by apply Hr. Qed.

Lemma zlen_be_bytes n v : zlen (be_bytes n v) = Z.of_nat n.
Proof. unfold zlen. by rewrite length_be_bytes. Qed.

Lemma reads_uint8 v : in_u 8 v → reads readUint8 (be_bytes 1 v) v.
Proof.
  intros Hv rest. unfold readUint8. pose proof (zlen_nonneg rest).
  rewrite zlen_app, zlen_be_bytes. destruct (Z.ltb_spec (Z.of_nat 1 + zlen rest) 1); [lia|].
  rewrite ztake_app_length, zdrop_app_length by (by rewrite zlen_be_bytes).
  f_equal. f_equal. unfold be_bytes. cbn. rewrite byte_val_of.
  rewrite Z.mod_small by exact Hv. lia.
Qed.
(** The multi-byte readers share one proof. *)
Ltac solve_reads n load :=
  let rest := fresh "rest" in
  intros rest; pose proof (zlen_nonneg rest);
  rewrite zlen_app, zlen_be_bytes;
  match goal with |- context [?a <? ?b] => destruct (Z.ltb_spec a b); [lia|] end;
  rewrite ztake_app_length, zdrop_app_length by (by rewrite zlen_be_bytes);
  rewrite load by apply length_be_bytes;
  rewrite be_value_bytes, Z.mod_small by done; done.
Lemma reads_uint16 v : in_u 16 v → reads readUint16 (be_bytes 2 v) v.
Proof. intros Hv. unfold reads, readUint16. solve_reads 2 XHTONS_load. Qed.
Lemma reads_uint32 v : in_u 32 v → reads readUint32 (be_bytes 4 v) v.
Proof. intros Hv. unfold reads, readUint32. solve_reads 4 XHTONL_load. Qed.
Lemma reads_uint64 v : in_u 64 v → reads readUint64 (be_bytes 8 v) v.
Proof. intros Hv. unfold reads, readUint64. solve_reads 8 XHTONLL_load. Qed.
Lemma reads_pop_fetch l : reads (pop_fetch_ptr (zlen l)) l l.
Proof.
  intros rest. unfold pop_fetch_ptr. pose proof (zlen_nonneg rest). rewrite zlen_app.
  destruct (Z.ltb_spec (zlen l + zlen rest) (zlen l)); [lia|].
  by rewrite ztake_app_length, zdrop_app_length.
Qed.

(** What a type's overloads put on the wire, for the values of [mwf]. *)
Class MarshalLaw (A : Type) `{Marshal A} := {
  wire : A → list byte;
  mwf : A → Prop;
  marshal_wire h a : mwf a → appends h (marshal h a) (wire a);
  unmarshal_wire a : mwf a → reads (unmarshal dflt) (wire a) a;
}.

#[export] Instance MarshalLaw_bool : MarshalLaw bool.
Proof.
  refine {| wire (b : bool) := be_bytes 1 (if b then 1 else 0); mwf (_ : bool) := True |}.
  - intros h b _. apply appends_uint8.
  - intros [] _; [apply (reads_map readUint8 (λ v, negb (v =? 0)) _ 1)
                 |apply (reads_map readUint8 (λ v, negb (v =? 0)) _ 0)];
      by apply reads_uint8.
Defined.

#[export] Instance MarshalLaw_u8 : MarshalLaw (uint 8).
Proof.
  refine {| wire (v : uint 8) := be_bytes 1 (uval v); mwf (v : uint 8) := in_u 8 (uval v) |}.
  - intros h [v] _. apply appends_uint8.
  - intros [v] Hv. by apply (reads_map _ U), reads_uint8.
Defined.
#[export] Instance MarshalLaw_u16 : MarshalLaw (uint 16).
Proof.
  refine {| wire (v : uint 16) := be_bytes 2 (uval v); mwf (v : uint 16) := in_u 16 (uval v) |}.
  - intros h [v] Hv. by apply appends_uint16.
  - intros [v] Hv. by apply (reads_map _ U), reads_uint16.
Defined.
#[export] Instance MarshalLaw_u32 : MarshalLaw (uint 32).
Proof.
  refine {| wire (v : uint 32) := be_bytes 4 (uval v); mwf (v : uint 32) := in_u 32 (uval v) |}.
  - intros h [v] Hv. by apply appends_uint32.
  - intros [v] Hv. by apply (reads_map _ U), reads_uint32.
Defined.
#[export] Instance MarshalLaw_u64 : MarshalLaw (uint 64).
Proof.
  refine {| wire (v : uint 64) := be_bytes 8 (uval v); mwf (v : uint 64) := in_u 64 (uval v) |}.
  - intros h [v] Hv. by apply appends_uint64.
  - intros [v] Hv. by apply (reads_map _ U), reads_uint64.
Defined.

(** A [std::string] of at most 65535 bytes: a 16-bit length and the bytes. *)
Definition varstr_wire (l : list byte) : list byte := be_bytes 2 (zlen l) ++ l.

Lemma appends_varstr h l : zlen l <= 0xFFFF → appends h (writeVarstr h l) (varstr_wire l).
Proof.
  intros Hl. pose proof (zlen_nonneg l). unfold writeVarstr.
  destruct (Z.ltb_spec 0xFFFF (zlen l)); [lia|].
  rewrite uwrap_small by (unfold in_u; lia).
  apply appends_bind; [apply appends_uint16; unfold in_u; lia|apply appends_write].
Qed.

Lemma reads_varstr l : zlen l <= 0xFFFF → reads readVarstr_ptr (varstr_wire l) l.
Proof.
  intros Hl. pose proof (zlen_nonneg l).
  eapply reads_bind; [apply reads_uint16; unfold in_u; lia|apply reads_pop_fetch].
Qed.

#[export] Instance MarshalLaw_string : MarshalLaw string.
Proof.
  refine {| wire (s : string) := varstr_wire (bytes_of s); mwf (s : string) := zlen (bytes_of s) <= 0xFFFF |}.
  - intros h s Hs. by apply appends_varstr.
  - intros s Hs rest. cbn. unfold read_string, readVarstr. erewrite bind_Ok by by apply reads_varstr.
    cbn. by rewrite string_of_bytes_of.
Defined.

#[export] Instance MarshalLaw_pair {A B} `{MarshalLaw A, MarshalLaw B} : MarshalLaw (A * B).
Proof.
  refine {| wire (p : A * B) := wire p.1 ++ wire p.2; mwf (p : A * B) := mwf p.1 ∧ mwf p.2 |}.
  - intros h [a b] [? ?]. by apply appends_bind; apply marshal_wire.
  - intros [a b] [? ?]. eapply reads_bind; [by apply unmarshal_wire|].
    by apply (reads_map _ (pair a)), unmarshal_wire.
Defined.

Section vector.
  Context {A : Type} `{MarshalLaw A}.

Lemma appends_elems h (c : list A) :
  Forall mwf c → appends h (marshal_elems h c) (c ≫= wire).
Proof.
  induction 1; cbn; [apply appends_ret|]. apply appends_bind; [by apply marshal_wire|done].
Qed.

Lemma reads_elems (c vec : list A) :
  Forall mwf c → reads (unmarshal_elems (length c) vec) (c ≫= wire) (vec ++ c).
Proof.
  intros Hc. revert vec. induction Hc as [|x c Hx Hc IH]; intros vec; cbn.
  - rewrite app_nil_r. apply reads_ret.
  - eapply reads_bind; [by apply unmarshal_wire|].
    replace (vec ++ x :: c) with ((vec ++ [x]) ++ c) by by rewrite <- app_assoc. apply IH.
Qed.

#[export] Instance MarshalLaw_vector : MarshalLaw (list A).
Proof.
  refine {| wire (c : list A) := be_bytes 4 (zlen c) ++ (c ≫= wire);
            mwf (c : list A) := zlen c < 2 ^ 32 ∧ Forall mwf c |}.
  - intros h c [Hl Hc]. pose proof (zlen_nonneg c).
    change (marshal h c) with (marshal_container h c). unfold marshal_container.
    rewrite uwrap_small by (unfold in_u; lia).
    apply appends_bind; [apply appends_uint32; unfold in_u; lia|by apply appends_elems].
  - intros c [Hl Hc]. pose proof (zlen_nonneg c).
    eapply reads_bind; [apply reads_uint32; unfold in_u; lia|].
    unfold zlen. rewrite Nat2Z.id. by apply (reads_elems c []).
Defined.
End vector.

(** ** Packets *)

(** [PacketToString] starts from an empty stream. *)
Lemma PacketToString_appends {A} `{Marshal A} h s (x : A) l :
  heap_avail h → appends h (marshal h x) l → zlen l <= maxsize →
  PacketToString h s x = Ok (string_of l).
Proof.
  intros Hh Hm Hsz. unfold PacketToString.
  assert (BinWriteStream_new h 0 (new_BlockBuffer, s) = (Ok 0, (new_BlockBuffer, s))) as E by done.
  step_bind E. destruct (Hm new_BlockBuffer s) as (b' & s' & Em & Hwf & Hc);
    [done|apply new_BlockBuffer_wf|done|].
  step_bind Em. cbn. unfold bws_data; cbn [fst]. by rewrite Hc.
Qed.

Lemma StringToPacket_reads {A} `{Marshal A} (old x : A) l :
  reads (unmarshal old) l x → StringToPacket (string_of l) old = Ok (true, x).
Proof.
  intros Hr. unfold StringToPacket. rewrite bytes_of_string_of.
  specialize (Hr []). rewrite app_nil_r in Hr. by rewrite Hr.
Qed.

Definition wheap : Heap := {| heap_has _ := true; heap_junk _ := x2a |}.
