(* ===== verification/Containers.v ===== *)
(** * Containers.v: sets, maps and wide strings on a stream

    The overloads of [core/base/ByteStream.h] that ByteStream.v leaves out: [std::set] and
    [std::map], which [unmarshal_container] fills through an inserter, [proto::Varstr] of
    [core/base/varstr.h], and [std::wstring].  An ordered container is the strictly
    ascending list its iterator visits; a map is related to a [gmap].  The last part is the
    round trip of a packet, for all the types these files build ([packet_round_trip]). *)

From S2P Require Import Prelude BlockBuffer ByteStream.
From Stdlib Require Import Lia.

(** ** The order of the keys ([operator<]) *)

Class Less (K : Type) := less : K → K → bool.
Class LessLaw (K : Type) `{Less K} := {
  less_irrefl x : less x x = false;
  less_trans x y z : less x y = true → less y z = true → less x z = true;
  less_total x y : less x y = false → less y x = false → x = y;
}.

#[export] Instance Less_uint w : Less (uint w) := λ a b, uval a <? uval b.
#[export] Instance LessLaw_uint w : LessLaw (uint w).
Proof.
  split; unfold less, Less_uint.
  - intros []. apply Z.ltb_irrefl.
  - intros [] [] []; cbn. rewrite !Z.ltb_lt. lia.
  - intros [x] [y]; cbn. rewrite !Z.ltb_ge. intros. f_equal. lia.
Qed.
#[export] Instance uint_eq_dec w : EqDecision (uint w).
Proof. solve_decision. Defined.
#[export] Instance uint_countable w : Countable (uint w).
Proof. refine (inj_countable' uval U _). by intros []. Defined.

(** [std::string] compares its bytes as unsigned, then its length. *)
Fixpoint lex_less (l k : list byte) : bool :=
  match l, k with
  | _, [] => false
  | [], _ :: _ => true
  | a :: l, b :: k => if decide (a = b) then lex_less l k else byte_val a <? byte_val b
  end.
#[export] Instance Less_string : Less string := λ a b, lex_less (bytes_of a) (bytes_of b).

Lemma lex_less_trans l : ∀ k m, lex_less l k = true → lex_less k m = true → lex_less l m = true.
Proof.
  induction l as [|a l IH]; intros [|b k] [|c m]; cbn; try done.
  repeat case_decide; subst; try done; rewrite ?Z.ltb_lt; try lia; eauto.
Qed.
Lemma lex_less_total l : ∀ k, lex_less l k = false → lex_less k l = false → l = k.
Proof.
  induction l as [|a l IH]; intros [|b k]; cbn; try done.
  repeat case_decide; subst; try done; [intros; f_equal; eauto|].
  rewrite !Z.ltb_ge. intros. assert (a = b) by (apply byte_val_inj; lia). done.
Qed.
#[export] Instance LessLaw_string : LessLaw string.
Proof.
  split; unfold less, Less_string.
  - intros x. induction (bytes_of x) as [|a l IH]; [done|]. cbn. by case_decide.
  - intros x y z. apply lex_less_trans.
  - intros x y H1 H2. rewrite <- (string_of_bytes_of x), <- (string_of_bytes_of y).
    f_equal. by apply lex_less_total.
Qed.

(** ** Ordered containers *)

Section ordered.
  Context {V K : Type} (key : V → K) `{LessLaw K}.

(** [insert]: an element with an equal key stays. *)
Fixpoint tree_insert (x : V) (c : list V) : list V :=
  match c with
  | [] => [x]
  | y :: c' =>
      if less (key x) (key y) then x :: c
      else if less (key y) (key x) then y :: tree_insert x c'
      else c
  end.

Definition below (x y : V) : Prop := less (key x) (key y) = true.
Definition ordered : list V → Prop := StronglySorted below.

Lemma tree_insert_elem x c y : y ∈ tree_insert x c → y = x ∨ y ∈ c.
Proof.
  induction c as [|z c IH]; cbn; [rewrite list_elem_of_singleton; auto|].
  destruct (less (key x) (key z)); [rewrite elem_of_cons; tauto|].
  destruct (less (key z) (key x)); [|tauto]. rewrite !elem_of_cons. tauto.
Qed.

Lemma tree_insert_ordered x c : ordered c → ordered (tree_insert x c).
Proof.
  unfold ordered. induction 1 as [|z c Hc IH Hz]; cbn; [repeat constructor|].
  destruct (less (key x) (key z)) eqn:E1.
  - constructor; [by constructor|]. constructor; [done|].
    eapply list.Forall_impl; [exact Hz|]. intros y Hy. by eapply less_trans.
  - destruct (less (key z) (key x)) eqn:E2; [|by constructor].
    constructor; [done|]. rewrite list.Forall_forall in *. intros y Hy.
    apply tree_insert_elem in Hy as [->|Hy]; [done|by apply Hz].
Qed.

Lemma tree_insert_last x c : Forall (λ y, below y x) c → tree_insert x c = c ++ [x].
Proof.
  induction 1 as [|y c Hy Hc IH]; [done|]. cbn. destruct (less (key x) (key y)) eqn:E.
  - pose proof (less_trans _ _ _ Hy E) as F. by rewrite less_irrefl in F.
  - unfold below in Hy. by rewrite Hy, IH.
Qed.

Definition insert_all (l c : list V) : list V := foldl (λ c x, tree_insert x c) c l.

Lemma insert_all_ordered l c : ordered c → ordered (insert_all l c).
Proof. revert c. induction l as [|x l IH]; intros c Hc; [done|]. by apply IH, tree_insert_ordered. Qed.

(** What was written in order comes back as it was. *)
Lemma insert_all_sorted l c : ordered (c ++ l) → insert_all l c = c ++ l.
Proof.
  revert c. induction l as [|x l IH]; intros c Hc; [by rewrite app_nil_r|].
  change (insert_all (x :: l) c) with (insert_all l (tree_insert x c)). rewrite tree_insert_last.
  - rewrite IH by by rewrite <- app_assoc. by rewrite <- app_assoc.
  - clear IH. induction c as [|y c IHc]; constructor; inversion_clear Hc as [|? ? Hc' Hf]; [|by apply IHc].
    rewrite Forall_app in Hf. destruct Hf as [_ Hf]. by inversion_clear Hf.
Qed.
End ordered.

(** [unmarshal_container] through an [insert_iterator]. *)
Fixpoint unmarshal_into {A C} `{Marshal A} (ins : A → C → C) (count : nat) (c : C) : M RS C :=
  match count with
  | O => mret c
  | S count => tmp ← unmarshal dflt; unmarshal_into ins count (ins tmp c)
  end.
Definition unmarshal_inserter {A C} `{Marshal A} (ins : A → C → C) (c : C) : M RS C :=
  count ← readUint32; unmarshal_into ins (Z.to_nat count) c.

Definition elems_wire {A} `{MarshalLaw A} (l : list A) : list byte := be_bytes 4 (zlen l) ++ (l ≫= wire).

Lemma appends_container {A} `{MarshalLaw A} h (l : list A) :
  zlen l < 2 ^ 32 → Forall mwf l → appends h (marshal_container h l) (elems_wire l).
Proof.
  intros Hl Hf. pose proof (zlen_nonneg l). unfold marshal_container.
  rewrite uwrap_small by (unfold in_u; lia).
  apply appends_bind; [apply appends_uint32; unfold in_u; lia|by apply appends_elems].
Qed.

Lemma reads_into {A C} `{MarshalLaw A} (ins : A → C → C) (l : list A) (c : C) :
  Forall mwf l → reads (unmarshal_into ins (length l) c) (l ≫= wire) (foldl (λ c x, ins x c) c l).
Proof.
  intros Hl. revert c. induction Hl as [|x l Hx Hl IH]; intros c; cbn; [apply reads_ret|].
  eapply reads_bind; [by apply unmarshal_wire|apply IH].
Qed.

Lemma reads_inserter {A C} `{MarshalLaw A} (ins : A → C → C) (l : list A) (c : C) :
  zlen l < 2 ^ 32 → Forall mwf l →
  reads (unmarshal_inserter ins c) (elems_wire l) (foldl (λ c x, ins x c) c l).
Proof.
  intros Hl Hf. pose proof (zlen_nonneg l).
  eapply reads_bind; [apply reads_uint32; unfold in_u; lia|].
  unfold zlen. rewrite Nat2Z.id. by apply reads_into.
Qed.

(** ** [std::set] *)

Record sset (A : Type) := SSet { set_elems : list A }.
Arguments SSet {_} _.
Arguments set_elems {_} _.

Definition set_insert {A} `{Less A} (x : A) (s : sset A) : sset A := SSet (tree_insert id x (set_elems s)).

Definition read_set {A} `{Marshal A, Less A} (s : sset A) : M RS (sset A) := unmarshal_inserter set_insert s.
#[export] Instance Marshal_set {A} `{Marshal A, Less A} : Marshal (sset A) := {|
  dflt := SSet [];
  marshal h s := marshal_container h (set_elems s);
  unmarshal := read_set;
|}.

Lemma set_insert_all {A} `{Less A} (l : list A) s :
  foldl (λ c x, set_insert x c) s l = SSet (insert_all id l (set_elems s)).
Proof. revert s. induction l as [|x l IH]; intros [c]; [done|]. cbn. by rewrite IH. Qed.

#[export] Instance MarshalLaw_set {A} `{MarshalLaw A, HL : Less A, !LessLaw A} : MarshalLaw (sset A).
Proof.
  refine {| wire (s : sset A) := elems_wire (set_elems s);
            mwf (s : sset A) := zlen (set_elems s) < 2 ^ 32 ∧ Forall mwf (set_elems s) ∧ ordered id (set_elems s) |}.
  - intros h [l] (Hl & Hf & _). exact (appends_container h l Hl Hf).
  - intros [l] (Hl & Hf & Ho) rest. cbn [set_elems] in *.
    change (unmarshal dflt) with (unmarshal_inserter set_insert (SSet (A:=A) [])).
    rewrite (reads_inserter set_insert l (SSet []) Hl Hf rest).
    by rewrite set_insert_all, insert_all_sorted.
Defined.

(** ** [std::map] *)

Record smap (K V : Type) := SMap { map_elems : list (K * V) }.
Arguments SMap {_ _} _.
Arguments map_elems {_ _} _.

Definition map_insert {K V} `{Less K} (x : K * V) (m : smap K V) : smap K V :=
  SMap (tree_insert fst x (map_elems m)).

Definition read_map {K V} `{Marshal K, Marshal V, Less K} (m : smap K V) : M RS (smap K V) :=
  unmarshal_inserter map_insert m.
#[export] Instance Marshal_map {K V} `{Marshal K, Marshal V, Less K} : Marshal (smap K V) := {|
  dflt := SMap [];
  marshal h m := marshal_container h (map_elems m);
  unmarshal := read_map;
|}.

Lemma map_insert_all {K V} `{Less K} (l : list (K * V)) m :
  foldl (λ c x, map_insert x c) m l = SMap (insert_all fst l (map_elems m)).
Proof. revert m. induction l as [|x l IH]; intros [c]; [done|]. cbn. by rewrite IH. Qed.

#[export] Instance MarshalLaw_map {K V} `{MarshalLaw K, MarshalLaw V, HL : Less K, !LessLaw K} :
  MarshalLaw (smap K V).
Proof.
  refine {| wire (m : smap K V) := elems_wire (map_elems m);
            mwf (m : smap K V) := zlen (map_elems m) < 2 ^ 32 ∧ Forall mwf (map_elems m) ∧ ordered fst (map_elems m) |}.
  - intros h [l] (Hl & Hf & _). exact (appends_container h l Hl Hf).
  - intros [l] (Hl & Hf & Ho) rest. cbn [map_elems] in *.
    change (unmarshal dflt) with (unmarshal_inserter map_insert (SMap (K:=K) (V:=V) [])).
    rewrite (reads_inserter map_insert l (SMap []) Hl Hf rest).
    by rewrite map_insert_all, insert_all_sorted.
Defined.

Section map_spec.
  Context {K V : Type} `{LessLaw K} `{Countable K}.
  Implicit Types l c : list (K * V).

(** The finite map a [std::map] is. *)
Definition map_of (m : smap K V) : gmap K V := list_to_map (map_elems m).

Lemma not_below_none k v c : Forall (below fst (k, v)) c → (list_to_map c : gmap K V) !! k = None.
Proof.
  intros Hc. apply not_elem_of_list_to_map_1. intros (x & Hx & Hin)%list_elem_of_fmap.
  rewrite list.Forall_forall in Hc. specialize (Hc x Hin). unfold below in Hc. cbn in Hc.
  by rewrite <- Hx, less_irrefl in Hc.
Qed.

Lemma tree_insert_map k v c :
  ordered fst c →
  (list_to_map (tree_insert fst (k, v) c) : gmap K V) = list_to_map c ∪ {[k := v]}.
Proof.
  induction 1 as [|[k' v'] c Hc IH Hz]; cbn; [by rewrite (left_id_L ∅ (∪))|].
  destruct (less k k') eqn:E1; [|destruct (less k' k) eqn:E2].
  - cbn. rewrite <- insert_union_singleton_r; [done|].
    apply (not_below_none k v ((k', v') :: c)). constructor; [done|].
    eapply list.Forall_impl; [exact Hz|]. intros y Hy. by eapply less_trans.
  - cbn. by rewrite IH, insert_union_l.
  - pose proof (less_total _ _ E1 E2) as <-. cbn. apply map_eq. intros i.
    rewrite lookup_union. destruct (decide (i = k)) as [->|Hne].
    + by rewrite lookup_insert_eq, lookup_singleton_eq.
    + rewrite lookup_insert_ne, lookup_singleton_ne by done.
      by destruct ((list_to_map c : gmap K V) !! i).
Qed.

Lemma insert_all_map l c :
  ordered fst c →
  (list_to_map (insert_all fst l c) : gmap K V) = list_to_map c ∪ list_to_map l.
Proof.
  revert c. induction l as [|[k v] l IH]; intros c Hc; [cbn; by rewrite (right_id_L ∅ (∪))|].
  change (insert_all fst ((k, v) :: l) c) with (insert_all fst l (tree_insert fst (k, v) c)).
  cbn [list_to_map foldr]. rewrite IH by by apply tree_insert_ordered. rewrite tree_insert_map by done.
  by rewrite <- (assoc_L (∪)), <- insert_union_singleton_l.
Qed.

Lemma ordered_nodup c : ordered fst c → NoDup c.*1.
Proof.
  induction 1 as [|x c Hc IH Hx]; cbn; constructor; [|done].
  intros (y & Hy & Hin)%list_elem_of_fmap. rewrite list.Forall_forall in Hx. specialize (Hx y Hin).
  unfold below in Hx. by rewrite Hy, less_irrefl in Hx.
Qed.

(** Two maps that hold the same are the same on the wire. *)
Lemma map_of_inj (m1 m2 : smap K V) :
  ordered fst (map_elems m1) → ordered fst (map_elems m2) → map_of m1 = map_of m2 → m1 = m2.
Proof.
  destruct m1 as [c1], m2 as [c2]. intros Ho1 Ho2 E. f_equal. cbn in *.
  apply list_to_map_inj in E; [|by apply ordered_nodup..].
  revert c2 Ho2 E. induction Ho1 as [|x c1 Hc1 IH Hx]; intros c2 Ho2 E.
  { by apply Permutation_nil_l in E. }
  destruct Ho2 as [|y c2 Hc2 Hy]; [by apply Permutation_nil_r in E|].
  assert (x = y) as <-.
  { rewrite list.Forall_forall in Hx, Hy.
    assert (Hxin : x ∈ y :: c2) by (rewrite <- E; left).
    assert (Hyin : y ∈ x :: c1) by (rewrite E; left).
    apply elem_of_cons in Hxin as [|Hxin]; [done|]. apply elem_of_cons in Hyin as [|Hyin]; [done|].
    pose proof (less_trans _ _ _ (Hx _ Hyin) (Hy _ Hxin)) as F. by rewrite less_irrefl in F. }
  f_equal. apply IH; [done|]. by apply (inj (cons x)) in E.
Qed.
End map_spec.

(** C14: [>>] into a map keeps what the map held, adds each pair whose key is new, and
    of several pairs with one key in the stream takes the first, in whatever order they come. *)
Theorem map_read_merges {K V} `{MarshalLaw K, MarshalLaw V, Less K, !LessLaw K, Countable K}
    (l : list (K * V)) (old : smap K V) :
  zlen l < 2 ^ 32 → Forall mwf l → ordered fst (map_elems old) →
  ∃ m, reads (unmarshal old) (elems_wire l) m ∧ ordered fst (map_elems m) ∧
    map_of m = map_of old ∪ list_to_map l.
Proof.
  intros Hl Hf Ho. exists (SMap (insert_all fst l (map_elems old))). split_and!.
  - pose proof (reads_inserter map_insert l old Hl Hf) as Hr. by rewrite map_insert_all in Hr.
  - by apply insert_all_ordered.
  - by apply insert_all_map.
Qed.

Definition demo_map : smap string (uint 32) := SMap [("bob"%string, U 7)].
Definition demo_pairs : list (string * uint 32) :=
  [("carol"%string, U 3); ("alice"%string, U 1); ("bob"%string, U 9); ("alice"%string, U 2)].

Lemma map_read_merges_witness :
  ∃ m, reads (unmarshal demo_map)
         (elems_wire demo_pairs) m ∧
    ordered fst (map_elems m) ∧
    map_of m = map_of demo_map ∪ list_to_map demo_pairs.
Proof.
  apply (map_read_merges demo_pairs demo_map).
  - reflexivity.
  - repeat constructor; vm_compute; congruence.
  - repeat constructor.
Defined.

(** ** [proto::Varstr]: a pointer and a size *)

Record Varstr := mkVarstr { vs_data : list byte }.
Definition Varstr_set (data : list byte) (size : Z) : Varstr := mkVarstr (ztake size data).
Definition vs_size (v : Varstr) : Z := zlen (vs_data v).
Definition vs_empty (v : Varstr) : bool := vs_size v =? 0.

Definition read_Varstr : M RS Varstr := vs ← readVarstr_ptr; mret (mkVarstr vs).
#[export] Instance Marshal_Varstr : Marshal Varstr := {|
  dflt := Varstr_set [] 0;
  marshal h v := writeVarstr h (vs_data v);
  unmarshal _ := read_Varstr;
|}.
#[export] Instance MarshalLaw_Varstr : MarshalLaw Varstr.
Proof.
  refine {| wire (v : Varstr) := varstr_wire (vs_data v); mwf (v : Varstr) := vs_size v <= 0xFFFF |}.
  - intros h [l] Hl. exact (appends_varstr h l Hl).
  - intros [l] Hl. exact (reads_map _ mkVarstr _ _ (reads_varstr l Hl)).
Defined.

(** ** [std::wstring] *)

Record wstring := WS { code_units : list Z }.
Definition read_wstring : M RS wstring := ws ← readVarwstring32; mret (WS ws).
#[export] Instance Marshal_wstring : Marshal wstring := {|
  dflt := WS [];
  marshal h ws := writeVarwstring32 h (code_units ws);
  unmarshal _ := read_wstring;
|}.

Lemma zlen_wstring_mem ws : zlen (wstring_mem ws) = 4 * zlen ws.
Proof.
  unfold wstring_mem. induction ws as [|w ws IH]; [done|].
  rewrite bind_cons, zlen_app, IH, zlen_cons. change (zlen (le_bytes 4 w)) with 4. lia.
Qed.

(** What [<<] writes of [n] wide characters: the length [2 n], and the first [2 n] of their
    [4 n] bytes. *)
Definition wstring_wire (ws : list Z) : list byte :=
  be_bytes 4 (2 * zlen ws) ++ ztake (2 * zlen ws) (wstring_mem ws).

Lemma appends_wstring h ws :
  2 * zlen ws < 2 ^ 32 → appends h (marshal h (WS ws)) (wstring_wire ws).
Proof.
  intros Hl. pose proof (zlen_nonneg ws). cbn [marshal Marshal_wstring code_units].
  unfold writeVarwstring32, wstring_wire. rewrite uwrap_small by (unfold in_u; lia).
  rewrite (Z.mul_comm (zlen ws)). apply appends_bind; [apply appends_uint32; unfold in_u; lia|apply appends_write].
Qed.

(** [<<] writes half of the memory of a wide string, so a string that is not empty is
    never read back from its own bytes: [>>] takes as many characters as were written
    from half as many bytes, and reads [2 n] bytes of whatever follows; when less follows,
    it reads outside the stream. *)
Lemma wstring_not_read_back h s ws rest :
  heap_avail h → ws ≠ [] → 4 + 2 * zlen ws <= maxsize → zlen rest < 2 * zlen ws →
  PacketToString h s (WS ws) = Ok (string_of (wstring_wire ws)) ∧
  unmarshal (dflt : wstring) (wstring_wire ws ++ rest) = (Throw Undefined, rest).
Proof.
  intros Hh Hne%zlen_pos Hsz Hrest.
  assert (Hmax : maxsize < 2 ^ 31) by apply maxsize_bound.
  assert (Hw : zlen (wstring_wire ws) = 4 + 2 * zlen ws).
  { unfold wstring_wire. rewrite zlen_app, zlen_be_bytes, zlen_ztake; [lia|]. rewrite zlen_wstring_mem. lia. }
  split.
  - apply PacketToString_appends; [done| |lia]. apply appends_wstring. lia.
  - cbn [unmarshal Marshal_wstring]; unfold read_wstring. erewrite bind_Throw; [reflexivity|].
    unfold readVarwstring32, readVarstr32_ptr, wstring_wire. rewrite <- app_assoc.
    erewrite bind_Ok by (apply reads_uint32; unfold in_u; lia).
    set (vs := ztake _ _).
    assert (Hvs : zlen vs = 2 * zlen ws) by (unfold vs; rewrite zlen_ztake; [done|rewrite zlen_wstring_mem; lia]).
    rewrite <- Hvs. rewrite (reads_pop_fetch vs rest). rewrite Hvs.
    rewrite (Z.mul_comm 2), Z.div_mul by lia.
    by destruct (Z.ltb_spec (zlen ws * 2 + zlen rest) (4 * zlen ws)); [|lia].
Qed.

Lemma wstring_not_read_back_witness :
  PacketToString wheap (mkStats 0 0) (WS [0x48; 0x69]) =
    Ok (string_of [x00; x00; x00; x04; x48; x00; x00; x00]) ∧
  unmarshal (dflt : wstring) (wstring_wire [0x48; 0x69] ++ []) = (Throw Undefined, []).
Proof.
  apply (wstring_not_read_back wheap (mkStats 0 0) [0x48; 0x69] []).
  - done.
  - congruence.
  - vm_compute. congruence.
  - reflexivity.
Defined.

(** When enough follows, the second half of the string is made of it. *)
Lemma wstring_reads_what_follows ws rest :
  2 * zlen ws < 2 ^ 32 → 2 * zlen ws <= zlen rest →
  unmarshal (dflt : wstring) (wstring_wire ws ++ rest) =
    (Ok (WS (wchars (length ws) (ztake (2 * zlen ws) (wstring_mem ws) ++ rest))), rest).
Proof.
  intros Hl Hrest. pose proof (zlen_nonneg ws). cbn [unmarshal Marshal_wstring]; unfold read_wstring.
  assert (E : readVarwstring32 (wstring_wire ws ++ rest) =
    (Ok (wchars (length ws) (ztake (2 * zlen ws) (wstring_mem ws) ++ rest)), rest)).
  { unfold readVarwstring32, readVarstr32_ptr, wstring_wire. rewrite <- app_assoc.
    erewrite bind_Ok by (apply reads_uint32; unfold in_u; lia).
    set (vs := ztake _ _).
    assert (Hvs : zlen vs = 2 * zlen ws) by (unfold vs; rewrite zlen_ztake; [done|rewrite zlen_wstring_mem; lia]).
    rewrite <- Hvs at 1. rewrite (reads_pop_fetch vs rest). rewrite Hvs.
    rewrite (Z.mul_comm 2), Z.div_mul by lia.
    destruct (Z.ltb_spec (zlen ws * 2 + zlen rest) (4 * zlen ws)); [lia|].
    unfold zlen at 1. by rewrite Nat2Z.id. }
  by erewrite bind_Ok by exact E.
Qed.

(** ** Packets

    The types a packet is built of: [bool], the unsigned integers, [std::string],
    [proto::Varstr], pairs, vectors, and sets and maps keyed by an integer or a string. *)

Inductive kty := KU8 | KU16 | KU32 | KU64 | KStr.
Inductive pty := PBool | PKey (k : kty) | PVarstr | PPair (a b : pty)
  | PVec (a : pty) | PSet (k : kty) | PMap (k : kty) (v : pty).

Definition ktype (k : kty) : Type :=
  match k with KU8 => uint 8 | KU16 => uint 16 | KU32 => uint 32 | KU64 => uint 64 | KStr => string end.
Fixpoint ptype (t : pty) : Type :=
  match t with
  | PBool => bool | PKey k => ktype k | PVarstr => Varstr
  | PPair a b => ptype a * ptype b
  | PVec a => list (ptype a) | PSet k => sset (ktype k) | PMap k v => smap (ktype k) (ptype v)
  end.

#[export] Instance kmarshal k : Marshal (ktype k) :=
  match k with
  | KU8 => Marshal_u8 | KU16 => Marshal_u16 | KU32 => Marshal_u32 | KU64 => Marshal_u64
  | KStr => Marshal_string
  end.
#[export] Instance kless k : Less (ktype k) :=
  match k with
  | KU8 => Less_uint 8 | KU16 => Less_uint 16 | KU32 => Less_uint 32 | KU64 => Less_uint 64
  | KStr => Less_string
  end.
#[export] Instance pmarshal : ∀ t, Marshal (ptype t) :=
  fix go t := match t with
  | PBool => Marshal_bool | PKey k => kmarshal k | PVarstr => Marshal_Varstr
  | PPair a b => @Marshal_pair _ _ (go a) (go b)
  | PVec a => @Marshal_vector _ (go a)
  | PSet k => @Marshal_set _ (kmarshal k) (kless k)
  | PMap k v => @Marshal_map _ _ (kmarshal k) (go v) (kless k)
  end.

(** The bytes of a value: integers big-endian at their width, strings after a 16-bit
    length, containers after a 32-bit count, in the order of their iterators. *)
Definition kpacket k : ktype k → list byte :=
  match k with
  | KU8 => λ x, be_bytes 1 (uval x) | KU16 => λ x, be_bytes 2 (uval x)
  | KU32 => λ x, be_bytes 4 (uval x) | KU64 => λ x, be_bytes 8 (uval x)
  | KStr => λ x, be_bytes 2 (zlen (bytes_of x)) ++ bytes_of x
  end.
Definition counted {A} (f : A → list byte) (l : list A) : list byte := be_bytes 4 (zlen l) ++ (l ≫= f).
Fixpoint packet t : ptype t → list byte :=
  match t with
  | PBool => λ x, be_bytes 1 (if x then 1 else 0)
  | PKey k => kpacket k
  | PVarstr => λ x, be_bytes 2 (zlen (vs_data x)) ++ vs_data x
  | PPair a b => λ x, packet a x.1 ++ packet b x.2
  | PVec a => λ x, counted (packet a) x
  | PSet k => λ x, counted (kpacket k) (set_elems x)
  | PMap k v => λ x, counted (λ e, kpacket k e.1 ++ packet v e.2) (map_elems x)
  end.

(** The values C++ has of a type, with strings of at most 65535 bytes and fewer than 2^32
    elements in each container. *)
Definition kstorable k : ktype k → Prop :=
  match k with
  | KU8 => λ x, in_u 8 (uval x) | KU16 => λ x, in_u 16 (uval x)
  | KU32 => λ x, in_u 32 (uval x) | KU64 => λ x, in_u 64 (uval x)
  | KStr => λ x, zlen (bytes_of x) <= 0xFFFF
  end.
Fixpoint storable t : ptype t → Prop :=
  match t with
  | PBool => λ _, True
  | PKey k => kstorable k
  | PVarstr => λ x, zlen (vs_data x) <= 0xFFFF
  | PPair a b => λ x, storable a x.1 ∧ storable b x.2
  | PVec a => λ x, zlen x < 2 ^ 32 ∧ Forall (storable a) x
  | PSet k => λ x, zlen (set_elems x) < 2 ^ 32 ∧ Forall (kstorable k) (set_elems x) ∧
      ordered id (set_elems x)
  | PMap k v => λ x, zlen (map_elems x) < 2 ^ 32 ∧
      Forall (λ e, kstorable k e.1 ∧ storable v e.2) (map_elems x) ∧ ordered fst (map_elems x)
  end.

#[export] Instance klessLaw k : LessLaw (ktype k).
Proof. destruct k; [apply LessLaw_uint..|apply LessLaw_string]. Defined.
#[export] Instance kLaw k : MarshalLaw (ktype k).
Proof.
  destruct k; [apply MarshalLaw_u8|apply MarshalLaw_u16|apply MarshalLaw_u32
              |apply MarshalLaw_u64|apply MarshalLaw_string].
Defined.
#[export] Instance pLaw t : MarshalLaw (ptype t).
Proof.
  induction t; cbn [ptype pmarshal].
  - apply MarshalLaw_bool.
  - apply kLaw.
  - apply MarshalLaw_Varstr.
  - by apply MarshalLaw_pair.
  - by apply MarshalLaw_vector.
  - apply MarshalLaw_set.
  - by apply MarshalLaw_map.
Defined.

(** [packet] and [storable] are what the instances of the overloads compose to. *)
Lemma kpacket_wire k x : wire x = kpacket k x.
Proof. by destruct k. Qed.
Lemma kstorable_mwf k x : mwf x = kstorable k x.
Proof. by destruct k. Qed.
Lemma counted_ext {A} (f g : A → list byte) l : (∀ x, f x = g x) → counted f l = counted g l.
Proof. intros E. unfold counted. f_equal. by apply list_bind_ext. Qed.
Lemma packet_wire t x : wire x = packet t x.
Proof.
  induction t as [|k| |a IHa b IHb|a IHa|k|k v IHv].
  - done.
  - apply kpacket_wire.
  - done.
  - exact (f_equal2 app (IHa x.1) (IHb x.2)).
  - exact (counted_ext _ _ x IHa).
  - exact (counted_ext _ _ (set_elems x) (kpacket_wire k)).
  - exact (counted_ext _ _ (map_elems x) (λ e, f_equal2 app (kpacket_wire k e.1) (IHv e.2))).
Qed.
Lemma storable_mwf t x : storable t x → mwf x.
Proof.
  induction t as [|k| |a IHa b IHb|a IHa|k|k v IHv]; cbn.
  - done.
  - by rewrite kstorable_mwf.
  - done.
  - intros [? ?]. split; [by apply IHa|by apply IHb].
  - intros [? Hx]. split; [done|]. by eapply list.Forall_impl; [exact Hx|].
  - intros (? & Hx & ?). split_and!; [done| |done].
    eapply list.Forall_impl; [exact Hx|]. intros y. by rewrite <- kstorable_mwf.
  - intros (? & Hx & ?). split_and!; [done| |done].
    eapply list.Forall_impl; [exact Hx|]. intros [y z] [Hy Hz]; cbn in *.
    split; [by rewrite kstorable_mwf|by apply IHv].
Qed.

(** C33: for every type built of [bool], the unsigned integers, [std::string], [Varstr],
    pairs, vectors, sets and maps, [PacketToString] of a value that fits the buffer is
    exactly [packet t x], and [StringToPacket] of that string gives the value back. *)
Theorem packet_round_trip (t : pty) (h : Heap) (s : BlockStats) (x : ptype t) :
  heap_avail h → storable t x → zlen (packet t x) <= maxsize →
  PacketToString h s x = Ok (string_of (packet t x)) ∧
  StringToPacket (string_of (packet t x)) (dflt : ptype t) = Ok (true, x).
Proof.
  intros Hh Hx%storable_mwf Hsz. rewrite <- packet_wire in *. split.
  - by apply PacketToString_appends; [|apply marshal_wire|].
  - by apply StringToPacket_reads, unmarshal_wire.
Qed.

Definition wledger : ptype (PMap KStr (PPair (PVec (PKey KU32)) (PSet KU16))) :=
  SMap [("alice"%string, ([U 500; U 7], SSet [U 1; U 2])); ("bob"%string, ([], SSet []))].

Lemma packet_round_trip_witness :
  PacketToString wheap (mkStats 0 0) wledger = Ok (string_of (packet _ wledger)) ∧
  StringToPacket (string_of (packet _ wledger)) (dflt : ptype (PMap KStr (PPair (PVec (PKey KU32)) (PSet KU16))))
    = Ok (true, wledger).
Proof.
  apply (packet_round_trip _ wheap (mkStats 0 0) wledger).
  - done.
  - cbn. repeat first [split | constructor]; cbn; unfold in_u; try lia; vm_compute; congruence.
  - vm_compute. congruence.
Defined.
