(* ===== verification/Sender.v ===== *)
(** * Sender.v: outgoing messages ([core/base/Header.h], [Sender.cpp], [JsonSender.cpp])

    A [Sender] owns a [PackBuffer] and two write streams on it: [hpk] at offset 0
    for the header and [pk] behind the nine header bytes for the body.  The
    theorems give the bytes a finished message holds, show that packing twice
    is harmless for [JsonSender] (the code packs every answer twice), and that
    the base class, whose header is ten bytes long, overwrites the first byte
    of the body. *)

From S2P Require Import Prelude BlockBuffer ByteStream.

Definition HEADER_SIZE : Z := 9.
Definition JSON_HEADER_SIZE : Z := 8.

(** [struct Header]; its members are not initialised, so a new one takes their values from the caller. *)
Record Header := mkHeader { len : Z; uri : Z; resCode : Z; appId : Z }.

(** A [Marshallable] object is what its [marshal] does to the buffer of a stream. *)
Definition Marshallable : Type := Heap → M BState unit.

Record Sender := mkSender {
  pb : BState;
  hpk : Z;          (** [m_offset] of the header stream *)
  pk : Z;           (** [m_offset] of the body stream *)
  hdr : Header;
  sessionId : Z;    (** member of [JsonSender] *)
}.

Definition set_pb (s : Sender) (p : BState) : Sender := mkSender p (hpk s) (pk s) (hdr s) (sessionId s).
Definition set_hdr (s : Sender) (d : Header) : Sender := mkSender (pb s) (hpk s) (pk s) d (sessionId s).

(** An operation of the shared [PackBuffer]. *)
Definition on_pb {A} (m : M BState A) : M Sender A := λ s,
  let (r, p) := m (pb s) in (r, set_pb s p).

Section sender.
  Context (h : Heap).

(** [Sender::Sender(uint32_t head_size)]: [pb(), hpk(pb), pk(pb, head_size)]. *)
Definition Sender_new (junk : Header) (st : BlockStats) (head_size : Z) : res Sender :=
  match (o1 ← BinWriteStream_new h 0; o2 ← BinWriteStream_new h head_size; mret (o1, o2))
          (new_BlockBuffer, st) with
  | (Ok (o1, o2), p) => Ok (mkSender p o1 o2 junk 0)
  | (Throw e, _) => Throw e
  end.

Definition setUri (u : Z) : M Sender unit :=
  modify (λ s, set_hdr s (mkHeader (len (hdr s)) u (resCode (hdr s)) (appId (hdr s)))).

Definition marshall (u : Z) (m : Marshallable) : M Sender unit :=
  setUri u ;; on_pb (m h).

(** [Sender(uri_t, const Marshallable &)] *)
Definition Sender_obj (junk : Header) (st : BlockStats) (u : Z) (m : Marshallable) : res Sender :=
  s ← Sender_new junk st HEADER_SIZE;
  match marshall u m s with
  | (Ok _, s') => Ok s'
  | (Throw e, _) => Throw e
  end.

Definition body (s : Sender) : list byte := bws_data (pk s) (pb s).
Definition bodySize (s : Sender) : Z := bws_size (pk s) (pb s).
Definition header (s : Sender) : list byte := bws_data (hpk s) (pb s).
Definition headerSize : Z := HEADER_SIZE.

(** [Sender::endPack] *)
Definition endPack : M Sender unit := λ s,
  (on_pb (replaceUint32 h 0 (u32 (len (hdr s)))) ;;
   on_pb (replaceUint32 h 4 (uri (hdr s))) ;;
   on_pb (replaceUint16 h 8 (appId (hdr s))) ;;
   s' ← get;
   on_pb (replaceUint32 h 0 (u32 (headerSize + bodySize s'))) ;;
   mret tt) s.

(** [Sender::clear] *)
Definition clear : M Sender unit :=
  on_pb (pb_resize h (0 + HEADER_SIZE)) ;;
  modify (λ s, set_hdr s (mkHeader (len (hdr s)) (uri (hdr s)) 200 0)).

(** The other overloads of [marshall]. *)
Definition marshall_obj (m : Marshallable) : M Sender unit := on_pb (m h).
Definition marshall_bytes (data : list byte) : M Sender unit := on_pb (writeByte h data).
Definition marshall_string (u : Z) (str : string) : M Sender unit :=
  setUri u ;; on_pb (writeByte h (bytes_of str)).

(** [Sender(uri_t, const std::string &)] *)
Definition Sender_string (junk : Header) (st : BlockStats) (u : Z) (str : string) : res Sender :=
  s ← Sender_new junk st HEADER_SIZE;
  match marshall_string u str s with
  | (Ok _, s') => Ok s'
  | (Throw e, _) => Throw e
  end.

(** [writeByte(s.pk.data(), s.pk.size())]: the size is a [size_t], so a body that is shorter than
    the offset of its stream has a huge one and the copy leaves the memory of [s]. *)
Definition write_body (s : Sender) : M Sender unit :=
  if bodySize s =? zlen (body s) then marshall_bytes (body s) else throw Undefined.

(** The copy constructor: [appId] keeps what the memory held. *)
Definition Sender_copy (junk : Header) (st : BlockStats) (s : Sender) : res Sender :=
  r ← Sender_new junk st HEADER_SIZE;
  match write_body s (set_hdr r (mkHeader (len (hdr s)) (uri (hdr s)) (resCode (hdr s)) (appId (hdr r)))) with
  | (Ok _, r') => Ok r'
  | (Throw e, _) => Throw e
  end.

(** [operator=], for two different objects. *)
Definition Sender_assign (sender : Sender) : M Sender unit :=
  modify (λ s, set_hdr s (mkHeader (len (hdr sender)) (uri (hdr sender)) (resCode (hdr sender)) (appId (hdr s)))) ;;
  on_pb (pb_resize h 0) ;;
  write_body sender.

(** *** JsonSender *)

Definition with_session (ss : Z) (s : Sender) : Sender :=
  mkSender (pb s) (hpk s) (pk s) (hdr s) (u32 ss).

(** [JsonSender(uri, obj)]: the session is [-1]. *)
Definition JsonSender_obj (junk : Header) (st : BlockStats) (u : Z) (m : Marshallable) : res Sender :=
  s ← Sender_obj junk st u m; mret (with_session (-1) s).

(** [JsonSender(s, uri, obj)]: the base constructor has marshalled [obj] already. *)
Definition JsonSender_session (junk : Header) (st : BlockStats) (ss u : Z) (m : Marshallable) : res Sender :=
  s ← Sender_obj junk st u m;
  match (setUri u ;; marshall u m) (with_session ss s) with
  | (Ok _, s') => Ok s'
  | (Throw e, _) => Throw e
  end.

(** [JsonSender::endPack] *)
Definition json_endPack : M Sender unit := λ s,
  (on_pb (replaceUint32 h 0 (sessionId s)) ;;
   on_pb (replaceUint32 h 4 (u32 (len (hdr s)))) ;;
   on_pb (replaceUint8 h 8 (uri (hdr s))) ;;
   s' ← get;
   on_pb (replaceUint32 h 4 (u32 (1 + bodySize s'))) ;;
   mret tt) s.

(** [AbstractConn::send]: packs, and hands [headerSize() + bodySize()] bytes from
    [header()] on to [sendBin]. *)
Definition send_bytes : M Sender (list byte) :=
  json_endPack ;;
  gets (λ s, ztake (headerSize + bodySize s) (header s)).

(** [DirectWriter::answer] up to [conn->send]: the message is packed a first time. *)
Definition answer_bytes (junk : Header) (st : BlockStats) (u : Z) (m : Marshallable) : res (list byte) :=
  s ← JsonSender_obj junk st u m;
  match (json_endPack ;; send_bytes) s with
  | (Ok bs, _) => Ok bs
  | (Throw e, _) => Throw e
  end.

End sender.

(** ** The wire format of one JSON message *)

Definition json_frame (ss u : Z) (bd : list byte) : list byte :=
  be_bytes 4 ss ++ be_bytes 4 (1 + zlen bd) ++ be_bytes 1 u ++ bd.

Lemma zlen_json_frame ss u bd : zlen (json_frame ss u bd) = 9 + zlen bd.
Proof. unfold json_frame. rewrite !zlen_app, !zlen_be_bytes. lia. Qed.

(** ** Lemmas *)

(** A sender whose streams and buffer are laid out as the constructors lay them out. *)
Record sender_wf (s : Sender) (hd bd : list byte) : Prop := {
  swf_bb : bb_wf (fst (pb s));
  swf_content : content (fst (pb s)) = hd ++ bd;
  swf_hd : zlen hd = HEADER_SIZE;
  swf_hpk : hpk s = 0;
  swf_pk : pk s = HEADER_SIZE;
}.

Lemma size_bound b : bb_wf b → 0 <= m_size b < 2 ^ 31.
Proof.
  intros Hwf. pose proof (capacity_le_max b Hwf). pose proof maxsize_bound.
  destruct Hwf. unfold maxsize in *. lia.
Qed.

(** Replacing inside the buffer never allocates and never fails. *)
Lemma bws_replace_inside h pos data b s :
  bb_wf b → 0 <= pos → 0 < zlen data → pos + zlen data <= m_size b →
  ∃ b', bws_replace h pos data (b, s) = (Ok (pos + zlen data), (b', s)) ∧ bb_wf b' ∧
    content b' = ztake pos (content b) ++ data ++ zdrop (pos + zlen data) (content b).
Proof.
  intros Hwf Hpos Hd Hin. pose proof (size_bound b Hwf).
  unfold bws_replace, pb_replace, pb_check, mbind, M_bind.
  destruct (bb_replace h pos data (b, s)) as [ok [b' s']] eqn:E.
  pose proof E as Espec.
  apply bb_replace_spec in Espec; [|done|lia|lia].
  unfold replace_list in Espec. rewrite length_content in Espec by done.
  destruct (Z.leb_spec (m_size b) pos); [lia|].
  assert (ok = true ∧ s' = s) as [-> ->].
  { unfold bb_replace in E. rewrite uwrap_small in E by (unfold in_u; lia).
    destruct (Z.leb_spec (m_size b) pos); [lia|].
    destruct (Z.leb_spec (m_size b) (pos + zlen data)).
    - unfold append, increase_capacity in E.
      destruct (Z.eqb_spec (zlen data) 0); [lia|].
      unfold freespace, capacity in E. cbn in E. pose proof Hwf as []. unfold capacity in *.
      destruct (Z.leb_spec (zlen data) (m_block b * (16 * 1024) - pos)) as [|Hx].
      + by injection E.
      + cbn in *. lia.
    - destruct (Z.ltb_spec 0 (zlen data)); [by injection E|lia]. }
  destruct Espec. exists b'. by split_and!.
Qed.

Lemma on_pb_replace h s hd bd pos data :
  sender_wf s hd bd → 0 <= pos → 0 < zlen data → pos + zlen data <= HEADER_SIZE →
  ∃ s', on_pb (bws_replace h pos data) s = (Ok (pos + zlen data), s') ∧
    sender_wf s' (ztake pos hd ++ data ++ zdrop (pos + zlen data) hd) bd ∧
    hdr s' = hdr s ∧ sessionId s' = sessionId s.
Proof.
  intros [Hbb Hc Hhd Hh Hp] Hpos Hd Hin. unfold HEADER_SIZE in *.
  destruct (pb s) as [b st] eqn:Epb. cbn [fst] in *.
  assert (m_size b = 9 + zlen bd) as Hsz.
  { rewrite <- (length_content b), Hc, zlen_app by done. lia. }
  pose proof (zlen_nonneg bd).
  destruct (bws_replace_inside h pos data b st) as (b' & E & Hwf' & Hc'); [done|lia..|].
  exists (set_pb s (b', st)). unfold on_pb. rewrite Epb, E. split_and!; [done| |done..].
  split; cbn; [done| | |done|done].
  - rewrite Hc', Hc, ztake_app_le, zdrop_app_le by lia. by rewrite <- !app_assoc.
  - rewrite !zlen_app, zlen_ztake, zlen_zdrop by lia. unfold HEADER_SIZE. lia.
Qed.

Lemma sender_bodySize s hd bd : sender_wf s hd bd → bodySize s = zlen bd.
Proof.
  intros [Hbb Hc Hhd _ Hp]. unfold bodySize, bws_size.
  rewrite <- (length_content (fst (pb s))), Hc, Hp, zlen_app by done.
  pose proof (size_bound _ Hbb) as Hs. rewrite <- (length_content (fst (pb s))), Hc, zlen_app in Hs by done.
  unfold HEADER_SIZE in *. pose proof (zlen_nonneg bd).
  rewrite uwrap_small by (unfold in_u; lia). lia.
Qed.

Lemma sender_body_bound s hd bd : sender_wf s hd bd → zlen bd < 2 ^ 31 - 9.
Proof.
  intros [Hbb Hc Hhd _ _]. pose proof (size_bound _ Hbb) as Hs.
  rewrite <- (length_content (fst (pb s))), Hc, zlen_app in Hs by done. unfold HEADER_SIZE in *. lia.
Qed.

(** The nine header bytes as [JsonSender::endPack] leaves them. *)
Definition json_header (ss u n : Z) : list byte := be_bytes 4 ss ++ be_bytes 4 (1 + n) ++ be_bytes 1 u.

Lemma json_header_frame ss u bd : json_header ss u (zlen bd) ++ bd = json_frame ss u bd.
Proof. unfold json_header, json_frame. by rewrite <- !app_assoc. Qed.

(** A list of nine bytes, byte by byte. *)
Lemma nine_bytes (l : list byte) :
  zlen l = HEADER_SIZE → ∃ a b c d e f g i j, l = [a; b; c; d; e; f; g; i; j].
Proof.
  unfold zlen, HEADER_SIZE. intros H.
  do 9 (destruct l as [|? l]; [simpl in H; lia|]). destruct l; [|simpl in H; lia]. eauto 20.
Qed.

Lemma zlen_le_bytes n v : zlen (le_bytes n v) = Z.of_nat n.
Proof. unfold zlen. by rewrite length_le_bytes. Qed.

(** Runs a header replacement of the goal and names the sender it leaves. *)
Ltac run_replace Hwf s' Hwf' Hh' Hs' :=
  match type of Hwf with sender_wf ?s ?hd ?bd =>
    match goal with |- context [bws_replace ?h ?pos ?data] =>
      let E := fresh "E" in
      destruct (on_pb_replace h s hd bd pos data Hwf) as (s' & E & Hwf' & Hh' & Hs');
      [lia | by rewrite zlen_le_bytes | rewrite zlen_le_bytes; unfold HEADER_SIZE; lia |];
      rewrite zlen_le_bytes in E, Hwf';
      erewrite bind_Ok by exact E
    end
  end.

Lemma json_endPack_wf h s hd bd :
  sender_wf s hd bd → in_u 32 (sessionId s) → in_u 8 (uri (hdr s)) →
  ∃ s', json_endPack h s = (Ok tt, s') ∧
    sender_wf s' (json_header (sessionId s) (uri (hdr s)) (zlen bd)) bd ∧
    hdr s' = hdr s ∧ sessionId s' = sessionId s.
Proof.
  intros Hwf Hss Hu. unfold json_endPack, replaceUint32, replaceUint8.
  pose proof (sender_body_bound _ _ _ Hwf). pose proof (zlen_nonneg bd).
  run_replace Hwf s1 Hwf1 Hh1 Hs1.
  run_replace Hwf1 s2 Hwf2 Hh2 Hs2.
  run_replace Hwf2 s3 Hwf3 Hh3 Hs3.
  erewrite bind_Ok by reflexivity.
  rewrite (sender_bodySize _ _ _ Hwf3).
  run_replace Hwf3 s4 Hwf4 Hh4 Hs4.
  exists s4. split; [done|]. split_and!; [|congruence..].
  enough (json_header (sessionId s) (uri (hdr s)) (zlen bd) = _) as -> by exact Hwf4.
  rewrite (uwrap_small 32 (1 + zlen bd)) by (unfold in_u; lia).
  rewrite !le_bytes_XHTONL by (done || (unfold in_u; lia) || by apply uwrap_range).
  destruct (nine_bytes hd) as (a & b & c & d & e & f & g & i & j & ->); [by apply Hwf|].
  reflexivity.
Qed.

(** Packing twice gives the bytes of packing once. *)
Lemma json_endPack_idempotent h s hd bd :
  sender_wf s hd bd → in_u 32 (sessionId s) → in_u 8 (uri (hdr s)) →
  ∃ s' s'', json_endPack h s = (Ok tt, s') ∧ json_endPack h s' = (Ok tt, s'') ∧
    content (fst (pb s'')) = content (fst (pb s')) ∧
    content (fst (pb s')) = json_frame (sessionId s) (uri (hdr s)) bd.
Proof.
  intros Hwf Hss Hu.
  destruct (json_endPack_wf h s hd bd Hwf Hss Hu) as (s1 & E1 & Hwf1 & Hh1 & Hs1).
  destruct (json_endPack_wf h s1 _ bd Hwf1) as (s2 & E2 & Hwf2 & _); [congruence..|].
  exists s1, s2. split_and!; [done..| |].
  - rewrite (swf_content _ _ _ Hwf2), (swf_content _ _ _ Hwf1). by rewrite Hs1, Hh1.
  - by rewrite (swf_content _ _ _ Hwf1), json_header_frame.
Qed.

Lemma send_bytes_wf h s hd bd :
  sender_wf s hd bd → in_u 32 (sessionId s) → in_u 8 (uri (hdr s)) →
  ∃ s', send_bytes h s = (Ok (json_frame (sessionId s) (uri (hdr s)) bd), s') ∧
    ∃ hd', sender_wf s' hd' bd.
Proof.
  intros Hwf Hss Hu.
  destruct (json_endPack_wf h s hd bd Hwf Hss Hu) as (s1 & E1 & Hwf1 & Hh1 & Hs1).
  exists s1. split; [|by eexists]. unfold send_bytes. step_bind E1.
  unfold gets, header, bws_data. rewrite (swf_hpk _ _ _ Hwf1), zdrop_0.
  rewrite (swf_content _ _ _ Hwf1), json_header_frame.
  rewrite (sender_bodySize _ _ _ Hwf1). unfold headerSize, HEADER_SIZE.
  rewrite ztake_all; [done|]. rewrite zlen_json_frame. lia.
Qed.

(** A new sender: nine zero bytes and no body. *)
Lemma Sender_new_wf h junk st :
  heap_avail h →
  ∃ s, Sender_new h junk st HEADER_SIZE = Ok s ∧
    sender_wf s (replicate 9 x00) [] ∧ hdr s = junk ∧ sessionId s = 0.
Proof.
  intros Hh. unfold Sender_new.
  destruct (BinWriteStream_new_spec h 0 new_BlockBuffer st Hh new_BlockBuffer_wf)
    as (b1 & s1 & E1 & Hwf1 & Hc1); [done..|].
  step_bind E1.
  assert (m_size b1 = 0) as Hz.
  { rewrite <- (length_content b1), Hc1 by done. done. }
  destruct (BinWriteStream_new_spec h HEADER_SIZE b1 s1 Hh Hwf1)
    as (b2 & s2 & E2 & Hwf2 & Hc2); [done|rewrite Hz; done|].
  step_bind E2. eexists. split; [done|]. split; [|done].
  split; cbn; [done| |done|done|by rewrite Hz].
  by rewrite Hc2, Hc1.
Qed.

(** A JSON message whose body bytes are [bd]. *)
Definition appends_body (m : Marshallable) (bd : list byte) : Prop := ∀ h, appends h (m h) bd.

Lemma setUri_run u s : setUri u s = (Ok tt, set_hdr s (mkHeader (len (hdr s)) u (resCode (hdr s)) (appId (hdr s)))).
Proof. done. Qed.

Lemma marshall_wf h s hd bd u m bd' :
  heap_avail h → sender_wf s hd bd → appends_body m bd' →
  HEADER_SIZE + zlen bd + zlen bd' <= maxsize →
  ∃ s', marshall h u m s = (Ok tt, s') ∧ sender_wf s' hd (bd ++ bd') ∧
    uri (hdr s') = u ∧ sessionId s' = sessionId s.
Proof.
  intros Hh [Hbb Hc Hhd Hhp Hpk] Hm Hsz. unfold marshall. erewrite bind_Ok by apply setUri_run.
  unfold on_pb; cbn [pb set_hdr].
  destruct (pb s) as [b st] eqn:Epb. cbn [fst] in *.
  destruct (Hm h b st) as (b' & st' & E & Hwf' & Hc'); [done..| |].
  { rewrite <- (length_content b), Hc, zlen_app by done. lia. }
  rewrite E. eexists. split; [done|]. split; [|done].
  split; cbn; [done| |done..]. by rewrite Hc', Hc, <- app_assoc.
Qed.

Lemma JsonSender_obj_wf h junk st u m bd :
  heap_avail h → appends_body m bd → HEADER_SIZE + zlen bd <= maxsize →
  ∃ s, JsonSender_obj h junk st u m = Ok s ∧ sender_wf s (replicate 9 x00) bd ∧
    uri (hdr s) = u ∧ sessionId s = 2 ^ 32 - 1.
Proof.
  intros Hh Hm Hsz. unfold JsonSender_obj, Sender_obj, mbind, res_bind.
  destruct (Sender_new_wf h junk st Hh) as (s0 & -> & Hwf0 & _).
  destruct (marshall_wf h s0 _ _ u m bd Hh Hwf0 Hm) as (s1 & E & Hwf1 & Hu & _); [by cbn|].
  rewrite E. eexists. split; [done|].
  destruct Hwf1. by split_and!.
Qed.

Lemma sender_wf_hdr s hd bd d ss : sender_wf s hd bd → sender_wf (set_hdr (with_session ss s) d) hd bd.
Proof. intros []. by split. Qed.

(** ** Properties *)

(** What [DirectWriter::answer] sends, for use in other files. *)
Lemma answer_bytes_ok h junk st u m bd :
  heap_avail h → in_u 8 u → appends_body m bd → HEADER_SIZE + zlen bd <= maxsize →
  answer_bytes h junk st u m = Ok (json_frame (2 ^ 32 - 1) u bd).
Proof.
  intros Hh Hu Hm Hsz. unfold answer_bytes.
  destruct (JsonSender_obj_wf h junk st u m bd Hh Hm Hsz) as (s & -> & Hwf & Hus & Hss).
  cbn [mbind res_bind].
  destruct (json_endPack_wf h s _ bd Hwf) as (s1 & E1 & Hwf1 & Hh1 & Hs1);
    [by rewrite Hss|congruence|].
  step_bind E1.
  destruct (send_bytes_wf h s1 _ bd Hwf1) as (s2 & -> & _); [by rewrite Hs1, Hss|congruence|].
  by rewrite Hs1, Hh1, Hss, Hus.
Qed.

(** C11: the bytes [DirectWriter::answer] sends for an object are one frame:
    session -1, length of the URI and the body, URI, body; although [endPack]
    runs twice. *)
Theorem answer_bytes_frame h junk st u m bd :
  heap_avail h → in_u 8 u → appends_body m bd → HEADER_SIZE + zlen bd <= maxsize →
  answer_bytes h junk st u m = Ok (json_frame (2 ^ 32 - 1) u bd).
Proof. apply answer_bytes_ok. Qed.

Definition whello : Marshallable := λ h, writeByte h (bytes_of "hello").
Definition wjunk : Header := mkHeader 77 78 79 80.

Lemma answer_bytes_frame_witness :
  answer_bytes wheap wjunk (mkStats 0 0) 6 whello
  = Ok [xff; xff; xff; xff; x00; x00; x00; x06; x06; x68; x65; x6c; x6c; x6f].
Proof.
  apply (answer_bytes_frame wheap wjunk (mkStats 0 0) 6 whello (bytes_of "hello")).
  - done.
  - done.
  - intros h. apply appends_write.
  - done.
Defined.

(** [JsonSender(session, uri, obj)] writes the object into the body twice. *)
Lemma JsonSender_session_duplicates h junk st ss u m bd :
  heap_avail h → appends_body m bd → HEADER_SIZE + zlen bd + zlen bd <= maxsize →
  ∃ s, JsonSender_session h junk st ss u m = Ok s ∧ body s = bd ++ bd.
Proof.
  intros Hh Hm Hsz. pose proof (zlen_nonneg bd).
  unfold JsonSender_session, Sender_obj.
  destruct (Sender_new_wf h junk st Hh) as (s0 & E0 & Hwf0 & _).
  destruct (marshall_wf h s0 _ _ u m bd Hh Hwf0 Hm) as (s1 & E1 & Hwf1 & Hu & _);
    [rewrite zlen_nil; lia|].
  erewrite res_bind_Ok by (erewrite res_bind_Ok by exact E0; by rewrite E1).
  erewrite bind_Ok by apply setUri_run.
  match goal with |- context [marshall h u m ?s2] =>
    destruct (marshall_wf h s2 (replicate 9 x00) bd u m bd Hh) as (s3 & E3 & Hwf3 & _);
      [by apply sender_wf_hdr|done|lia|]
  end.
  rewrite E3.
  exists s3. split; [done|]. unfold body, bws_data.
  rewrite (swf_content _ _ _ Hwf3), (swf_pk _ _ _ Hwf3).
  apply zdrop_app_length. by rewrite (swf_hd _ _ _ Hwf3).
Qed.

Lemma JsonSender_session_duplicates_witness :
  ∃ s, JsonSender_session wheap wjunk (mkStats 0 0) 7 6 whello = Ok s ∧ body s = bytes_of "hellohello".
Proof.
  apply (JsonSender_session_duplicates wheap wjunk (mkStats 0 0) 7 6 whello (bytes_of "hello")).
  - done.
  - intros h. apply appends_write.
  - done.
Defined.

(** [Sender::endPack] of the base class stores the 16-bit [appId] at
    offset 8 of a nine-byte header, so the low byte of [appId] replaces the
    first byte of the body. *)
Lemma endPack_clobbers_body h s hd c bd :
  sender_wf s hd (c :: bd) → in_u 16 (appId (hdr s)) → in_u 8 (uri (hdr s)) →
  ∃ s', endPack h s = (Ok tt, s') ∧ body s' = byte_of (appId (hdr s)) :: bd.
Proof.
  intros Hwf Happ Hu. unfold endPack, replaceUint32.
  pose proof (sender_body_bound _ _ _ Hwf). pose proof (zlen_nonneg bd).
  rewrite zlen_cons in *.
  run_replace Hwf s1 Hwf1 Hh1 Hs1.
  run_replace Hwf1 s2 Hwf2 Hh2 Hs2.
  set (hd2 := ztake 4 _ ++ _) in Hwf2.
  assert (∃ s3, on_pb (replaceUint16 h 8 (appId (hdr s))) s2 = (Ok 10, s3) ∧
    sender_wf s3 (ztake 8 hd2 ++ [byte_of (appId (hdr s) / 256)]) (byte_of (appId (hdr s)) :: bd))
    as (s3 & E3 & Hwf3).
  { destruct Hwf2 as [Hbb Hc Hhd Hhp Hpk]. unfold HEADER_SIZE in *.
    destruct (pb s2) as [b st] eqn:Epb. cbn [fst] in *.
    destruct (bws_replace_inside h 8 (le_bytes 2 (XHTONS (appId (hdr s)))) b st Hbb)
      as (b' & Er & Hbb' & Hc'); [lia|rewrite zlen_le_bytes; lia| |].
    { rewrite <- (length_content b), Hc, zlen_app, zlen_cons, zlen_le_bytes by done. lia. }
    exists (set_pb s2 (b', st)). unfold on_pb, replaceUint16. rewrite Epb, Er. split; [done|].
    split; cbn [pb set_pb fst hpk pk]; [done| |by rewrite zlen_app, zlen_ztake by lia|done|done].
    rewrite Hc', Hc, zlen_le_bytes, le_bytes_XHTONS by done.
    rewrite ztake_app_le by lia. rewrite zdrop_app_ge by lia. rewrite <- app_assoc.
    replace (8 + Z.of_nat 2 - zlen hd2) with 1 by lia. done. }
  erewrite bind_Ok by exact E3. erewrite bind_Ok by reflexivity.
  destruct (on_pb_replace h s3 _ _ 0
    (le_bytes 4 (XHTONL (u32 (headerSize + bodySize s3)))) Hwf3) as (s4 & E4 & Hwf4 & _);
    [lia|rewrite zlen_le_bytes; lia|rewrite zlen_le_bytes; unfold HEADER_SIZE; lia|].
  erewrite bind_Ok by exact E4. exists s4. split; [done|].
  unfold body, bws_data. rewrite (swf_content _ _ _ Hwf4), (swf_pk _ _ _ Hwf4).
  apply zdrop_app_length. by rewrite (swf_hd _ _ _ Hwf4).
Qed.

Lemma endPack_clobbers_body_witness :
  ∃ s s', JsonSender_obj wheap wjunk (mkStats 0 0) 6 whello = Ok s ∧ endPack wheap s = (Ok tt, s') ∧
    body s' = byte_of (appId (hdr s)) :: bytes_of "ello" ∧ in_u 16 (appId (hdr s)).
Proof.
  destruct (JsonSender_obj_wf wheap wjunk (mkStats 0 0) 6 whello (bytes_of "hello")) as (s & E & Hwf & Hu & _);
    [done|intros h; apply appends_write|done|].
  assert (match JsonSender_obj wheap wjunk (mkStats 0 0) 6 whello with
    Ok s => in_u 16 (appId (hdr s)) | _ => True end) as Ha by done.
  rewrite E in Ha. destruct (endPack_clobbers_body wheap s _ _ _ Hwf Ha) as (s' & E' & Hb); [by rewrite Hu|].
  exists s, s'. split_and!; [exact E|exact E'|exact Hb|exact Ha].
Defined.

(** ** Copies *)

Lemma write_body_run h r sender hd bd hd' bd' :
  heap_avail h → sender_wf sender hd bd → bb_wf (fst (pb r)) → content (fst (pb r)) = hd' ++ bd' →
  zlen hd' + zlen bd' + zlen bd <= maxsize →
  ∃ r', write_body h sender r = (Ok tt, r') ∧ bb_wf (fst (pb r')) ∧ content (fst (pb r')) = hd' ++ bd' ++ bd ∧
    hpk r' = hpk r ∧ pk r' = pk r ∧ hdr r' = hdr r ∧ sessionId r' = sessionId r.
Proof.
  intros Hh Hs Hbb Hc Hsz. unfold write_body, marshall_bytes.
  assert (Hbody : body sender = bd).
  { unfold body, bws_data. rewrite (swf_pk _ _ _ Hs), (swf_content _ _ _ Hs).
    apply zdrop_app_length. by rewrite (swf_hd _ _ _ Hs). }
  rewrite Hbody, (sender_bodySize _ _ _ Hs), Z.eqb_refl. unfold on_pb, writeByte.
  destruct (pb r) as [b st] eqn:Epb. cbn [fst] in *.
  destruct (appends_write h bd b st Hh Hbb) as (b' & st' & E & Hwf' & Hc').
  { rewrite <- (length_content b), Hc, zlen_app by done. lia. }
  rewrite E. exists (set_pb r (b', st')). cbn. split_and!; try done. by rewrite Hc', Hc, <- app_assoc.
Qed.

(** A copy has the body, uri and length of the original, and an [appId] of its own memory. *)
Lemma Sender_copy_body h junk st s hd bd :
  heap_avail h → sender_wf s hd bd → HEADER_SIZE + zlen bd <= maxsize →
  ∃ r, Sender_copy h junk st s = Ok r ∧ sender_wf r (replicate 9 x00) bd ∧
    hdr r = mkHeader (len (hdr s)) (uri (hdr s)) (resCode (hdr s)) (appId junk).
Proof.
  intros Hh Hs Hsz. unfold Sender_copy, mbind, res_bind.
  destruct (Sender_new_wf h junk st Hh) as (s0 & -> & Hwf0 & Hd & _). rewrite Hd.
  destruct (write_body_run h (set_hdr s0 (mkHeader (len (hdr s)) (uri (hdr s)) (resCode (hdr s)) (appId junk))) s hd bd
    (replicate 9 x00) []) as (r & E & Hbb & Hc & Hhp & Hpk & Hd' & _);
    [done|done|apply Hwf0|exact (swf_content _ _ _ Hwf0)|unfold HEADER_SIZE in Hsz; change (9 + 0 + zlen bd <= maxsize); lia|].
  rewrite E. exists r. split; [done|]. split; [|exact Hd']. split; [done|exact Hc|done| |].
  - rewrite Hhp. apply Hwf0.
  - rewrite Hpk. apply Hwf0.
Qed.

(** [operator=] writes the body where the header belongs: a message assigned from another
    one has lost the first nine bytes of the body, and is sent as a well-formed frame
    of the rest. *)
Lemma assign_loses_head h d s hd bd hd' bd' :
  heap_avail h → sender_wf s hd bd → sender_wf d hd' bd' → 9 <= zlen bd →
  in_u 32 (sessionId d) → in_u 8 (uri (hdr s)) →
  ∃ d' d'', Sender_assign h s d = (Ok tt, d') ∧ body d' = zdrop 9 bd ∧
    send_bytes h d' = (Ok (json_frame (sessionId d) (uri (hdr s)) (zdrop 9 bd)), d'').
Proof.
  intros Hh Hs Hd H9 Hss Hu. unfold Sender_assign. erewrite bind_Ok by reflexivity.
  set (d1 := set_hdr d _).
  assert (Hmax : zlen bd <= maxsize).
  { pose proof (swf_content _ _ _ Hs) as Hc. pose proof (swf_bb _ _ _ Hs) as Hbb.
    apply (f_equal zlen) in Hc. rewrite length_content, zlen_app in Hc by done.
    pose proof (capacity_le_max _ Hbb). destruct Hbb. pose proof (zlen_nonneg hd). lia. }
  assert (Hrs : ∃ d2, on_pb (pb_resize h 0) d1 = (Ok tt, d2) ∧ bb_wf (fst (pb d2)) ∧ content (fst (pb d2)) = [] ∧
    hpk d2 = 0 ∧ pk d2 = HEADER_SIZE ∧ hdr d2 = hdr d1 ∧ sessionId d2 = sessionId d).
  { unfold on_pb, pb_resize, pb_check. unfold d1; cbn [pb set_hdr].
    destruct (pb d) as [b st] eqn:Epb. pose proof (swf_bb _ _ _ Hd) as Hbb. rewrite Epb in Hbb. cbn [fst] in Hbb.
    pose proof (resize_ok h 0 x00 b st Hbb Hh ltac:(by vm_compute)) as Hok.
    destruct (resize h 0 x00 (b, st)) as [ok [b2 st2]] eqn:E. cbn in Hok. subst ok.
    apply resize_spec in E as [Hwf2 Hc2]; [|done|lia]. eexists. split; [reflexivity|]. cbn.
    split_and!; [done| |apply Hd|apply Hd|done|done].
    rewrite Hc2, ztake_0, Z2Nat.nonpos by (destruct Hbb; lia). done. }
  destruct Hrs as (d2 & E2 & Hbb2 & Hc2 & Hhp2 & Hpk2 & Hd2 & Hs2). step_bind E2.
  destruct (write_body_run h d2 s hd bd [] []) as (d3 & E3 & Hbb3 & Hc3 & Hhp3 & Hpk3 & Hd3 & Hs3);
    [done|done|done|done|exact Hmax|].
  rewrite E3. cbn [app] in Hc3.
  assert (Hwf : sender_wf d3 (ztake 9 bd) (zdrop 9 bd)).
  { split; [done|by rewrite ztake_zdrop|rewrite zlen_ztake; [done|lia]|congruence|congruence]. }
  assert (Hdr : uri (hdr d3) = uri (hdr s)) by (by rewrite Hd3, Hd2).
  assert (Hss3 : sessionId d3 = sessionId d) by congruence.
  destruct (send_bytes_wf h d3 _ _ Hwf) as (d4 & E4 & _); [by rewrite Hss3|by rewrite Hdr|].
  exists d3, d4. split_and!; [done| |by rewrite <- Hss3, <- Hdr].
  unfold body, bws_data. by rewrite Hpk3, Hpk2, Hc3.
Qed.

Definition wtext : Marshallable := λ h, pb_append h (bytes_of "hello, world").
Lemma assign_loses_head_witness :
  ∃ s d d' d'', JsonSender_obj wheap wjunk (mkStats 0 0) 6 wtext = Ok s ∧
    JsonSender_obj wheap wjunk (mkStats 0 0) 5 whello = Ok d ∧
    Sender_assign wheap s d = (Ok tt, d') ∧ body d' = bytes_of "rld" ∧
    send_bytes wheap d' = (Ok (json_frame (2 ^ 32 - 1) 6 (bytes_of "rld")), d'').
Proof.
  destruct (JsonSender_obj_wf wheap wjunk (mkStats 0 0) 6 wtext (bytes_of "hello, world")) as (s & Es & Hs & Hu & _);
    [done|intros h; apply appends_write|done|].
  destruct (JsonSender_obj_wf wheap wjunk (mkStats 0 0) 5 whello (bytes_of "hello")) as (d & Ed & Hd & _ & Hss);
    [done|intros h; apply appends_write|done|].
  destruct (assign_loses_head wheap d s _ _ _ _ (λ _, eq_refl) Hs Hd) as (d' & d'' & E1 & E2 & E3);
    [by vm_compute|by rewrite Hss|by rewrite Hu|].
  exists s, d, d', d''. split_and!; [done|done|exact E1|exact E2|]. by rewrite <- Hss, <- Hu.
Defined.
