(* ===== verification/Framing.v ===== *)
(** * Framing.v: cutting the input stream into requests

    [Request]/[JsonRequest] ([core/base/Request.cpp], [JsonRequest.cpp]), the cursor
    [ForwardBuf] ([core/base/ForwardBuf.h]) and the two consumers of
    [core/proto]: [JsonProtoConsumer::onData], which the node server uses, and
    [MsgProtoConsumer::onData].  The dispatch of a request ([doRequest]) is a
    parameter with a state of its own, so every theorem holds for any handler,
    one that throws included. *)

From S2P Require Import Prelude BlockBuffer ByteStream Sender.

(** ** Request *)

Inductive PROTO_T := PROTO_JSON | PROTO_BIN | PROTO_HTTP | PROTO_XML | PROTO_NONE | PROTO_MAX.

#[global] Instance PROTO_T_eq_dec : EqDecision PROTO_T.
Proof. solve_decision. Defined.

Definition PROTO_MAGIC_SHIFT : Z := 29.
(** [~(111 << PROTO_MAGIC_SHIFT)] in 32-bit [int] arithmetic, the decimal 111 included. *)
Definition PROTO_MAGIC_MASK : Z := Z.lnot (s32 (Z.shiftl 111 PROTO_MAGIC_SHIFT)).

(** [Request::getProtoType]: the protocol and [realLength]. *)
Definition getProtoType (len : Z) : PROTO_T * Z :=
  let top3Bit := Z.shiftr len PROTO_MAGIC_SHIFT in
  let proto := if top3Bit =? 0 then PROTO_JSON
               else if top3Bit =? 1 then PROTO_BIN
               else if top3Bit =? 2 then PROTO_HTTP
               else PROTO_MAX in
  (proto, Z.land len (u32 PROTO_MAGIC_MASK)).

(** The members a constructor leaves uninitialised. *)
Record Uninit := { un_len : Z; un_uri : Z; un_appId : Z; un_sessionId : Z }.

(** The classes whose [getKey] and [getUid] differ. *)
Inductive ReqClass := RequestClass | JsonRequestClass.

Record Request := mkRequest {
  rq_class : ReqClass;
  up : list byte;          (** the read stream *)
  rq_len : Z;
  rq_uri : Z;
  rq_appId : Z;
  rq_sessionId : Z;
  od : list byte;          (** the origin data, [os] bytes *)
  cpBuffer : bool;         (** whether the request owns a copy of the data *)
  protoType : PROTO_T;
}.

Definition Request_of (c : ReqClass) (un : Uninit) (data : list byte) (cp : bool) (proto : PROTO_T) : Request :=
  mkRequest c data (un_len un) (un_uri un) (un_appId un) (un_sessionId un) data cp proto.
(** [Request()], [Request(data, sz, proto)], [Request(data, sz, copy, proto)] and
    [JsonRequest(data, sz, proto)]; [data] are the [sz] bytes at the pointer, which a copy holds too. *)
Definition Request_default (un : Uninit) : Request := Request_of RequestClass un [] false PROTO_NONE.
Definition Request_new (un : Uninit) (data : list byte) (proto : PROTO_T) : Request :=
  Request_of RequestClass un data false proto.
Definition Request_copy (un : Uninit) (data : list byte) (copy : bool) (proto : PROTO_T) : Request :=
  Request_of RequestClass un data copy proto.
Definition JsonRequest_new (un : Uninit) (data : list byte) (proto : PROTO_T) : Request :=
  Request_of JsonRequestClass un data false proto.

(** The virtual [getUid] and [getKey]. *)
Definition getUid (r : Request) : Z :=
  match rq_class r with RequestClass => 0 | JsonRequestClass => rq_sessionId r end.
Definition getKey (r : Request) : Z :=
  match rq_class r with RequestClass => 0 | JsonRequestClass => rq_sessionId r end.

(** Runs a reader on the stream of a request. *)
Definition on_up {A} (m : M RS A) : M Request A := λ r,
  let (a, rest) := m (up r) in
  (a, mkRequest (rq_class r) rest (rq_len r) (rq_uri r) (rq_appId r) (rq_sessionId r) (od r) (cpBuffer r) (protoType r)).

Definition set_len (v : Z) : M Request unit := modify (λ r,
  mkRequest (rq_class r) (up r) v (rq_uri r) (rq_appId r) (rq_sessionId r) (od r) (cpBuffer r) (protoType r)).
Definition set_uri (v : Z) : M Request unit := modify (λ r,
  mkRequest (rq_class r) (up r) (rq_len r) v (rq_appId r) (rq_sessionId r) (od r) (cpBuffer r) (protoType r)).
Definition set_appId (v : Z) : M Request unit := modify (λ r,
  mkRequest (rq_class r) (up r) (rq_len r) (rq_uri r) v (rq_sessionId r) (od r) (cpBuffer r) (protoType r)).
Definition set_sessionId (v : Z) : M Request unit := modify (λ r,
  mkRequest (rq_class r) (up r) (rq_len r) (rq_uri r) (rq_appId r) v (od r) (cpBuffer r) (protoType r)).

(** [Request::popHeader]; [uri_t] is eight bits wide. *)
Definition Request_popHeader : M Request unit := λ r,
  match protoType r with
  | PROTO_BIN =>
      (l ← on_up readUint32; set_len l ;;
       u ← on_up readUint32; set_uri (u8 u) ;;
       a ← on_up readUint16; set_appId a) r
  | _ => (Ok tt, r)
  end.

(** [JsonRequest::popHeader] *)
Definition JsonRequest_popHeader : M Request unit := λ r,
  match protoType r with
  | PROTO_JSON | PROTO_BIN =>
      (s ← on_up readUint32; set_sessionId s ;;
       l ← on_up readUint32; set_len l ;;
       u ← on_up readUint8; set_uri u) r
  | _ => (Ok tt, r)
  end.

(** [JsonRequest::getProtoType]: the session is shifted out and dropped. *)
Definition JsonRequest_getProtoType (hdr : Z) : PROTO_T * Z := getProtoType (u32 hdr).

(** [Request::leftPack] *)
Definition leftPack (r : Request) : list byte := up r.

(** [Request::peekUint32]: the four bytes at a pointer. *)
Definition peekUint32_at (d : list byte) : Z := XHTONL (le_value (ztake 4 d)).

(** ** ForwardBuf *)

Record ForwardBuf := mkFB { fb_mem : list byte; fb_pos : Z }.

Definition fb_data (f : ForwardBuf) : list byte := zdrop (fb_pos f) (fb_mem f).
Definition fb_size (f : ForwardBuf) : Z := zlen (fb_mem f) - fb_pos f.
Definition fb_empty (f : ForwardBuf) : bool := zlen (fb_mem f) =? fb_pos f.
Definition fb_offset (f : ForwardBuf) : Z := fb_pos f.
Definition fb_erase {S} (n : Z) (f : ForwardBuf) : M S ForwardBuf :=
  if zlen (fb_mem f) <? fb_pos f + n then throw AssertFail
  else mret (mkFB (fb_mem f) (fb_pos f + n)).

(** ** The consumers *)

Section consumers.
  Context {S : Type} (un : Uninit) (doRequest : Request → M S Z).

(** A request object built, its header popped, and dispatched. *)
Definition pop_and_do (popHeader : M Request unit) (r : Request) : M S Z :=
  match popHeader r with
  | (Ok _, r') => doRequest r'
  | (Throw e, _) => throw e
  end.

(** The loop of [JsonProtoConsumer::onData]. *)
Fixpoint json_loop (fuel : nat) (fb : ForwardBuf) : M S Z :=
  match fuel with
  | O => throw OutOfFuel
  | Datatypes.S fuel =>
      if fb_empty fb then mret (s32 (fb_offset fb))
      else if fb_size fb <? JSON_HEADER_SIZE then mret (s32 (fb_offset fb))
      else
        let (proto, realLen) := getProtoType (peekUint32_at (zdrop 4 (fb_data fb))) in
        let realLen := u32 (realLen + JSON_HEADER_SIZE) in
        if fb_size fb <? realLen then mret (s32 (fb_offset fb))
        else
          r ← pop_and_do JsonRequest_popHeader (JsonRequest_new un (ztake realLen (fb_data fb)) proto);
          if r =? -1 then mret (-1)
          else (fb' ← fb_erase realLen fb; json_loop fuel fb')
  end.

(** Every pass consumes at least the eight header bytes, so this fuel is never used up. *)
Definition json_onData (buf : list byte) : M S Z :=
  json_loop (Datatypes.S (length buf)) (mkFB buf 0).

(** The loop of [MsgProtoConsumer::onData]. *)
Fixpoint msg_loop (fuel : nat) (fb : ForwardBuf) : M S Z :=
  match fuel with
  | O => throw OutOfFuel
  | Datatypes.S fuel =>
      if fb_empty fb then mret (s32 (fb_offset fb))
      else if fb_size fb <? HEADER_SIZE then mret (s32 (fb_offset fb))
      else
        let (proto, realLen) := getProtoType (peekUint32_at (fb_data fb)) in
        if fb_size fb <? realLen then mret (s32 (fb_offset fb))
        else
          r ← pop_and_do Request_popHeader (Request_new un (ztake realLen (fb_data fb)) proto);
          if r =? -1 then mret (-1)
          else (fb' ← fb_erase realLen fb; msg_loop fuel fb')
  end.

Definition msg_onData (fuel : nat) (buf : list byte) : M S Z := msg_loop fuel (mkFB buf 0).

(** ** Reference: handling a list of frames one after the other *)

(** A well-formed JSON message: session, URI, body. *)
Record frame := mkFrame { fr_session : Z; fr_uri : Z; fr_body : list byte }.

Definition frame_wf (f : frame) : Prop :=
  in_u 32 (fr_session f) ∧ in_u 8 (fr_uri f) ∧ 1 + zlen (fr_body f) < 2 ^ 29.
Definition frame_bytes (f : frame) : list byte := json_frame (fr_session f) (fr_uri f) (fr_body f).
Definition stream (fs : list frame) : list byte := fs ≫= frame_bytes.

(** The request object the consumer passes on for a frame. *)
Definition frame_request (f : frame) : Request :=
  mkRequest JsonRequestClass (fr_body f) (1 + zlen (fr_body f)) (fr_uri f) (un_appId un) (fr_session f)
    (frame_bytes f) false PROTO_JSON.

Fixpoint handle_frames (off : Z) (fs : list frame) : M S Z :=
  match fs with
  | [] => mret (s32 off)
  | f :: fs =>
      r ← doRequest (frame_request f);
      if r =? -1 then mret (-1) else handle_frames (off + zlen (frame_bytes f)) fs
  end.

End consumers.

(** ** Lemmas *)

Lemma PROTO_MAGIC_MASK_value : u32 PROTO_MAGIC_MASK = Z.ones 29.
Proof. reflexivity. Qed.

(** The low 29 bits are the length, whatever the three top bits say. *)
Lemma getProtoType_length len : (getProtoType len).2 = len mod 2 ^ 29.
Proof. unfold getProtoType; cbn [snd]. by rewrite PROTO_MAGIC_MASK_value, Z.land_ones. Qed.

Lemma getProtoType_small len : 0 <= len < 2 ^ 29 → getProtoType len = (PROTO_JSON, len).
Proof.
  intros Hl. rewrite (surjective_pairing (getProtoType len)), getProtoType_length.
  rewrite Z.mod_small by done. unfold getProtoType; cbn [fst].
  unfold PROTO_MAGIC_SHIFT. rewrite Z.shiftr_div_pow2, Z.div_small by lia. done.
Qed.

Lemma zlen_frame_bytes f : zlen (frame_bytes f) = 9 + zlen (fr_body f).
Proof. apply zlen_json_frame. Qed.

Lemma frame_bytes_split f rest :
  frame_bytes f ++ rest =
    be_bytes 4 (fr_session f) ++ be_bytes 4 (1 + zlen (fr_body f)) ++ be_bytes 1 (fr_uri f) ++ fr_body f ++ rest.
Proof. unfold frame_bytes, json_frame. by rewrite <- !app_assoc. Qed.

(** The length field of a frame at the start of a buffer. *)
Lemma peek_frame_length f rest :
  frame_wf f → peekUint32_at (zdrop 4 (frame_bytes f ++ rest)) = 1 + zlen (fr_body f).
Proof.
  intros (_ & _ & Hl). pose proof (zlen_nonneg (fr_body f)). unfold peekUint32_at.
  rewrite frame_bytes_split, zdrop_app_length, ztake_app_length by (by rewrite zlen_be_bytes).
  rewrite XHTONL_load by apply length_be_bytes. rewrite be_value_bytes.
  apply Z.mod_small. change (256 ^ Z.of_nat 4) with (2 ^ 32). lia.
Qed.

Lemma on_up_reads {A} (m : M RS A) l a r rest :
  reads m l a → up r = l ++ rest →
  on_up m r = (Ok a, mkRequest (rq_class r) rest (rq_len r) (rq_uri r) (rq_appId r) (rq_sessionId r) (od r) (cpBuffer r) (protoType r)).
Proof. intros Hm Hu. unfold on_up. by rewrite Hu, Hm. Qed.

Lemma popHeader_frame un f :
  frame_wf f →
  JsonRequest_popHeader (JsonRequest_new un (frame_bytes f) PROTO_JSON) = (Ok tt, frame_request un f).
Proof.
  intros (Hs & Hu & Hl). pose proof (zlen_nonneg (fr_body f)).
  pose proof (frame_bytes_split f []) as Hb. rewrite !app_nil_r in Hb.
  unfold JsonRequest_popHeader; cbn [protoType JsonRequest_new Request_of].
  erewrite bind_Ok by (eapply on_up_reads; [by apply reads_uint32|exact Hb]).
  erewrite bind_Ok by reflexivity.
  erewrite bind_Ok by (eapply on_up_reads; [apply (reads_uint32 (1 + zlen (fr_body f))); unfold in_u; lia|reflexivity]).
  erewrite bind_Ok by reflexivity.
  erewrite bind_Ok by (eapply on_up_reads; [by apply reads_uint8|reflexivity]).
  done.
Qed.

Section consumer_lemmas.
  Context {S : Type} (un : Uninit) (doRequest : Request → M S Z).

Lemma bind_ext {A B} (m : M S A) (f g : A → M S B) s :
  (∀ a s, f a s = g a s) → (m ≫= f) s = (m ≫= g) s.
Proof. intros Hfg. unfold mbind, M_bind. destruct (m s) as [[a|e] s']; auto. Qed.

(** One pass over a complete frame. *)
Lemma json_loop_frame fuel mem pos f rest s :
  0 <= pos <= zlen mem → zdrop pos mem = frame_bytes f ++ rest → frame_wf f →
  json_loop un doRequest (Datatypes.S fuel) (mkFB mem pos) s =
    (r ← doRequest (frame_request un f);
     if r =? -1 then mret (-1)
     else json_loop un doRequest fuel (mkFB mem (pos + zlen (frame_bytes f)))) s.
Proof.
  intros Hpos Hmem Hf. pose proof Hf as (_ & _ & Hl). pose proof (zlen_nonneg (fr_body f)).
  assert (zlen mem - pos = 9 + zlen (fr_body f) + zlen rest) as Hsz.
  { rewrite <- zlen_zdrop, Hmem, zlen_app, zlen_frame_bytes by done. lia. }
  pose proof (zlen_nonneg rest). cbn [json_loop].
  unfold fb_empty, fb_size, fb_data; cbn [fb_mem fb_pos].
  destruct (Z.eqb_spec (zlen mem) pos); [lia|].
  unfold JSON_HEADER_SIZE. destruct (Z.ltb_spec (zlen mem - pos) 8); [lia|].
  rewrite Hmem, (peek_frame_length f rest Hf), getProtoType_small by lia.
  rewrite uwrap_small by (unfold in_u; lia).
  replace (1 + zlen (fr_body f) + 8) with (zlen (frame_bytes f)) by (rewrite zlen_frame_bytes; lia).
  rewrite ztake_app_length by done.
  destruct (Z.ltb_spec (zlen mem - pos) (zlen (frame_bytes f))) as [Hx|_];
    [rewrite zlen_frame_bytes in Hx; lia|].
  unfold pop_and_do. rewrite (popHeader_frame un f Hf).
  apply bind_ext. intros r s'. destruct (r =? -1); [done|].
  unfold fb_erase; cbn [fb_mem fb_pos].
  destruct (Z.ltb_spec (zlen mem) (pos + zlen (frame_bytes f))) as [Hx|_];
    [rewrite zlen_frame_bytes in Hx; lia|]. done.
Qed.
End consumer_lemmas.

(** ** Incomplete input *)

(** The test on which the loop waits for more data. *)
Definition incomplete (tail : list byte) : bool :=
  (zlen tail <? JSON_HEADER_SIZE) ||
  (zlen tail <? u32 ((getProtoType (peekUint32_at (zdrop 4 tail))).2 + JSON_HEADER_SIZE)).

Lemma incomplete_bound tail : incomplete tail = true → zlen tail < 2 ^ 29 + 8.
Proof.
  unfold incomplete, JSON_HEADER_SIZE. rewrite getProtoType_length.
  pose proof (Z.mod_pos_bound (peekUint32_at (zdrop 4 tail)) (2 ^ 29) ltac:(lia)).
  rewrite uwrap_small by (unfold in_u; lia).
  intros [Hx|Hx]%orb_true_iff; apply Z.ltb_lt in Hx; lia.
Qed.

(** A proper prefix of a frame is incomplete. *)
Lemma incomplete_prefix f p q :
  frame_wf f → p ++ q = frame_bytes f → q ≠ [] → incomplete p = true.
Proof.
  intros Hf Hpq Hq. pose proof Hf as (_ & _ & Hl). pose proof (zlen_nonneg (fr_body f)).
  pose proof (zlen_pos _ Hq). pose proof (f_equal zlen Hpq) as Hlen.
  rewrite zlen_app, zlen_frame_bytes in Hlen.
  unfold incomplete, JSON_HEADER_SIZE. destruct (Z.ltb_spec (zlen p) 8) as [|Hp]; [done|].
  assert (peekUint32_at (zdrop 4 p) = 1 + zlen (fr_body f)) as ->.
  { rewrite <- (peek_frame_length f [] Hf), app_nil_r, <- Hpq. unfold peekUint32_at.
    rewrite zdrop_app_le by lia. rewrite (ztake_app_le 4); [done|].
    rewrite zlen_zdrop; lia. }
  rewrite getProtoType_small by lia. cbn [snd].
  rewrite uwrap_small by (unfold in_u; lia). apply Z.ltb_lt. lia.
Qed.

Lemma complete_frame f rest : frame_wf f → incomplete (frame_bytes f ++ rest) = false.
Proof.
  intros Hf. pose proof Hf as (_ & _ & Hl). pose proof (zlen_nonneg (fr_body f)).
  pose proof (zlen_nonneg rest). unfold incomplete, JSON_HEADER_SIZE.
  rewrite (peek_frame_length f rest Hf), getProtoType_small by lia. cbn [snd].
  rewrite uwrap_small, zlen_app, zlen_frame_bytes by (unfold in_u; lia).
  apply orb_false_iff. split; apply Z.ltb_ge; lia.
Qed.

Lemma stream_cons f fs : stream (f :: fs) = frame_bytes f ++ stream fs.
Proof. done. Qed.
Lemma stream_app fs1 fs2 : stream (fs1 ++ fs2) = stream fs1 ++ stream fs2.
Proof. unfold stream. by rewrite bind_app. Qed.

(** Any cut of a stream of frames: whole frames, then an incomplete tail. *)
Lemma stream_cut fs p q :
  Forall frame_wf fs → p ++ q = stream fs →
  ∃ fs1 fs2 tail, fs = fs1 ++ fs2 ∧ p = stream fs1 ++ tail ∧
    incomplete tail = true ∧ tail ++ q = stream fs2.
Proof.
  intros Hfs. revert p. induction Hfs as [|f fs Hf Hfs IH]; intros p Hpq.
  - exists [], [], []. apply app_eq_nil in Hpq as [-> ->]. done.
  - rewrite stream_cons in Hpq.
    destruct (Z.lt_ge_cases (zlen p) (zlen (frame_bytes f))) as [Hlt|Hge].
    + exists [], (f :: fs), p. split_and!; [done..| |done].
      apply (incomplete_prefix f p (zdrop (zlen p) (frame_bytes f)) Hf).
      * rewrite <- (ztake_zdrop (zlen p) (frame_bytes f)) at 2. f_equal.
        rewrite <- (ztake_app_le _ _ (stream fs)), <- Hpq by lia.
        by rewrite ztake_app_length.
      * intros Hz%(f_equal zlen). pose proof (zlen_nonneg p).
        rewrite zlen_zdrop, zlen_nil in Hz by lia. lia.
    + assert (∃ p', p = frame_bytes f ++ p') as [p' ->].
      { exists (zdrop (zlen (frame_bytes f)) p).
        rewrite <- (ztake_zdrop (zlen (frame_bytes f)) p) at 1. f_equal.
        rewrite <- (ztake_app_le _ p q), Hpq by lia. by rewrite ztake_app_length. }
      rewrite <- app_assoc in Hpq. apply app_inv_head in Hpq.
      destruct (IH p' Hpq) as (fs1 & fs2 & tail & -> & -> & Htail & Hq).
      exists (f :: fs1), fs2, tail. by rewrite stream_cons, <- app_assoc.
Qed.

Section consumer_theorems.
  Context {S : Type} (un : Uninit) (doRequest : Request → M S Z).

Lemma json_loop_incomplete fuel mem pos s :
  0 <= pos <= zlen mem → incomplete (zdrop pos mem) = true →
  json_loop un doRequest (Datatypes.S fuel) (mkFB mem pos) s = (Ok (s32 pos), s).
Proof.
  intros Hpos Hi. cbn [json_loop]. unfold fb_empty, fb_size, fb_data; cbn [fb_mem fb_pos].
  destruct (Z.eqb_spec (zlen mem) pos); [done|].
  unfold incomplete in Hi. rewrite zlen_zdrop in Hi by done.
  destruct (zlen mem - pos <? JSON_HEADER_SIZE); [done|]. cbn [orb] in Hi.
  destruct (getProtoType _) as [proto len]. cbn [snd] in Hi. by rewrite Hi.
Qed.

Lemma json_loop_frames fuel fs mem pos tail s :
  Forall frame_wf fs → (length fs < fuel)%nat → 0 <= pos <= zlen mem →
  zdrop pos mem = stream fs ++ tail → incomplete tail = true →
  json_loop un doRequest fuel (mkFB mem pos) s = handle_frames un doRequest pos fs s.
Proof.
  intros Hfs. revert fuel pos s. induction Hfs as [|f fs Hf Hfs IH]; intros fuel pos s Hfuel Hpos Hmem Hi.
  - destruct fuel; [simpl in Hfuel; lia|]. rewrite json_loop_incomplete; [done|done|]. rewrite Hmem. exact Hi.
  - destruct fuel as [|fuel]; [simpl in Hfuel; lia|]. rewrite stream_cons, <- app_assoc in Hmem.
    rewrite (json_loop_frame un doRequest fuel mem pos f _ s Hpos Hmem Hf). cbn [handle_frames].
    apply bind_ext. intros r s'. destruct (r =? -1); [done|].
    pose proof (f_equal zlen Hmem) as Hl. rewrite zlen_zdrop, zlen_app in Hl by done.
    pose proof (zlen_nonneg (stream fs ++ tail)). pose proof (zlen_nonneg (frame_bytes f)).
    apply IH; [simpl in Hfuel; lia|lia| |done].
    rewrite <- zdrop_zdrop, Hmem by lia. by apply zdrop_app_length.
Qed.

Lemma length_stream fs : Forall frame_wf fs → (length fs <= length (stream fs))%nat.
Proof.
  induction 1 as [|f fs Hf Hfs IH]; [done|]. rewrite stream_cons, length_app.
  pose proof (zlen_frame_bytes f) as Hl. pose proof (zlen_nonneg (fr_body f)).
  unfold zlen in *. simpl. lia.
Qed.

Lemma json_onData_frames_tail fs tail s :
  Forall frame_wf fs → incomplete tail = true →
  json_onData un doRequest (stream fs ++ tail) s = handle_frames un doRequest 0 fs s.
Proof.
  intros Hfs Hi. unfold json_onData. eapply json_loop_frames; [done| | |apply zdrop_0|done].
  - pose proof (length_stream fs Hfs). rewrite length_app. lia.
  - pose proof (zlen_nonneg (stream fs ++ tail)). lia.
Qed.
End consumer_theorems.

(** ** Delivery in pieces *)

Section chunking.
  Context {S : Type} (un : Uninit) (doRequest : Request → M S Z).

(** What [Connection::onRead] does with the data of successive reads: append it
    to the input buffer, call [onData], and erase what was consumed; [None] is a
    connection closed because [onData] returned [-1]. *)
Fixpoint feed (buf : list byte) (chunks : list (list byte)) : M S (option (list byte)) :=
  match chunks with
  | [] => mret (Some buf)
  | c :: chunks =>
      ret ← json_onData un doRequest (buf ++ c);
      if ret =? -1 then mret None else feed (zdrop ret (buf ++ c)) chunks
  end.

(** The frames handled one after the other; [false] when a handler asks to close. *)
Fixpoint run_frames (fs : list frame) : M S bool :=
  match fs with
  | [] => mret true
  | f :: fs =>
      r ← doRequest (frame_request un f);
      if r =? -1 then mret false else run_frames fs
  end.

Lemma handle_frames_run fs off s :
  handle_frames un doRequest off fs s =
    (ok ← run_frames fs; mret (if ok : bool then s32 (off + zlen (stream fs)) else -1)) s.
Proof.
  revert off s. induction fs as [|f fs IH]; intros off s.
  - cbn. by rewrite Z.add_0_r.
  - cbn [handle_frames run_frames]. rewrite bind_assoc. apply bind_ext. intros r s'.
    destruct (r =? -1); [done|]. rewrite IH. apply bind_ext. intros ok s''.
    by rewrite stream_cons, zlen_app, Z.add_assoc.
Qed.

Lemma run_frames_app fs1 fs2 s :
  run_frames (fs1 ++ fs2) s =
    (ok ← run_frames fs1; if ok : bool then run_frames fs2 else mret false) s.
Proof.
  revert s. induction fs1 as [|f fs1 IH]; intros s; [done|].
  cbn [app run_frames]. rewrite bind_assoc. apply bind_ext. intros r s'.
  destruct (r =? -1); [done|]. apply IH.
Qed.

Lemma feed_run_frames chunks buf fs s :
  Forall frame_wf fs → Forall (λ c, zlen c <= 2 ^ 30) chunks →
  incomplete buf = true → buf ++ concat chunks = stream fs →
  feed buf chunks s = (ok ← run_frames fs; mret (if ok : bool then Some [] else None)) s.
Proof.
  intros Hfs Hcs. revert buf fs s Hfs.
  induction Hcs as [|c chunks Hc Hcs IH]; intros buf fs s Hfs Hbuf Hcat.
  - cbn [concat] in Hcat. rewrite app_nil_r in Hcat. destruct fs as [|f fs].
    + cbn in Hcat. by subst buf.
    + apply Forall_cons_1 in Hfs as [Hf Hfs]. subst buf.
      rewrite stream_cons, (complete_frame f (stream fs) Hf) in Hbuf. done.
  - cbn [concat] in Hcat. rewrite app_assoc in Hcat.
    destruct (stream_cut fs _ _ Hfs Hcat) as (fs1 & fs2 & tail & -> & Hp & Htail & Hq).
    apply Forall_app in Hfs as [Hfs1 Hfs2]. cbn [feed].
    pose proof (incomplete_bound buf Hbuf) as Hb.
    assert (zlen (stream fs1) < 2 ^ 31 - 1) as Hlen.
    { pose proof (zlen_nonneg tail). apply (f_equal zlen) in Hp. rewrite !zlen_app in Hp. lia. }
    pose proof (zlen_nonneg (stream fs1)).
    pose proof (json_onData_frames_tail un doRequest fs1 tail s Hfs1 Htail) as HA.
    rewrite handle_frames_run in HA. pose proof (run_frames_app fs1 fs2 s) as HB.
    rewrite Hp. unfold mbind, M_bind in *. rewrite HA, HB. clear HA HB.
    destruct (run_frames fs1 s) as [[[]|e] s']; [|done..].
    cbn [mret M_ret]. unfold mret, M_ret at 1.
    rewrite Z.add_0_l, swrap_small by (unfold in_s; lia).
    destruct (Z.eqb_spec (zlen (stream fs1)) (-1)); [lia|].
    rewrite zdrop_app_length by done. apply (IH tail fs2 s' Hfs2 Htail Hq).
Qed.

(** On a buffer that holds well-formed frames and then an incomplete one,
    [onData] handles exactly those frames, in order, up to the first one whose handler
    asks to close, and returns the offset behind them. *)
Lemma json_onData_frames fs tail s :
  Forall frame_wf fs → incomplete tail = true →
  json_onData un doRequest (stream fs ++ tail) s =
    (ok ← run_frames fs; mret (if ok : bool then s32 (zlen (stream fs)) else -1)) s.
Proof. intros. by rewrite json_onData_frames_tail, handle_frames_run. Qed.

(** However the network cuts a stream of frames into reads, the same
    requests are handled in the same order and nothing stays in the buffer. *)
Lemma feed_chunking_independent chunks fs s :
  Forall frame_wf fs → Forall (λ c, zlen c <= 2 ^ 30) chunks → concat chunks = stream fs →
  feed [] chunks s = (ok ← run_frames fs; mret (if ok : bool then Some [] else None)) s.
Proof. intros. by apply feed_run_frames. Qed.

(** A message whose length field says zero makes the reader of the URI byte
    throw [ReadStreamExn] before anything is dispatched. *)
Lemma json_onData_zero_length ss rest s :
  in_u 32 ss →
  json_onData un doRequest (be_bytes 4 ss ++ be_bytes 4 0 ++ rest) s = (Throw ReadStreamExn, s).
Proof.
  intros Hss. unfold json_onData. cbn [json_loop].
  set (buf := be_bytes 4 ss ++ _). pose proof (zlen_nonneg rest).
  assert (zlen buf = 8 + zlen rest) as Hl by (unfold buf; rewrite !zlen_app, !zlen_be_bytes; lia).
  assert (peekUint32_at (zdrop 4 buf) = 0) as Hpk.
  { unfold buf, peekUint32_at. rewrite zdrop_app_length, ztake_app_length by done. done. }
  unfold fb_empty, fb_size, fb_data; cbn [fb_mem fb_pos]. unfold JSON_HEADER_SIZE.
  rewrite zdrop_0, Z.sub_0_r, Hl, Hpk, getProtoType_small by lia.
  destruct (Z.eqb_spec (8 + zlen rest) 0); [lia|].
  destruct (Z.ltb_spec (8 + zlen rest) 8); [lia|].
  rewrite uwrap_small by (unfold in_u; lia).
  destruct (Z.ltb_spec (8 + zlen rest) (0 + 8)); [lia|].
  assert (ztake (0 + 8) buf = be_bytes 4 ss ++ be_bytes 4 0 ++ []) as Hbuf.
  { unfold buf. rewrite app_nil_r, app_assoc. apply ztake_app_length.
    by rewrite zlen_app, !zlen_be_bytes. }
  rewrite Hbuf. unfold pop_and_do.
  assert (JsonRequest_popHeader (JsonRequest_new un (be_bytes 4 ss ++ be_bytes 4 0 ++ []) PROTO_JSON)
    = (Throw ReadStreamExn, mkRequest JsonRequestClass [] 0 (un_uri un) (un_appId un) ss
        (be_bytes 4 ss ++ be_bytes 4 0 ++ []) false PROTO_JSON)) as ->; [|done].
  unfold JsonRequest_popHeader; cbn [protoType JsonRequest_new Request_of].
  erewrite bind_Ok by (eapply on_up_reads; [by apply reads_uint32|reflexivity]).
  erewrite bind_Ok by reflexivity.
  erewrite bind_Ok by (eapply on_up_reads; [by apply (reads_uint32 0)|reflexivity]).
  done.
Qed.

(** [MsgProtoConsumer::onData] never returns on nine zero bytes: the length it
    reads is zero, [popHeader] reads nothing for the JSON protocol, and [erase(0)]
    leaves the cursor where it was. *)
Lemma msg_onData_diverges fuel s :
  (∀ r s, ∃ v s', doRequest r s = (Ok v, s') ∧ v ≠ -1) →
  ∃ s', msg_onData un doRequest fuel (replicate 9 x00) s = (Throw OutOfFuel, s').
Proof.
  intros Hdo. unfold msg_onData. revert s. induction fuel as [|fuel IH]; intros s; [by exists s|].
  destruct (Hdo (Request_new un [] PROTO_JSON) s) as (v & s1 & E & Hv).
  destruct (IH s1) as [s2 E2]. exists s2.
  assert (msg_loop un doRequest (Datatypes.S fuel) (mkFB (replicate 9 x00) 0) s =
    (r ← doRequest (Request_new un [] PROTO_JSON);
     if r =? -1 then mret (-1) else msg_loop un doRequest fuel (mkFB (replicate 9 x00) 0)) s)
    as -> by reflexivity.
  step_bind E. by destruct (Z.eqb_spec v (-1)).
Qed.

(** A frame whose three top length bits name HTTP is dispatched under the
    URI value the request object happened to contain. *)
Lemma json_http_uri_uninitialised data :
  ∃ r, JsonRequest_popHeader (JsonRequest_new un data PROTO_HTTP) = (Ok tt, r) ∧ rq_uri r = un_uri un.
Proof. eexists. done. Qed.

End chunking.

(** ** Witnesses *)

Definition wun : Uninit := Build_Uninit 11 12 13 14.
(** A handler that records the URI and the body of each request. *)
Definition wlog : Request → M (list (Z * list byte)) Z := λ r,
  modify (λ l, l ++ [(rq_uri r, up r)]) ;; mret 0.
Definition wframes : list frame :=
  [mkFrame 5 1 (bytes_of "{}"); mkFrame 6 4 (bytes_of "ab")].

Lemma wframes_wf : Forall frame_wf wframes.
Proof. repeat constructor; done. Qed.

Lemma json_onData_frames_witness :
  json_onData wun wlog (stream wframes ++ [x00; x00; x00]) []
  = (Ok 22, [(1, bytes_of "{}"); (4, bytes_of "ab")]).
Proof.
  rewrite (json_onData_frames wun wlog wframes [x00; x00; x00] []).
  - done.
  - apply wframes_wf.
  - done.
Defined.

Lemma feed_chunking_independent_witness :
  feed wun wlog [] [ztake 3 (stream wframes); zdrop 3 (ztake 15 (stream wframes)); zdrop 15 (stream wframes)] []
  = (Ok (Some []), [(1, bytes_of "{}"); (4, bytes_of "ab")]).
Proof.
  rewrite (feed_chunking_independent wun wlog _ wframes []).
  - done.
  - apply wframes_wf.
  - repeat constructor; done.
  - done.
Defined.

Lemma json_onData_zero_length_witness :
  json_onData wun wlog (be_bytes 4 7 ++ be_bytes 4 0 ++ [x01]) [] = (Throw ReadStreamExn, []).
Proof. apply (json_onData_zero_length wun wlog 7 [x01] []). done. Defined.

Lemma msg_onData_diverges_witness :
  ∃ s', msg_onData wun wlog 100 (replicate 9 x00) [] = (Throw OutOfFuel, s').
Proof. apply (msg_onData_diverges wun wlog 100 []). intros r s. by exists 0, (s ++ [(rq_uri r, up r)]). Defined.
