(* ===== verification/Socket.v ===== *)
(** * Socket.v: the socket wrapper of [core/xnet/Socket.h] and [Socket.cpp]

    A [Socket] is a descriptor and a set of flags.  The kernel is an input of
    the model: every system call takes the next result of a script, and the
    calls made, with their arguments, are logged in order, so a theorem can say
    which calls an operation makes and what it does with every possible answer.
    [wire_out] accumulates the bytes the kernel accepted for sending. *)

From S2P Require Import Prelude ByteStream.

(** ** Constants of the platform *)

Definition INVALID_SOCK : Z := -1.
Definition INADDR_ANY : Z := 0.
Definition INADDR_NONE : Z := 0xFFFFFFFF.
Definition EINTR : Z := 4.
Definition EAGAIN : Z := 11.
Definition EWOULDBLOCK : Z := EAGAIN.
Definition EMFILE : Z := 24.
Definition ECONNABORTED : Z := 103.
Definition EINPROGRESS : Z := 115.
Definition O_NONBLOCK : Z := 2048.

Definition EVENT_NONE : Z := 0.
Definition EVENT_ALL : Z := -1.
Definition EVENT_READ : Z := 1.
Definition EVENT_WRITE : Z := 2.
Definition EVENT_RW : Z := 3.
Definition EVENT_TIMEOUT : Z := 8.
Definition EVENT_CONNECTING : Z := 128.

Definition Receives : Z := 1.
Definition Sends : Z := 2.
Definition Both : Z := 3.

(** ** State *)

(** [Socket::SockFlags] *)
Record SockFlags := mkFlags {
  selevent : Z;            (** 8 bits *)
  selected : bool;
  connected : bool;
  nonblocking : bool;
  closeExe : bool;
  tcpserver : bool;
  shutdown_send : bool;
  shutdown_recv : bool;
  send_tag : bool;
  recv_tag : bool;
}.

Definition flags_reset : SockFlags :=
  mkFlags 0 false false false false false false false false false.

Record Socket := mkSocket { m_sock_flags : SockFlags; m_lastRcvTime : Z; m_socket : Z }.

(** [Socket()]: [m_lastRcvTime] is not initialised. *)
Definition Socket_new (junk : Z) : Socket := mkSocket flags_reset junk INVALID_SOCK.

Inductive SysCall :=
  | SysSocket (domain type : Z)
  | SysFcntlGetFl (fd : Z)
  | SysFcntlSetFl (fd flags : Z)
  | SysFcntlCloexec (fd : Z)
  | SysSend (fd : Z) (data : list byte)
  | SysSendto (fd : Z) (data : list byte) (addr port : Z)
  | SysRecv (fd n : Z)
  | SysRecvfrom (fd n : Z)
  | SysShutdown (fd how : Z)
  | SysClose (fd : Z)
  | SysSetsockopt (fd opt val : Z)
  | SysGetsockopt (fd opt : Z)
  | SysListen (fd : Z)
  | SysBind (fd addr port : Z)
  | SysAccept (fd : Z)
  | SysGetpeername (fd : Z)
  | SysGetsockname (fd : Z)
  | SysConnect (fd addr port : Z).

#[global] Instance SysCall_eq_dec : EqDecision SysCall.
Proof. solve_decision. Defined.

(** The result of a call: return value, [errno] if it is [-1], an output integer
    (an option value or an address), a port in network order, received bytes. *)
Record SysRes := mkRes { sr_ret : Z; sr_errno : Z; sr_val : Z; sr_port : Z; sr_data : list byte }.

Record World := mkWorld {
  sock : Socket;
  calls : list SysCall;      (** oldest first *)
  script : list SysRes;      (** the kernel's answers to come *)
  wire_out : list byte;      (** bytes accepted by [send] *)
}.

(** Past the end of the script every call would block. *)
Definition res_block : SysRes := mkRes (-1) EAGAIN 0 0 [].

Definition syscall (c : SysCall) : M World SysRes := λ w,
  (Ok (hd res_block (script w)),
   mkWorld (sock w) (calls w ++ [c]) (tl (script w)) (wire_out w)).

Definition get_sock : M World Socket := gets sock.
Definition set_sock (f : Socket → Socket) : M World unit := modify (λ w,
  mkWorld (f (sock w)) (calls w) (script w) (wire_out w)).
Definition set_flags (f : SockFlags → SockFlags) : M World unit := set_sock (λ s,
  mkSocket (f (m_sock_flags s)) (m_lastRcvTime s) (m_socket s)).

Definition with_selevent (v : Z) (f : SockFlags) : SockFlags :=
  mkFlags v (selected f) (connected f) (nonblocking f) (closeExe f) (tcpserver f)
    (shutdown_send f) (shutdown_recv f) (send_tag f) (recv_tag f).
Definition with_selected (v : bool) (f : SockFlags) : SockFlags :=
  mkFlags (selevent f) v (connected f) (nonblocking f) (closeExe f) (tcpserver f)
    (shutdown_send f) (shutdown_recv f) (send_tag f) (recv_tag f).
Definition with_connected (v : bool) (f : SockFlags) : SockFlags :=
  mkFlags (selevent f) (selected f) v (nonblocking f) (closeExe f) (tcpserver f)
    (shutdown_send f) (shutdown_recv f) (send_tag f) (recv_tag f).
Definition with_nonblocking (v : bool) (f : SockFlags) : SockFlags :=
  mkFlags (selevent f) (selected f) (connected f) v (closeExe f) (tcpserver f)
    (shutdown_send f) (shutdown_recv f) (send_tag f) (recv_tag f).
Definition with_closeExe (v : bool) (f : SockFlags) : SockFlags :=
  mkFlags (selevent f) (selected f) (connected f) (nonblocking f) v (tcpserver f)
    (shutdown_send f) (shutdown_recv f) (send_tag f) (recv_tag f).
Definition with_tcpserver (v : bool) (f : SockFlags) : SockFlags :=
  mkFlags (selevent f) (selected f) (connected f) (nonblocking f) (closeExe f) v
    (shutdown_send f) (shutdown_recv f) (send_tag f) (recv_tag f).
Definition with_shutdown_send (v : bool) (f : SockFlags) : SockFlags :=
  mkFlags (selevent f) (selected f) (connected f) (nonblocking f) (closeExe f) (tcpserver f)
    v (shutdown_recv f) (send_tag f) (recv_tag f).
Definition with_shutdown_recv (v : bool) (f : SockFlags) : SockFlags :=
  mkFlags (selevent f) (selected f) (connected f) (nonblocking f) (closeExe f) (tcpserver f)
    (shutdown_send f) v (send_tag f) (recv_tag f).
Definition with_send_tag (v : bool) (f : SockFlags) : SockFlags :=
  mkFlags (selevent f) (selected f) (connected f) (nonblocking f) (closeExe f) (tcpserver f)
    (shutdown_send f) (shutdown_recv f) v (recv_tag f).
Definition with_recv_tag (v : bool) (f : SockFlags) : SockFlags :=
  mkFlags (selevent f) (selected f) (connected f) (nonblocking f) (closeExe f) (tcpserver f)
    (shutdown_send f) (shutdown_recv f) (send_tag f) v.

(** ** Operations *)

Definition isValid (s : Socket) : bool := negb (m_socket s =? INVALID_SOCK).
Definition isConnected (s : Socket) : bool := connected (m_sock_flags s).

Definition isBlocking (s : Socket) : bool := negb (nonblocking (m_sock_flags s)).
Definition isShutdownSends (s : Socket) : bool := shutdown_send (m_sock_flags s).
Definition isShutdownReceives (s : Socket) : bool := shutdown_recv (m_sock_flags s).
Definition checkSendTag (s : Socket) : bool := send_tag (m_sock_flags s).
Definition checkRecvTag (s : Socket) : bool := recv_tag (m_sock_flags s).
Definition getRecvTime (s : Socket) : Z := m_lastRcvTime s.

Definition isIgnoreAcceptError (en : Z) : bool :=
  (en =? EWOULDBLOCK) || (en =? EINTR) || (en =? ECONNABORTED) || (en =? EMFILE).
Definition isIgnoreError (en : Z) : bool :=
  (en =? EAGAIN) || (en =? EINTR) || (EINPROGRESS =? en).
Definition isIgnoreConnect (en : Z) : bool :=
  (EWOULDBLOCK =? en) || (EINPROGRESS =? en).

(** [attach]: asserts that the socket is not valid. *)
Definition attach (so : Z) : M World unit :=
  s ← get_sock;
  if isValid s then throw AssertFail
  else set_sock (λ s, mkSocket (with_connected true (m_sock_flags s)) (m_lastRcvTime s) so).

Definition detach : M World Z :=
  s ← get_sock;
  set_sock (λ s, mkSocket flags_reset (m_lastRcvTime s) INVALID_SOCK) ;;
  mret (m_socket s).

(** [Socket::Close], also the destructor. *)
Definition Close : M World unit :=
  s ← get_sock;
  if isValid s then
    (syscall (SysClose (m_socket s)) ;;
     set_sock (λ s, mkSocket flags_reset (m_lastRcvTime s) INVALID_SOCK))
  else mret tt.

Definition clearRecvTag : M World bool :=
  s ← get_sock;
  set_flags (with_recv_tag false) ;;
  mret (recv_tag (m_sock_flags s)).

Definition clearSendTag : M World bool :=
  s ← get_sock;
  set_flags (with_send_tag false) ;;
  mret (send_tag (m_sock_flags s)).
Definition setRecvTag : M World unit := set_flags (with_recv_tag true).

Definition setRecvTime (now : Z) : M World unit := set_sock (λ s,
  mkSocket (m_sock_flags s) (u32 now) (m_socket s)).

Definition setblocking (blocking : bool) : M World unit :=
  s ← get_sock;
  r ← syscall (SysFcntlGetFl (m_socket s));
  if sr_ret r =? -1 then throw (SocketExn (sr_errno r))
  else
    let fflags := if blocking then Z.land (sr_ret r) (Z.lnot O_NONBLOCK)
                  else Z.lor (sr_ret r) O_NONBLOCK in
    r2 ← syscall (SysFcntlSetFl (m_socket s) fflags);
    if sr_ret r2 =? -1 then throw (SocketExn (sr_errno r2))
    else set_flags (with_nonblocking (negb blocking)).

Definition setCloseExec : M World unit :=
  s ← get_sock;
  r ← syscall (SysFcntlCloexec (m_socket s));
  if sr_ret r =? -1 then throw (SocketExn (sr_errno r))
  else set_flags (with_closeExe true).

Definition how_shutdown (nHow : Z) : Z :=
  if nHow =? Receives then 0 else if nHow =? Sends then 1 else 2.

(** [recv] throws on every error, [EAGAIN] included. *)
Definition recv (nBufLen : Z) : M World (Z * list byte) :=
  set_flags (with_recv_tag true) ;;
  setRecvTime 0 ;;
  s ← get_sock;
  r ← syscall (SysRecv (m_socket s) nBufLen);
  if sr_ret r =? -1 then throw (SocketExn (sr_errno r))
  else
    let data := ztake nBufLen (sr_data r) in   (* the kernel stores at most the length asked for *)
    mret (zlen data, data).

(** [send]: the number of bytes taken; an ignorable error counts as none. *)
Definition send (data : list byte) : M World Z :=
  set_flags (with_send_tag true) ;;
  s ← get_sock;
  r ← syscall (SysSend (m_socket s) data);
  if sr_ret r =? -1 then
    if isIgnoreError (sr_errno r) then mret 0 else throw (SocketExn (sr_errno r))
  else
    let n := Z.min (Z.max 0 (sr_ret r)) (zlen data) in  (* at most the length offered *)
    modify (λ w, mkWorld (sock w) (calls w) (script w) (wire_out w ++ ztake n data)) ;;
    mret n.

Definition sendto (msg : list byte) (ip port : Z) : M World Z :=
  set_flags (with_send_tag true) ;;
  s ← get_sock;
  r ← syscall (SysSendto (m_socket s) msg ip (XHTONS (u16 port)));
  if sr_ret r =? -1 then
    if isIgnoreError (sr_errno r) then mret 0 else throw (SocketExn (sr_errno r))
  else mret (sr_ret r).

Definition recvfrom (len : Z) : M World (Z * list byte) :=
  set_flags (with_recv_tag true) ;;
  setRecvTime 0 ;;
  s ← get_sock;
  r ← syscall (SysRecvfrom (m_socket s) len);
  if sr_ret r =? -1 then
    if isIgnoreError (sr_errno r) then mret (0, []) else throw (SocketExn (sr_errno r))
  else mret (zlen (ztake len (sr_data r)), ztake len (sr_data r)).

(** [socket()]: the descriptor is also marked close-on-exec. *)
Definition socket_create (type domain : Z) : M World unit :=
  r ← syscall (SysSocket domain type);
  set_sock (λ s, mkSocket (m_sock_flags s) (m_lastRcvTime s) (sr_ret r)) ;;
  if sr_ret r =? -1 then throw (SocketExn (sr_errno r))
  else (syscall (SysFcntlCloexec (sr_ret r)) ;; mret tt).

Definition shutdown (nHow : Z) : M World unit :=
  s ← get_sock;
  (if negb (Z.land nHow Receives =? 0) then
     if negb (Z.land (selevent (m_sock_flags s)) EVENT_READ =? 0) then throw (SocketExn 0)
     else set_flags (with_shutdown_recv true)
   else mret tt) ;;
  (if negb (Z.land nHow Sends =? 0) then
     if negb (Z.land (selevent (m_sock_flags s)) EVENT_WRITE =? 0) then throw (SocketExn 0)
     else set_flags (with_shutdown_send true)
   else mret tt) ;;
  syscall (SysShutdown (m_socket s) (how_shutdown nHow)) ;;
  mret tt.

(** [setnodelay], [setreuse], [setsndbuf], [setrcvbuf] *)
Definition set_option (opt val : Z) : M World unit :=
  s ← get_sock;
  r ← syscall (SysSetsockopt (m_socket s) opt val);
  if sr_ret r =? -1 then throw (SocketExn (sr_errno r)) else mret tt.
Definition TCP_NODELAY : Z := 1.
Definition SO_REUSEADDR : Z := 2.
Definition SO_SNDBUF : Z := 7.
Definition SO_RCVBUF : Z := 8.
Definition SO_ERROR : Z := 4.
Definition setnodelay : M World unit := set_option TCP_NODELAY 1.
Definition setreuse : M World unit := set_option SO_REUSEADDR 1.
Definition setsndbuf (size : Z) : M World unit := set_option SO_SNDBUF size.
Definition setrcvbuf (size : Z) : M World unit := set_option SO_RCVBUF size.

(** [getsndbuf], [getrcvbuf] *)
Definition get_option (opt : Z) : M World Z :=
  s ← get_sock;
  r ← syscall (SysGetsockopt (m_socket s) opt);
  if sr_ret r =? -1 then throw (SocketExn (sr_errno r)) else mret (sr_val r).
Definition getsndbuf : M World Z := get_option SO_SNDBUF.
Definition getrcvbuf : M World Z := get_option SO_RCVBUF.

Definition listen : M World unit :=
  s ← get_sock;
  r ← syscall (SysListen (m_socket s));
  if sr_ret r =? -1 then throw (SocketExn (sr_errno r)) else set_flags (with_tcpserver true).

(** [bind(int port, u_long addr)] *)
Definition bind_port (port addr : Z) : M World unit :=
  s ← get_sock;
  r ← syscall (SysBind (m_socket s) (u32 addr) (XHTONS (u16 port)));
  if sr_ret r =? -1 then throw (SocketExn (sr_errno r)) else mret tt.

Section addresses.
  (** [inet_addr] of the C library. *)
  Context (inet_addr : string → Z).

(** The address a text stands for; empty (or NULL) is any. *)
Definition text_addr (ip : string) : res Z :=
  if str_empty ip then Ok INADDR_ANY
  else if inet_addr ip =? INADDR_NONE then Throw (SocketExn 0) else Ok (inet_addr ip).

(** [bind(const char*, int)] *)
Definition bind_cstr (lpszip : string) (port : Z) : M World unit :=
  addr ← lift_res (text_addr lpszip);
  bind_port port addr.

(** [bind(const std::string &, int)] ends in [bind(addr, port)], which overload
    resolution sends to [bind(int port, u_long addr)]. *)
Definition bind_string (ip : string) (port : Z) : M World unit :=
  addr ← lift_res (text_addr ip);
  bind_port (s32 addr) (u64 port).
End addresses.

(** The [accept] that takes two pointers: the descriptor, or [-1] after an ignorable error;
    the output variables keep [addr0], [port0] in that case. *)
Definition accept (addr0 port0 : Z) : M World (Z * Z * Z) :=
  s ← get_sock;
  r ← syscall (SysAccept (m_socket s));
  if sr_ret r =? -1 then
    if isIgnoreAcceptError (sr_errno r) then mret (-1, addr0, port0)
    else throw (SocketExn (sr_errno r))
  else mret (sr_ret r, sr_val r, XHTONS (sr_port r)).

Definition getpeer : M World (Z * Z) :=
  s ← get_sock;
  r ← syscall (SysGetpeername (m_socket s));
  if sr_ret r =? -1 then throw (SocketExn (sr_errno r)) else mret (sr_val r, XHTONS (sr_port r)).
Definition getlocal : M World (Z * Z) :=
  s ← get_sock;
  r ← syscall (SysGetsockname (m_socket s));
  if sr_ret r =? -1 then throw (SocketExn (sr_errno r)) else mret (sr_val r, XHTONS (sr_port r)).

(** [connect(u_long ip, int port)] *)
Definition connect (ip port : Z) : M World bool :=
  s ← get_sock;
  r ← syscall (SysConnect (m_socket s) (u32 ip) (XHTONS (u16 port)));
  if sr_ret r =? -1 then
    if isIgnoreConnect (sr_errno r) then mret false else throw (SocketExn (sr_errno r))
  else
    l ← getlocal;
    if (l.1 =? ip) && (l.2 =? port) then throw (SocketExn 0)
    else (set_flags (with_connected true) ;; mret true).

(** The overloads that take or give a text for the address; [inet_addr] and [inet_ntoa] are the
    C library's. *)
Definition connect_string (inet_addr : string → Z) (ip : string) (port : Z) : M World bool :=
  connect (inet_addr ip) port.
Definition sendto_string (inet_addr : string → Z) (msg : list byte) (ip : string) (port : Z) : M World Z :=
  sendto msg (inet_addr ip) port.
Definition getpeerip (inet_ntoa : Z → string) : M World (string * Z) :=
  p ← getpeer; mret (inet_ntoa (u32 p.1), p.2).
Definition getlocalip (inet_ntoa : Z → string) : M World (string * Z) :=
  p ← getlocal; mret (inet_ntoa (u32 p.1), p.2).
(** The local [addr] and [p] are not initialised: their values are those of the stack. *)
Definition accept_string (inet_ntoa : Z → string) (junk_addr junk_p : Z) : M World (Z * string * Z) :=
  r ← accept junk_addr junk_p;
  mret (r.1.1, inet_ntoa (u32 r.1.2), r.2).

(** [complete_nonblocking_connect]: whether the connection is up ([false] stands for
    the error text). *)
Definition complete_nonblocking_connect : M World bool :=
  s ← get_sock;
  r ← syscall (SysGetsockopt (m_socket s) SO_ERROR);
  let e := if sr_ret r =? -1 then sr_errno r else sr_val r in
  if negb (e =? 0) then mret false
  else (set_flags (with_connected true) ;; mret true).

(** ** Lemmas and properties *)

(** Unfolds a run of the operations above into one term. *)
Ltac run_sys := unfold mbind, M_bind, mret, M_ret, syscall, get_sock, gets, set_flags, set_sock,
  modify, throw, lift_res; cbn.

Lemma Close_again w : (Close ;; Close) w = Close w.
Proof.
  unfold Close. run_sys. destruct (isValid (sock w)) eqn:Hv; cbn; [done|].
  by rewrite Hv.
Qed.

(** [connect] reports a completed connection exactly when it sets the
    [connected] flag; in progress, refused and self-connected sockets keep the flag. *)
Lemma connect_flag ip port w r w' :
  connect ip port w = (r, w') →
  (connected (m_sock_flags (sock w')) = true ↔
     r = Ok true ∨ connected (m_sock_flags (sock w)) = true) ∧
  m_socket (sock w') = m_socket (sock w) ∧
  match r with
  | Ok true => ∃ r1 r2 rest, script w = r1 :: r2 :: rest ∧ sr_ret r1 ≠ -1 ∧ sr_ret r2 ≠ -1 ∧
      ¬ (sr_val r2 = ip ∧ XHTONS (sr_port r2) = port)
  | Ok false => isIgnoreConnect (sr_errno (hd res_block (script w))) = true
  | Throw _ => True
  end.
Proof.
  unfold connect, getlocal. run_sys.
  destruct (script w) as [|r1 rest]; cbn.
  { intros [= <- <-]. cbn. naive_solver. }
  destruct (Z.eqb_spec (sr_ret r1) (-1)).
  { destruct (isIgnoreConnect (sr_errno r1)) eqn:He; intros [= <- <-]; cbn; intuition congruence. }
  destruct rest as [|r2 rest]; cbn; [intros [= <- <-]; cbn; naive_solver|].
  destruct (Z.eqb_spec (sr_ret r2) (-1)); [intros [= <- <-]; cbn; naive_solver|].
  cbn. destruct ((sr_val r2 =? ip) && (XHTONS (sr_port r2) =? port)) eqn:Hself;
    intros [= <- <-]; cbn; [intuition congruence|].
  split_and!; [intuition congruence|done|].
  exists r1, r2, rest. split_and!; [done..|].
  intros [H1 H2]. apply andb_false_iff in Hself as [Hs|Hs]; apply Z.eqb_neq in Hs; done.
Qed.

Definition wsock (script : list SysRes) : World :=
  mkWorld (mkSocket (with_nonblocking true flags_reset) 0 7) [] script [].

Lemma connect_flag_witness :
  ∃ w', connect 5 80 (wsock [mkRes 0 0 0 0 []; mkRes 0 0 9 0 []]) = (Ok true, w') ∧
    connected (m_sock_flags (sock w')) = true.
Proof.
  eexists. split; [reflexivity|].
  eapply (connect_flag 5 80 (wsock [mkRes 0 0 0 0 []; mkRes 0 0 9 0 []])); [reflexivity|].
  by left.
Defined.

(** [bind] with a [std::string] address passes the port as the address and
    the low half of the address as the port. *)
Lemma bind_string_swaps inet_addr ip port w :
  ip ≠ ""%string → in_u 32 (inet_addr ip) → inet_addr ip ≠ INADDR_NONE → in_u 16 port →
  ∃ res w', bind_string inet_addr ip port w = (res, w') ∧
    calls w' = calls w ++ [SysBind (m_socket (sock w)) port (XHTONS (u16 (inet_addr ip)))].
Proof.
  unfold in_u. intros Hip Ha Hn Hp. unfold bind_string, text_addr, bind_port.
  apply str_empty_false in Hip. rewrite Hip.
  destruct (Z.eqb_spec (inet_addr ip) INADDR_NONE); [done|]. run_sys.
  rewrite (uwrap_small 64), (uwrap_small 32) by (unfold in_u; lia).
  assert (u16 (s32 (inet_addr ip)) = u16 (inet_addr ip)) as ->.
  { unfold uwrap, swrap. change (2 ^ (32 - 1)) with (2 ^ 31).
    change (2 ^ 31) with 2147483648. change (2 ^ 32) with 4294967296 in *. change (2 ^ 16) with 65536. lia_divmod. }
  case_match; eexists _, _; done.
Qed.

Lemma bind_string_swaps_witness :
  ∃ res w', bind_string (λ _, 0x0100007f) "127.0.0.1" 80 (wsock []) = (res, w') ∧
    calls w' = [SysBind 7 80 (XHTONS 0x007f)].
Proof. apply (bind_string_swaps (λ _, 0x0100007f) "127.0.0.1" 80 (wsock [])); done. Defined.

(** The tags record the last use of either direction since they were cleared. *)
Lemma send_tag_set data w r w' : send data w = (r, w') → checkSendTag (sock w') = true.
Proof. unfold send. run_sys. by repeat case_match; intros [= <- <-]. Qed.
Lemma recv_tag_set n w r w' : recv n w = (r, w') → checkRecvTag (sock w') = true.
Proof. unfold recv, setRecvTime. run_sys. by repeat case_match; intros [= <- <-]. Qed.
Lemma clearSendTag_once w :
  (clearSendTag ;; clearSendTag) w =
    (Ok false, mkWorld (mkSocket (with_send_tag false (m_sock_flags (sock w))) (m_lastRcvTime (sock w)) (m_socket (sock w)))
                 (calls w) (script w) (wire_out w)).
Proof. done. Qed.

(** [shutdown] of both directions of a socket that is selected for writing marks the receiving side as
    shut, and throws before the system is asked for anything. *)
Lemma shutdown_marks_and_throws w :
  Z.land (selevent (m_sock_flags (sock w))) EVENT_READ = 0 →
  Z.land (selevent (m_sock_flags (sock w))) EVENT_WRITE ≠ 0 →
  ∃ w', shutdown Both w = (Throw (SocketExn 0), w') ∧ calls w' = calls w ∧
    isShutdownReceives (sock w') = true.
Proof.
  intros Hr Hw. unfold shutdown. run_sys. rewrite Hr. cbn.
  apply Z.eqb_neq in Hw. rewrite Hw. cbn. by eexists.
Qed.
