(* ===== verification/Connection.v ===== *)
(** * Connection.v: buffered connections

    [SockBuffer] ([core/base/SockBuffer.h]), its filter [RC4Filter]
    ([core/base/RC4Filter.cpp], built without [TLS_ON] as in the Makefiles) and
    [Connection] ([core/conn/Connection.cpp]).  The kernel is the script of
    [Socket.v]; the calls a connection makes on its event loop and on its event
    handler are logged.  [_protoHandler->onData] is a parameter that works on the
    whole connection, since handling a request may write an answer to it.  The last part
    states what a connection that does not encrypt promises: a line that keeps what the
    kernel did not take ([out_line]), and that it is one ([out_stream_in_order]). *)

From S2P Require Import Prelude BlockBuffer Buffers Socket.

(** [BlockBuffer<def_block_alloc_8k, 128*8>], for input and output. *)
#[export] Instance SockBlock : BlockParams.
Proof. refine {| requested_size := 8 * 1024; max_blocks := 1024 |}; abstract lia. Defined.

(** ** State *)

(** The calls on [_eventHandler]. *)
Inductive Notice :=
  | NConnected
  | NClose
  | NInitiativeClose
  | NError (ev : Z)
  | NTimeout.

#[global] Instance Notice_eq_dec : EqDecision Notice.
Proof. solve_decision. Defined.

Record Conn := mkConn {
  net : World;
  input : BlockBuffer;
  output : BlockBuffer;
  bstats : BlockStats;         (** the counters shared by all buffers *)
  input_encrypted : bool;
  output_encrypted : bool;
  writeBuf : list byte;        (** the static [RC4Filter::writeBuffer] *)
  bEnable : bool;
  _timeout : Z;
  timers : list Z;             (** arguments of [addTimer], oldest first *)
  events : list (Z * Z);       (** arguments of [addEvent], oldest first *)
  notices : list Notice;
}.

Definition upd_net (w : World) (c : Conn) : Conn :=
  mkConn w (input c) (output c) (bstats c) (input_encrypted c) (output_encrypted c) (writeBuf c)
    (bEnable c) (_timeout c) (timers c) (events c) (notices c).
Definition upd_input (b : BlockBuffer) (s : BlockStats) (c : Conn) : Conn :=
  mkConn (net c) b (output c) s (input_encrypted c) (output_encrypted c) (writeBuf c)
    (bEnable c) (_timeout c) (timers c) (events c) (notices c).
Definition upd_output (b : BlockBuffer) (s : BlockStats) (c : Conn) : Conn :=
  mkConn (net c) (input c) b s (input_encrypted c) (output_encrypted c) (writeBuf c)
    (bEnable c) (_timeout c) (timers c) (events c) (notices c).
Definition upd_writeBuf (l : list byte) (c : Conn) : Conn :=
  mkConn (net c) (input c) (output c) (bstats c) (input_encrypted c) (output_encrypted c) l
    (bEnable c) (_timeout c) (timers c) (events c) (notices c).

Definition on_net {A} (m : M World A) : M Conn A := λ c,
  let (r, w) := m (net c) in (r, upd_net w c).
Definition addTimer (t : Z) : M Conn unit := modify (λ c,
  mkConn (net c) (input c) (output c) (bstats c) (input_encrypted c) (output_encrypted c) (writeBuf c)
    (bEnable c) (_timeout c) (timers c ++ [t]) (events c) (notices c)).
Definition addEvent (remove add : Z) : M Conn unit := modify (λ c,
  mkConn (net c) (input c) (output c) (bstats c) (input_encrypted c) (output_encrypted c) (writeBuf c)
    (bEnable c) (_timeout c) (timers c) (events c ++ [(remove, add)]) (notices c)).
Definition notify (n : Notice) : M Conn unit := modify (λ c,
  mkConn (net c) (input c) (output c) (bstats c) (input_encrypted c) (output_encrypted c) (writeBuf c)
    (bEnable c) (_timeout c) (timers c) (events c) (notices c ++ [n])).

Section connection.
  Context (h : Heap).

(** ** RC4Filter, without [TLS_ON] *)

Definition ENC_BUF_LEN : Z := 1024.

(** [RC4Alloc()] and [RC4Alloc::realloc]: uninitialised memory of a size. *)
Definition RC4Alloc_new : list byte := heap_junk h <$> seq 0 (Z.to_nat ENC_BUF_LEN).
Definition RC4Alloc_realloc (size : Z) : list byte := heap_junk h <$> seq 0 (Z.to_nat size).

(** [filterRead]: the cipher is compiled out. *)
Definition filterRead (encrypted : bool) (data : list byte) : list byte := data.

(** [filterWrite]: an encrypted filter answers with the static buffer, which nothing fills. *)
Definition filterWrite (data : list byte) : M Conn (list byte) := λ c,
  if output_encrypted c then
    let buf := if zlen (writeBuf c) <? zlen data
               then RC4Alloc_realloc (zlen data)
               else writeBuf c in
    (Ok (ztake (zlen data) buf), upd_writeBuf buf c)
  else (Ok data, c).

(** [Connection::setEncKey], through [RC4Filter::setRC4Key] *)
Definition setEncKey : M Conn unit := modify (λ c,
  mkConn (net c) (input c) (output c) (bstats c) true true (writeBuf c)
    (bEnable c) (_timeout c) (timers c) (events c) (notices c)).

Definition isInputEncrypto (c : Conn) : bool := input_encrypted c.
Definition isOutputEncrypto (c : Conn) : bool := output_encrypted c.

(** ** SockBuffer *)

(** [_input.pump(socket(), n)] *)
Definition pump (n : Z) : M Conn Z := λ c,
  let (b, s) := if (freespace (input c) <? Z.shiftr requested_size 1) && (m_block (input c) <? max_blocks)
                then snd (increase_capacity h requested_size (input c, bstats c))
                else (input c, bstats c) in
  let c := upd_input b s c in
  let nrecv := freespace b in
  if nrecv =? 0 then (Ok (-1), c)
  else
    let nrecv := Z.min n nrecv in
    match on_net (recv nrecv) c with
    | (Throw e, c') => (Throw e, c')
    | (Ok (ret, data), c') =>
        if 0 <? ret then
          let data := filterRead (input_encrypted c') data in
          (Ok ret, upd_input (mkBB (overwrite (m_data b) (m_size b) data) (m_size b + ret) (m_block b)) s c')
        else (Ok ret, c')
    end.

(** [append] of the output buffer. *)
Definition out_append (l : list byte) : M Conn bool := λ c,
  match append h l (output c, bstats c) with
  | (ok, (b, s)) => (Ok ok, upd_output b s c)
  end.

(** [_output.write(msg, size)]: append into the buffer only. *)
Definition write_buffered (msg : list byte) : M Conn unit :=
  if zlen msg =? 0 then mret tt
  else
    enc ← filterWrite msg;
    ok ← out_append enc;
    if ok : bool then mret tt else throw BufferOverflowAll.

(** [_output.write(socket(), msg, size)] *)
Definition write_socket (msg : list byte) : M Conn unit :=
  if zlen msg =? 0 then mret tt
  else
    enc ← filterWrite msg;
    c ← get;
    nsent ← (if bb_empty (output c) then on_net (send enc) else mret 0);
    ok ← out_append (zdrop nsent enc);
    if ok : bool then mret tt
    else if 0 <? nsent then throw BufferOverflow
    else throw BufferOverflowAll.

(** [_output.write(socket(), buf)] for another buffer [buf], which it empties. *)
Definition write_buffer (buf : BState) : M Conn BState :=
  write_socket (content buf.1) ;;
  match erase 0 npos false buf with
  | Some buf' => mret buf'
  | None => throw AssertFail
  end.

(** [_output.flush(socket(), n)] *)
Definition flush (n : Z) : M Conn Z :=
  c ← get;
  ret ← on_net (send (ztake (Z.min n (m_size (output c))) (content (output c))));
  c ← get;
  match erase 0 ret false (output c, bstats c) with
  | None => throw AssertFail
  | Some (b, s) => modify (upd_output b s) ;; mret ret
  end.

(** ** Connection *)

(** [Connection::sendBin] *)
Definition sendBin (data : list byte) : M Conn unit :=
  c ← get;
  if negb (bEnable c) then mret tt
  else if isConnected (sock (net c)) then
    (write_socket data ;;
     c ← get;
     if negb (bb_empty (output c)) then addEvent 0 EVENT_WRITE else mret tt)
  else write_buffered data.

(** [Connection::onConnected] *)
Definition onConnected : M Conn unit :=
  c ← get;
  if negb (isConnected (sock (net c))) then notify (NError (-1))
  else
    (addTimer (-1) ;;
     add ← (if negb (bb_empty (output c)) then
              (flush npos ;;
               c ← get;
               mret (if negb (bb_empty (output c)) then Z.lor EVENT_READ EVENT_WRITE else EVENT_READ))
            else mret EVENT_READ);
     addEvent EVENT_ALL add ;;
     notify NConnected).

(** [socketExn] with an errno to be ignored returns; any other [std::exception] is
    reported to the event handler with [env::SocketErrorLogLevel] (0). *)
Definition conn_handler (e : exn) : option (M Conn unit) :=
  match e with
  | SocketExn en => Some (if (en =? EAGAIN) || (en =? EINTR) then mret tt else notify (NError 0))
  | AssertFail | Undefined | ProcessExit _ | OutOfFuel => None
  | _ => Some (notify (NError 0))
  end.

Definition get_input_buffer_size (c : Conn) : Z := m_size (input c).
Definition get_output_buffer_size (c : Conn) : Z := m_size (output c).

(** The end of a read: what [onData] consumed leaves the input buffer. *)
Definition erase_input (ret : Z) : M Conn unit :=
  c ← get;
  match erase 0 ret false (input c, bstats c) with
  | None => throw AssertFail
  | Some (b, s) => modify (upd_input b s)
  end.

(** [Connection::onRead].  [onData] handles requests, so it may work on a state [P] larger
    than the connection; [lift] is the connection's place in it. *)
Definition onRead_in {P : Type} (lift : ∀ A, M Conn A → M P A) (onData : list byte → M P Z) : M P unit :=
  try_catch
    (n ← lift _ (pump npos);
     if 0 <? n then
       c ← lift _ get;
       ret ← onData (content (input c));
       if negb (ret =? -1) then lift _ (erase_input ret) else lift _ (notify NInitiativeClose)
     else lift _ (notify NClose))
    (λ e, lift unit <$> conn_handler e).
Definition onRead (onData : list byte → M Conn Z) : M Conn unit := onRead_in (λ _ m, m) onData.

(** [Connection::onWrite] *)
Definition onWrite : M Conn unit :=
  try_catch
    (flush npos ;;
     c ← get;
     if bb_empty (output c) then addEvent EVENT_WRITE 0 else mret tt)
    conn_handler.

(** [Connection::setTimeout] *)
Definition setTimeout (timeout : Z) : M Conn unit :=
  modify (λ c, mkConn (net c) (input c) (output c) (bstats c) (input_encrypted c) (output_encrypted c)
    (writeBuf c) (bEnable c) timeout (timers c) (events c) (notices c)) ;;
  addTimer timeout.

(** [Connection::onTimeout] *)
Definition onTimeout : M Conn unit :=
  tag ← on_net clearRecvTag;
  if tag : bool then (c ← get; addTimer (_timeout c)) else notify NTimeout.

(** [TcpSock::doEvent], with the same place for the connection. *)
Definition tcp_doEvent_in {P : Type} (lift : ∀ A, M Conn A → M P A) (onData : list byte → M P Z) (ev : Z) : M P unit :=
  c ← lift _ get;
  if isConnected (sock (net c)) then
    (if ev =? EVENT_READ then onRead_in lift onData
     else if ev =? EVENT_WRITE then lift _ onWrite
     else if ev =? EVENT_TIMEOUT then lift _ onTimeout
     else throw AssertFail)
  else if ev =? EVENT_TIMEOUT then lift _ onConnected
  else if (ev =? EVENT_READ) || (ev =? EVENT_WRITE) then
    lift _ (on_net complete_nonblocking_connect ;; onConnected)
  else throw AssertFail.
Definition tcp_doEvent (onData : list byte → M Conn Z) (ev : Z) : M Conn unit := tcp_doEvent_in (λ _ m, m) onData ev.

End connection.

(** ** Lemmas *)

(** The bytes handed to the kernel followed by those still buffered. *)
Definition out_stream (c : Conn) : list byte := wire_out (net c) ++ content (output c).

Record conn_wf (c : Conn) : Prop := {
  cwf_in : bb_wf (input c);
  cwf_out : bb_wf (output c);
}.

Lemma send_spec data w r w' :
  send data w = (r, w') →
  match r with
  | Ok n => 0 <= n <= zlen data ∧ wire_out w' = wire_out w ++ ztake n data
  | Throw e => (∃ en, e = SocketExn en) ∧ wire_out w' = wire_out w
  end ∧ isConnected (sock w') = isConnected (sock w).
Proof.
  unfold send. run_sys. pose proof (zlen_nonneg data).
  destruct (sr_ret _ =? -1); [destruct (isIgnoreError _)|]; intros [= <- <-]; cbn.
  - by rewrite app_nil_r.
  - eauto.
  - split; [split; [lia|done]|done].
Qed.

Lemma on_net_spec {A} (m : M World A) c r c' :
  on_net m c = (r, c') → ∃ w, m (net c) = (r, w) ∧ c' = upd_net w c.
Proof. unfold on_net. destruct (m (net c)) as [r1 w1]. intros [= <- <-]. eauto. Qed.

Lemma content_empty b : bb_wf b → bb_empty b = true → content b = [].
Proof.
  intros Hwf He. apply Z.eqb_eq in He. apply zlen_zero. by rewrite length_content.
Qed.

Lemma out_append_spec h l c ok c' :
  conn_wf c → out_append h l c = (Ok ok, c') →
  conn_wf c' ∧ net c' = net c ∧ input c' = input c ∧ output_encrypted c' = output_encrypted c ∧
  bEnable c' = bEnable c ∧
  content (output c') = if ok : bool then content (output c) ++ l else content (output c).
Proof.
  intros [Hin Hout]. unfold out_append.
  destruct (append h l (output c, bstats c)) as [ok1 [b1 s1]] eqn:E.
  apply append_spec in E; [|done]. intros [= <- <-].
  destruct ok1; [destruct E as [Hwf Hc]|destruct E as (-> & -> & _)]; by split_and!.
Qed.

(** A successful [write] keeps the stream in order; no byte is lost or duplicated. *)
Lemma write_socket_stream h msg c c' :
  conn_wf c → output_encrypted c = false → write_socket h msg c = (Ok tt, c') →
  conn_wf c' ∧ output_encrypted c' = false ∧ input c' = input c ∧ bEnable c' = bEnable c ∧
  isConnected (sock (net c')) = isConnected (sock (net c)) ∧
  out_stream c' = out_stream c ++ msg.
Proof.
  intros Hwf Henc. unfold write_socket.
  destruct (Z.eqb_spec (zlen msg) 0) as [H0|H0].
  { apply zlen_zero in H0 as ->. intros [= <-]. by rewrite app_nil_r. }
  assert (filterWrite h msg c = (Ok msg, c)) as Ef by (unfold filterWrite; by rewrite Henc).
  erewrite bind_Ok by exact Ef. erewrite bind_Ok by reflexivity.
  intros H. inv_bind H. inv_bind H. rename s into c1, s0 into c2, a into nsent, a0 into ok.
  destruct ok; [|by destruct (0 <? nsent)]. injection H as ->.
  assert (0 <= nsent <= zlen msg ∧ conn_wf c1 ∧ output c1 = output c ∧ input c1 = input c ∧
    output_encrypted c1 = false ∧ bEnable c1 = bEnable c ∧
    isConnected (sock (net c1)) = isConnected (sock (net c)) ∧
    (bb_empty (output c) = false → nsent = 0) ∧
    wire_out (net c1) = wire_out (net c) ++ ztake nsent msg) as (Hn & Hwf1 & Ho & Hi & He & Hb & Hcn & Hne & Hw).
  { destruct (bb_empty (output c)) eqn:Hemp.
    - apply on_net_spec in Hrun as (w & Es & ->). apply send_spec in Es as [[Hn Hw] Hcn].
      destruct Hwf. split_and!; done || lia.
    - injection Hrun as <- <-. pose proof (zlen_nonneg msg). split_and!; try done; try lia.
      by rewrite ztake_0, app_nil_r. }
  apply out_append_spec in Hrun0 as (Hwf2 & Hn2 & Hi2 & He2 & Hb2 & Hc2); [|done].
  split_and!; [done|congruence..|]. unfold out_stream. rewrite Hn2, Hc2, Hw, Ho.
  destruct (bb_empty (output c)) eqn:Hemp.
  - rewrite (content_empty (output c)) by (apply Hwf || done). cbn.
    by rewrite app_nil_r, <- app_assoc, ztake_zdrop.
  - rewrite Hne by done. by rewrite ztake_0, zdrop_0, app_nil_r, app_assoc.
Qed.

(** [flush] moves a prefix of the buffer to the kernel. *)
Lemma flush_stream n c ret c' :
  conn_wf c → 0 <= n → flush n c = (Ok ret, c') →
  conn_wf c' ∧ output_encrypted c' = output_encrypted c ∧ input c' = input c ∧ bEnable c' = bEnable c ∧
  isConnected (sock (net c')) = isConnected (sock (net c)) ∧
  out_stream c' = out_stream c.
Proof.
  intros Hwf Hn0. unfold flush. erewrite bind_Ok by reflexivity. intros H.
  set (data := ztake _ _) in H.
  inv_bind H. rename s into c1, a into nsent. erewrite bind_Ok in H by reflexivity.
  apply on_net_spec in Hrun as (w & Es & ->). apply send_spec in Es as [[Hn Hw] Hcn].
  cbn [output upd_net bstats] in H. destruct Hwf as [Hin Hout].
  pose proof (erase_spec 0 nsent false (output c) (bstats c) Hout ltac:(lia) ltac:(lia)) as He.
  destruct (erase 0 nsent false (output c, bstats c)) as [[b s]|]; [|done].
  destruct He as (_ & Hwfb & Hcb). injection H as <- <-.
  split_and!; try done. unfold out_stream; cbn. rewrite Hw, Hcb, ztake_0, Z.add_0_l. cbn.
  rewrite <- app_assoc. f_equal.
  assert (ztake nsent data = ztake nsent (content (output c))) as ->.
  { unfold data. rewrite ztake_ztake. f_equal. unfold data in Hn.
    pose proof (wf_size _ Hout).
    rewrite zlen_ztake in Hn by (rewrite length_content by done; lia). lia. }
  apply ztake_zdrop.
Qed.

(** ** Properties *)

(** What the node does to the output side: messages sent, writability reported. *)
Inductive out_op := OpSend (msg : list byte) | OpWritable.

(** Calls one after the other, whoever catches what they throw. *)
Fixpoint run_each {O S} (f : O → M S unit) (ops : list O) (s : S) : list (res unit) * S :=
  match ops with
  | [] => ([], s)
  | o :: ops => let (r, s1) := f o s in let (rs, s2) := run_each f ops s1 in (r :: rs, s2)
  end.

(** A call, with the heap it meets. *)
Definition conn_call (call : Heap * out_op) : M Conn unit :=
  match call.2 with
  | OpSend msg => sendBin call.1 msg
  | OpWritable => onWrite
  end.

(** *** The promise: a line of bytes, sent and pending *)

Record out_line := mkLine {
  l_connected : bool;
  l_sent : list byte;          (** taken by the kernel *)
  l_pending : granted;         (** kept in blocks until the socket is writable *)
  l_answers : list SysRes;     (** the kernel's, to come *)
  l_events : list (Z * Z);
  l_notices : list Notice;
}.

(** What the kernel takes of [data] when it answers [r]. *)
Definition took (r : SysRes) (data : list byte) : res Z :=
  if sr_ret r =? -1 then
    if isIgnoreError (sr_errno r) then Ok 0 else Throw (SocketExn (sr_errno r))
  else Ok (Z.min (Z.max 0 (sr_ret r)) (zlen data)).
Definition next_answer (k : list SysRes) : SysRes := hd res_block k.

(** What the kernel did not take is kept if there is room, and what is kept asks for the
    writable event. *)
Definition spec_rest (has : Z → bool) (n : Z) (rest : list byte) : M out_line unit := λ '(mkLine con sent pend k ev no),
  match spec_append has rest pend with
  | (true, pend') =>
      (Ok tt, mkLine con sent pend' k
         (if con && negb (bool_decide (pend'.1 = [])) then ev ++ [(0, EVENT_WRITE)] else ev) no)
  | (false, pend') => (Throw (if 0 <? n then BufferOverflow else BufferOverflowAll), mkLine con sent pend' k ev no)
  end.

(** A message goes to the kernel only when nothing is pending. *)
Definition spec_send (has : Z → bool) (msg : list byte) : M out_line unit := λ l,
  let '(mkLine con sent pend k ev no) := l in
  if (zlen msg =? 0) || negb (con && bool_decide (pend.1 = [])) then spec_rest has 0 msg l
  else match took (next_answer k) msg with
       | Throw e => (Throw e, mkLine con sent pend (tl k) ev no)
       | Ok n => spec_rest has n (zdrop n msg) (mkLine con (sent ++ ztake n msg) pend (tl k) ev no)
       end.

(** A writable socket is given what is pending; an error that is not one of waiting is reported. *)
Definition spec_writable : M out_line unit := λ '(mkLine con sent (p, b) k ev no),
  match took (next_answer k) p with
  | Throw (SocketExn en) =>
      (Ok tt, mkLine con sent (p, b) (tl k) ev (if (en =? EAGAIN) || (en =? EINTR) then no else no ++ [NError 0]))
  | Throw e => (Throw e, mkLine con sent (p, b) (tl k) ev no)
  | Ok n =>
      let p' := zdrop n p in
      let empty := bool_decide (p' = []) in
      (Ok tt, mkLine con (sent ++ ztake n p) (p', if empty then 0 else b) (tl k)
                (if empty then ev ++ [(EVENT_WRITE, 0)] else ev) no)
  end.

Definition line_call (call : Heap * out_op) : M out_line unit :=
  match call.2 with
  | OpSend msg => spec_send (heap_has call.1) msg
  | OpWritable => spec_writable
  end.

Definition line_view (c : Conn) : out_line :=
  mkLine (isConnected (sock (net c))) (wire_out (net c)) (abs (output c)) (script (net c)) (events c) (notices c).

(** What a call adds to the line: the message it was given; a part of it, torn off, if the
    buffer overflows after the kernel took that part; nothing if it throws anything else. *)
Definition accepts (o : out_op) (r : res unit) (part : list byte) : Prop :=
  match o, r with
  | OpSend msg, Ok _ => part = msg
  | OpSend msg, Throw BufferOverflow => part ≠ [] ∧ part `prefix_of` msg
  | OpSend _, Throw _ => part = []
  | OpWritable, Ok _ => part = []
  | OpWritable, Throw _ => False
  end.
Definition line_stream (l : out_line) : list byte := l_sent l ++ (l_pending l).1.

(** A connection that may send. *)
Record sending (c : Conn) : Prop := {
  snd_wf : conn_wf c;
  snd_plain : output_encrypted c = false;
  snd_enable : bEnable c = true;
}.

(** *** The connection keeps the promise *)

Lemma send_took data w : ∃ w',
  send data w = (took (next_answer (script w)) data, w') ∧ script w' = tl (script w) ∧
  isConnected (sock w') = isConnected (sock w) ∧
  wire_out w' = wire_out w ++ match took (next_answer (script w)) data with Ok n => ztake n data | Throw _ => [] end.
Proof.
  unfold send, took, next_answer. run_sys.
  destruct (sr_ret _ =? -1); [destruct (isIgnoreError _)|]; eexists; (split; [reflexivity|]); cbn;
    by rewrite ?ztake_0, ?app_nil_r.
Qed.

Lemma took_bounds r data n : took r data = Ok n → 0 <= n <= zlen data.
Proof.
  unfold took. pose proof (zlen_nonneg data).
  destruct (_ =? -1); [destruct (isIgnoreError _)|]; intros [= <-]; lia.
Qed.
Lemma took_throws r data e : took r data = Throw e → ∃ en, e = SocketExn en.
Proof. unfold took. destruct (_ =? -1); [destruct (isIgnoreError _)|]; intros [= <-]. eauto. Qed.

Lemma empty_abs b : bb_wf b → bool_decide ((abs b).1 = []) = bb_empty b.
Proof.
  intros Hwf. unfold bb_empty, abs; cbn. rewrite <- length_content by done. case_bool_decide as Hl.
  - by rewrite Hl.
  - symmetry. apply Z.eqb_neq. by intros ?%zlen_zero.
Qed.

(** [append] on the output side, for the promise. *)
Lemma out_append_view h l c : sending c → ∃ c',
  out_append h l c = (Ok (spec_append (heap_has h) l (abs (output c))).1, c') ∧ sending c' ∧
  line_view c' = mkLine (isConnected (sock (net c))) (wire_out (net c)) (spec_append (heap_has h) l (abs (output c))).2
              (script (net c)) (events c) (notices c).
Proof.
  intros [[Hin Hout] Henc Hena]. unfold out_append. rewrite (append_abs h l (output c) (bstats c) Hout).
  destruct (append h l (output c, bstats c)) as [ok [b s]] eqn:E. eexists. split; [reflexivity|]. split; [|done].
  apply append_spec in E; [|done]. split; [|done..]. split; [done|].
  destruct ok; [apply E|]. by destruct E as (-> & _).
Qed.

Lemma sending_upd_net w c : sending c → sending (upd_net w c).
Proof. intros [[? ?] ? ?]. by split. Qed.
#[local] Hint Resolve sending_upd_net : core.

(** The end of a [sendBin] once [n] bytes of the message are with the kernel. *)
Definition keep_rest (h : Heap) (n : Z) (rest : list byte) : M Conn unit :=
  ok ← out_append h rest;
  if ok : bool then
    (c ← get; if isConnected (sock (net c)) && negb (bb_empty (output c)) then addEvent 0 EVENT_WRITE else mret tt)
  else throw (if 0 <? n then BufferOverflow else BufferOverflowAll).

Lemma keep_rest_view h n rest c : sending c → ∃ c',
  keep_rest h n rest c = ((spec_rest (heap_has h) n rest (line_view c)).1, c') ∧ sending c' ∧
  line_view c' = (spec_rest (heap_has h) n rest (line_view c)).2.
Proof.
  intros Hs. destruct (out_append_view h rest c Hs) as (c1 & E & Hs1 & Hv).
  unfold keep_rest, spec_rest. erewrite bind_Ok by exact E. cbn [line_view].
  destruct (spec_append (heap_has h) rest (abs (output c))) as [[] p] eqn:Ep; cbn [fst snd] in *.
  - assert (Hp : p = abs (output c1)) by (by injection Hv).
    assert (Hc : isConnected (sock (net c)) = isConnected (sock (net c1))) by (by injection Hv).
    erewrite bind_Ok by reflexivity. rewrite Hp, Hc, (empty_abs _ (cwf_out _ (snd_wf _ Hs1))).
    destruct (_ && negb (bb_empty (output c1))); eexists; (split; [reflexivity|]).
    + destruct Hs1 as [[? ?] ? ?]. split; [by split|]. unfold line_view in *. cbn. injection Hv as -> -> -> -> -> ->. done.
    + split; [done|]. by rewrite Hv, Hp, Hc.
  - eexists. split; [reflexivity|]. by split.
Qed.

Lemma on_net_took data c : ∃ w',
  on_net (send data) c = (took (next_answer (script (net c))) data, upd_net w' c) ∧
  isConnected (sock w') = isConnected (sock (net c)) ∧
  line_view (upd_net w' c) =
    mkLine (isConnected (sock (net c)))
      (wire_out (net c) ++ match took (next_answer (script (net c))) data with Ok n => ztake n data | Throw _ => [] end)
      (abs (output c)) (tl (script (net c))) (events c) (notices c).
Proof.
  destruct (send_took data (net c)) as (w' & Es & Hk & Hcn & Hw). exists w'. unfold on_net, line_view. cbn.
  by rewrite Es, Hcn, Hk, Hw.
Qed.

(** The node's [sendBin] in that shape. *)
Lemma sendBin_plain h msg c :
  sending c → sendBin h msg c =
    (if (zlen msg =? 0) || negb (isConnected (sock (net c)) && bb_empty (output c)) then keep_rest h 0 msg
     else (n ← on_net (send msg); keep_rest h n (zdrop n msg))) c.
Proof.
  intros [[Hin Hout] Henc Hena].
  assert (Hf : ∀ m, filterWrite h m c = (Ok m, c)) by (intros m; unfold filterWrite; by rewrite Henc).
  unfold sendBin, write_socket, write_buffered, keep_rest, mbind, M_bind, get, mret, M_ret, out_append.
  rewrite Hena. cbn [negb]. destruct (Z.eqb_spec (zlen msg) 0) as [H0|H0]; cbn [orb].
  { unfold append. rewrite H0. cbn. destruct (isConnected (sock (net c))) eqn:Hcon; cbn; rewrite ?Hcon; by destruct c. }
  destruct (isConnected (sock (net c))) eqn:Hcon; cbn [andb]; rewrite Hf.
  2: { cbn. destruct (append h msg _) as [[] [b s]]; cbn; by rewrite ?Hcon. }
  destruct (bb_empty (output c)); cbn [negb].
  - destruct (on_net_took msg c) as (w' & E & Hcn & _). rewrite E. destruct (took _ _) as [n|e]; [|done]. cbn.
    destruct (append h (zdrop n msg) _) as [[] [b s]]; cbn; rewrite ?Hcn, ?Hcon; [done|by destruct (0 <? n)].
  - cbn. rewrite zdrop_0. destruct (append h msg _) as [[] [b s]]; cbn; by rewrite ?Hcon.
Qed.

Lemma sendBin_view h msg c : sending c → ∃ c',
  sendBin h msg c = ((spec_send (heap_has h) msg (line_view c)).1, c') ∧ sending c' ∧
  line_view c' = (spec_send (heap_has h) msg (line_view c)).2.
Proof.
  intros Hs. rewrite sendBin_plain by done. unfold spec_send. cbn [line_view].
  fold (line_view c). rewrite (empty_abs _ (cwf_out _ (snd_wf _ Hs))).
  destruct (_ || _); [by apply keep_rest_view|].
  destruct (on_net_took msg c) as (w' & E & Hcn & Hv).
  destruct (took _ _) as [n|e].
  - erewrite bind_Ok by exact E. rewrite <- Hv. by apply keep_rest_view, sending_upd_net.
  - erewrite bind_Throw by exact E. eexists. split; [reflexivity|]. split; [by apply sending_upd_net|].
    by rewrite Hv, app_nil_r.
Qed.

(** [flush] gives the kernel what is pending. *)
Lemma flush_view c : sending c → ∃ c',
  let p := content (output c) in
  let '(mkLine con sent (_, b) k ev no) := line_view c in
  sending c' ∧
  match took (next_answer k) p with
  | Ok n => flush npos c = (Ok n, c') ∧
      line_view c' = mkLine con (sent ++ ztake n p) (zdrop n p, if bool_decide (zdrop n p = []) then 0 else b) (tl k) ev no
  | Throw e => flush npos c = (Throw e, c') ∧ line_view c' = mkLine con sent (p, b) (tl k) ev no
  end.
Proof.
  intros Hs. pose proof Hs as [[Hin Hout] Henc Hena]. cbn [line_view abs].
  assert (Hp : ztake (Z.min npos (m_size (output c))) (content (output c)) = content (output c)).
  { rewrite Z.min_r, ztake_all; [done|by rewrite length_content|].
    pose proof (m_size_small _ Hout). unfold npos. lia. }
  destruct (on_net_took (content (output c)) c) as (w' & E & Hcn & Hv). unfold flush.
  destruct (took (next_answer (script (net c))) (content (output c))) as [n|e] eqn:Et.
  2: { exists (upd_net w' c). split; [by apply sending_upd_net|]. erewrite bind_Ok by reflexivity. rewrite Hp.
       erewrite bind_Throw by exact E. split; [done|]. by rewrite Hv, app_nil_r. }
  pose proof (took_bounds _ _ _ Et) as Hn.
  pose proof (erase_abs plain_heap 0 n false (output c) (bstats c) Hout ltac:(lia) ltac:(lia)) as Ha.
  pose proof (erase_spec 0 n false (output c) (bstats c) Hout ltac:(lia) ltac:(lia)) as Hw.
  unfold spec_call, abs in Ha. cbn [fst snd] in Ha. pose proof (zlen_nonneg (content (output c))).
  destruct (Z.ltb_spec (zlen (content (output c))) 0); [lia|].
  rewrite ztake_0, Z.add_0_l, andb_true_r in Ha. cbn [app] in Ha.
  destruct (erase 0 n false (output c, bstats c)) as [[b s]|] eqn:Ee; [|done].
  destruct Hw as (_ & Hwf & _). exists (upd_output b s (upd_net w' c)). split; [by split; [split|..]|].
  erewrite bind_Ok by reflexivity. rewrite Hp. erewrite bind_Ok by exact E. erewrite bind_Ok by reflexivity.
  cbn [output upd_net bstats]. rewrite Ee. split; [done|].
  unfold line_view in *. cbn [net output events notices upd_net upd_output] in *.
  injection Hv as -> -> ->. unfold abs. injection Ha as <- <-. done.
Qed.

Lemma onWrite_view c : sending c → ∃ c',
  onWrite c = ((spec_writable (line_view c)).1, c') ∧ sending c' ∧ line_view c' = (spec_writable (line_view c)).2.
Proof.
  intros Hs. destruct (flush_view c Hs) as [c1 H]. cbn [line_view abs] in H. unfold onWrite, try_catch.
  cbn [line_view spec_writable abs]. destruct (took _ _) as [n|e] eqn:Et; destruct H as (Hs1 & E & Hv).
  - assert (He : bb_empty (output c1) = bool_decide (zdrop n (content (output c)) = [])).
    { assert (Hc : content (output c1) = zdrop n (content (output c))) by (by injection Hv).
      rewrite <- (empty_abs _ (cwf_out _ (snd_wf _ Hs1))). unfold abs; cbn [fst]. by rewrite Hc. }
    erewrite bind_Ok by exact E. erewrite bind_Ok by reflexivity. rewrite He.
    case_bool_decide; eexists; (split; [reflexivity|]).
    + split; [by destruct Hs1 as [[? ?] ? ?]|]. unfold line_view, abs in *. cbn. by injection Hv as -> -> -> -> -> -> ->.
    + by split.
  - erewrite bind_Throw by exact E. apply took_throws in Et as [en ->]. cbn [conn_handler].
    destruct (_ || _); eexists; (split; [reflexivity|]).
    + by split.
    + split; [by destruct Hs1 as [[? ?] ? ?]|]. unfold line_view, abs in *. cbn. by injection Hv as -> -> -> -> -> -> ->.
Qed.

Lemma conn_call_view call c : sending c → ∃ c',
  conn_call call c = ((line_call call (line_view c)).1, c') ∧ sending c' ∧ line_view c' = (line_call call (line_view c)).2.
Proof. destruct call as [h [msg|]]; [apply sendBin_view|apply onWrite_view]. Qed.

(** *** The promise keeps the stream *)

Lemma spec_append_list has l p :
  (spec_append has l p).2.1 = if (spec_append has l p).1 then p.1 ++ l else p.1.
Proof. unfold spec_append. by destruct (grant has (zlen l) p) as [[] k]. Qed.

Lemma spec_rest_stream has n rest l : let r := spec_rest has n rest l in
  match r.1 with
  | Ok _ => line_stream r.2 = line_stream l ++ rest
  | Throw e => e = (if 0 <? n then BufferOverflow else BufferOverflowAll) ∧ line_stream r.2 = line_stream l
  end.
Proof.
  destruct l as [con sent p k ev no]. cbn. pose proof (spec_append_list has rest p) as Hl. unfold line_stream.
  destruct (spec_append has rest p) as [[] p']; cbn [fst snd l_sent l_pending] in *; rewrite Hl; [apply app_assoc|done].
Qed.

Lemma spec_send_stream has msg l : ∃ part,
  accepts (OpSend msg) (spec_send has msg l).1 part ∧ line_stream (spec_send has msg l).2 = line_stream l ++ part.
Proof.
  destruct l as [con sent p k ev no]. unfold spec_send. destruct (_ || _) eqn:Hd.
  { pose proof (spec_rest_stream has 0 msg (mkLine con sent p k ev no)) as H. cbn zeta in H.
    destruct (spec_rest _ _ _ _) as [[[]|e] l']; cbn [fst snd] in *; [by exists msg|].
    destruct H as [-> ->]. exists []. by rewrite app_nil_r. }
  apply orb_false_elim in Hd as [_ [_ Hp%bool_decide_eq_true]%negb_false_iff%andb_prop].
  destruct (took (next_answer k) msg) as [n|e] eqn:Et.
  2: { apply took_throws in Et as [en ->]. exists []. by rewrite app_nil_r. }
  apply took_bounds in Et. destruct p as [p b]. cbn in Hp. subst p.
  pose proof (spec_rest_stream has n (zdrop n msg) (mkLine con (sent ++ ztake n msg) ([], b) (tl k) ev no)) as H.
  cbn zeta in H. unfold line_stream in *. cbn [l_sent l_pending fst] in *. rewrite !app_nil_r in *.
  destruct (spec_rest _ _ _ _) as [[[]|e] l']; cbn [fst snd] in *.
  { exists msg. split; [done|]. by rewrite H, <- app_assoc, ztake_zdrop. }
  destruct H as [-> ->]. exists (ztake n msg). split; [|done]. destruct (Z.ltb_spec 0 n).
  - split; [by intros Hz%(f_equal zlen); rewrite zlen_ztake, zlen_nil in Hz; lia|].
    exists (zdrop n msg). by rewrite ztake_zdrop.
  - cbn. by replace n with 0 by lia.
Qed.

Lemma line_call_stream call l : ∃ part,
  accepts call.2 (line_call call l).1 part ∧ line_stream (line_call call l).2 = line_stream l ++ part.
Proof.
  destruct call as [h [msg|]]; [apply spec_send_stream|]. destruct l as [con sent [p b] k ev no]. cbn.
  exists []. rewrite app_nil_r. destruct (took (next_answer k) p) as [n|e] eqn:Et.
  - split; [done|]. unfold line_stream; cbn. by rewrite <- app_assoc, ztake_zdrop.
  - by apply took_throws in Et as [en ->].
Qed.

(** C16: a connection that does not encrypt is its promise, whatever the kernel and [malloc]
    answer: each message goes to the kernel as far as the kernel takes it when nothing is
    pending, the rest is kept and asks for the writable event, a writable socket is given what
    is pending; the bytes on the wire followed by those still buffered are, in order, the
    messages sent, less what was refused: all of a message whose call throws anything but
    [BufferOverflow], all but a prefix of one whose call throws that. *)
Theorem out_stream_in_order calls c :
  sending c → ∃ rs c' parts,
    run_each conn_call calls c = (rs, c') ∧ sending c' ∧
    run_each line_call calls (line_view c) = (rs, line_view c') ∧
    Forall3 (λ call, accepts call.2) calls rs parts ∧
    out_stream c' = out_stream c ++ concat parts.
Proof.
  change (out_stream ?c) with (line_stream (line_view c)). revert c.
  induction calls as [|call calls IH]; intros c Hs; cbn [run_each].
  { exists [], c, []. rewrite app_nil_r. split_and!; try done. constructor. }
  destruct (conn_call_view call c Hs) as (c1 & E1 & Hs1 & Hv1).
  destruct (IH c1 Hs1) as (rs & c' & parts & E & Hs' & Hl & Hp & Hst).
  destruct (line_call_stream call (line_view c)) as (part & Ha & Hpart).
  destruct (line_call call (line_view c)) as [r l1] eqn:El. cbn [fst snd] in *. subst l1.
  exists (r :: rs), c', (part :: parts). rewrite E1, E, Hl. split_and!; try done; [by constructor|].
  by rewrite Hst, Hpart, <- app_assoc.
Qed.

Definition wheap : Heap := {| heap_has _ := true; heap_junk _ := x2a |}.
(** A fresh connected connection over a kernel script. *)
Definition wconn (script : list SysRes) : Conn :=
  mkConn (mkWorld (mkSocket (with_connected true flags_reset) 0 7) [] script [])
    (@new_BlockBuffer) (@new_BlockBuffer) (mkStats 0 0) false false [] true (-1) [] [] [].

Lemma wconn_sending script : sending (wconn script).
Proof. split; [split; apply new_BlockBuffer_wf|done..]. Qed.

Definition wops : list (Heap * out_op) :=
  [(wheap, OpSend (bytes_of "abc")); (wheap, OpSend (bytes_of "def")); (wheap, OpWritable); (wheap, OpWritable);
   (no_heap, OpSend (bytes_of "xyz")); (wheap, OpWritable)].
Definition wscript : list SysRes :=
  [mkRes 1 0 0 0 []; mkRes (-1) EAGAIN 0 0 []; mkRes 9 0 0 0 []; mkRes 2 0 0 0 []; mkRes (-1) 32 0 0 []].

(** The last message is torn: two of its bytes are on the wire when there is no memory for the third. *)
Example wops_run : let (rs, c') := run_each conn_call wops (wconn wscript) in
  rs = [Ok tt; Ok tt; Ok tt; Ok tt; Throw BufferOverflow; Ok tt] ∧ out_stream c' = bytes_of "abcdefxy" ∧
  events c' = [(0, EVENT_WRITE); (0, EVENT_WRITE); (EVENT_WRITE, 0)] ∧ notices c' = [NError 0].
Proof. by vm_compute. Qed.

Lemma out_stream_in_order_witness : ∃ rs c' parts,
  run_each conn_call wops (wconn wscript) = (rs, c') ∧ sending c' ∧
  run_each line_call wops (line_view (wconn wscript)) = (rs, line_view c') ∧
  Forall3 (λ call, accepts call.2) wops rs parts ∧
  out_stream c' = out_stream (wconn wscript) ++ concat parts.
Proof. apply (out_stream_in_order wops (wconn wscript) (wconn_sending wscript)). Defined.

(** After [setEncKey], in a build without [TLS_ON], what a message puts on the
    wire or in the buffer depends on its length only. *)
Lemma encrypted_write_ignores_data h m1 m2 c :
  output_encrypted c = true → zlen m1 = zlen m2 →
  write_socket h m1 c = write_socket h m2 c ∧ write_buffered h m1 c = write_buffered h m2 c.
Proof.
  intros He Hl. assert (filterWrite h m1 c = filterWrite h m2 c) as Hf.
  { unfold filterWrite. rewrite He, Hl. unfold zlen in Hl. by replace (length m2) with (length m1) by lia. }
  split; unfold write_socket, write_buffered; rewrite Hl; destruct (zlen m2 =? 0); try done.
  - unfold mbind, M_bind. rewrite Hf. destruct (filterWrite h m2 c) as [[e1|] c1] eqn:E; [|done].
    unfold filterWrite in E. by rewrite He in E.
  - unfold mbind, M_bind. by rewrite Hf.
Qed.

Lemma encrypted_write_ignores_data_witness :
  let c := snd (setEncKey (wconn [mkRes 3 0 0 0 []])) in
  write_socket wheap (bytes_of "yes") c = write_socket wheap (bytes_of "no!") c.
Proof. apply (encrypted_write_ignores_data wheap (bytes_of "yes") (bytes_of "no!")); reflexivity. Defined.
