(* ===== verification/Cnum.v ===== *)
(** Decimal numbers as the C++ library prints and reads them.

    [dec_string] is what an [ostringstream], [%d] and [%lld] write for an integer
    ([lexical_cast] of cache/RedisClient.cpp, [hostPort] of server/FPReqHandler.cpp,
    [getAddress] of core/writer/DirectWriter.cpp); [atoll], [atoi] and [stoi] are
    the readers of server/FPService.cpp, cache/RedisCache.cpp, server/Config.cpp and
    core/writer/DirectWriter.cpp. *)
From S2P Require Import Prelude.
From stdpp Require Import prelude strings.
From Stdlib Require Import ZArith Lia Ascii.
Open Scope Z_scope.

(** ** Writing *)

Definition digit_char (d : Z) : ascii := ascii_of_N (48 + Z.to_N d).

(** Digits of [z], most significant first, in front of [acc]; [fuel] bounds the
    number of bits of [z], and each step removes more than three. *)
Fixpoint dec_go (fuel : nat) (z : Z) (acc : string) : string :=
  let acc' := String (digit_char (z mod 10)) acc in
  match fuel with
  | O => acc'
  | S fuel => if z <? 10 then acc' else dec_go fuel (z / 10) acc'
  end.

Definition dec_nonneg (z : Z) (acc : string) : string := dec_go (Z.to_nat (Z.log2 z)) z acc.

Definition dec_string (z : Z) : string :=
  if z <? 0 then String "-" (dec_nonneg (- z) "") else dec_nonneg z "".

(** ** Reading *)

Definition digit_val (c : ascii) : option Z :=
  let n := Z.of_N (N_of_ascii c) in
  if (48 <=? n) && (n <=? 57) then Some (n - 48) else None.

(** Consumes digits into [v]; returns the value and the characters left. *)
Fixpoint read_digits (v : Z) (s : string) : Z * string :=
  match s with
  | EmptyString => (v, s)
  | String c r =>
      match digit_val c with
      | Some d => read_digits (10 * v + d) r
      | None => (v, s)
      end
  end.

(** [isspace] in the C locale. *)
Definition is_space (c : ascii) : bool :=
  let n := N_of_ascii c in (n =? 32)%N || ((9 <=? n)%N && (n <=? 13)%N).

Fixpoint skip_space (s : string) : string :=
  match s with
  | String c r => if is_space c then skip_space r else s
  | EmptyString => s
  end.

Definition strtoll_digits (neg : bool) (s : string) : option Z :=
  match s with
  | String c _ =>
      match digit_val c with
      | Some _ => Some (if neg then - (read_digits 0 s).1 else (read_digits 0 s).1)
      | None => None
      end
  | EmptyString => None
  end.

(** The unclamped result of [strtoll (s, &end, 10)]; [None] when no digit follows. *)
Definition strtoll_value (s : string) : option Z :=
  match skip_space s with
  | String "-" r => strtoll_digits true r
  | String "+" r => strtoll_digits false r
  | s => strtoll_digits false s
  end.

Definition clamp (w z : Z) : Z := Z.max (- 2 ^ (w - 1)) (Z.min (2 ^ (w - 1) - 1) z).

(** [atoll]: [strtoll] saturates at the bounds of [long long]. *)
Definition atoll (s : string) : Z := clamp 64 (default 0 (strtoll_value s)).
(** [atoi]: the [long] result narrowed to [int]. *)
Definition atoi (s : string) : Z := s32 (atoll s).
(** [std::stoi]. *)
Definition stoi (s : string) : res Z :=
  match strtoll_value s with
  | None => Throw InvalidArgument
  | Some z => if decide (in_s 32 z) then Ok z else Throw OutOfRange
  end.

(** ** Round trip *)

Lemma digit_val_char d : 0 <= d < 10 → digit_val (digit_char d) = Some d.
Proof.
  intros Hd. assert (d ∈ [0; 1; 2; 3; 4; 5; 6; 7; 8; 9]) as Hin.
  { rewrite !elem_of_cons. lia. }
  rewrite !elem_of_cons, elem_of_nil in Hin.
  destruct_or! Hin; subst; done.
Qed.

(** The digits of [z], read onto [v], shift [v] by their number. *)
Lemma read_dec_go fuel z v acc :
  0 <= z < 2 ^ (Z.of_nat fuel + 1) →
  ∃ k, 0 < k ∧ read_digits v (dec_go fuel z acc) = read_digits (10 ^ k * v + z) acc.
Proof.
  revert z acc. induction fuel as [|fuel IH]; intros z acc Hz.
  - exists 1. split; [lia|]. cbn. rewrite digit_val_char by lia_divmod.
    do 2 f_equal. change (2 ^ (Z.of_nat 0 + 1)) with 2 in Hz. rewrite Z.mod_small by lia. lia.
  - cbn [dec_go]. destruct (Z.ltb_spec z 10).
    + exists 1. split; [lia|]. cbn. rewrite digit_val_char by lia_divmod.
      do 2 f_equal. rewrite Z.mod_small by lia. lia.
    + destruct (IH (z / 10) (String (digit_char (z mod 10)) acc)) as (k & Hk & E).
      { replace (Z.of_nat (S fuel) + 1) with (1 + (Z.of_nat fuel + 1)) in Hz by lia.
        rewrite Z.pow_add_r in Hz by lia. pose proof (Z.div_le_mono z (2 * 2 ^ (Z.of_nat fuel + 1)) 10).
        split; [apply Z.div_pos; lia|]. apply Z.div_lt_upper_bound; lia. }
      exists (k + 1). split; [lia|]. rewrite E. cbn [read_digits].
      rewrite digit_val_char by (apply Z.mod_pos_bound; lia). f_equal.
      rewrite Z.pow_add_r by lia. pose proof (Z.div_mod z 10). lia.
Qed.

Lemma read_dec_nonneg z acc v :
  0 <= z → ∃ k, 0 < k ∧ read_digits v (dec_nonneg z acc) = read_digits (10 ^ k * v + z) acc.
Proof.
  intros Hz. apply read_dec_go. rewrite Z2Nat.id by apply Z.log2_nonneg.
  destruct (Z.eq_dec z 0) as [->|]; [cbn; lia|]. pose proof (Z.log2_spec z). lia.
Qed.

Lemma read_dec z : 0 <= z → read_digits 0 (dec_nonneg z "") = (z, ""%string).
Proof.
  intros Hz. destruct (read_dec_nonneg z "" 0 Hz) as (k & _ & ->). cbn. f_equal. lia.
Qed.

Lemma dec_go_head fuel z acc :
  0 <= z → ∃ d r, 0 <= d < 10 ∧ dec_go fuel z acc = String (digit_char d) r.
Proof.
  revert z acc. induction fuel as [|fuel IH]; intros z acc Hz; cbn [dec_go].
  - eexists _, _. split; [|done]. lia_divmod.
  - destruct (z <? 10); [eexists _, _; split; [|done]; lia_divmod|].
    apply IH. apply Z.div_pos; lia.
Qed.

Lemma digit_char_plain d :
  0 <= d < 10 → is_space (digit_char d) = false ∧ digit_char d ≠ "-"%char ∧ digit_char d ≠ "+"%char.
Proof.
  intros Hd. assert (d ∈ [0; 1; 2; 3; 4; 5; 6; 7; 8; 9]) as Hin.
  { rewrite !elem_of_cons. lia. }
  rewrite !elem_of_cons, elem_of_nil in Hin.
  destruct_or! Hin; subst; done.
Qed.

Lemma strtoll_digits_dec neg z :
  0 <= z → strtoll_digits neg (dec_nonneg z "") = Some (if neg then - z else z).
Proof.
  intros Hz. pose proof (read_dec z Hz) as Hr. unfold dec_nonneg in *.
  destruct (dec_go_head (Z.to_nat (Z.log2 z)) z "" Hz) as (d & r & Hd & E). rewrite E in *.
  unfold strtoll_digits. by rewrite digit_val_char, Hr.
Qed.

Lemma strtoll_value_digit d r :
  0 <= d < 10 →
  strtoll_value (String (digit_char d) r) = strtoll_digits false (String (digit_char d) r).
Proof.
  intros Hd. destruct (digit_char_plain d Hd) as (Hs & Hm & Hp).
  unfold strtoll_value. cbn [skip_space]. rewrite Hs.
  destruct (digit_char d) as [[] [] [] [] [] [] [] []]; done.
Qed.

Lemma strtoll_value_dec z : strtoll_value (dec_string z) = Some z.
Proof.
  unfold dec_string. destruct (Z.ltb_spec z 0) as [Hz|Hz].
  - unfold strtoll_value. cbn [skip_space]. change (is_space "-") with false. cbn iota.
    rewrite strtoll_digits_dec by lia. f_equal. lia.
  - pose proof (strtoll_digits_dec false z Hz) as Hr. unfold dec_nonneg in *.
    destruct (dec_go_head (Z.to_nat (Z.log2 z)) z "" Hz) as (d & r & Hd & E). rewrite E in *.
    by rewrite strtoll_value_digit.
Qed.

Lemma clamp_small w z : in_s w z → clamp w z = z.
Proof. unfold in_s, clamp. lia. Qed.

Lemma atoll_dec z : in_s 64 z → atoll (dec_string z) = z.
Proof. intros Hz. unfold atoll. rewrite strtoll_value_dec. by apply clamp_small. Qed.

Lemma atoi_dec z : in_s 32 z → atoi (dec_string z) = z.
Proof.
  intros Hz. unfold atoi. rewrite atoll_dec, swrap_small; [done|lia|done|].
  unfold in_s in *. lia.
Qed.

Lemma stoi_dec z : in_s 32 z → stoi (dec_string z) = Ok z.
Proof. intros Hz. unfold stoi. rewrite strtoll_value_dec. by rewrite decide_True. Qed.

#[global] Instance dec_string_inj : Inj (=) (=) dec_string.
Proof. intros x y E%(f_equal strtoll_value). rewrite !strtoll_value_dec in E. congruence. Qed.

Lemma dec_string_not_empty z : dec_string z ≠ ""%string.
Proof. intros E%(f_equal strtoll_value). rewrite strtoll_value_dec in E. done. Qed.


(** ** C strings *)

(** What [c_str ()] shows to a reader that stops at the terminator. *)
Fixpoint c_string (s : string) : string :=
  match s with
  | EmptyString => EmptyString
  | String c r => if (N_of_ascii c =? 0)%N then EmptyString else String c (c_string r)
  end.

(** [std::string::size]. *)
Definition ssize (s : string) : Z := Z.of_nat (String.length s).

(** Decimal text has no terminator in it. *)
Lemma c_string_dec_go fuel z acc : c_string acc = acc → c_string (dec_go fuel z acc) = dec_go fuel z acc.
Proof.
  assert (∀ x acc, c_string acc = acc →
    c_string (String (digit_char (x mod 10)) acc) = String (digit_char (x mod 10)) acc) as Hd.
  { intros x a Ha. cbn [c_string]. rewrite Ha.
    assert (x mod 10 ∈ [0; 1; 2; 3; 4; 5; 6; 7; 8; 9]) as Hin.
    { rewrite !elem_of_cons. pose proof (Z.mod_pos_bound x 10). lia. }
    rewrite !elem_of_cons, elem_of_nil in Hin. destruct_or! Hin; by rewrite Hin. }
  revert z acc. induction fuel as [|fuel IH]; intros z acc Ha; cbn [dec_go]; [by apply Hd|].
  destruct (z <? 10); [by apply Hd|]. apply IH. by apply Hd.
Qed.

Lemma c_string_dec z : c_string (dec_string z) = dec_string z.
Proof.
  unfold dec_string, dec_nonneg. destruct (z <? 0); [|by apply c_string_dec_go].
  match goal with |- c_string (String "-" ?s) = _ =>
    change (c_string (String "-" s)) with (String "-" (c_string s)) end.
  by rewrite c_string_dec_go.
Qed.
