(* ===== verification/Timer.v ===== *)
(** * Timer.v: the timer list of [core/xnet/TimerList.h] and [TimerList.cpp]

    A list of nodes in the order of their delays.  [addTimer] sets, replaces or
    deletes the timer of a handler, [checkTimer] moves the clock and takes the
    expired nodes from the front.  Handlers are pointers, compared only. *)

From S2P Require Import Prelude.

Section timer.
Context {H : Type} `{EqDecision H}.

Record TimerNode := mkNode { expire : Z; elapsed : Z; handler : H }.

(** [_timers] and [_elapsed]. *)
Record TimerList := mkTimers { _timers : list TimerNode; _elapsed : Z }.

Definition new_TimerList : TimerList := mkTimers [] 0.

(** The first loop of [addTimer]: the list, and whether the function returns from it. *)
Fixpoint unlink (timeout : Z) (h : H) (l : list TimerNode) : list TimerNode * bool :=
  match l with
  | [] => ([], false)
  | n :: l' =>
      if decide (handler n = h) then
        if (0 <? timeout) && negb (timeout =? expire n) then (l', false)
        else if timeout <? 0 then (l', true)
        else let (l'', ret) := unlink timeout h l' in (n :: l'', ret)
      else let (l'', ret) := unlink timeout h l' in (n :: l'', ret)
  end.

(** The second loop and [insert]: before the first node with a longer delay. *)
Fixpoint insert_node (n : TimerNode) (l : list TimerNode) : list TimerNode :=
  match l with
  | [] => [n]
  | n' :: l' => if expire n <? expire n' then n :: l else n' :: insert_node n l'
  end.

Definition addTimer (timeout : Z) (h : H) (s : TimerList) : TimerList :=
  let (l, ret) := unlink timeout h (_timers s) in
  mkTimers (if ret : bool then l else insert_node (mkNode timeout (_elapsed s) h) l) (_elapsed s).

(** [_elapsed - it->elapsed <= it->expire] in [int] arithmetic. *)
Definition is_due (now : Z) (n : TimerNode) : bool := expire n <? s32 (now - elapsed n).

(** The loop of [checkTimer]: the handlers taken and the nodes left. *)
Fixpoint take_due (now : Z) (l : list TimerNode) : list H * list TimerNode :=
  match l with
  | [] => ([], [])
  | n :: l' =>
      if is_due now n then let (hs, rest) := take_due now l' in (handler n :: hs, rest) else ([], l)
  end.

Definition checkTimer (tick : Z) (s : TimerList) : list H * TimerList :=
  let now := s32 (_elapsed s + tick) in
  let (hs, rest) := take_due now (_timers s) in (hs, mkTimers rest now).

(** ** The order of the nodes *)

Fixpoint sorted (l : list TimerNode) : Prop :=
  match l with
  | [] => True
  | n :: l' => Forall (λ n', expire n <= expire n') l' ∧ sorted l'
  end.

Lemma unlink_incl t h l n : n ∈ (unlink t h l).1 → n ∈ l.
Proof.
  induction l as [|m l IH]; [done|]. cbn [unlink]. rewrite elem_of_cons.
  destruct (decide (handler m = h)); [destruct (_ && _); [by right|destruct (t <? 0); [by right|]]|];
    destruct (unlink t h l); cbn in *; rewrite elem_of_cons; intros [->|]; auto.
Qed.

Lemma unlink_sorted t h l : sorted l → sorted (unlink t h l).1.
Proof.
  induction l as [|m l IH]; [done|]. intros [Hm Hl]. cbn [unlink].
  assert (sorted (m :: (unlink t h l).1)) as Hs.
  { split; [|auto]. apply Forall_forall. intros n Hn. rewrite Forall_forall in Hm.
    apply Hm, list_elem_of_In, (unlink_incl t h), list_elem_of_In, Hn. }
  destruct (decide (handler m = h)); [destruct (_ && _); [done|destruct (t <? 0); [done|]]|];
    by destruct (unlink t h l).
Qed.

Lemma insert_node_elem n l m : m ∈ insert_node n l ↔ m = n ∨ m ∈ l.
Proof.
  induction l as [|n' l IH]; cbn; [rewrite elem_of_cons; done|].
  destruct (expire n <? expire n'); rewrite !elem_of_cons; [done|]. rewrite IH. tauto.
Qed.

Lemma insert_node_sorted n l : sorted l → sorted (insert_node n l).
Proof.
  induction l as [|n' l IH]; [by split|]. intros [Hn' Hl]. cbn.
  destruct (Z.ltb_spec (expire n) (expire n')).
  - split; [|done]. constructor; [lia|]. revert Hn'. apply Forall_impl. lia.
  - split; [|auto]. apply Forall_forall. intros m Hm%list_elem_of_In%insert_node_elem.
    rewrite Forall_forall in Hn'. destruct Hm as [->|Hm]; [done|]. by apply Hn', list_elem_of_In.
Qed.

Lemma addTimer_sorted t h s : sorted (_timers s) → sorted (_timers (addTimer t h s)).
Proof.
  intros Hs. pose proof (unlink_sorted t h _ Hs) as Hu. unfold addTimer.
  destruct (unlink t h (_timers s)) as [l []]; cbn in *; [done|]. by apply insert_node_sorted.
Qed.

(** ** The timers of one handler *)

Definition pending (h : H) (s : TimerList) : list TimerNode := filter (λ n, handler n = h) (_timers s).

Lemma insert_node_perm n l : insert_node n l ≡ₚ n :: l.
Proof.
  induction l as [|n' l IH]; [done|]. cbn. destruct (expire n <? expire n'); [done|].
  rewrite IH. apply Permutation_swap.
Qed.

Lemma filter_insert_other h n l :
  handler n ≠ h → filter (λ n, handler n = h) (insert_node n l) = filter (λ n, handler n = h) l.
Proof.
  intros Hn. induction l as [|n' l IH]; cbn.
  - by rewrite decide_False.
  - destruct (expire n <? expire n'); rewrite !filter_cons; [by rewrite decide_False|].
    by destruct (decide _); rewrite IH.
Qed.

Lemma unlink_other t h h' l :
  h' ≠ h → filter (λ n, handler n = h') (unlink t h l).1 = filter (λ n, handler n = h') l.
Proof.
  intros Hne. induction l as [|n l IH]; [done|]. cbn [unlink]. rewrite filter_cons.
  destruct (decide (handler n = h)) as [<-|Hn].
  - rewrite decide_False by done. destruct (_ && _); [done|]. destruct (t <? 0); [done|].
    destruct (unlink t (handler n) l) as [l' r]. cbn [fst] in *. by rewrite filter_cons, decide_False.
  - destruct (unlink t h l) as [l' r]. cbn [fst] in *. rewrite filter_cons. by destruct (decide _); rewrite IH.
Qed.

Lemma unlink_pending t h l :
  match filter (λ n, handler n = h) l with
  | [] => unlink t h l = (l, false)
  | [n] =>
      if t <? 0 then filter (λ n, handler n = h) (unlink t h l).1 = [] ∧ (unlink t h l).2 = true
      else if (0 <? t) && negb (t =? expire n)
      then filter (λ n, handler n = h) (unlink t h l).1 = [] ∧ (unlink t h l).2 = false
      else unlink t h l = (l, false)
  | _ => True
  end.
Proof.
  induction l as [|n l IH]; [done|]. cbn [unlink]. rewrite filter_cons. destruct (decide (handler n = h)) as [Hn|Hn].
  - destruct (filter _ l) eqn:El; [|done]. destruct (Z.ltb_spec t 0), (Z.ltb_spec 0 t); try lia; cbn [andb].
    + done.
    + destruct (t =? expire n); cbn [negb fst snd]; [by rewrite IH|done].
    + by rewrite IH.
  - destruct (filter _ l) as [|m [|]] eqn:El; [by rewrite IH| |done].
    destruct (unlink t h l) as [l' r]. cbn [fst snd] in *.
    destruct (t <? 0); [|destruct (_ && _)].
    + by rewrite filter_cons, decide_False.
    + by rewrite filter_cons, decide_False.
    + by injection IH as -> ->.
Qed.

Lemma addTimer_other t h h' s : h' ≠ h → pending h' (addTimer t h s) = pending h' s.
Proof.
  intros Hne. unfold pending, addTimer. pose proof (unlink_other t h h' (_timers s) Hne) as Hu.
  destruct (unlink t h (_timers s)) as [l []]; cbn [_timers fst] in *; [done|].
  by rewrite filter_insert_other.
Qed.

Lemma filter_insert_self n l :
  filter (λ m, handler m = handler n) (insert_node n l) ≡ₚ n :: filter (λ m, handler m = handler n) l.
Proof. rewrite insert_node_perm, filter_cons. by rewrite decide_True. Qed.

Lemma addTimer_pending t h s :
  match pending h s with
  | [] => pending h (addTimer t h s) = [mkNode t (_elapsed s) h]
  | [n] =>
      if t <? 0 then pending h (addTimer t h s) = []
      else if (0 <? t) && negb (t =? expire n) then pending h (addTimer t h s) = [mkNode t (_elapsed s) h]
      else pending h (addTimer t h s) ≡ₚ [mkNode t (_elapsed s) h; n]
  | _ => True
  end.
Proof.
  pose proof (unlink_pending t h (_timers s)) as Hu. unfold addTimer, pending in *.
  pose proof (λ l, filter_insert_self (mkNode t (_elapsed s) h) l) as Hi. cbn [handler] in Hi.
  destruct (filter _ (_timers s)) as [|n [|]] eqn:E; [| |done].
  - rewrite Hu. cbn [_timers]. apply Permutation_singleton_r. by rewrite Hi, E.
  - destruct (t <? 0); [|destruct (_ && _)].
    + destruct (unlink t h (_timers s)) as [l r]. destruct Hu as [Hl Hr]. cbn in Hr. subst r. exact Hl.
    + destruct (unlink t h (_timers s)) as [l r]. destruct Hu as [Hl Hr]. cbn in Hr, Hl. subst r.
      cbn [_timers]. apply Permutation_singleton_r. by rewrite Hi, Hl.
    + rewrite Hu. cbn [_timers]. by rewrite Hi, E.
Qed.

(** For a handler with at most one timer, [addTimer] with a positive delay other
    than the pending one leaves exactly one timer with that delay, a negative delay deletes
    the pending timer, and the timers of other handlers stay. *)
Lemma addTimer_replaces t h s :
  (length (pending h s) <= 1)%nat → Forall (λ n, expire n ≠ t) (pending h s) → t ≠ 0 →
  (t < 0 → pending h s ≠ []) →
  pending h (addTimer t h s) = (if 0 <? t then [mkNode t (_elapsed s) h] else []) ∧
  (∀ h', h' ≠ h → pending h' (addTimer t h s) = pending h' s) ∧
  (sorted (_timers s) → sorted (_timers (addTimer t h s))).
Proof.
  intros Hl Hne Ht Hp. split_and!; [|by intros; apply addTimer_other|apply addTimer_sorted].
  pose proof (addTimer_pending t h s) as Hu. destruct (pending h s) as [|n [|]]; [| |cbn in Hl; lia].
  - rewrite Hu. destruct (Z.ltb_spec 0 t); [done|]. by destruct Hp; [lia|].
  - apply Forall_inv in Hne. destruct (Z.ltb_spec t 0), (Z.ltb_spec 0 t), (Z.eqb_spec t (expire n)); try lia; done.
Qed.

(** The node a new delay gives is due once the clock has passed the delay. *)
Lemma is_due_new t e tick h : 0 <= tick < 2 ^ 31 → is_due (s32 (e + tick)) (mkNode t e h) = (t <? tick).
Proof.
  intros Ht. unfold is_due. cbn [expire elapsed]. f_equal.
  rewrite <- Z.add_opp_r, swrap_add_l by lia. replace (e + tick + - e) with tick by lia.
  apply swrap_small; [lia|]. unfold in_s. change (2 ^ (32 - 1)) with (2 ^ 31). lia.
Qed.

(** Deleting a timer that is not there adds one: [addTimer] with a negative delay,
    for a handler with none, puts a node in front of the list that the next [checkTimer]
    takes, so the handler is called. *)
Lemma delete_absent_fires t h s tick :
  t < 0 → pending h s = [] → Forall (λ n, 0 <= expire n) (_timers s) → 0 <= tick < 2 ^ 31 →
  _timers (addTimer t h s) = mkNode t (_elapsed s) h :: _timers s ∧
  head (checkTimer tick (addTimer t h s)).1 = Some h.
Proof.
  intros Ht Hp Hpos Htick.
  assert (addTimer t h s = mkTimers (mkNode t (_elapsed s) h :: _timers s) (_elapsed s)) as ->.
  { pose proof (unlink_pending t h (_timers s)) as Hu. unfold addTimer, pending in *. rewrite Hp in Hu. rewrite Hu.
    f_equal. destruct (_timers s) as [|n l]; [done|]. cbn [insert_node expire]. apply Forall_inv in Hpos.
    by rewrite (proj2 (Z.ltb_lt t (expire n))) by lia. }
  split; [done|]. unfold checkTimer. cbn [_timers _elapsed take_due].
  rewrite is_due_new by done. rewrite (proj2 (Z.ltb_lt t tick)) by lia. by destruct (take_due _ _).
Qed.

(** A second timer with the delay of the pending one is added to it, and a delete takes
    only one of them. *)
Lemma addTimer_twice t h s :
  0 < t → pending h s = [] → length (pending h (addTimer t h (addTimer t h s))) = 2%nat.
Proof.
  intros Ht Hp. pose proof (addTimer_pending t h s) as H1. rewrite Hp in H1.
  pose proof (addTimer_pending t h (addTimer t h s)) as H2. rewrite H1 in H2. cbn [expire] in H2.
  rewrite (proj2 (Z.ltb_ge t 0)), (proj2 (Z.ltb_lt 0 t)), Z.eqb_refl in H2 by lia. cbn in H2. by rewrite H2.
Qed.

(** Deleting a pending timer adds no node. *)
Lemma addTimer_delete_incl t h s n m :
  t < 0 → pending h s = [n] → m ∈ _timers (addTimer t h s) → m ∈ _timers s.
Proof.
  intros Ht Hp. pose proof (unlink_pending t h (_timers s)) as Hu. unfold addTimer, pending in *. rewrite Hp in Hu.
  rewrite (proj2 (Z.ltb_lt t 0)) in Hu by done. destruct Hu as [_ Hr].
  pose proof (unlink_incl t h (_timers s) m) as Hi. destruct (unlink t h (_timers s)) as [l r].
  cbn [snd fst _timers] in *. subst r. exact Hi.
Qed.

(** ** Expiry *)

Lemma take_due_split now l :
  ∃ fired, l = fired ++ (take_due now l).2 ∧ (take_due now l).1 = map handler fired ∧
    Forall (λ n, is_due now n = true) fired ∧
    match (take_due now l).2 with [] => True | n :: _ => is_due now n = false end.
Proof.
  induction l as [|n l IH]; [by exists []|]. cbn [take_due]. destruct (is_due now n) eqn:E.
  - destruct IH as (fired & IH1 & IH2 & IH3 & IH4). destruct (take_due now l) as [hs rest]. cbn [fst snd] in *.
    exists (n :: fired). split_and!; [by rewrite IH1 at 1|by rewrite IH2|by constructor|done].
  - exists []. by split_and!.
Qed.

Lemma take_due_all now l : Forall (λ n, is_due now n = true) l → take_due now l = (map handler l, []).
Proof. induction 1 as [|n l Hn Hl IH]; [done|]. cbn. by rewrite Hn, IH. Qed.

(** [checkTimer] takes nodes from the front of the list, all of them expired, stops
    at the first that is not, and loses none; when every node has expired it takes all. *)
Lemma checkTimer_takes_expired tick s :
  let now := s32 (_elapsed s + tick) in
  ∃ fired, _timers s = fired ++ _timers (checkTimer tick s).2 ∧
    (checkTimer tick s).1 = map handler fired ∧ Forall (λ n, is_due now n = true) fired ∧
    (sorted (_timers s) → sorted (_timers (checkTimer tick s).2)) ∧
    (Forall (λ n, is_due now n = true) (_timers s) → fired = _timers s).
Proof.
  cbn zeta. destruct (take_due_split (s32 (_elapsed s + tick)) (_timers s)) as (fired & E1 & E2 & E3 & E4).
  exists fired. unfold checkTimer.
  pose proof (take_due_all (s32 (_elapsed s + tick)) (_timers s)) as Hall.
  destruct (take_due _ _) as [hs rest]. cbn [fst snd _timers] in *. split_and!; [done..| |].
  - rewrite E1. clear. induction fired as [|n fired IH]; [done|]. by intros [_ Hs%IH].
  - intros Hd. specialize (Hall Hd). injection Hall as -> ->. by rewrite app_nil_r in E1.
Qed.

(** Nodes are ordered by their delay and not by their moment of expiry, so a node
    that is not due holds back every node with a longer delay, expired or not. *)
Lemma checkTimer_held_back n l e tick :
  is_due (s32 (e + tick)) n = false → (checkTimer tick (mkTimers (n :: l) e)).1 = [].
Proof. intros Hn. unfold checkTimer. cbn [_timers _elapsed take_due]. by rewrite Hn. Qed.

End timer.

(** ** Witnesses *)

Lemma addTimer_replaces_witness :
  pending 1%nat (addTimer 600000 1%nat (addTimer 2000 1%nat new_TimerList)) = [mkNode 600000 0 1%nat].
Proof.
  apply (addTimer_replaces 600000 1%nat (addTimer 2000 1%nat new_TimerList)).
  - vm_compute. repeat constructor.
  - vm_compute. repeat constructor. discriminate.
  - discriminate.
  - discriminate.
Defined.

Lemma delete_absent_fires_witness :
  head (checkTimer 500 (addTimer (-1) 7%nat (addTimer 10 1%nat new_TimerList))).1 = Some 7%nat.
Proof.
  apply (delete_absent_fires (-1) 7%nat (addTimer 10 1%nat new_TimerList) 500).
  - done.
  - reflexivity.
  - repeat constructor. discriminate.
  - done.
Defined.
