(* ===== verification/ConnMgr.v ===== *)
(** * ConnMgr.v: the connections a process owns

    [MultiConnManager] with its base classes [LazyDelConnManager] and [ConnManager]
    ([core/conn/]), [ConnFactory], and [DirectWriter] ([core/writer/DirectWriter.cpp]),
    which is a manager that also maps server addresses to connections.  Connection
    objects live in a heap from pointers to the [Conn] of [Connection.v]; an access to a
    pointer that is not allocated is undefined behaviour.  The timers a connection sets go
    into the [TimerList] of the event loop, whose handlers are the manager itself and the
    connection pointers. *)

From S2P Require Import Prelude Cnum BlockBuffer ByteStream Sender Socket Connection Timer.

Inductive Handler := HMgr | HConn (p : positive).

#[global] Instance Handler_eq_dec : EqDecision Handler.
Proof. solve_decision. Defined.

(** [IConn]: the ids and the peer of a connection. *)
Record ConnObj := mkCO {
  co_id : Z; co_serialId : Z; co_peerIp : Z; co_peerPort : Z; co_conn : Conn;
}.

Definition setConnId (cid : Z) (o : ConnObj) : ConnObj :=
  mkCO cid (co_serialId o) (co_peerIp o) (co_peerPort o) (co_conn o).
Definition setSerialId (id : Z) (o : ConnObj) : ConnObj :=
  mkCO (co_id o) id (co_peerIp o) (co_peerPort o) (co_conn o).

Record Mgr := mkMgr {
  heap : gmap positive ConnObj;
  next : positive;                       (** addresses from here on were never used *)
  connMap : gmap Z (option positive);    (** a value of [None] is a NULL pointer *)
  cid : Z;
  lazyDelIds : gset Z;
  _sid2cid : gmap Z Z;                   (** only of [DirectWriter] *)
  loop : TimerList (H:=Handler);
  g_stats : BlockStats;                  (** counters and buffer that are static in the code *)
  g_writeBuf : list byte;
}.

Definition with_heap (f : gmap positive ConnObj → gmap positive ConnObj) (s : Mgr) : Mgr :=
  mkMgr (f (heap s)) (next s) (connMap s) (cid s) (lazyDelIds s) (_sid2cid s) (loop s) (g_stats s) (g_writeBuf s).
Definition with_connMap (f : gmap Z (option positive) → gmap Z (option positive)) (s : Mgr) : Mgr :=
  mkMgr (heap s) (next s) (f (connMap s)) (cid s) (lazyDelIds s) (_sid2cid s) (loop s) (g_stats s) (g_writeBuf s).
Definition with_cid (c : Z) (s : Mgr) : Mgr :=
  mkMgr (heap s) (next s) (connMap s) c (lazyDelIds s) (_sid2cid s) (loop s) (g_stats s) (g_writeBuf s).
Definition with_lazy (f : gset Z → gset Z) (s : Mgr) : Mgr :=
  mkMgr (heap s) (next s) (connMap s) (cid s) (f (lazyDelIds s)) (_sid2cid s) (loop s) (g_stats s) (g_writeBuf s).
Definition with_sids (f : gmap Z Z → gmap Z Z) (s : Mgr) : Mgr :=
  mkMgr (heap s) (next s) (connMap s) (cid s) (lazyDelIds s) (f (_sid2cid s)) (loop s) (g_stats s) (g_writeBuf s).
Definition with_loop (f : TimerList → TimerList) (s : Mgr) : Mgr :=
  mkMgr (heap s) (next s) (connMap s) (cid s) (lazyDelIds s) (_sid2cid s) (f (loop s)) (g_stats s) (g_writeBuf s).

(** The timers a handler sets, oldest first. *)
Definition set_timers (hd : Handler) (ts : list Z) (l : TimerList) : TimerList :=
  fold_left (λ l t, Timer.addTimer t hd l) ts l.

(** The connection as its methods see it, with the static members. *)
Definition load_conn (s : Mgr) (c : Conn) : Conn :=
  mkConn (net c) (input c) (output c) (g_stats s) (input_encrypted c) (output_encrypted c) (g_writeBuf s)
    (bEnable c) (_timeout c) (timers c) (events c) (notices c).

(** Its state after a call: the new timers are handed to the event loop. *)
Definition store_conn (p : positive) (o : ConnObj) (c : Conn) (s : Mgr) : Mgr :=
  mkMgr (<[p := mkCO (co_id o) (co_serialId o) (co_peerIp o) (co_peerPort o) c]> (heap s)) (next s) (connMap s)
    (cid s) (lazyDelIds s) (_sid2cid s)
    (set_timers (HConn p) (drop (length (timers (co_conn o))) (timers c)) (loop s)) (bstats c) (writeBuf c).

(** A call of a method of [*p]. *)
Definition on_conn {A} (p : positive) (m : M Conn A) : M Mgr A := λ s,
  match heap s !! p with
  | None => (Throw Undefined, s)
  | Some o => let (r, c) := m (load_conn s (co_conn o)) in (r, store_conn p o c s)
  end.

Definition deref (p : positive) : M Mgr ConnObj := λ s,
  match heap s !! p with None => (Throw Undefined, s) | Some o => (Ok o, s) end.

Definition update_obj (p : positive) (f : ConnObj → ConnObj) : M Mgr unit :=
  o ← deref p; modify (with_heap (λ m, <[p := f o]> m)).

(** [m] with [cleanup] run when it throws, as the destructors of what is built so far. *)
Definition or_cleanup {A} (m : M Mgr A) (cleanup : M Mgr unit) : M Mgr A := λ s,
  match m s with
  | (Throw e, s') => (cleanup ;; throw e) s'
  | r => r
  end.

Definition setEnable (be : bool) (c : Conn) : Conn :=
  mkConn (net c) (input c) (output c) (bstats c) (input_encrypted c) (output_encrypted c) (writeBuf c)
    be (_timeout c) (timers c) (events c) (notices c).

Section manager.
Context (h : Heap) (junk : Header).
(** The C library's [inet_addr] and [inet_ntoa], the kernel's answers to each new socket, the
    members a constructor leaves alone. *)
Context (inet_addr : string → Z) (inet_ntoa : Z → string) (kernel : positive → list SysRes) (junk_time : Z).
(** Whether the manager is a [DirectWriter]. *)
Context (is_writer : bool).

Definition aton_addr (ip : string) : Z := inet_addr (c_string ip).
Definition addr_ntoa (ip : Z) : string := inet_ntoa ip.

(** ** Construction and destruction of a connection *)

Definition fresh_conn (p : positive) (s : Mgr) : Conn :=
  mkConn (mkWorld (Socket_new junk_time) [] (kernel p) []) new_BlockBuffer new_BlockBuffer (g_stats s)
    false false (g_writeBuf s) true (-1) [] [] [].

Definition alloc (ip port : Z) : M Mgr positive := λ s,
  (Ok (next s), mkMgr (<[next s := mkCO 0 0 ip port (fresh_conn (next s) s)]> (heap s)) (Pos.succ (next s))
     (connMap s) (cid s) (lazyDelIds s) (_sid2cid s) (loop s) (g_stats s) (g_writeBuf s)).

Definition free (p : positive) : M Mgr unit := modify (with_heap (delete p)).

(** [~SocketHandler] *)
Definition destroy_handler (p : positive) : M Mgr unit := on_conn p (on_net Close) ;; free p.

(** [delete conn]: [~Connection], [~TcpSock], [~SocketHandler]. *)
Definition delete_conn (p : positive) : M Mgr unit :=
  on_conn p (Connection.addTimer (-1)) ;; destroy_handler p.

(** [TcpSock::doConnect] *)
Definition doConnect (ip port timeout : Z) : M Conn unit :=
  on_net (socket_create 1 2) ;;
  (if 0 <? timeout then on_net (setblocking false) else mret tt) ;;
  ok ← on_net (connect ip port);
  if negb ok then Connection.addTimer timeout else mret tt.

(** [TcpSock::doAccept] *)
Definition doAccept (sock : Z) : M Conn unit := on_net (attach sock) ;; on_net (setblocking false).

(** [TcpSock::addEvent] with [EVENT_CONNECTING]. *)
Definition addEvent_connecting : M Conn unit :=
  c ← get;
  if isConnected (sock (net c)) then onConnected else Connection.addEvent 0 EVENT_RW.

(** [Connection::Connection(ip, port, timeout, ..., nodelay)] for a text address. *)
Definition new_client (ip : string) (port timeout : Z) (nodelay : bool) : M Mgr positive :=
  p ← alloc (u32 (aton_addr ip)) (u16 port);
  or_cleanup (on_conn p (doConnect (aton_addr ip) port timeout)) (destroy_handler p) ;;
  or_cleanup (on_conn p (if nodelay then on_net setnodelay else mret tt)) (delete_conn p) ;;
  mret p.

(** [Connection::Connection(fd, ip, port, ..., nodelay)] *)
Definition new_server (fd ip port : Z) (nodelay : bool) : M Mgr positive :=
  p ← alloc (u32 ip) (u16 port);
  or_cleanup (on_conn p (doAccept fd)) (destroy_handler p) ;;
  or_cleanup (on_conn p (if nodelay then on_net setnodelay else mret tt)) (delete_conn p) ;;
  mret p.

(** ** MultiConnManager *)

Definition CONN_TIMEOUT : Z := 600000.
Definition CONNECT_TIMEOUT : Z := 2000.
Definition CONN_DEL_DELAY_TIME : Z := 10.

(** [MultiConnManager::onConnCreate] *)
Definition onConnCreate (p : positive) : M Mgr unit :=
  modify (λ s, with_cid (u32 (cid s + 1)) s) ;;
  s ← get;
  update_obj p (setConnId (cid s)) ;;
  update_obj p (setSerialId (cid s)) ;;
  modify (with_connMap (insert (cid s) (Some p))).

(** [ConnFactory::createConnection] for a client, with the manager as callback: a
    [socketExn] of the constructor or of what follows gives NULL. *)
Definition createClientSideConn (nodelay : bool) (ip : string) (port : Z) : M Mgr (option positive) :=
  try_catch
    (p ← new_client ip port CONNECT_TIMEOUT nodelay;
     on_conn p (setTimeout CONN_TIMEOUT) ;;
     onConnCreate p ;;
     on_conn p addEvent_connecting ;;
     mret (Some p))
    (λ e, match e with SocketExn _ => Some (mret None) | _ => None end).

(** [ConnFactory::createConnection] for an accepted socket. *)
Definition createServerSideConn (nodelay : bool) (fd ip port : Z) : M Mgr positive :=
  p ← new_server fd ip port nodelay;
  on_conn p (setTimeout CONN_TIMEOUT) ;;
  onConnCreate p ;;
  on_conn p (Connection.addEvent 0 EVENT_READ) ;;
  mret p.

(** [MultiConnManager::eraseConnection] *)
Definition Multi_eraseConnection (conn : option positive) : M Mgr unit :=
  match conn with
  | None => throw Undefined
  | Some p =>
      o ← deref p;
      s ← get;
      match connMap s !! co_id o with
      | Some _ => modify (with_connMap (delete (co_id o))) ;; delete_conn p
      | None => mret tt
      end
  end.

(** [DirectWriter::eraseConnection] *)
Definition Writer_eraseConnection (conn : option positive) : M Mgr unit :=
  match conn with
  | None => mret tt
  | Some p =>
      o ← deref p;
      modify (with_sids (filter (λ kv, kv.2 ≠ co_id o))) ;;
      Multi_eraseConnection (Some p)
  end.

(** The virtual call. *)
Definition eraseConnection (conn : option positive) : M Mgr unit :=
  if is_writer then Writer_eraseConnection conn else Multi_eraseConnection conn.

Definition getConnById (id : Z) : M Mgr (option positive) :=
  gets (λ s, match connMap s !! id with Some c => c | None => None end).

Definition eraseConnectionById (id : Z) : M Mgr unit :=
  s ← get;
  match connMap s !! id with Some c => eraseConnection c | None => mret tt end.

(** [AbstractConn::send]; the packed message is not used again by the callers. *)
Definition send_conn (msg : Sender) : M Conn unit :=
  b ← lift_res (send_bytes h msg).1; sendBin h b.

(** A [catch (std::exception)]: everything but an abort or undefined behaviour. *)
Definition std_exception (e : exn) : bool :=
  match e with AssertFail | Undefined | ProcessExit _ | OutOfFuel => false | _ => true end.

Definition catch_std {A} (m handler : M Mgr A) : M Mgr A :=
  try_catch m (λ e, if std_exception e then Some handler else None).

(** What both dispatch functions do with a connection whose send fails. *)
Definition disable (p : positive) (id : Z) : M Mgr unit :=
  on_conn p (modify (setEnable false)) ;; modify (with_lazy (λ l, {[ id ]} ∪ l)).

Definition dispatchById (id : Z) (msg : Sender) : M Mgr bool :=
  s ← get;
  match connMap s !! id with
  | Some (Some p) =>
      catch_std (on_conn p (send_conn msg) ;; mret true) (disable p id ;; mret false)
  | Some None => throw Undefined
  | None => mret false
  end.

(** The loop of [dispatchByIds]; [connMap[*it]] adds a NULL when the id is missing. *)
Fixpoint dispatch_ids (ids : list Z) (bytes : list byte) (exp : Z) : M Mgr bool :=
  match ids with
  | [] => mret true
  | id :: ids =>
      if negb (exp =? 2 ^ 32 - 1) && (exp =? id) then dispatch_ids ids bytes exp
      else
        (s ← get;
         if id <? Z.of_nat (size (connMap s)) then
           (modify (with_connMap (λ m, match m !! id with Some _ => m | None => <[id := None]> m end)) ;;
            match connMap s !! id with
            | Some (Some p) =>
                catch_std (on_conn p (sendBin h bytes)) (disable p id) ;; dispatch_ids ids bytes exp
            | _ => mret false
            end)
         else mret false)
  end.

(** [dispatchByIds], the ids in increasing order. *)
Definition dispatchByIds (ids : list Z) (msg : Sender) (exp : Z) : M Mgr bool :=
  b ← lift_res (send_bytes h msg).1; dispatch_ids ids b exp.

(** ** LazyDelConnManager *)

Definition new_Mgr : Mgr :=
  mkMgr ∅ 1 ∅ 0 ∅ ∅ (Timer.addTimer CONN_DEL_DELAY_TIME HMgr new_TimerList) (mkStats 0 0) [].

Definition DelayDelConn (conn : option positive) : M Mgr unit :=
  match conn with
  | None => mret tt
  | Some p =>
      on_conn p (modify (setEnable false)) ;;
      o ← deref p;
      modify (with_lazy (λ l, {[ co_id o ]} ∪ l))
  end.

(** The loop of [doEvent]; [isEnable] of the connections in [lazyDelIds]. *)
Fixpoint erase_lazy (ids : list Z) : M Mgr unit :=
  match ids with
  | [] => mret tt
  | id :: ids =>
      c ← getConnById id;
      (match c with
       | Some p =>
           o ← deref p;
           if negb (bEnable (co_conn o)) then eraseConnection (Some p) else mret tt
       | None => mret tt
       end) ;;
      erase_lazy ids
  end.

(** [LazyDelConnManager::doEvent] *)
Definition lazy_doEvent : M Mgr unit :=
  s ← get;
  erase_lazy (key_order (lazyDelIds s)) ;;
  modify (with_lazy (λ _, ∅)) ;;
  modify (with_loop (Timer.addTimer CONN_DEL_DELAY_TIME HMgr)).

(** *** ConnManager: what a connection tells its event handler *)

Definition handle_notice (p : positive) (n : Notice) : M Mgr unit :=
  match n with
  | NConnected => mret tt
  | NClose | NInitiativeClose | NError _ | NTimeout => eraseConnection (Some p)
  end.

Fixpoint handle_notices (p : positive) (ns : list Notice) : M Mgr unit :=
  match ns with
  | [] => mret tt
  | n :: ns => handle_notice p n ;; handle_notices p ns
  end.

(** An event of connection [p]: the method, then the calls it makes on its handler, which
    are the last thing it does. *)
Definition conn_event (p : positive) (m : M Conn unit) : M Mgr unit :=
  o ← deref p;
  on_conn p m ;;
  o' ← deref p;
  handle_notices p (drop (length (notices (co_conn o))) (notices (co_conn o'))).

(** The same when what the event does reaches beyond the connection. *)
Definition conn_event_in (p : positive) (m : M Mgr unit) : M Mgr unit :=
  o ← deref p;
  m ;;
  o' ← deref p;
  handle_notices p (drop (length (notices (co_conn o))) (notices (co_conn o'))).

(** ** DirectWriter *)

Definition colon : Ascii.ascii := Ascii.ascii_of_nat 58.

Definition genSId (ip port : Z) : Z := Z.lor (u64 (Z.shiftl (u32 ip) 32)) (u16 port).

Definition getAddressFromSId (sid : Z) : Z * Z := (u32 (Z.shiftr sid 32), u16 sid).

(** [getAddress]: the text of the address of a [sid]. *)
Definition getAddress (sid : Z) : string :=
  addr_ntoa (u32 (Z.shiftr sid 32)) +:+ String colon EmptyString +:+ dec_string (Z.land sid 0xffff).

Definition connectServer (nodelay : bool) (serverId ip port : Z) : M Mgr (option positive) :=
  if serverId =? 2 ^ 64 - 1 then mret None
  else
    (c ← createClientSideConn nodelay (addr_ntoa ip) port;
     match c with
     | None => mret None
     | Some p =>
         o ← deref p;
         modify (with_sids (insert serverId (co_id o))) ;;
         mret (Some p)
     end).

(** [DirectWriter::dispatch] *)
Definition dispatch (nodelay : bool) (serverId serverIP port u : Z) (obj : Marshallable) : M Mgr bool :=
  s ← get;
  sender ← lift_res (JsonSender_obj h junk (g_stats s) u obj);
  match _sid2cid s !! serverId with
  | Some id => dispatchById id sender
  | None =>
      c ← connectServer nodelay serverId serverIP port;
      match c with
      | None => mret false
      | Some p => on_conn p (send_conn sender) ;; mret true
      end
  end.

Definition route (nodelay : bool) (sid u : Z) (obj : Marshallable) : M Mgr unit :=
  let (ip, port) := getAddressFromSId sid in
  dispatch nodelay sid ip port u obj ;; mret tt.

(** [find_first_of(':')] *)
Fixpoint find_colon (s : string) : option nat :=
  match s with
  | EmptyString => None
  | String c s' => if Ascii.eqb c colon then Some 0%nat else Datatypes.S <$> find_colon s'
  end.

(** The address part of [sendTo]: [npos] is positive, so a text without a colon is the
    host, and, from [npos + 1] which is 0, the port as well. *)
Definition parse_address (ipport : string) : res (string * Z) :=
  match find_colon ipport with
  | Some 0%nat => Ok (EmptyString, 0)
  | Some pos =>
      port ← stoi (String.substring (Datatypes.S pos) (String.length ipport) ipport);
      mret (String.substring 0 pos ipport, port)
  | None => port ← stoi ipport; mret (ipport, port)
  end.

Definition sendTo (nodelay : bool) (ipport : string) (u : Z) (obj : Marshallable) : M Mgr unit :=
  if str_empty ipport then mret tt
  else
    (a ← lift_res (parse_address ipport);
     if (a.2 <=? 0) || (65535 <? a.2) || str_empty a.1 then mret tt
     else route nodelay (genSId (aton_addr a.1) a.2) u obj).

(** [DirectWriter::answer]: the message is packed here and again in [send]. *)
Definition answer (conn : positive) (u : Z) (obj : Marshallable) : M Mgr unit :=
  s ← get;
  b ← lift_res (answer_bytes h junk (g_stats s) u obj);
  on_conn conn (sendBin h b).

End manager.

(** ** Invariant *)

Section invariant.
Context (h : Heap) (junk : Header).
Context (inet_addr : string → Z) (inet_ntoa : Z → string) (kernel : positive → list SysRes) (junk_time : Z).
Context (is_writer : bool).

(** The pointers of the map and the heap agree, ids were given out by the counter, and the
    addresses of [_sid2cid] lead to open connections.  The NULL entries are those
    [dispatchByIds] added, at 0 or at an id whose connection is closed. *)
Record mgr_wf (s : Mgr) : Prop := {
  wf_map i p : connMap s !! i = Some (Some p) → ∃ o, heap s !! p = Some o ∧ co_id o = i;
  wf_heap p o : heap s !! p = Some o → connMap s !! co_id o = Some (Some p);
  wf_ids i c : connMap s !! i = Some c → 0 <= i <= cid s ∧ (is_Some c → 0 < i);
  wf_fresh p o : heap s !! p = Some o → (p < next s)%positive;
  wf_sids k i : _sid2cid s !! k = Some i → ∃ p, connMap s !! i = Some (Some p);
  wf_plain : is_writer = false → _sid2cid s = ∅;
  wf_cid : 0 <= cid s;
}.

(** The same but for one object that is not registered yet. *)
Definition mgr_wf_but (p : positive) (s : Mgr) : Prop :=
  mgr_wf (with_heap (delete p) s) ∧ is_Some (heap s !! p) ∧ (p < next s)%positive.

(** [m] keeps the invariant and opens at most [n] connections. *)
Definition keeps {A} (n : Z) (m : M Mgr A) : Prop := ∀ s r s',
  mgr_wf s → cid s + n < 2 ^ 32 → m s = (r, s') → mgr_wf s' ∧ cid s' <= cid s + n.

Lemma keeps_weaken {A} n n' (m : M Mgr A) : n <= n' → keeps n m → keeps n' m.
Proof. intros Hn Hm s r s' Hs Hc E. destruct (Hm s r s' Hs) as [? ?]; [lia|done|]. split; [done|lia]. Qed.

Lemma keeps_bind {A B} n k (m : M Mgr A) (f : A → M Mgr B) :
  0 <= k → keeps n m → (∀ a, keeps k (f a)) → keeps (n + k) (m ≫= f).
Proof.
  intros Hk Hm Hf s r s' Hs Hc. unfold mbind, M_bind. destruct (m s) as [[a|e] s1] eqn:E1; intros E.
  - destruct (Hm _ _ _ Hs ltac:(lia) E1) as [Hs1 Hc1]. destruct (Hf a _ _ _ Hs1 ltac:(lia) E) as [? ?].
    split; [done|lia].
  - injection E as <- <-. destruct (Hm _ _ _ Hs ltac:(lia) E1) as [? ?]. split; [done|lia].
Qed.

Lemma keeps_bind0 {A B} n (m : M Mgr A) (f : A → M Mgr B) :
  0 <= n → keeps 0 m → (∀ a, keeps n (f a)) → keeps n (m ≫= f).
Proof. intros Hn Hm Hf. apply (keeps_bind 0 n); done. Qed.

Lemma keeps_bind_last {A B} n (m : M Mgr A) (f : A → M Mgr B) :
  keeps n m → (∀ a, keeps 0 (f a)) → keeps n (m ≫= f).
Proof. intros Hm Hf. rewrite <- (Z.add_0_r n). by apply keeps_bind. Qed.

Lemma keeps_const {A} (r : res A) : keeps 0 (λ s, (r, s)).
Proof. intros s r' s' Hs _ [= <- <-]. split; [done|lia]. Qed.

Lemma keeps_get : keeps 0 (@get Mgr).
Proof. intros s r s' Hs _ [= <- <-]. split; [done|lia]. Qed.

Lemma keeps_gets {A} (f : Mgr → A) : keeps 0 (gets f).
Proof. intros s r s' Hs _ [= <- <-]. split; [done|lia]. Qed.

Lemma keeps_ret {A} (a : A) : keeps 0 (mret a).
Proof. apply keeps_const. Qed.

Lemma keeps_throw {A} e : keeps 0 (@throw Mgr A e).
Proof. apply keeps_const. Qed.

Lemma keeps_lift {A} (r : res A) : keeps 0 (lift_res r).
Proof. apply keeps_const. Qed.

Lemma keeps_deref p : keeps 0 (deref p).
Proof. intros s r s' Hs _. unfold deref. destruct (heap s !! p); intros [= <- <-]; (split; [done|lia]). Qed.

Lemma keeps_try {A} n (m : M Mgr A) hd :
  keeps n m → (∀ e m', hd e = Some m' → keeps 0 m') → keeps n (try_catch m hd).
Proof.
  intros Hm Hh s r s' Hs Hc. unfold try_catch. destruct (m s) as [[a|e] s1] eqn:E1.
  - intros [= <- <-]. by eapply Hm.
  - destruct (Hm _ _ _ Hs Hc E1) as [Hs1 Hc1]. destruct (hd e) as [m'|] eqn:Ee; [|by intros [= <- <-]].
    intros E. destruct (Hh _ _ Ee _ _ _ Hs1 ltac:(lia) E). split; [done|lia].
Qed.

Lemma keeps_catch_std {A} n (m hd : M Mgr A) : keeps n m → keeps 0 hd → keeps n (catch_std m hd).
Proof. intros Hm Hh. apply keeps_try; [done|]. intros e m'. by destruct (std_exception e); intros [= <-]. Qed.

(** Only the part of the state the invariant reads matters. *)
Lemma mgr_wf_ext s s' :
  heap s' = heap s → next s' = next s → connMap s' = connMap s → cid s' = cid s → _sid2cid s' = _sid2cid s →
  mgr_wf s → mgr_wf s'.
Proof. intros E1 E2 E3 E4 E5 []. split; intros *; rewrite ?E1, ?E2, ?E3, ?E4, ?E5; eauto. Qed.

Lemma keeps_modify f :
  (∀ s, heap (f s) = heap s ∧ next (f s) = next s ∧ connMap (f s) = connMap s ∧ cid (f s) = cid s ∧
    _sid2cid (f s) = _sid2cid s) → keeps 0 (modify f).
Proof.
  intros Hf s r s' Hs _ [= <- <-]. destruct (Hf s) as (? & ? & ? & E & ?). split; [by eapply mgr_wf_ext|lia].
Qed.

(** A method of a connection changes neither its id nor what is allocated. *)
Lemma on_conn_inv {A} p (m : M Conn A) s r s' :
  on_conn p m s = (r, s') →
  s' = s ∧ heap s !! p = None ∨
  ∃ o o', heap s !! p = Some o ∧ co_id o' = co_id o ∧ heap s' = <[p := o']> (heap s) ∧ next s' = next s ∧
    connMap s' = connMap s ∧ cid s' = cid s ∧ _sid2cid s' = _sid2cid s ∧ lazyDelIds s' = lazyDelIds s.
Proof.
  unfold on_conn. destruct (heap s !! p) as [o|] eqn:Ho; [|intros [= <- <-]; by left].
  destruct (m _) as [r1 c1]. intros [= <- <-]. right.
  exists o, (mkCO (co_id o) (co_serialId o) (co_peerIp o) (co_peerPort o) c1). by split_and!.
Qed.

Lemma keeps_on_conn {A} p (m : M Conn A) : keeps 0 (on_conn p m).
Proof.
  intros s r s' Hs _ [[-> _]|(o & o' & Ho & Hid & Eh & En & Em & Ec & Es & _)]%on_conn_inv; [split; [done|lia]|].
  split; [|lia]. destruct Hs. split; intros *; rewrite ?Eh, ?En, ?Em, ?Ec, ?Es; eauto.
  - intros (oq & Hq & <-)%wf_map0. destruct (decide (p0 = p)) as [->|Hne].
    + simplify_eq. exists o'. by rewrite lookup_insert_eq.
    + exists oq. by rewrite lookup_insert_ne.
  - destruct (decide (p0 = p)) as [->|Hne].
    + rewrite lookup_insert_eq. intros [= <-]. rewrite Hid. eauto.
    + rewrite lookup_insert_ne by done. eauto.
  - destruct (decide (p0 = p)) as [->|Hne]; [eauto|]. rewrite lookup_insert_ne by done. eauto.
Qed.

Lemma Close_total w : ∃ w', Close w = (Ok tt, w').
Proof. unfold Close. run_sys. destruct (isValid (sock w)); eauto. Qed.

(** [delete conn] on a live connection. *)
Lemma delete_conn_run p o s :
  heap s !! p = Some o →
  ∃ s', delete_conn p s = (Ok tt, s') ∧ heap s' = delete p (heap s) ∧ next s' = next s ∧
    connMap s' = connMap s ∧ cid s' = cid s ∧ _sid2cid s' = _sid2cid s ∧ lazyDelIds s' = lazyDelIds s ∧
    loop s' = Timer.addTimer (-1) (HConn p) (loop s).
Proof.
  intros Ho. unfold delete_conn, destroy_handler.
  assert (∃ s1 o1, on_conn p (Connection.addTimer (-1)) s = (Ok tt, s1) ∧ heap s1 = <[p := o1]> (heap s) ∧
    next s1 = next s ∧ connMap s1 = connMap s ∧ cid s1 = cid s ∧ _sid2cid s1 = _sid2cid s ∧
    lazyDelIds s1 = lazyDelIds s ∧ loop s1 = Timer.addTimer (-1) (HConn p) (loop s))
    as (s1 & o1 & E1 & Eh & ? & ? & ? & ? & ? & El).
  { unfold on_conn. rewrite Ho. eexists _, _. split_and!; [reflexivity|reflexivity|done..|].
    cbn. by rewrite drop_app_length. }
  assert (heap s1 !! p = Some o1) as Ho1 by (by rewrite Eh, lookup_insert_eq).
  destruct (Close_total (net (load_conn s1 (co_conn o1)))) as [w' Ew].
  erewrite bind_Ok by exact E1. unfold mbind at 1. unfold M_bind.
  unfold on_conn, on_net. rewrite Ho1, Ew. eexists. split_and!; [reflexivity| |cbn; congruence..|].
  - cbn. by rewrite Eh, insert_insert_eq, delete_insert_eq.
  - cbn. by rewrite drop_all, <- El.
Qed.

(** ** Closing a connection *)

Definition sids_without (i : Z) (m : gmap Z Z) : gmap Z Z :=
  if is_writer then filter (λ kv, kv.2 ≠ i) m else m.

Lemma eraseConnection_run p o s :
  mgr_wf s → heap s !! p = Some o →
  ∃ s', eraseConnection is_writer (Some p) s = (Ok tt, s') ∧ heap s' = delete p (heap s) ∧ next s' = next s ∧
    connMap s' = delete (co_id o) (connMap s) ∧ cid s' = cid s ∧
    _sid2cid s' = sids_without (co_id o) (_sid2cid s) ∧ lazyDelIds s' = lazyDelIds s ∧
    loop s' = Timer.addTimer (-1) (HConn p) (loop s).
Proof.
  intros Hs Ho. pose proof (wf_heap _ Hs _ _ Ho) as Hm.
  assert (∀ s0, heap s0 = heap s → connMap s0 = connMap s → next s0 = next s → cid s0 = cid s →
    lazyDelIds s0 = lazyDelIds s → loop s0 = loop s →
    ∃ s', Multi_eraseConnection (Some p) s0 = (Ok tt, s') ∧ heap s' = delete p (heap s) ∧ next s' = next s ∧
    connMap s' = delete (co_id o) (connMap s) ∧ cid s' = cid s ∧
    _sid2cid s' = _sid2cid s0 ∧ lazyDelIds s' = lazyDelIds s ∧
    loop s' = Timer.addTimer (-1) (HConn p) (loop s)) as Hmulti.
  { intros s0 Eh Em En Ec El Ep. unfold Multi_eraseConnection.
    assert (deref p s0 = (Ok o, s0)) as Ed by (unfold deref; by rewrite Eh, Ho).
    erewrite bind_Ok by exact Ed. erewrite bind_Ok by reflexivity. rewrite Em, Hm.
    erewrite bind_Ok by reflexivity.
    destruct (delete_conn_run p o (with_connMap (delete (co_id o)) s0)) as (s' & E & ? & ? & ? & ? & ? & ? & ?);
      [by cbn; rewrite Eh|].
    exists s'. cbn in *. split_and!; congruence. }
  unfold eraseConnection, sids_without. destruct is_writer.
  - unfold Writer_eraseConnection.
    assert (deref p s = (Ok o, s)) as Ed by (unfold deref; by rewrite Ho).
    erewrite bind_Ok by exact Ed. erewrite bind_Ok by reflexivity. by apply Hmulti.
  - by apply Hmulti.
Qed.

Lemma sids_without_spec i m k j : sids_without i m !! k = Some j → m !! k = Some j ∧ (is_writer = true → j ≠ i).
Proof.
  unfold sids_without. destruct is_writer; [|done]. by intros [? ?]%map_lookup_filter_Some.
Qed.

Lemma erased_wf p o s s' :
  mgr_wf s → heap s !! p = Some o → heap s' = delete p (heap s) → next s' = next s →
  connMap s' = delete (co_id o) (connMap s) → cid s' = cid s →
  _sid2cid s' = sids_without (co_id o) (_sid2cid s) → mgr_wf s'.
Proof.
  intros Hs Ho Eh En Em Ec Es. pose proof (wf_heap _ Hs _ _ Ho) as Hp.
  split; intros *; rewrite ?Eh, ?En, ?Em, ?Ec, ?Es.
  - intros [Hne Hi]%lookup_delete_Some. destruct (wf_map _ Hs _ _ Hi) as (oq & Hq & <-).
    exists oq. split; [|done]. rewrite lookup_delete_ne; [done|]. intros <-. congruence.
  - intros [Hne Hq]%lookup_delete_Some. pose proof (wf_heap _ Hs _ _ Hq) as Hq'.
    rewrite lookup_delete_ne; [done|]. intros Hid. rewrite <- Hid in Hq'. congruence.
  - intros [_ Hi]%lookup_delete_Some. eapply wf_ids; eauto.
  - intros [_ Hq]%lookup_delete_Some. eapply wf_fresh; eauto.
  - intros [Hk Hi]%sids_without_spec. pose proof (wf_sids _ Hs _ _ Hk) as [q Hc].
    destruct is_writer eqn:Ew; [|by rewrite (wf_plain _ Hs Ew), lookup_empty in Hk].
    exists q. rewrite lookup_delete_ne; [done|]. by apply not_eq_sym, Hi.
  - intros Hw. unfold sids_without. rewrite Hw. by apply wf_plain.
  - by apply wf_cid.
Qed.

Lemma keeps_erase c : keeps 0 (eraseConnection is_writer c).
Proof.
  destruct c as [p|]; [|unfold eraseConnection; destruct is_writer; [apply keeps_ret|apply keeps_throw]].
  intros s r s' Hs _. destruct (heap s !! p) as [o|] eqn:Ho.
  - destruct (eraseConnection_run p o s Hs Ho) as (s1 & -> & ? & ? & ? & ? & ? & _). intros [= <- <-].
    split; [by eapply erased_wf|lia].
  - assert (deref p s = (Throw Undefined, s)) as Ed by (unfold deref; by rewrite Ho).
    unfold eraseConnection, Writer_eraseConnection, Multi_eraseConnection. destruct is_writer;
      (erewrite bind_Throw by exact Ed; intros [= <- <-]; split; [done|lia]).
Qed.

(** ** Opening a connection *)

Lemma alloc_run ip port s :
  mgr_wf s → ∃ s', alloc kernel junk_time ip port s = (Ok (next s), s') ∧ mgr_wf_but (next s) s' ∧ cid s' = cid s.
Proof.
  intros Hs. eexists. split; [reflexivity|]. split; [|done]. split; [|split; [by cbn; rewrite lookup_insert_eq|cbn; lia]].
  assert (heap s !! next s = None) as Hn.
  { destruct (heap s !! next s) as [o|] eqn:Ho; [|done]. apply (wf_fresh _ Hs) in Ho. lia. }
  destruct Hs. split; cbn; rewrite ?delete_insert_id by done; eauto.
  intros p o Hp. apply wf_fresh0 in Hp. lia.
Qed.

Lemma on_conn_but {A} p (m : M Conn A) s r s' :
  mgr_wf_but p s → on_conn p m s = (r, s') → mgr_wf_but p s' ∧ cid s' = cid s.
Proof.
  intros (Hs & [o Ho] & Hp) [[-> Hn]|(o1 & o' & Ho1 & Hid & Eh & En & Em & Ec & Es & _)]%on_conn_inv; [congruence|].
  split; [|done]. split; [|split; [rewrite Eh, lookup_insert_eq; eauto|by rewrite En]].
  eapply mgr_wf_ext; [..|exact Hs]; cbn; try congruence. by rewrite Eh, delete_insert_eq.
Qed.

Lemma destroy_handler_but p s :
  mgr_wf_but p s → ∃ s', destroy_handler p s = (Ok tt, s') ∧ mgr_wf s' ∧ cid s' = cid s.
Proof.
  intros Hb. destruct (on_conn p (on_net Close) s) as [r s1] eqn:E.
  destruct (on_conn_but p _ _ _ _ Hb E) as [(Hs1 & _) Hc].
  assert (r = Ok tt) as ->.
  { destruct Hb as (_ & [o Ho] & _). unfold on_conn, on_net in E. rewrite Ho in E.
    destruct (Close_total (net (load_conn s (co_conn o)))) as [w' Ew]. rewrite Ew in E. by injection E as <- _. }
  exists (with_heap (delete p) s1). unfold destroy_handler. by erewrite bind_Ok by exact E.
Qed.

Lemma delete_conn_but p s :
  mgr_wf_but p s → ∃ s', delete_conn p s = (Ok tt, s') ∧ mgr_wf s' ∧ cid s' = cid s.
Proof.
  intros Hb. destruct (on_conn p (Connection.addTimer (-1)) s) as [r s1] eqn:E.
  destruct (on_conn_but p _ _ _ _ Hb E) as [Hb1 Hc].
  assert (r = Ok tt) as ->.
  { destruct Hb as (_ & [o Ho] & _). unfold on_conn in E. rewrite Ho in E. by injection E as <- _. }
  destruct (destroy_handler_but p s1 Hb1) as (s2 & E2 & Hs2 & Hc2).
  exists s2. unfold delete_conn. erewrite bind_Ok by exact E. split_and!; [done|done|congruence].
Qed.

Lemma or_cleanup_but {A} p (m : M Conn A) cleanup s r s' :
  (∀ s, mgr_wf_but p s → ∃ s', cleanup s = (Ok tt, s') ∧ mgr_wf s' ∧ cid s' = cid s) →
  mgr_wf_but p s → or_cleanup (on_conn p m) cleanup s = (r, s') →
  match r with Ok _ => mgr_wf_but p s' | Throw _ => mgr_wf s' end ∧ cid s' = cid s.
Proof.
  intros Hclean Hb. unfold or_cleanup. destruct (on_conn p m s) as [[a|e] s1] eqn:E.
  - intros [= <- <-]. by apply (on_conn_but p m s (Ok a)).
  - destruct (on_conn_but p _ _ _ _ Hb E) as [Hb1 Hc]. destruct (Hclean s1 Hb1) as (s2 & E2 & Hs2 & Hc2).
    erewrite bind_Ok by exact E2. intros [= <- <-]. split; [done|congruence].
Qed.

(** The two steps both constructors have. *)
Lemma new_conn_run {A B} ip port (m1 : M Conn A) (m2 : M Conn B) s r s' :
  mgr_wf s →
  (p ← alloc kernel junk_time ip port;
   or_cleanup (on_conn p m1) (destroy_handler p) ;;
   or_cleanup (on_conn p m2) (delete_conn p) ;;
   mret p) s = (r, s') →
  match r with Ok p => mgr_wf_but p s' | Throw _ => mgr_wf s' end ∧ cid s' = cid s.
Proof.
  intros Hs. destruct (alloc_run ip port s Hs) as (s1 & E1 & Hb1 & Hc1). erewrite bind_Ok by exact E1.
  set (p := next s) in *. unfold mbind, M_bind.
  destruct (or_cleanup (on_conn p m1) (destroy_handler p) s1) as [r2 s2] eqn:E2.
  destruct (or_cleanup_but p m1 _ s1 r2 s2 (destroy_handler_but p) Hb1 E2) as [H2 Hc2].
  destruct r2; [|intros [= <- <-]; split; [done|congruence]].
  destruct (or_cleanup (on_conn p m2) (delete_conn p) s2) as [r3 s3] eqn:E3.
  destruct (or_cleanup_but p m2 _ s2 r3 s3 (delete_conn_but p) H2 E3) as [H3 Hc3].
  destruct r3; intros [= <- <-]; (split; [done|congruence]).
Qed.

Lemma update_obj_run p f s o :
  heap s !! p = Some o → update_obj p f s = (Ok tt, with_heap (λ m, <[p := f o]> m) s).
Proof. intros Ho. unfold update_obj, deref, mbind, M_bind. by rewrite Ho. Qed.

(** Registration gives the object the next id. *)
Lemma onConnCreate_run p s :
  mgr_wf_but p s → cid s + 1 < 2 ^ 32 →
  ∃ s' o, onConnCreate p s = (Ok tt, s') ∧ mgr_wf s' ∧ cid s' = cid s + 1 ∧
    connMap s' = <[cid s + 1 := Some p]> (connMap s) ∧ heap s' !! p = Some o ∧ co_id o = cid s + 1 ∧
    loop s' = loop s ∧ lazyDelIds s' = lazyDelIds s ∧ _sid2cid s' = _sid2cid s ∧
    next s' = next s ∧ (∃ o0, heap s !! p = Some o0 ∧ co_conn o = co_conn o0) ∧ delete p (heap s') = delete p (heap s).
Proof.
  intros (Hs & [o Ho] & Hp) Hc. pose proof (wf_cid _ Hs) as Hc0. cbn in Hc0.
  assert (u32 (cid s + 1) = cid s + 1) as Hu by (apply uwrap_small; unfold in_u; lia).
  unfold onConnCreate. erewrite bind_Ok by reflexivity. erewrite bind_Ok by reflexivity. cbn [cid with_cid]. rewrite Hu.
  erewrite bind_Ok by (apply update_obj_run; exact Ho).
  erewrite bind_Ok by (apply update_obj_run; cbn; apply lookup_insert_eq). cbn [co_id co_serialId co_peerIp co_peerPort co_conn].
  eexists _, _. split; [reflexivity|].
  assert (∀ q oq, heap s !! q = Some oq → q ≠ p → connMap s !! co_id oq = Some (Some q)) as Hother.
  { intros q oq Hq Hne. apply (wf_heap _ Hs). cbn. by rewrite lookup_delete_ne. }
  assert (connMap s !! (cid s + 1) = None) as Hnew.
  { destruct (connMap s !! (cid s + 1)) as [c|] eqn:E; [|done]. apply (wf_ids _ Hs) in E. cbn in E. lia. }
  split_and!; cbn; try done; [..|by rewrite lookup_insert_eq|done|by exists o|by rewrite !delete_insert_eq].
  split; cbn.
  - intros i q. rewrite lookup_insert_Some. intros [[<- [= <-]]|[Hne Hi]].
    + eexists. by rewrite lookup_insert_eq.
    + destruct (wf_map _ Hs _ _ Hi) as (oq & Hq & <-). cbn in Hq. apply lookup_delete_Some in Hq as [Hqp Hq].
      exists oq. by rewrite !lookup_insert_ne.
  - intros q oq. rewrite insert_insert_eq, lookup_insert_Some. intros [[<- <-]|[Hne Hq]]; cbn; [apply lookup_insert_eq|].
    pose proof (Hother q oq Hq (not_eq_sym Hne)) as Hi. rewrite lookup_insert_ne; [done|]. intros E. rewrite <- E in Hi. congruence.
  - intros i c. rewrite lookup_insert_Some. intros [[<- _]|[_ Hi]]; [split; [lia|done || lia]|]. apply (wf_ids _ Hs) in Hi. cbn in Hi. split; [lia|apply Hi].
  - intros q oq. rewrite insert_insert_eq, lookup_insert_Some. intros [[<- _]|[Hne Hq]]; [done|].
    eapply (wf_fresh _ Hs). cbn. by rewrite lookup_delete_ne.
  - intros k i Hk. destruct (wf_sids _ Hs _ _ Hk) as [q Hi]. cbn in Hi.
    destruct (decide (i = cid s + 1)) as [->|Hne]; [rewrite lookup_insert_eq|rewrite lookup_insert_ne by done]; eauto.
  - intros Hw. by apply (wf_plain _ Hs).
  - lia.
Qed.

(** What follows the constructor, up to the registration. *)
Lemma keeps_registered {A} (new : M Mgr positive) (f : positive → M Mgr A) timeout :
  (∀ s r s', mgr_wf s → new s = (r, s') →
    match r with Ok p => mgr_wf_but p s' | Throw _ => mgr_wf s' end ∧ cid s' = cid s) →
  (∀ p, keeps 0 (f p)) →
  keeps 1 (p ← new; on_conn p (setTimeout timeout) ;; onConnCreate p ;; f p).
Proof.
  intros Hnew Hf s r s' Hs Hc. unfold mbind at 1. unfold M_bind.
  destruct (new s) as [[p|e] s1] eqn:E1; destruct (Hnew _ _ _ Hs E1) as [H1 Hc1];
    [|intros [= <- <-]; split; [done|lia]].
  unfold mbind at 1. unfold M_bind. destruct (on_conn p (setTimeout timeout) s1) as [r2 s2] eqn:E2.
  destruct (on_conn_but p _ _ _ _ H1 E2) as [H2 Hc2].
  assert (r2 = Ok tt) as ->.
  { destruct H1 as (_ & [o Ho] & _). unfold on_conn in E2. rewrite Ho in E2. by injection E2 as <- _. }
  destruct (onConnCreate_run p s2 H2) as (s3 & o & E3 & H3 & Hc3 & _); [lia|].
  unfold mbind, M_bind; rewrite E3; intros E. destruct (Hf p _ _ _ H3 ltac:(lia) E). split; [done|lia].
Qed.

Lemma keeps_createClient nodelay ip port :
  keeps 1 (createClientSideConn inet_addr kernel junk_time nodelay ip port).
Proof.
  apply keeps_try.
  - apply keeps_registered.
    + intros s r s' Hs. by apply new_conn_run.
    + intros p. apply keeps_bind0; [done|apply keeps_on_conn|intros; apply keeps_ret].
  - intros [] m'; try done; intros [= <-]; apply keeps_ret.
Qed.

Lemma keeps_createServer nodelay fd ip port :
  keeps 1 (createServerSideConn kernel junk_time nodelay fd ip port).
Proof.
  apply keeps_registered.
  - intros s r s' Hs. by apply new_conn_run.
  - intros p. apply keeps_bind0; [done|apply keeps_on_conn|intros; apply keeps_ret].
Qed.

Lemma keeps_add_sid p k :
  is_writer = true → keeps 0 (o ← deref p; modify (with_sids (insert k (co_id o)))).
Proof.
  intros Hw s r s' Hs _. unfold deref, mbind, M_bind. destruct (heap s !! p) as [o|] eqn:Ho.
  - intros [= <- <-]. split; [|cbn; lia]. pose proof (wf_heap _ Hs _ _ Ho) as Hm. destruct Hs. split; cbn; eauto.
    + intros k' i. rewrite lookup_insert_Some. intros [[_ <-]|[_ Hi]]; eauto.
    + congruence.
  - intros [= <- <-]. split; [done|lia].
Qed.

Lemma keeps_connectServer nodelay sid ip port :
  is_writer = true → keeps 1 (connectServer inet_addr inet_ntoa kernel junk_time nodelay sid ip port).
Proof.
  intros Hw. unfold connectServer. destruct (sid =? 2 ^ 64 - 1); [by apply (keeps_weaken 0), keeps_ret|].
  apply keeps_bind_last; [apply keeps_createClient|]. intros [p|]; [|apply keeps_ret].
  pose proof (keeps_add_sid p sid Hw) as Hk. intros s r s' Hs Hc E.
  unfold mbind, M_bind in E, Hk. specialize (Hk s). cbv beta in Hk. destruct (deref p s) as [[o|e] s1]; [|injection E as <- <-; destruct (Hk _ _ Hs ltac:(lia) eq_refl); split; [done|lia]].
  cbn in E. injection E as <- <-. destruct (Hk _ _ Hs ltac:(lia) eq_refl). split; [done|lia].
Qed.

Lemma keeps_dispatchById id msg : keeps 0 (dispatchById h id msg).
Proof.
  apply keeps_bind0; [done|apply keeps_get|]. intros s.
  destruct (connMap s !! id) as [[p|]|]; [|apply keeps_throw|apply keeps_ret].
  apply keeps_catch_std; (apply keeps_bind0; [done| |intros; apply keeps_ret]); [apply keeps_on_conn|].
  apply keeps_bind0; [done|apply keeps_on_conn|]. intros _. by apply keeps_modify.
Qed.

Lemma keeps_dispatch nodelay sid ip port u obj :
  is_writer = true → keeps 1 (dispatch h junk inet_addr inet_ntoa kernel junk_time nodelay sid ip port u obj).
Proof.
  intros Hw. apply keeps_bind0; [done|apply keeps_get|]. intros s.
  apply keeps_bind0; [done|apply keeps_lift|]. intros m.
  destruct (_sid2cid s !! sid); [apply (keeps_weaken 0); [done|apply keeps_dispatchById]|].
  apply keeps_bind_last; [by apply keeps_connectServer|]. intros [p|]; [|apply keeps_ret].
  apply keeps_bind0; [done|apply keeps_on_conn|intros; apply keeps_ret].
Qed.

Lemma keeps_sendTo nodelay ipport u obj :
  is_writer = true → keeps 1 (sendTo h junk inet_addr inet_ntoa kernel junk_time nodelay ipport u obj).
Proof.
  intros Hw. unfold sendTo. destruct (str_empty ipport); [by apply (keeps_weaken 0), keeps_ret|].
  apply keeps_bind0; [done|apply keeps_lift|]. intros a.
  destruct (_ || _); [by apply (keeps_weaken 0), keeps_ret|].
  apply keeps_bind_last; [by apply keeps_dispatch|intros; apply keeps_ret].
Qed.

Lemma keeps_answer p u obj : keeps 0 (answer h junk p u obj).
Proof.
  apply keeps_bind0; [done|apply keeps_get|]. intros s.
  apply keeps_bind0; [done|apply keeps_lift|intros; apply keeps_on_conn].
Qed.

Lemma keeps_erase_lazy ids : keeps 0 (erase_lazy is_writer ids).
Proof.
  induction ids as [|i ids IH]; cbn [erase_lazy]; [apply keeps_ret|].
  apply keeps_bind0; [done|apply keeps_gets|]. intros c. apply keeps_bind0; [done| |done].
  destruct c as [p|]; [|apply keeps_ret]. apply keeps_bind0; [done|apply keeps_deref|]. intros o.
  destruct (negb _); [apply keeps_erase|apply keeps_ret].
Qed.

Lemma keeps_lazy_doEvent : keeps 0 (lazy_doEvent is_writer).
Proof.
  apply keeps_bind0; [done|apply keeps_get|]. intros s. apply keeps_bind0; [done|apply keeps_erase_lazy|].
  intros _. apply keeps_bind0; [done|by apply keeps_modify|intros _; by apply keeps_modify].
Qed.

Lemma keeps_DelayDelConn c : keeps 0 (DelayDelConn c).
Proof.
  destruct c as [p|]; [|apply keeps_ret]. apply keeps_bind0; [done|apply keeps_on_conn|]. intros _.
  apply keeps_bind0; [done|apply keeps_deref|intros o; by apply keeps_modify].
Qed.

Lemma keeps_handle_notices p ns : keeps 0 (handle_notices is_writer p ns).
Proof.
  induction ns as [|n ns IH]; cbn [handle_notices]; [apply keeps_ret|].
  apply keeps_bind0; [done| |done]. destruct n; cbn; [apply keeps_ret|apply keeps_erase..].
Qed.

Lemma keeps_conn_event p m : keeps 0 (conn_event is_writer p m).
Proof.
  apply keeps_bind0; [done|apply keeps_deref|]. intros o. apply keeps_bind0; [done|apply keeps_on_conn|]. intros _.
  apply keeps_bind0; [done|apply keeps_deref|intros o'; apply keeps_handle_notices].
Qed.

Lemma keeps_eraseById id : keeps 0 (eraseConnectionById is_writer id).
Proof.
  apply keeps_bind0; [done|apply keeps_get|]. intros s.
  destruct (connMap s !! id); [apply keeps_erase|apply keeps_ret].
Qed.

(** [dispatchByIds] looks at ids below the number of entries, so what it adds is at most [cid]. *)
Lemma size_ids {A} (m : gmap Z A) c :
  0 <= c → (∀ i x, m !! i = Some x → 0 <= i <= c) → Z.of_nat (size m) <= c + 1.
Proof.
  intros Hc Hm. rewrite <- size_dom.
  assert (Hsub : dom m ⊆ (list_to_set (seqZ 0 (c + 1)) : gset Z)).
  { intros i [x Hx]%elem_of_dom. apply elem_of_list_to_set, elem_of_seqZ. apply Hm in Hx. lia. }
  apply subseteq_size in Hsub. rewrite size_list_to_set, length_seqZ in Hsub by apply NoDup_seqZ. lia.
Qed.

Definition add_null (id : Z) (m : gmap Z (option positive)) : gmap Z (option positive) :=
  match m !! id with Some _ => m | None => <[id := None]> m end.

Lemma add_null_wf id s :
  mgr_wf s → 0 <= id < Z.of_nat (size (connMap s)) → mgr_wf (with_connMap (add_null id) s).
Proof.
  intros Hs Hid.
  pose proof (size_ids (connMap s) (cid s) (wf_cid _ Hs) (λ i x Hx, proj1 (wf_ids _ Hs i x Hx))) as Hsz.
  unfold add_null. destruct (connMap s !! id) as [c|] eqn:Hc;
    [by eapply mgr_wf_ext; [..|exact Hs]; cbn; rewrite ?Hc|].
  destruct Hs. split; cbn; rewrite ?Hc; eauto.
  - intros i p. rewrite lookup_insert_Some. intros [[_ ?]|[_ Hi]]; [done|eauto].
  - intros p o Hp. rewrite lookup_insert_ne; [eauto|]. intros ->. apply wf_heap0 in Hp. congruence.
  - intros i x. rewrite lookup_insert_Some. intros [[<- <-]|[_ Hi]]; [split; [lia|by intros []]|eauto].
  - intros k i Hk. destruct (wf_sids0 _ _ Hk) as [p Hp]. exists p. rewrite lookup_insert_ne; [done|]. congruence.
Qed.

Lemma keeps_dispatch_ids ids bytes exp : Forall (λ i, 0 <= i) ids → keeps 0 (dispatch_ids h ids bytes exp).
Proof.
  induction 1 as [|id ids Hid Hids IH]; cbn [dispatch_ids]; [apply keeps_ret|].
  destruct (_ && _); [done|]. intros s r s' Hs Hc. erewrite bind_Ok by reflexivity.
  destruct (Z.ltb_spec id (Z.of_nat (size (connMap s)))); [|intros [= <- <-]; split; [done|lia]].
  erewrite bind_Ok by reflexivity. pose proof (add_null_wf id s Hs ltac:(lia)) as Hs1.
  fold (add_null id). set (s1 := with_connMap (add_null id) s) in *.
  destruct (connMap s !! id) as [[p|]|]; [|intros [= <- <-]; split; [done|cbn; lia]..].
  refine (keeps_bind0 0 _ _ _ _ _ s1 r s' Hs1 Hc); [done| |done].
  apply keeps_catch_std; [apply keeps_on_conn|].
  apply keeps_bind0; [done|apply keeps_on_conn|intros _; by apply keeps_modify].
Qed.

Lemma keeps_dispatchByIds ids msg exp : Forall (λ i, 0 <= i) ids → keeps 0 (dispatchByIds h ids msg exp).
Proof. intros Hids. apply keeps_bind0; [done|apply keeps_lift|intros b; by apply keeps_dispatch_ids]. Qed.

(** The methods of a connection that its users call. *)
Inductive conn_method := CSend (msg : Sender) | CSendBin (data : list byte) | CSetTimeout (t : Z) | CSetEnable (b : bool) | CSetEncKey.
Definition run_conn_method (m : conn_method) : M Conn unit :=
  match m with
  | CSend msg => send_conn h msg
  | CSendBin data => sendBin h data
  | CSetTimeout t => setTimeout t
  | CSetEnable b => modify (setEnable b)
  | CSetEncKey => setEncKey
  end.

(** The calls on a manager; [sendTo] is an operation of a writer only, ids are unsigned. *)
Inductive mgr_call :=
  | MSendTo (nodelay : bool) (ipport : string) (u : Z) (obj : Marshallable)
  | MAnswer (p : positive) (u : Z) (obj : Marshallable)
  | MConnect (nodelay : bool) (ip : string) (port : Z)
  | MAccept (nodelay : bool) (fd ip port : Z)
  | MDispatch (id : Z) (msg : Sender)
  | MDispatchByIds (ids : list N) (msg : Sender) (exp : Z)
  | MErase (c : option positive)
  | MEraseById (id : Z)
  | MDelayDel (c : option positive)
  | MMethod (p : positive) (m : conn_method)
  | MTimer.

Definition run_mgr_call (c : mgr_call) : M Mgr unit :=
  match c with
  | MSendTo nd a u m => if is_writer then sendTo h junk inet_addr inet_ntoa kernel junk_time nd a u m else mret tt
  | MAnswer p u m => answer h junk p u m
  | MConnect nd ip port => createClientSideConn inet_addr kernel junk_time nd ip port ;; mret tt
  | MAccept nd fd ip port => createServerSideConn kernel junk_time nd fd ip port ;; mret tt
  | MDispatch id m => dispatchById h id m ;; mret tt
  | MDispatchByIds ids m exp => dispatchByIds h (Z.of_N <$> ids) m exp ;; mret tt
  | MErase c => eraseConnection is_writer c
  | MEraseById id => eraseConnectionById is_writer id
  | MDelayDel c => DelayDelConn c
  | MMethod p m => on_conn p (run_conn_method m)
  | MTimer => lazy_doEvent is_writer
  end.

(** What [onData] does: at most [n] calls on the manager, each chosen by what was received, its
    number and the state so far, and then a result. *)
Record DataHandler := mkHandler {
  hd_calls : nat;
  hd_next : list byte → nat → Mgr → option mgr_call;
  hd_result : list byte → Mgr → Z;
}.
Fixpoint run_handler (next : nat → Mgr → option mgr_call) (n : nat) : M Mgr unit :=
  match n with
  | O => mret tt
  | S n => s ← get; match next n s with Some c => run_mgr_call c ;; run_handler next n | None => mret tt end
  end.
Definition onData_of (d : DataHandler) (data : list byte) : M Mgr Z :=
  run_handler (hd_next d data) (hd_calls d) ;; gets (hd_result d data).

(** What happens to a manager: a call, or an event of a connection, whose [onData] may make calls. *)
Inductive mgr_op := MCall (c : mgr_call) | MEvent (p : positive) (d : DataHandler) (ev : Z).

(** The connections an operation may open at most. *)
Definition opens (o : mgr_op) : nat := match o with MCall _ => 1 | MEvent _ d _ => hd_calls d end.

Definition run_mgr_op (o : mgr_op) : M Mgr unit :=
  match o with
  | MCall c => run_mgr_call c
  | MEvent p d ev => conn_event_in is_writer p (tcp_doEvent_in h (λ _ m, on_conn p m) (onData_of d) ev)
  end.

(** The states after any sequence of operations, whether they return or throw. *)
Fixpoint run_mgr_ops (os : list mgr_op) (s : Mgr) : Mgr :=
  match os with [] => s | o :: os => run_mgr_ops os (run_mgr_op o s).2 end.

Lemma keeps_call c : keeps 1 (run_mgr_call c).
Proof.
  destruct c; cbn [run_mgr_call].
  - destruct is_writer eqn:Hw; [by apply keeps_sendTo|by apply (keeps_weaken 0), keeps_ret].
  - apply (keeps_weaken 0); [done|apply keeps_answer].
  - apply keeps_bind_last; [apply keeps_createClient|intros; apply keeps_ret].
  - apply keeps_bind_last; [apply keeps_createServer|intros; apply keeps_ret].
  - apply (keeps_weaken 0), keeps_bind0; [done..|apply keeps_dispatchById|intros; apply keeps_ret].
  - apply (keeps_weaken 0), keeps_bind0; [done..| |intros; apply keeps_ret].
    apply keeps_dispatchByIds, Forall_fmap, Forall_true. intros i. cbn. lia.
  - apply (keeps_weaken 0); [done|apply keeps_erase].
  - apply (keeps_weaken 0); [done|apply keeps_eraseById].
  - apply (keeps_weaken 0); [done|apply keeps_DelayDelConn].
  - apply (keeps_weaken 0); [done|apply keeps_on_conn].
  - apply (keeps_weaken 0); [done|apply keeps_lazy_doEvent].
Qed.

Lemma keeps_handler next n : keeps (Z.of_nat n) (run_handler next n).
Proof.
  induction n as [|n IH]; cbn [run_handler]; [apply keeps_ret|].
  apply keeps_bind0; [lia|apply keeps_get|]. intros s.
  destruct (next n s); [|apply (keeps_weaken 0); [lia|apply keeps_ret]].
  rewrite Nat2Z.inj_succ. unfold Z.succ. rewrite Z.add_comm.
  apply keeps_bind; [lia|apply keeps_call|done].
Qed.

(** An event keeps what its [onData] keeps. *)
Lemma keeps_doEvent_in p (onData : list byte → M Mgr Z) n ev :
  0 <= n → (∀ data, keeps n (onData data)) → keeps n (tcp_doEvent_in h (λ _ m, on_conn p m) onData ev).
Proof.
  intros Hn Hd. pose proof (λ A (m : M Conn A), keeps_weaken 0 n _ Hn (keeps_on_conn p m)) as Hm.
  apply keeps_bind0; [done|apply keeps_on_conn|]. intros c.
  destruct (isConnected _).
  - destruct (ev =? EVENT_READ).
    + apply keeps_try.
      * apply keeps_bind0; [done|apply keeps_on_conn|]. intros k. destruct (0 <? k); [|apply Hm].
        apply keeps_bind0; [done|apply keeps_on_conn|]. intros c1.
        apply keeps_bind_last; [apply Hd|]. intros ret. destruct (negb _); apply keeps_on_conn.
      * intros e m'. destruct (conn_handler e); intros [= <-]. apply keeps_on_conn.
    + destruct (ev =? EVENT_WRITE); [apply Hm|]. destruct (ev =? EVENT_TIMEOUT); [apply Hm|].
      apply (keeps_weaken 0), keeps_throw. done.
  - destruct (ev =? EVENT_TIMEOUT); [apply Hm|]. destruct (_ || _); [apply Hm|].
    apply (keeps_weaken 0), keeps_throw. done.
Qed.

Lemma keeps_conn_event_in p n (m : M Mgr unit) : 0 <= n → keeps n m → keeps n (conn_event_in is_writer p m).
Proof.
  intros Hn Hm. apply keeps_bind0; [done|apply keeps_deref|]. intros o. apply keeps_bind_last; [done|]. intros _.
  apply keeps_bind0; [done|apply keeps_deref|intros o'; apply keeps_handle_notices].
Qed.

Lemma keeps_op o : keeps (Z.of_nat (opens o)) (run_mgr_op o).
Proof.
  destruct o as [c|p d ev]; cbn [run_mgr_op opens]; [apply keeps_call|].
  apply keeps_conn_event_in, keeps_doEvent_in; [lia..|]. intros data.
  apply keeps_bind_last; [apply keeps_handler|intros _; apply keeps_gets].
Qed.

Lemma new_Mgr_wf : mgr_wf new_Mgr.
Proof. split; cbn; intros *; rewrite ?lookup_empty; try done; lia. Qed.

(** C37: after any sequence of calls on a manager and of events of its connections, whose
    [onData] may itself make any calls, and whatever they throw, as long as fewer than 2^32
    connections can have been opened: the pointers of the connection map and the allocated
    connections correspond one to one, every id is one the counter gave out, and every server
    address the writer knows leads to an open connection; other entries are the NULLs of
    [dispatchByIds]. *)
Theorem mgr_invariant os :
  Z.of_nat (sum_list (opens <$> os)) < 2 ^ 32 → mgr_wf (run_mgr_ops os new_Mgr).
Proof.
  assert (∀ s, mgr_wf s → cid s + Z.of_nat (sum_list (opens <$> os)) < 2 ^ 32 → mgr_wf (run_mgr_ops os s)) as Hgen.
  { induction os as [|o os IH]; intros s Hs Hc; [done|]. cbn [run_mgr_ops fmap list_fmap sum_list sum_list_with] in *.
    destruct (run_mgr_op o s) as [r s1] eqn:E. cbn in Hc.
    destruct (keeps_op o s r s1 Hs ltac:(lia) E) as [Hs1 Hc1].
    cbn [snd]. apply IH; [done|lia]. }
  intros Hl. apply Hgen; [apply new_Mgr_wf|]. cbn. lia.
Qed.

(** ** Timers of closed connections *)

Lemma conn_event_run p m s o c :
  heap s !! p = Some o → m (load_conn s (co_conn o)) = (Ok tt, c) →
  conn_event is_writer p m s =
    handle_notices is_writer p (drop (length (notices (co_conn o))) (notices c)) (store_conn p o c s).
Proof.
  intros Ho E. unfold conn_event.
  assert (deref p s = (Ok o, s)) as Ed by (unfold deref; by rewrite Ho).
  erewrite bind_Ok by exact Ed.
  assert (on_conn p m s = (Ok tt, store_conn p o c s)) as Em by (unfold on_conn; by rewrite Ho, E).
  erewrite bind_Ok by exact Em.
  assert (deref p (store_conn p o c s) = (Ok (mkCO (co_id o) (co_serialId o) (co_peerIp o) (co_peerPort o) c),
    store_conn p o c s)) as Ed2 by (unfold deref; cbn; by rewrite lookup_insert_eq).
  by erewrite bind_Ok by exact Ed2.
Qed.

(** The kernel reports end of file: the connection tells its handler to close it. *)
Lemma onRead_eof onData c r rest :
  script (net c) = r :: rest → sr_ret r ≠ -1 → sr_data r = [] →
  ∃ c', onRead h onData c = (Ok tt, c') ∧ timers c' = timers c ∧ notices c' = notices c ++ [NClose].
Proof.
  intros Hs Hr Hd.
  assert (∃ n c', pump h npos c = (Ok n, c') ∧ n <= 0 ∧ timers c' = timers c ∧ notices c' = notices c)
    as (n & c' & E & Hn & Ht & Hnt).
  { unfold pump. match goal with |- context [let (_, _) := ?x in _] => destruct x as [b st] end. destruct (freespace b =? 0); [eexists _, _; split_and!; done|].
    unfold on_net, recv. cbn [net upd_input]. run_sys. rewrite Hs. cbn [hd].
    destruct (Z.eqb_spec (sr_ret r) (-1)); [done|]. rewrite Hd.
    assert (∀ k, ztake k (@nil byte) = []) as Hz by (intros; unfold ztake; apply take_nil). rewrite !Hz. cbn. eexists _, _. split_and!; done. }
  eexists. split.
  - unfold onRead, onRead_in, try_catch. erewrite bind_Ok by exact E. destruct (Z.ltb_spec 0 n); [lia|]. reflexivity.
  - cbn. by rewrite Ht, Hnt.
Qed.

(** The kernel reports a completed connection: the connect timer is deleted. *)
Lemma connected_event onData c r rest :
  isConnected (sock (net c)) = false → script (net c) = r :: rest → sr_ret r = 0 → sr_val r = 0 →
  bb_empty (output c) = true →
  ∃ c', tcp_doEvent h onData EVENT_WRITE c = (Ok tt, c') ∧ isConnected (sock (net c')) = true ∧
    script (net c') = rest ∧ timers c' = timers c ++ [-1] ∧ notices c' = notices c ++ [NConnected].
Proof.
  intros Hc Hs Hr Hv Ho. eexists. split.
  - unfold tcp_doEvent, tcp_doEvent_in. erewrite bind_Ok by reflexivity. rewrite Hc. cbn [Z.eqb orb].
    unfold complete_nonblocking_connect, onConnected, on_net. run_sys. rewrite Hs. cbn. rewrite Hr, Hv. cbn.
    rewrite Ho. cbn. reflexivity.
  - cbn. rewrite ?Hs. by split_and!.
Qed.

(** Once a client connection is established and the server closes it, the object is
    deleted but its pointer is left in the timer list, and the next [checkTimer] calls it. *)
Lemma closed_client_dangles onData p o n r1 r2 rest s :
  mgr_wf s → heap s !! p = Some o → isConnected (sock (net (co_conn o))) = false →
  script (net (co_conn o)) = r1 :: r2 :: rest → sr_ret r1 = 0 → sr_val r1 = 0 →
  sr_ret r2 ≠ -1 → sr_data r2 = [] → bb_empty (output (co_conn o)) = true →
  pending (HConn p) (loop s) = [n] → Forall (λ m, 0 <= expire m) (_timers (loop s)) → cid s < 2 ^ 32 →
  ∃ s1 s2, conn_event is_writer p (tcp_doEvent h onData EVENT_WRITE) s = (Ok tt, s1) ∧
    conn_event is_writer p (tcp_doEvent h onData EVENT_READ) s1 = (Ok tt, s2) ∧
    heap s2 !! p = None ∧
    ∀ tick, 0 <= tick < 2 ^ 31 → head (checkTimer tick (loop s2)).1 = Some (HConn p).
Proof.
  intros Hs Ho Hc Hsc H1 H1v H2 H2d Hout Hpend Hpos Hcid.
  destruct (connected_event onData (load_conn s (co_conn o)) r1 (r2 :: rest)) as (c1 & E1 & Hc1 & Hs1 & Ht1 & Hn1); [done..|].
  assert (conn_event is_writer p (tcp_doEvent h onData EVENT_WRITE) s = (Ok tt, store_conn p o c1 s)) as Ev1.
  { erewrite conn_event_run by done. rewrite Hn1. cbn [notices load_conn]. by rewrite drop_app_length. }
  destruct (keeps_conn_event p _ _ _ _ Hs ltac:(lia) Ev1) as [Hwf1 _].
  set (s1 := store_conn p o c1 s) in *.
  set (o1 := mkCO (co_id o) (co_serialId o) (co_peerIp o) (co_peerPort o) c1).
  assert (heap s1 !! p = Some o1) as Ho1 by apply lookup_insert_eq.
  assert (loop s1 = Timer.addTimer (-1) (HConn p) (loop s)) as Hl1.
  { unfold s1. cbn. rewrite Ht1. cbn. by rewrite drop_app_length. }
  destruct (onRead_eof onData (load_conn s1 c1) r2 rest) as (c2 & E2 & Ht2 & Hn2); [done..|].
  assert (tcp_doEvent h onData EVENT_READ (load_conn s1 (co_conn o1)) = (Ok tt, c2)) as E2'.
  { unfold tcp_doEvent, tcp_doEvent_in. erewrite bind_Ok by reflexivity. cbn [co_conn o1 net load_conn]. by rewrite Hc1. }
  set (s2 := store_conn p o1 c2 s1).
  assert (mgr_wf s2) as Hwf2.
  { destruct (keeps_on_conn p (tcp_doEvent h onData EVENT_READ) s1 (Ok tt) s2 Hwf1); [cbn; lia| |done].
    unfold on_conn. by rewrite Ho1, E2'. }
  set (o2 := mkCO (co_id o1) (co_serialId o1) (co_peerIp o1) (co_peerPort o1) c2).
  destruct (eraseConnection_run p o2 s2 Hwf2) as (s3 & E3 & Eh & _ & _ & _ & _ & _ & El); [apply lookup_insert_eq|].
  exists s1, s3. split; [exact Ev1|]. split_and!.
  - erewrite conn_event_run by done. rewrite Hn2. cbn [notices load_conn co_conn o1]. rewrite drop_app_length.
    cbn [handle_notices handle_notice]. fold s2. by erewrite bind_Ok by exact E3.
  - rewrite Eh. apply lookup_delete_eq.
  - intros tick Htick. rewrite El.
    assert (loop s2 = loop s1) as ->.
    { unfold s2. cbn [loop store_conn]. rewrite Ht2. cbn [timers load_conn co_conn o1]. by rewrite drop_all. }
    rewrite Hl1. pose proof (addTimer_pending (-1) (HConn p) (loop s)) as Hp. rewrite Hpend in Hp.
    apply delete_absent_fires; [lia|exact Hp| |done].
    apply Forall_forall. intros m Hm%list_elem_of_In.
    eapply addTimer_delete_incl in Hm; [|lia|exact Hpend]. rewrite Forall_forall in Hpos. by apply Hpos, list_elem_of_In.
Qed.

(** ** Sending to an address *)

Lemma JsonSender_sends st u obj bd :
  heap_avail h → in_u 8 u → appends_body obj bd → HEADER_SIZE + zlen bd <= @maxsize PackBlock →
  ∃ msg, JsonSender_obj h junk st u obj = Ok msg ∧ (send_bytes h msg).1 = Ok (json_frame (2 ^ 32 - 1) u bd).
Proof.
  intros Hh Hu Hm Hsz. destruct (JsonSender_obj_wf h junk st u obj bd Hh Hm Hsz) as (msg & E & Hwf & Hus & Hss).
  exists msg. split; [done|]. destruct (send_bytes_wf h msg _ bd Hwf) as (s' & E' & _);
    [by rewrite Hss|congruence|]. by rewrite E', Hus, Hss.
Qed.

(** A connection that is not established yet: what is sent waits in its output buffer. *)
Record waiting (c : Conn) : Prop := {
  wt_out : bb_wf (output c);
  wt_plain : output_encrypted c = false;
  wt_enabled : bEnable c = true;
  wt_connecting : isConnected (sock (net c)) = false;
}.

Lemma send_waiting c msg bytes :
  waiting c → heap_avail h → (send_bytes h msg).1 = Ok bytes → zlen (content (output c)) + zlen bytes <= maxsize →
  ∃ c', send_conn h msg c = (Ok tt, c') ∧ waiting c' ∧ content (output c') = content (output c) ++ bytes ∧
    timers c' = timers c ∧ notices c' = notices c.
Proof.
  intros Hw Hh Hb Hsz. unfold send_conn, lift_res. erewrite bind_Ok by (by rewrite Hb).
  unfold sendBin. erewrite bind_Ok by reflexivity. rewrite (wt_enabled _ Hw), (wt_connecting _ Hw). cbn [negb].
  unfold write_buffered. destruct (Z.eqb_spec (zlen bytes) 0) as [H0|H0].
  { apply zlen_zero in H0 as ->. exists c. by rewrite app_nil_r. }
  assert (filterWrite h bytes c = (Ok bytes, c)) as Ef by (unfold filterWrite; by rewrite (wt_plain _ Hw)).
  erewrite bind_Ok by exact Ef. rewrite length_content in Hsz by apply Hw.
  pose proof (append_ok h bytes (output c) (bstats c) (wt_out _ Hw) Hh Hsz) as Hok.
  destruct (append h bytes (output c, bstats c)) as [ok [b st]] eqn:Ea. cbn in Hok. subst ok.
  assert (out_append h bytes c = (Ok true, upd_output b st c)) as Eo by (unfold out_append; by rewrite Ea).
  apply append_spec in Ea as [Hwf Hc]; [|apply Hw].
  erewrite bind_Ok by exact Eo. eexists. split; [reflexivity|]. destruct Hw. by split_and!.
Qed.

(** The kernel's answers to a non-blocking connect in progress. *)
Definition in_progress (l : list SysRes) : Prop :=
  ∃ r1 r2 r3 r4 r5 r6 rest, l = r1 :: r2 :: r3 :: r4 :: r5 :: r6 :: rest ∧
    sr_ret r1 ≠ -1 ∧ sr_ret r3 ≠ -1 ∧ sr_ret r4 ≠ -1 ∧
    sr_ret r5 = -1 ∧ isIgnoreConnect (sr_errno r5) = true ∧ sr_ret r6 ≠ -1.

(** [doConnect], [setnodelay] and [setTimeout] on a fresh object. *)
Lemma doConnect_progress ip port p s :
  in_progress (kernel p) →
  ∃ c, doConnect ip port CONNECT_TIMEOUT (fresh_conn kernel junk_time p s) = (Ok tt, c) ∧
    timers c = [CONNECT_TIMEOUT] ∧ waiting c ∧ output c = new_BlockBuffer ∧
    ∃ w, setnodelay (net c) = (Ok tt, w) ∧ isConnected (sock w) = false.
Proof.
  intros (r1 & r2 & r3 & r4 & r5 & r6 & rest & Hk & H1 & H3 & H4 & H5 & H5e & H6).
  apply Z.eqb_neq in H1, H3, H4, H6.
  eexists. split.
  - unfold doConnect, on_net, socket_create, setblocking, connect, fresh_conn, Connection.addTimer. run_sys. rewrite Hk. cbn.
    rewrite H1. cbn. rewrite H3. cbn. rewrite H4. cbn. rewrite H5. cbn. rewrite H5e. cbn. reflexivity.
  - cbn. split_and!; try done.
    unfold setnodelay, set_option. run_sys. rewrite H6. eexists. split; [reflexivity|done].
Qed.

Lemma on_conn_run {A} p (m : M Conn A) s o r c :
  heap s !! p = Some o → m (load_conn s (co_conn o)) = (r, c) → on_conn p m s = (r, store_conn p o c s).
Proof. intros Ho E. unfold on_conn. by rewrite Ho, E. Qed.

(** The constructor and [setTimeout]: the second timer replaces the first. *)
Lemma new_client_progress ip port s :
  mgr_wf s → in_progress (kernel (next s)) → pending (HConn (next s)) (loop s) = [] →
  ∃ s1 s2 o, new_client inet_addr kernel junk_time ip port CONNECT_TIMEOUT true s = (Ok (next s), s1) ∧
    on_conn (next s) (setTimeout CONN_TIMEOUT) s1 = (Ok tt, s2) ∧ mgr_wf_but (next s) s2 ∧
    heap s2 !! next s = Some o ∧ waiting (co_conn o) ∧ output (co_conn o) = new_BlockBuffer ∧
    pending (HConn (next s)) (loop s2) = [mkNode CONN_TIMEOUT (_elapsed (loop s)) (HConn (next s))] ∧
    cid s2 = cid s ∧ connMap s2 = connMap s ∧ _sid2cid s2 = _sid2cid s ∧
    delete (next s) (heap s2) = delete (next s) (heap s) ∧ next s2 = Pos.succ (next s).
Proof.
  intros Hs Hk Hp. set (p := next s) in *.
  destruct (alloc_run (u32 (aton_addr inet_addr ip)) (u16 port) s Hs) as (a & Ea & Hb & Hc). fold p in Ea, Hb.
  destruct (doConnect_progress (aton_addr inet_addr ip) port p s Hk) as (c & Ec & Ht & Hw & Ho & w & En & Hcn).
  injection Ea as Ea. set (o0 := mkCO _ _ _ _ _) in Ea. assert (heap a !! p = Some o0) as Ha by (subst a; apply lookup_insert_eq).
  assert (on_conn p (doConnect (aton_addr inet_addr ip) port CONNECT_TIMEOUT) a = (Ok tt, store_conn p o0 c a)) as E1.
  { apply on_conn_run; [done|]. subst a. exact Ec. }
  destruct (on_conn_but p _ _ _ _ Hb E1) as [Hb1 _]. set (a1 := store_conn p o0 c a) in *.
  set (o1 := mkCO (co_id o0) (co_serialId o0) (co_peerIp o0) (co_peerPort o0) c).
  assert (heap a1 !! p = Some o1) as Ha1 by apply lookup_insert_eq.
  assert (on_conn p (on_net setnodelay) a1 = (Ok tt, store_conn p o1 (upd_net w (load_conn a1 c)) a1)) as E2.
  { apply on_conn_run; [done|]. unfold on_net. cbn [co_conn o1 net load_conn]. by rewrite En. }
  destruct (on_conn_but p _ _ _ _ Hb1 E2) as [Hb2 _]. set (c2 := upd_net w (load_conn a1 c)) in *.
  set (a2 := store_conn p o1 c2 a1) in *.
  set (o2 := mkCO (co_id o1) (co_serialId o1) (co_peerIp o1) (co_peerPort o1) c2).
  assert (heap a2 !! p = Some o2) as Ha2 by apply lookup_insert_eq.
  assert (∃ c3, setTimeout CONN_TIMEOUT (load_conn a2 c2) = (Ok tt, c3) ∧ timers c3 = timers c ++ [CONN_TIMEOUT] ∧
    waiting c3 ∧ output c3 = new_BlockBuffer) as (c3 & E3 & Ht3 & Hw3 & Ho3).
  { eexists. split; [reflexivity|]. destruct Hw. split_and!; [done|by split|exact Ho]. }
  apply (on_conn_run p _ a2 o2) in E3; [|done].
  destruct (on_conn_but p _ _ _ _ Hb2 E3) as [Hb3 _].
  exists a2, (store_conn p o2 c3 a2). eexists. split_and!.
  - unfold new_client. erewrite bind_Ok by (by rewrite <- Ea). fold p.
    unfold or_cleanup, mbind, M_bind. by rewrite E1, E2.
  - done.
  - done.
  - apply lookup_insert_eq.
  - done.
  - done.
  - cbn. rewrite Ht3, Ht. cbn.
    pose proof (addTimer_pending CONNECT_TIMEOUT (HConn p) (loop s)) as P1. rewrite Hp in P1.
    pose proof (addTimer_pending CONN_TIMEOUT (HConn p) (Timer.addTimer CONNECT_TIMEOUT (HConn p) (loop s))) as P2.
    rewrite P1 in P2. cbn [expire] in P2. subst a. cbn. rewrite P2.
    unfold Timer.addTimer. by destruct (unlink _ _ _).
  - by subst a.
  - by subst a.
  - by subst a.
  - subst a. cbn. by rewrite !insert_insert_eq, delete_insert_eq.
  - by subst a.
Qed.

Lemma createClient_progress ip port s :
  mgr_wf s → cid s + 1 < 2 ^ 32 → in_progress (kernel (next s)) → pending (HConn (next s)) (loop s) = [] →
  ∃ s' o, createClientSideConn inet_addr kernel junk_time true ip port s = (Ok (Some (next s)), s') ∧ mgr_wf s' ∧
    heap s' !! next s = Some o ∧ co_id o = cid s + 1 ∧ waiting (co_conn o) ∧ content (output (co_conn o)) = [] ∧
    pending (HConn (next s)) (loop s') = [mkNode CONN_TIMEOUT (_elapsed (loop s)) (HConn (next s))] ∧
    _sid2cid s' = _sid2cid s.
Proof.
  intros Hs Hc Hk Hp. set (p := next s) in *.
  destruct (new_client_progress ip port s Hs Hk Hp) as (s1 & s2 & o & E1 & E2 & Hb & Ho & Hw & Hout & Hpd & Hc2 & Hm & Hsid & Hd & Hn).
  fold p in E1, E2, Hb, Ho, Hpd, Hd.
  destruct (onConnCreate_run p s2 Hb) as (s3 & o3 & E3 & Hs3 & Hc3 & Hm3 & Ho3 & Hid & Hl3 & _ & Hsid3 & Hn3 & (o0 & Ho0 & Hco) & Hd3);
    [lia|]. assert (o0 = o) as -> by congruence.
  assert (on_conn p addEvent_connecting s3 = (Ok tt, store_conn p o3 (mkConn (net (co_conn o)) (input (co_conn o))
    (output (co_conn o)) (g_stats s3) (input_encrypted (co_conn o)) (output_encrypted (co_conn o)) (g_writeBuf s3)
    (bEnable (co_conn o)) (_timeout (co_conn o)) (timers (co_conn o)) (events (co_conn o) ++ [(0, EVENT_RW)])
    (notices (co_conn o))) s3)) as E4.
  { apply on_conn_run; [done|]. rewrite Hco. unfold addEvent_connecting. erewrite bind_Ok by reflexivity.
    cbn [net load_conn]. by rewrite (wt_connecting _ Hw). }
  destruct (keeps_on_conn p addEvent_connecting s3 _ _ Hs3 ltac:(lia) E4) as [Hs4 _].
  eexists _, _. split_and!.
  - unfold createClientSideConn, try_catch, mbind, M_bind. by rewrite E1, E2, E3, E4.
  - exact Hs4.
  - apply lookup_insert_eq.
  - cbn. lia.
  - destruct Hw. by split.
  - cbn. by rewrite Hout.
  - cbn. rewrite Hco, drop_all. cbn. by rewrite Hl3.
  - cbn. congruence.
Qed.

Lemma genSId_value a port : in_u 32 a → in_u 16 port → genSId a port = a * 2 ^ 32 + port.
Proof.
  intros Ha Hp. unfold genSId. rewrite !(uwrap_small 32), (uwrap_small 16) by done.
  rewrite uwrap_small.
  - rewrite lor_shiftl_add by (unfold in_u in *; lia). lia.
  - rewrite Z.shiftl_mul_pow2 by lia. unfold in_u in *. lia.
Qed.

Lemma getAddressFromSId_genSId a port : in_u 32 a → in_u 16 port → getAddressFromSId (genSId a port) = (a, port).
Proof.
  intros Ha Hp. rewrite genSId_value by done. unfold getAddressFromSId. f_equal.
  - rewrite Z.shiftr_div_pow2, Z.div_add_l by lia. unfold in_u in *. rewrite Z.div_small, Z.add_0_r by lia.
    by apply uwrap_small.
  - unfold uwrap. replace (a * 2 ^ 32 + port) with (port + a * 2 ^ 16 * 2 ^ 16) by lia.
    rewrite Z.mod_add by lia. by apply Z.mod_small.
Qed.

(** [addr] is the text of an address with a host the C library can read. *)
Record names (addr ip : string) (a port : Z) : Prop := {
  nm_parse : parse_address addr = Ok (ip, port);
  nm_addr : addr ≠ EmptyString;
  nm_ip : ip ≠ EmptyString;
  nm_port : 0 < port <= 65535;
  nm_aton : aton_addr inet_addr ip = a;
  nm_range : in_u 32 a ∧ a ≠ 2 ^ 32 - 1;
}.

Lemma sendTo_dispatch addr ip a port u obj s :
  names addr ip a port →
  sendTo h junk inet_addr inet_ntoa kernel junk_time true addr u obj s =
    (dispatch h junk inet_addr inet_ntoa kernel junk_time true (genSId a port) a port u obj ;; mret tt) s.
Proof.
  intros [Hp Had Hip Hport Ha [Hr _]]. unfold sendTo. apply str_empty_false in Had as ->.
  unfold lift_res. rewrite Hp. erewrite bind_Ok by reflexivity. cbn [fst snd].
  apply str_empty_false in Hip as ->. rewrite Ha.
  destruct (Z.leb_spec port 0); [lia|]. destruct (Z.ltb_spec 65535 port); [lia|]. cbn [orb].
  unfold route. by rewrite getAddressFromSId_genSId by (done || (unfold in_u; lia)).
Qed.

Lemma sendTo_first addr ip a port u obj bd s :
  names addr ip a port → mgr_wf s → cid s + 1 < 2 ^ 32 → in_progress (kernel (next s)) →
  pending (HConn (next s)) (loop s) = [] → _sid2cid s !! genSId a port = None →
  heap_avail h → in_u 8 u → appends_body obj bd → 9 + zlen bd <= @maxsize PackBlock → 9 + zlen bd <= @maxsize SockBlock →
  ∃ s' o, sendTo h junk inet_addr inet_ntoa kernel junk_time true addr u obj s = (Ok tt, s') ∧
    heap s' !! next s = Some o ∧ waiting (co_conn o) ∧ content (output (co_conn o)) = json_frame (2 ^ 32 - 1) u bd ∧
    _sid2cid s' !! genSId a port = Some (co_id o) ∧ connMap s' !! co_id o = Some (Some (next s)) ∧
    pending (HConn (next s)) (loop s') = [mkNode CONN_TIMEOUT (_elapsed (loop s)) (HConn (next s))].
Proof.
  intros Hn Hs Hc Hk Hp Hsid Hh Hu Hm Hsz Hsz2. rewrite (sendTo_dispatch addr ip a port) by done.
  destruct (JsonSender_sends (g_stats s) u obj bd Hh Hu Hm Hsz) as (msg & Em & Eb).
  destruct (createClient_progress (addr_ntoa inet_ntoa a) port s Hs Hc Hk Hp)
    as (s1 & o & E1 & Hs1 & Ho & Hid & Hw & Hout & Hpd & Hsid1).
  assert (dispatch h junk inet_addr inet_ntoa kernel junk_time true (genSId a port) a port u obj s =
    (on_conn (next s) (send_conn h msg) ;; mret true) (with_sids (insert (genSId a port) (co_id o)) s1)) as Ed.
  { unfold dispatch. erewrite bind_Ok by reflexivity. unfold lift_res. rewrite Em. erewrite bind_Ok by reflexivity.
    rewrite Hsid.
    assert (connectServer inet_addr inet_ntoa kernel junk_time true (genSId a port) a port s =
      (Ok (Some (next s)), with_sids (insert (genSId a port) (co_id o)) s1)) as Ec.
    { unfold connectServer. destruct Hn as [_ _ _ Hport _ [Hr Hne]].
      rewrite (proj2 (Z.eqb_neq (genSId a port) (2 ^ 64 - 1)));
        [|rewrite genSId_value by (done || (unfold in_u; lia)); unfold in_u in Hr; lia].
      erewrite bind_Ok by exact E1. unfold deref, mbind, M_bind. by rewrite Ho. }
    by erewrite bind_Ok by exact Ec. }
  set (s2 := with_sids (insert (genSId a port) (co_id o)) s1) in *.
  destruct (send_waiting (load_conn s2 (co_conn o)) msg (json_frame (2 ^ 32 - 1) u bd))
    as (c & Es & Hwc & Hcc & Htc & _); [destruct Hw; by split|done|done| |].
  { cbn [output load_conn]. rewrite Hout, zlen_nil, zlen_json_frame. lia. }
  apply (on_conn_run (next s) _ s2 o) in Es; [|done].
  eexists _, _. split_and!.
  - unfold mbind at 1, M_bind. rewrite Ed. unfold mbind, M_bind. by rewrite Es.
  - apply lookup_insert_eq.
  - done.
  - cbn. rewrite Hcc. cbn [output load_conn]. by rewrite Hout.
  - cbn. apply lookup_insert_eq.
  - cbn. by apply (wf_heap _ Hs1).
  - cbn. rewrite Htc. cbn [timers load_conn]. by rewrite drop_all.
Qed.

Lemma sendTo_again addr ip a port u obj bd p o s :
  names addr ip a port → _sid2cid s !! genSId a port = Some (co_id o) → connMap s !! co_id o = Some (Some p) →
  heap s !! p = Some o → waiting (co_conn o) → heap_avail h → in_u 8 u → appends_body obj bd →
  9 + zlen bd <= @maxsize PackBlock → zlen (content (output (co_conn o))) + 9 + zlen bd <= @maxsize SockBlock →
  ∃ s' o', sendTo h junk inet_addr inet_ntoa kernel junk_time true addr u obj s = (Ok tt, s') ∧
    heap s' = <[p := o']> (heap s) ∧
    content (output (co_conn o')) = content (output (co_conn o)) ++ json_frame (2 ^ 32 - 1) u bd.
Proof.
  intros Hn Hsid Hcm Ho Hw Hh Hu Hm Hsz Hsz2. rewrite (sendTo_dispatch addr ip a port) by done.
  destruct (JsonSender_sends (g_stats s) u obj bd Hh Hu Hm Hsz) as (msg & Em & Eb).
  destruct (send_waiting (load_conn s (co_conn o)) msg (json_frame (2 ^ 32 - 1) u bd))
    as (c & Es & Hwc & Hcc & Htc & _); [destruct Hw; by split|done|done| |].
  { cbn [output load_conn]. rewrite zlen_json_frame. lia. }
  apply (on_conn_run p _ s o) in Es; [|done].
  exists (store_conn p o c s), (mkCO (co_id o) (co_serialId o) (co_peerIp o) (co_peerPort o) c).
  split_and!; [|reflexivity|exact Hcc].
  unfold dispatch, mbind, M_bind. unfold get, lift_res. rewrite Em. rewrite Hsid.
  unfold dispatchById, catch_std, try_catch, mbind, M_bind, get. rewrite Hcm. by rewrite Es.
Qed.

(** The first message for an address opens one connection to it and waits in its
    output buffer as one frame; the next message for the address joins it there, in order,
    without another connection. The two-second timer of the connection attempt is gone:
    the connection's only timer is the ten-minute one. *)
Lemma sendTo_one_connection addr ip a port u1 u2 obj1 obj2 bd1 bd2 s :
  names addr ip a port → mgr_wf s → cid s + 1 < 2 ^ 32 → in_progress (kernel (next s)) →
  pending (HConn (next s)) (loop s) = [] → _sid2cid s !! genSId a port = None →
  heap_avail h → in_u 8 u1 → in_u 8 u2 → appends_body obj1 bd1 → appends_body obj2 bd2 →
  9 + zlen bd1 <= @maxsize PackBlock → 9 + zlen bd2 <= @maxsize PackBlock →
  18 + zlen bd1 + zlen bd2 <= @maxsize SockBlock →
  ∃ s1 s2 o, sendTo h junk inet_addr inet_ntoa kernel junk_time true addr u1 obj1 s = (Ok tt, s1) ∧
    pending (HConn (next s)) (loop s1) = [mkNode CONN_TIMEOUT (_elapsed (loop s)) (HConn (next s))] ∧
    sendTo h junk inet_addr inet_ntoa kernel junk_time true addr u2 obj2 s1 = (Ok tt, s2) ∧
    dom (heap s2) = dom (heap s1) ∧ heap s2 !! next s = Some o ∧
    content (output (co_conn o)) = json_frame (2 ^ 32 - 1) u1 bd1 ++ json_frame (2 ^ 32 - 1) u2 bd2.
Proof.
  intros Hn Hs Hc Hk Hp Hsid Hh Hu1 Hu2 Hm1 Hm2 Hsz1 Hsz2 Hsz. pose proof (zlen_nonneg bd2).
  destruct (sendTo_first addr ip a port u1 obj1 bd1 s) as (s1 & o & E1 & Ho & Hw & Hout & Hsid1 & Hcm & Hpd); [done..|lia|].
  destruct (sendTo_again addr ip a port u2 obj2 bd2 (next s) o s1) as (s2 & o2 & E2 & Eh & Ec); [done..| |].
  { rewrite Hout, zlen_json_frame. lia. }
  exists s1, s2, o2. split_and!; [done|done|done| |by rewrite Eh, lookup_insert_eq|congruence].
  rewrite Eh. apply dom_insert_lookup_L. eauto.
Qed.

(** A text without a colon: the port is read from the beginning of the host. *)
Lemma parse_without_colon addr : find_colon addr = None → parse_address addr = (port ← stoi addr; mret (addr, port)).
Proof. intros E. unfold parse_address. by rewrite E. Qed.

End invariant.

(** ** Sending to a set of connections *)

Section sets.
Context (h : Heap) (is_writer : bool).

(** [dispatchByIds] compares an id with the number of connections: in every manager
    with an open connection, and without a NULL it has added itself, there is one that it
    refuses, and sends nothing to. *)
Lemma dispatchByIds_misses_open s msg bytes :
  mgr_wf is_writer s → map_Forall (λ _ c, is_Some c) (connMap s) → connMap s ≠ ∅ → (send_bytes h msg).1 = Ok bytes →
  ∃ i p, connMap s !! i = Some (Some p) ∧ dispatchByIds h [i] msg (2 ^ 32 - 1) s = (Ok false, s).
Proof.
  intros Hs Hnull Hne Hb. set (n := size (connMap s)).
  assert (∃ i c, connMap s !! i = Some c ∧ Z.of_nat n <= i) as (i & c & Hi & Hn).
  { destruct (decide (Forall (λ i, i < Z.of_nat n) (elements (dom (connMap s))))) as [Hall|Hex].
    - exfalso. assert (dom (connMap s) ⊆ list_to_set (C:=gset Z) (seqZ 1 (Z.of_nat n - 1))) as Hsub.
      { intros i Hi. apply elem_of_list_to_set, elem_of_seqZ.
        rewrite Forall_forall in Hall. specialize (Hall i).
        rewrite <- list_elem_of_In, elem_of_elements in Hall. specialize (Hall Hi).
        apply elem_of_dom in Hi as [c Hi]. pose proof (Hnull _ _ Hi). apply (wf_ids _ _ Hs) in Hi as [? Hpos].
        specialize (Hpos ltac:(done)). lia. }
      apply subseteq_size in Hsub. rewrite size_dom, size_list_to_set, length_seqZ in Hsub by apply NoDup_seqZ.
      fold n in Hsub. assert (n ≠ 0%nat) by (by apply map_size_non_empty_iff). lia.
    - apply not_Forall_Exists in Hex; [|apply _]. apply Exists_exists in Hex as (i & Hi & Hn).
      apply list_elem_of_In, elem_of_elements, elem_of_dom in Hi as [c Hi]. exists i, c. split; [done|]. cbn in Hn. lia. }
  destruct (Hnull _ _ Hi) as [p ->]. exists i, p. split; [done|].
  unfold dispatchByIds, lift_res. erewrite bind_Ok by (by rewrite Hb). cbn [dispatch_ids].
  rewrite Z.eqb_refl. cbn [negb andb]. erewrite bind_Ok by reflexivity. fold n.
  by rewrite (proj2 (Z.ltb_ge i (Z.of_nat n))).
Qed.

End sets.

(** ** Witnesses *)

Definition wprogress : list SysRes :=
  [mkRes 7 0 0 0 []; mkRes 0 0 0 0 []; mkRes 2 0 0 0 []; mkRes 0 0 0 0 []; mkRes (-1) EINPROGRESS 0 0 [];
   mkRes 0 0 0 0 []; mkRes 0 0 0 0 []; mkRes 0 0 0 0 []].
(** 10.0.0.1 in network order. *)
Definition winet : string → Z := λ _, 16777226.
Definition wntoa : Z → string := λ _, "10.0.0.1"%string.
Definition waddr : string := "10.0.0.1:9090".

Lemma wprogress_in_progress p : in_progress ((λ _ : positive, wprogress) p).
Proof. eexists _, _, _, _, _, _, _. split; [reflexivity|done]. Qed.

Lemma wnames : names winet waddr "10.0.0.1" 16777226 9090.
Proof. split; try done. Qed.

Definition wmsg : Sender :=
  match JsonSender_obj wheap wjunk (mkStats 0 0) 6 whello with Ok msg => msg | Throw _ => mkSender (new_BlockBuffer, mkStats 0 0) 0 0 wjunk 0 end.
(** A handler that answers on the connection it is called for and then closes another one. *)
Definition whandler : DataHandler :=
  mkHandler 2 (λ _ k _, match k with 1%nat => Some (MAnswer 2 7 whello) | _ => Some (MErase (Some 1%positive)) end) (λ data _, zlen data).
Definition wscript2 (p : positive) : list SysRes :=
  if bool_decide (p = 1%positive) then wprogress
  else [mkRes 0 0 0 0 []; mkRes 0 0 0 0 []; mkRes 0 0 0 0 []; mkRes 2 0 0 0 [x01; x02]; mkRes 9 0 0 0 []].
Definition wlife : list mgr_op :=
  [MCall (MSendTo true waddr 4 whello); MCall (MAccept true 9 16777226 80); MCall (MDispatchByIds [0%N; 1%N] wmsg (2 ^ 32 - 1));
   MEvent 2 whandler EVENT_READ; MCall (MDelayDel (Some 2%positive)); MCall MTimer].

Lemma mgr_invariant_witness :
  mgr_wf true (run_mgr_ops wheap wjunk winet wntoa wscript2 0 true wlife new_Mgr).
Proof. apply mgr_invariant. done. Defined.

(** In that life the NULL of [dispatchByIds] stays when both connections are gone. *)
Example wlife_run (s := run_mgr_ops wheap wjunk winet wntoa wscript2 0 true wlife new_Mgr) :
  map_to_list (connMap s) = [(0, None)] ∧ size (heap s) = 0%nat.
Proof. by vm_compute. Qed.

Lemma sendTo_one_connection_witness :
  ∃ s1 s2 o, sendTo wheap wjunk winet wntoa (λ _, wprogress) 0 true waddr 4 whello new_Mgr = (Ok tt, s1) ∧
    sendTo wheap wjunk winet wntoa (λ _, wprogress) 0 true waddr 5 whello s1 = (Ok tt, s2) ∧
    heap s2 !! 1%positive = Some o ∧
    content (output (co_conn o)) =
      json_frame (2 ^ 32 - 1) 4 (bytes_of "hello") ++ json_frame (2 ^ 32 - 1) 5 (bytes_of "hello").
Proof.
  destruct (sendTo_one_connection wheap wjunk winet wntoa (λ _, wprogress) 0 true waddr "10.0.0.1" 16777226 9090
    4 5 whello whello (bytes_of "hello") (bytes_of "hello") new_Mgr) as (s1 & s2 & o & E1 & _ & E2 & _ & Ho & Hc);
    [apply wnames|apply new_Mgr_wf|reflexivity|apply (wprogress_in_progress 1)|reflexivity|reflexivity|
     intros n; reflexivity|split; [discriminate|reflexivity]|split; [discriminate|reflexivity]|
     intros h'; apply appends_write|intros h'; apply appends_write|vm_compute; discriminate|vm_compute; discriminate|
     vm_compute; discriminate|].
  exists s1, s2, o. split; [exact E1|]. split; [exact E2|]. split; [exact Ho|exact Hc].
Defined.

Definition wcreate : M Mgr (option positive) :=
  createClientSideConn winet (λ _, wprogress) 0 true "10.0.0.1" 9090.
Definition wmgr : Mgr := (wcreate new_Mgr).2.

Lemma wmgr_wf : mgr_wf true wmgr.
Proof.
  destruct (keeps_createClient winet (λ _, wprogress) 0 true true "10.0.0.1" 9090 new_Mgr _ _
    (new_Mgr_wf true) ltac:(done) (surjective_pairing (wcreate new_Mgr))) as [Hw _]. exact Hw.
Qed.

Definition wobj : ConnObj := match heap wmgr !! 1%positive with Some o => o | None => mkCO 0 0 0 0 (wconn []) end.

Lemma closed_client_dangles_witness :
  ∃ s1 s2, conn_event true 1 (tcp_doEvent wheap (λ _, mret 0) EVENT_WRITE) wmgr = (Ok tt, s1) ∧
    conn_event true 1 (tcp_doEvent wheap (λ _, mret 0) EVENT_READ) s1 = (Ok tt, s2) ∧
    heap s2 !! 1%positive = None ∧ head (checkTimer 500 (loop s2)).1 = Some (HConn 1).
Proof.
  destruct (closed_client_dangles wheap true (λ _, mret 0) 1 wobj (mkNode CONN_TIMEOUT 0 (HConn 1))
    (mkRes 0 0 0 0 []) (mkRes 0 0 0 0 []) [] wmgr wmgr_wf) as (s1 & s2 & E1 & E2 & Hn & Hd);
    [vm_compute; reflexivity..|discriminate|reflexivity|vm_compute; reflexivity|vm_compute; reflexivity| |
     vm_compute; reflexivity|].
  { vm_compute. repeat constructor; discriminate. }
  exists s1, s2. split; [exact E1|]. split; [exact E2|]. split; [exact Hn|]. apply Hd. split; [discriminate|reflexivity].
Defined.

Lemma dispatchByIds_misses_open_witness :
  ∃ i p, connMap wmgr !! i = Some (Some p) ∧
    ∃ msg, JsonSender_obj wheap wjunk (mkStats 0 0) 6 whello = Ok msg ∧
      dispatchByIds wheap [i] msg (2 ^ 32 - 1) wmgr = (Ok false, wmgr).
Proof.
  destruct (JsonSender_sends wheap wjunk (mkStats 0 0) 6 whello (bytes_of "hello")) as (msg & Em & Eb);
    [intros n; reflexivity|split; [discriminate|reflexivity]|intros h'; apply appends_write|vm_compute; discriminate|].
  destruct (dispatchByIds_misses_open wheap true wmgr msg (json_frame (2 ^ 32 - 1) 6 (bytes_of "hello")) wmgr_wf) as (i & p & Hi & E);
    [by apply (bool_decide_unpack _); vm_compute| |exact Eb|exists i, p; split; [exact Hi|]; exists msg; split; [exact Em|exact E]].
  intros Hx. apply (f_equal (λ m, m !! 1)) in Hx. vm_compute in Hx. discriminate.
Defined.

(** An address without a port is given the number its text begins with. *)
Example parse_no_port : parse_address "10.0.0.1" = Ok ("10.0.0.1"%string, 10).
Proof. reflexivity. Qed.
Example parse_host_name : parse_address "node1" = Throw InvalidArgument.
Proof. reflexivity. Qed.
