(* ===== verification/Redis.v ===== *)
(** The Redis client: cache/RedisClient.h and cache/RedisClient.cpp.

    hiredis and the server behind it are not part of the repository: class [Hiredis]
    has the calls the client makes, on a state it keeps to itself, and class
    [RedisLaws] the documented behaviour of the server the client relies on.  The
    model counts the reply objects and the contexts that were handed out and not
    freed yet. *)
From S2P Require Import Prelude Cnum.
From stdpp Require Import gmap strings.
From Stdlib Require Import Lia.
#[local] Open Scope string_scope.
Open Scope Z_scope.

#[warnings="-register-all"]
Inductive reply :=
  | RStatus (s : string)
  | RError (s : string)
  | RInteger (n : Z)
  | RNil
  | RString (s : string)
  | RArray (l : list reply).

Inductive RedisStatus :=
  kStatusOK | kStatusConnErr | kStatusProtoErr | kStatusKeyExistErr | kStatusUndefineErr.

#[global] Instance RedisStatus_eq_dec : EqDecision RedisStatus.
Proof. solve_decision. Defined.

Record RedisConf := mkConf { _host : string; _port : Z; _passwd : string; _timeout : Z }.

Definition Endpoint : Type := string * Z.
Definition conf_server (c : RedisConf) : Endpoint := (_host c, _port c).

(** ** hiredis *)

Class Hiredis := {
  rstate : Type;                (** everything behind the library: sockets and servers *)
  rctx : Type;                  (** [redisContext *], when not NULL *)
  redisConnectWithTimeout : string → Z → Z → rstate → option rctx * rstate;
  redisErr : rctx → rstate → bool;
  redisSetTimeout : rctx → Z → rstate → rstate;
  redisFree : rctx → rstate → rstate;
  (** one command, as the list of its arguments; [None] is a NULL reply *)
  redisCommandArgv : rctx → list string → rstate → option reply * rstate;
  (** the arguments hiredis makes of a format string that has no conversions to fill *)
  redisFormat : string → list string;
}.

Section client.
Context `{Hiredis}.

Record RWorld := mkRW {
  rw_state : rstate;
  rw_replies : Z;       (** replies handed out and not freed *)
  rw_contexts : Z;      (** contexts handed out and not freed *)
}.

Record RedisClient := mkRC { _conf : RedisConf; _context : option rctx }.

Definition RC : Type := RedisClient * RWorld.

Definition new_RedisClient (conf : RedisConf) : RedisClient := mkRC conf None.

Definition IsConnected (c : RedisClient) : bool := bool_decide (is_Some (_context c)).

Definition set_context (cx : option rctx) : M RC unit := modify (λ s, (mkRC (_conf s.1) cx, s.2)).
Definition in_state (f : rstate → rstate) : M RC unit := modify (λ s,
  (s.1, mkRW (f (rw_state s.2)) (rw_replies s.2) (rw_contexts s.2))).

(** [Disconnect]. *)
Definition Disconnect : M RC unit :=
  c ← gets (λ s, _context s.1);
  match c with
  | None => mret tt
  | Some cx =>
      modify (λ s, (s.1, mkRW (redisFree cx (rw_state s.2)) (rw_replies s.2) (rw_contexts s.2 - 1))) ;;
      set_context None
  end.

(** [freeReplyObject]. *)
Definition freeReply : M RC unit := modify (λ s,
  (s.1, mkRW (rw_state s.2) (rw_replies s.2 - 1) (rw_contexts s.2))).

(** [redisCommand] on the client's context; without one the library reads through NULL. *)
Definition command (args : list string) : M RC (option reply) := λ s,
  match _context s.1 with
  | None => (Throw Undefined, s)
  | Some cx =>
      let (r, st) := redisCommandArgv cx args (rw_state s.2) in
      (Ok r, (s.1, mkRW st (match r with Some _ => rw_replies s.2 + 1 | None => rw_replies s.2 end)
                        (rw_contexts s.2)))
  end.

(** The shape every operation shares: [kStatusConnErr] without a context; a NULL
    reply drops the context. *)
Definition request {A} (args : list string) (fail : A) (onReply : reply → M RC A) : M RC A :=
  c ← gets (λ s, _context s.1);
  match c with
  | None => mret fail
  | Some _ =>
      r ← command args;
      match r with
      | None => Disconnect ;; mret fail
      | Some r => onReply r
      end
  end.

Definition ssdb_ok (item : reply) : bool :=
  match item with
  | RString s =>
      bool_decide (c_string s = "ok") || bool_decide (c_string s = "OK") || bool_decide (c_string s = "1")
  | _ => false
  end.

(** What [Connect] makes of the reply to AUTH. *)
Definition auth_result (r : reply) : string :=
  match r with
  | RStatus s => c_string s
  | RArray items => if existsb ssdb_ok items then "OK" else EmptyString
  | _ => EmptyString
  end.

(** The AUTH half of [Connect]; on a refused password the code overwrites the
    characters 1 to 3 of a copy, which for a password of three characters is the
    terminator. *)
Definition authenticate : M RC RedisStatus :=
  conf ← gets (λ s, _conf s.1);
  if 2 <? ssize (_passwd conf) then
    (r ← command (redisFormat (c_string ("AUTH " +:+ _passwd conf)));
     match r with
     | None => Disconnect ;; mret kStatusConnErr
     | Some r =>
         freeReply ;;
         if bool_decide (auth_result r = "OK") then mret kStatusOK
         else if ssize (_passwd conf) <=? 3 then throw Undefined
         else mret kStatusProtoErr
     end)
  else mret kStatusOK.

(** The first half of [Connect]: a fresh context in place of the old one. *)
Definition reopen : M RC unit :=
  Disconnect ;;
  modify (λ s,
    let conf := _conf s.1 in
    let (cx, st) := redisConnectWithTimeout (c_string (_host conf)) (_port conf) (_timeout conf) (rw_state s.2) in
    (mkRC conf cx, mkRW st (rw_replies s.2)
      (match cx with Some _ => rw_contexts s.2 + 1 | None => rw_contexts s.2 end))).

Definition Connect : M RC RedisStatus :=
  reopen ;;
  s ← get;
  match _context s.1 with
  | None => throw Undefined                (* redisSetTimeout on NULL *)
  | Some cx =>
      if redisErr cx (rw_state s.2) then (Disconnect ;; mret kStatusConnErr)
      else (in_state (redisSetTimeout cx (_timeout (_conf s.1))) ;; authenticate)
  end.

Definition Init (conf : RedisConf) : M RC bool :=
  modify (λ s, (mkRC conf (_context s.1), s.2)) ;;
  r ← Connect;
  mret (bool_decide (r = kStatusOK)).

(** [reply->str == "PONG"] compares two pointers, never equal. *)
Definition Ping : M RC bool :=
  request ["ping"] false (λ r, freeReply ;; mret false).

Definition Get (key value : string) : M RC (RedisStatus * string) :=
  c ← gets (λ s, _context s.1);
  if bool_decide (c = None) then mret (kStatusConnErr, value)
  else if str_empty key then mret (kStatusProtoErr, value)
  else request ["GET"; key] (kStatusConnErr, value) (λ r,
    freeReply ;;
    mret (kStatusOK, match r with RString s => s | _ => value end)).

(** The arguments of [Set]: with a duration, EX; [x] 1 is XX and 2 is NX. *)
Definition set_args (key value : string) (duration x : Z) : list string :=
  ["SET"; key; value] ++
  (if duration =? 0 then [] else ["EX"; dec_string duration]) ++
  (if x =? 0 then [] else if x =? 1 then ["XX"] else ["NX"]).

Definition SetKey (key value : string) (duration x : Z) : M RC RedisStatus :=
  c ← gets (λ s, _context s.1);
  if bool_decide (c = None) then mret kStatusConnErr
  else if (2 <? x) || str_empty key then mret kStatusProtoErr
  else request (set_args key value duration x) kStatusConnErr (λ r,
    match r with
    | RNil =>
        if x =? 2 then mret kStatusKeyExistErr   (* returns before freeReplyObject *)
        else (freeReply ;; mret kStatusUndefineErr)
    | RStatus s =>
        freeReply ;;
        mret (if bool_decide (c_string s = "OK") then kStatusOK else kStatusUndefineErr)
    | _ => freeReply ;; mret kStatusUndefineErr
    end).

Definition Delete (key : string) : M RC RedisStatus :=
  c ← gets (λ s, _context s.1);
  if bool_decide (c = None) then mret kStatusConnErr
  else if str_empty key then mret kStatusProtoErr
  else request ["DEL"; key] kStatusConnErr (λ _, freeReply ;; mret kStatusOK).

Definition IncrBy (key : string) (increment rvalue : Z) : M RC (RedisStatus * Z) :=
  c ← gets (λ s, _context s.1);
  if bool_decide (c = None) then mret (kStatusConnErr, rvalue)
  else if str_empty key then mret (kStatusProtoErr, rvalue)
  else request ["INCRBY"; key; dec_string increment] (kStatusConnErr, rvalue) (λ r,
    freeReply ;;
    mret (match r with RInteger n => (kStatusOK, n) | _ => (kStatusUndefineErr, rvalue) end)).

Definition LPop (key value : string) : M RC (RedisStatus * string) :=
  request ["LPOP"; key] (kStatusConnErr, value) (λ r,
    freeReply ;;
    mret (kStatusOK, match r with RString s => s | _ => value end)).

Definition RPush (key : string) (vals : list string) : M RC RedisStatus :=
  c ← gets (λ s, _context s.1);
  if bool_decide (c = None) then mret kStatusConnErr
  else if str_empty key || bool_decide (vals = []) then mret kStatusProtoErr
  else request ("RPUSH" :: key :: vals) kStatusConnErr (λ r,
    freeReply ;;
    mret (match r with RInteger _ => kStatusOK | _ => kStatusUndefineErr end)).

(** The string items of an array, appended to [members]. *)
Definition push_items (members : list string) (items : list reply) : list string :=
  members ++ omap (λ i, match i with RString s => Some s | _ => None end) items.

(** The array half of [LRange] and [SMEMBERS]. *)
Definition read_array (members : list string) (r : reply) : M RC (RedisStatus * list string) :=
  freeReply ;;
  mret (match r with
        | RArray items => (kStatusOK, push_items members items)
        | _ => (kStatusUndefineErr, members)
        end).

Definition LRange (key : string) (start stop : Z) (members : list string) : M RC (RedisStatus * list string) :=
  request ["LRANGE"; key; dec_string start; dec_string stop] (kStatusConnErr, members) (read_array members).

Definition SADD (key value : string) : M RC RedisStatus :=
  request ["SADD"; key; value] kStatusConnErr (λ r,
    freeReply ;;
    mret (match r with RInteger _ => kStatusOK | _ => kStatusUndefineErr end)).

Definition SMEMBERS (key : string) (members : list string) : M RC (RedisStatus * list string) :=
  request ["SMEMBERS"; key] (kStatusConnErr, members) (read_array members).

Definition Exec (cmd msg : string) : M RC (RedisStatus * string) :=
  request (redisFormat (c_string cmd)) (kStatusConnErr, msg) (λ r,
    freeReply ;;
    mret (match r with
          | RError s => (kStatusUndefineErr, c_string s)
          | RString s => (kStatusOK, c_string s)
          | _ => (kStatusOK, "OK")
          end)).

End client.

(** ** What the operations allocate and free *)

Section accounting.
Context `{Hiredis}.

Definition held (c : RedisClient) : Z := match _context c with Some _ => 1 | None => 0 end.

(** [m] gives back every reply it gets, and the only context that stays open is the
    client's own. *)
Definition balanced {A} (m : M RC A) : Prop := ∀ s o s',
  m s = (o, s') →
  rw_replies s'.2 = rw_replies s.2 ∧
  rw_contexts s'.2 - held s'.1 = rw_contexts s.2 - held s.1.

(** [m] frees exactly one reply. *)
Definition frees_one {A} (m : M RC A) : Prop := ∀ s o s',
  m s = (o, s') →
  rw_replies s'.2 = rw_replies s.2 - 1 ∧
  rw_contexts s'.2 - held s'.1 = rw_contexts s.2 - held s.1.

Lemma balanced_ret {A} (a : A) : balanced (mret a).
Proof. by intros s o s' [= <- <-]. Qed.

Lemma balanced_throw {A} e : balanced (throw e : M RC A).
Proof. by intros s o s' [= <- <-]. Qed.

Lemma balanced_gets {A} (f : RC → A) : balanced (gets f).
Proof. by intros s o s' [= <- <-]. Qed.

Lemma balanced_bind {A B} (m : M RC A) (f : A → M RC B) :
  balanced m → (∀ a, balanced (f a)) → balanced (m ≫= f).
Proof.
  intros Hm Hf s o s'. unfold mbind, M_bind. destruct (m s) as [[a|e] s1] eqn:E.
  - intros E2. apply Hm in E as [<- <-]. by apply (Hf a) in E2.
  - intros [= <- <-]. by apply Hm in E.
Qed.

Lemma frees_one_bind {A B} (m : M RC A) (f : A → M RC B) :
  frees_one m → (∀ a, balanced (f a)) → frees_one (m ≫= f).
Proof.
  intros Hm Hf s o s'. unfold mbind, M_bind. destruct (m s) as [[a|e] s1] eqn:E.
  - intros E2. apply Hm in E as [<- <-]. by apply (Hf a) in E2.
  - intros [= <- <-]. by apply Hm in E.
Qed.

Lemma frees_one_freeReply : frees_one freeReply.
Proof. by intros s o s' [= <- <-]. Qed.

Lemma balanced_Disconnect : balanced Disconnect.
Proof.
  intros [[conf [cx|]] [st n k]] o s'; cbn; intros [= <- <-]; cbn; split; lia.
Qed.

Lemma command_fail_state args s o s' :
  command args s = (o, s') → o = Ok None ∨ (∃ e, o = Throw e) → rw_replies s'.2 = rw_replies s.2 ∧
  rw_contexts s'.2 - held s'.1 = rw_contexts s.2 - held s.1.
Proof.
  destruct s as [[conf [cx|]] [st n k]]; cbn.
  - destruct (redisCommandArgv cx args st) as [[r|] st']; intros [= <- <-]; [|done].
    by intros [?|[e ?]].
  - by intros [= <- <-].
Qed.

(** A reply that is handled by code that frees it is no leak. *)
Lemma balanced_command {A} args (f : option reply → M RC A) :
  balanced (f None) → (∀ r, frees_one (f (Some r))) → balanced (command args ≫= f).
Proof.
  intros Hn Hs s o s'. unfold mbind, M_bind.
  destruct (command args s) as [[[r|]|e] s1] eqn:E.
  - intros E2. apply (Hs r) in E2. destruct s as [[conf [cx|]] [st n k]]; cbn in E; [|done].
    destruct (redisCommandArgv cx args st) as [[r'|] st']; [|done].
    injection E as <- <-. cbn in *. destruct E2 as [-> ->]. split; lia.
  - intros E2. apply Hn in E2 as [-> ->]. apply (command_fail_state _ _ _ _ E). by left.
  - intros [= <- <-]. apply (command_fail_state _ _ _ _ E). right. by exists e.
Qed.

Lemma balanced_request {A} args (fail : A) onReply :
  (∀ r, frees_one (onReply r)) → balanced (request args fail onReply).
Proof.
  intros Hf. apply balanced_bind; [apply balanced_gets|]. intros [cx|]; [|apply balanced_ret].
  apply balanced_command; [|done].
  apply balanced_bind; [apply balanced_Disconnect|intros; apply balanced_ret].
Qed.

End accounting.

Create HintDb fpay_balance.
#[export] Hint Resolve balanced_ret balanced_throw balanced_gets balanced_bind frees_one_bind
  frees_one_freeReply balanced_Disconnect balanced_request balanced_command : fpay_balance.

(** Decides balance from the shape of an operation. *)
Ltac solve_balanced :=
  repeat first
    [ apply balanced_bind; [solve [eauto with fpay_balance]|intros ?]
    | match goal with |- context [if ?b then _ else _] => destruct b end ];
  eauto with fpay_balance.

Section operations.
Context `{Hiredis}.

(** The operations of the client, with the values of their output arguments. *)
Inductive client_op :=
  | OpConnect | OpInit (conf : RedisConf) | OpPing
  | OpGet (k v : string) | OpSet (k v : string) (duration x : Z) | OpDelete (k : string)
  | OpIncrBy (k : string) (n r : Z) | OpLPop (k v : string) | OpRPush (k : string) (vs : list string)
  | OpLRange (k : string) (start stop : Z) (ms : list string) | OpSADD (k v : string)
  | OpSMEMBERS (k : string) (ms : list string) | OpExec (cmd msg : string).

(** One call; the result says whether it was a [Set] that reported an existing key. *)
Definition run_client (o : client_op) : M RC bool :=
  match o with
  | OpConnect => Connect ≫= λ _, mret false
  | OpInit conf => Init conf ≫= λ _, mret false
  | OpPing => Ping ≫= λ _, mret false
  | OpGet k v => Get k v ≫= λ _, mret false
  | OpSet k v d x => SetKey k v d x ≫= λ st, mret (bool_decide (st = kStatusKeyExistErr))
  | OpDelete k => Delete k ≫= λ _, mret false
  | OpIncrBy k n r => IncrBy k n r ≫= λ _, mret false
  | OpLPop k v => LPop k v ≫= λ _, mret false
  | OpRPush k vs => RPush k vs ≫= λ _, mret false
  | OpLRange k a b ms => LRange k a b ms ≫= λ _, mret false
  | OpSADD k v => SADD k v ≫= λ _, mret false
  | OpSMEMBERS k ms => SMEMBERS k ms ≫= λ _, mret false
  | OpExec c msg => Exec c msg ≫= λ _, mret false
  end.

(** The replies a call with this outcome leaves unfreed: the early return of [Set] on
    an existing key is the only one. *)
Definition kept (r : res bool) : Z := match r with Ok true => 1 | _ => 0 end.

Lemma balanced_authenticate : balanced authenticate.
Proof.
  unfold authenticate. apply balanced_bind; [eauto with fpay_balance|intros conf].
  destruct (2 <? _); [|eauto with fpay_balance].
  apply balanced_command; [eauto with fpay_balance|]. intros r.
  apply frees_one_bind; [apply frees_one_freeReply|intros _].
  destruct (bool_decide _); [eauto with fpay_balance|]. destruct (_ <=? _); eauto with fpay_balance.
Qed.

Lemma balanced_reopen : balanced reopen.
Proof.
  intros [[cf [cx|]] [st n k]] o s'; unfold reopen, Disconnect, set_context, modify, gets, mbind, M_bind; cbn;
    match goal with |- context [redisConnectWithTimeout ?a ?b ?c ?d] =>
      destruct (redisConnectWithTimeout a b c d) as [[cx'|] st'] end; cbn; intros [= <- <-]; cbn; split; lia.
Qed.

Lemma balanced_Connect : balanced Connect.
Proof.
  unfold Connect. apply balanced_bind; [apply balanced_reopen|intros _].
  apply balanced_bind; [by intros s o s' [= <- <-]|intros s].
  destruct (_context s.1) as [cx|]; [|eauto with fpay_balance].
  destruct (redisErr _ _); [eauto with fpay_balance|].
  apply balanced_bind; [by intros s1 o s' [= <- <-]|intros _; apply balanced_authenticate].
Qed.

(** [m] gives back every reply it gets but for the one its result announces, with [P]
    true of the calls that do so. *)
Definition accounts (P : Prop) (m : M RC bool) : Prop := ∀ s o s',
  m s = (o, s') →
  rw_replies s'.2 = rw_replies s.2 + kept o ∧
  rw_contexts s'.2 - held s'.1 = rw_contexts s.2 - held s.1 ∧ (kept o = 1 → P).

Lemma accounts_balanced {A} P (m : M RC A) : balanced m → accounts P (m ≫= λ _, mret false).
Proof.
  intros Hm s o s'. unfold mbind, M_bind. destruct (m s) as [[a|e] s1] eqn:E;
    intros [= <- <-]; apply Hm in E as [-> ->]; cbn; split_and!; lia.
Qed.

Lemma accounts_Set k v d x :
  accounts (x = 2) (SetKey k v d x ≫= λ st, mret (bool_decide (st = kStatusKeyExistErr))).
Proof.
  intros [[conf [cx|]] [st n c]] o s'; unfold SetKey, request, command, Disconnect, set_context,
    freeReply, modify, gets, mbind, M_bind; cbn; [|intros [= <- <-]; cbn; split_and!; lia].
  destruct (_ || _); cbn; [intros [= <- <-]; cbn; split_and!; lia|].
  match goal with |- context [redisCommandArgv cx ?args st] =>
    destruct (redisCommandArgv cx args st) as [[r|] st'] end; cbn;
    [|intros [= <- <-]; cbn; split_and!; lia].
  destruct r; cbn; [destruct (bool_decide (_ = "OK"))| | |destruct (Z.eqb_spec x 2)| |]; cbn;
    intros [= <- <-]; cbn; split_and!; lia.
Qed.

(** What a call that keeps a reply must have been. *)
Definition is_SetNX (o : client_op) : Prop := ∃ k v d, o = OpSet k v d 2.

Lemma run_client_accounts o : accounts (is_SetNX o) (run_client o).
Proof.
  destruct o; cbn [run_client]; try apply accounts_balanced.
  - apply balanced_Connect.
  - apply balanced_bind; [by intros s o s' [= <- <-]|intros _].
    apply balanced_bind; [apply balanced_Connect|eauto with fpay_balance].
  - eauto with fpay_balance.
  - unfold Get. solve_balanced.
  - intros s o s' E. apply accounts_Set in E as (? & ? & Hx). split_and!; [done..|].
    intros Hk. rewrite (Hx Hk). by eexists _, _, _.
  - unfold Delete. solve_balanced.
  - unfold IncrBy. solve_balanced.
  - eauto with fpay_balance.
  - unfold RPush. solve_balanced.
  - unfold LRange, read_array. eauto with fpay_balance.
  - eauto with fpay_balance.
  - unfold SMEMBERS, read_array. eauto with fpay_balance.
  - eauto with fpay_balance.
Qed.

End operations.

(** ** The server, as documented *)

Inductive rval := VStr (s : string) | VList (l : list string) | VSet (m : gset string).
Abbreviation db := (gmap string rval).

Inductive set_cond := Always | IfExists | IfMissing.

(** The commands the program sends; [CLRange] asks for a whole list. *)
Inductive cmd :=
  | CGet (k : string)
  | CSet (k v : string) (ex : option Z) (c : set_cond)
  | CDel (k : string)
  | CIncrBy (k : string) (n : Z)
  | CLPop (k : string)
  | CRPush (k : string) (vs : list string)
  | CLRange (k : string)
  | CSAdd (k v : string)
  | CSMembers (k : string).

Definition argv (c : cmd) : list string :=
  match c with
  | CGet k => ["GET"; k]
  | CSet k v ex c =>
      ["SET"; k; v] ++ match ex with Some d => ["EX"; dec_string d] | None => [] end
      ++ match c with Always => [] | IfExists => ["XX"] | IfMissing => ["NX"] end
  | CDel k => ["DEL"; k]
  | CIncrBy k n => ["INCRBY"; k; dec_string n]
  | CLPop k => ["LPOP"; k]
  | CRPush k vs => "RPUSH" :: k :: vs
  | CLRange k => ["LRANGE"; k; dec_string 0; dec_string (-1)]
  | CSAdd k v => ["SADD"; k; v]
  | CSMembers k => ["SMEMBERS"; k]
  end.

Definition cmd_key (c : cmd) : string :=
  match c with
  | CGet k | CSet k _ _ _ | CDel k | CIncrBy k _ | CLPop k | CRPush k _
  | CLRange k | CSAdd k _ | CSMembers k => k
  end.

(** What a key holds when read as an integer, a list, a set. *)
Definition int_value (v : option rval) : option Z :=
  match v with
  | None => Some 0
  | Some (VStr s) =>
      z ← strtoll_value s;
      if bool_decide (dec_string z = s) && bool_decide (in_s 64 z) then Some z else None
  | _ => None
  end.
Definition list_value (v : option rval) : option (list string) :=
  match v with None => Some [] | Some (VList l) => Some l | _ => None end.
Definition set_value (v : option rval) : option (gset string) :=
  match v with None => Some ∅ | Some (VSet m) => Some m | _ => None end.
(** An emptied list is no key. *)
Definition put_list (k : string) (l : list string) (m : db) : db :=
  match l with [] => delete k m | _ => <[k := VList l]> m end.

Definition is_error (r : reply) : Prop := ∃ e, r = RError e.

Definition set_allowed (c : set_cond) (v : option rval) : bool :=
  match c, v with
  | IfExists, None | IfMissing, Some _ => false
  | _, _ => true
  end.

Definition valid_expiry (ex : option Z) : bool :=
  match ex with Some d => 0 <? d | None => true end.

Definition documented (c : cmd) (m : db) (r : reply) (m' : db) : Prop :=
  match c with
  | CGet k =>
      m' = m ∧ match m !! k with
               | None => r = RNil
               | Some (VStr s) => r = RString s
               | Some _ => is_error r
               end
  | CSet k v ex c =>
      if negb (valid_expiry ex) then is_error r ∧ m' = m
      else if set_allowed c (m !! k) then r = RStatus "OK" ∧ m' = <[k := VStr v]> m
      else r = RNil ∧ m' = m
  | CDel k => (∃ n, r = RInteger n) ∧ m' = delete k m
  | CIncrBy k n =>
      match int_value (m !! k) with
      | Some z =>
          if bool_decide (in_s 64 n) && bool_decide (in_s 64 (z + n))
          then r = RInteger (z + n) ∧ m' = <[k := VStr (dec_string (z + n))]> m
          else is_error r ∧ m' = m
      | None => is_error r ∧ m' = m
      end
  | CLPop k =>
      match list_value (m !! k) with
      | Some [] => r = RNil ∧ m' = m
      | Some (x :: l) => r = RString x ∧ m' = put_list k l m
      | None => is_error r ∧ m' = m
      end
  | CRPush k vs =>
      match list_value (m !! k), vs with
      | Some l, _ :: _ => r = RInteger (zlen (l ++ vs)) ∧ m' = put_list k (l ++ vs) m
      | _, _ => is_error r ∧ m' = m
      end
  | CLRange k =>
      m' = m ∧ match list_value (m !! k) with
               | Some l => r = RArray (map RString l)
               | None => is_error r
               end
  | CSAdd k v =>
      match set_value (m !! k) with
      | Some s => (∃ n, r = RInteger n) ∧ m' = <[k := VSet ({[v]} ∪ s)]> m
      | None => is_error r ∧ m' = m
      end
  | CSMembers k =>
      m' = m ∧ match set_value (m !! k) with
               | Some s => ∃ l, l ≡ₚ elements s ∧ r = RArray (map RString l)
               | None => is_error r
               end
  end.

(** A server may also refuse a command, and then leaves its data alone. *)
Definition answered (c : cmd) (m : db) (r : reply) (m' : db) : Prop :=
  documented c m r m' ∨ (is_error r ∧ m' = m).

Lemma documented_frame c m r m' k :
  documented c m r m' → k ≠ cmd_key c → m' !! k = m !! k.
Proof.
  intros Hd Hk. destruct c; cbn in *; unfold put_list in *; repeat case_match;
    destruct_and?; subst; by rewrite ?lookup_insert_ne, ?lookup_delete_ne by congruence.
Qed.

Lemma answered_frame c m r m' k :
  answered c m r m' → k ≠ cmd_key c → m' !! k = m !! k.
Proof. intros [?|[? ->]] ?; [by eapply documented_frame|done]. Qed.

(** The documented behaviour the client relies on.  [usable] is a context whose server
    answers and does not refuse. *)
Class RedisLaws `{Hiredis} := {
  rdb : Endpoint → rstate → db;
  ctx_server : rctx → Endpoint;
  usable : rctx → rstate → Prop;
  law_connect h p t st cx st' :
    redisConnectWithTimeout h p t st = (cx, st') →
    (∀ e, rdb e st' = rdb e st) ∧ (∀ c, usable c st → usable c st') ∧
    match cx with Some c => ctx_server c = (h, p) | None => True end;
  law_timeout cx t st :
    (∀ e, rdb e (redisSetTimeout cx t st) = rdb e st) ∧
    (∀ c, usable c st → usable c (redisSetTimeout cx t st));
  law_free cx st :
    (∀ e, rdb e (redisFree cx st) = rdb e st) ∧
    (∀ c, c ≠ cx → usable c st → usable c (redisFree cx st));
  (** AUTH touches no data *)
  law_auth cx p st r st' :
    redisCommandArgv cx (redisFormat (c_string ("AUTH " +:+ p))) st = (r, st') →
    ∀ e, rdb e st' = rdb e st;
  law_answer cx c st r st' :
    redisCommandArgv cx (argv c) st = (Some r, st') →
    answered c (rdb (ctx_server cx) st) r (rdb (ctx_server cx) st');
  (** a command without a reply was carried out or not *)
  law_lost cx c st st' :
    redisCommandArgv cx (argv c) st = (None, st') →
    rdb (ctx_server cx) st' = rdb (ctx_server cx) st ∨
    ∃ r, answered c (rdb (ctx_server cx) st) r (rdb (ctx_server cx) st');
  law_other cx c st r st' e :
    redisCommandArgv cx (argv c) st = (r, st') → e ≠ ctx_server cx → rdb e st' = rdb e st;
  law_usable cx c st :
    usable cx st →
    ∃ r st', redisCommandArgv cx (argv c) st = (Some r, st') ∧
      documented c (rdb (ctx_server cx) st) r (rdb (ctx_server cx) st') ∧
      ∀ c', usable c' st → usable c' st';
}.

(** ** What the operations do to the data *)

Section laws.
Context `{RedisLaws}.

(** Nothing but key [k] of server [e] changed. *)
Definition only_key (e : Endpoint) (k : string) (st st' : rstate) : Prop :=
  ∀ e' k', e' ≠ e ∨ k' ≠ k → rdb e' st' !! k' = rdb e' st !! k'.

(** A usable context carries out command [c]: its reply, and the world behind it. *)
Definition served (cx : rctx) (c : cmd) (w : RWorld) (r : reply) (w' : RWorld) : Prop :=
  documented c (rdb (ctx_server cx) (rw_state w)) r (rdb (ctx_server cx) (rw_state w')) ∧
  only_key (ctx_server cx) (cmd_key c) (rw_state w) (rw_state w') ∧
  (∀ c', usable c' (rw_state w) → usable c' (rw_state w')).

Lemma only_key_refl e k st : only_key e k st st.
Proof. by intros e' k'. Qed.

Lemma only_key_trans e k st1 st2 st3 : only_key e k st1 st2 → only_key e k st2 st3 → only_key e k st1 st3.
Proof. intros H1 H2 e' k' Hn. by rewrite H2, H1. Qed.

Lemma same_only_key e k st st' : (∀ e, rdb e st' = rdb e st) → only_key e k st st'.
Proof. intros Hs e' k' _. by rewrite Hs. Qed.

Lemma call_only_key cx c st r st' :
  redisCommandArgv cx (argv c) st = (r, st') → only_key (ctx_server cx) (cmd_key c) st st'.
Proof.
  intros Hc e k Hn. destruct (decide (e = ctx_server cx)) as [->|He].
  - destruct Hn as [?|Hk]; [done|]. destruct r as [r|].
    + by eapply answered_frame; [apply law_answer|].
    + destruct (law_lost _ _ _ _ Hc) as [->|[r ?]]; [done|]. by eapply answered_frame.
  - by rewrite (law_other _ _ _ _ _ _ Hc He).
Qed.

(** A request on a usable context reaches [onReply]. *)
Lemma request_usable {A} conf cx c w (fail : A) onReply :
  usable cx (rw_state w) →
  ∃ r w', rw_replies w' = rw_replies w + 1 ∧ rw_contexts w' = rw_contexts w ∧ served cx c w r w' ∧
    request (argv c) fail onReply (mkRC conf (Some cx), w) = onReply r (mkRC conf (Some cx), w').
Proof.
  intros Hu. destruct (law_usable cx c _ Hu) as (r & st' & Hc & Hd & Hus).
  exists r, (mkRW st' (rw_replies w + 1) (rw_contexts w)). split_and!; [done..| |].
  - split_and!; [done|by eapply call_only_key|done].
  - unfold request, command, mbind, M_bind. cbn. by rewrite Hc.
Qed.

(** Any request: only the key of its command can change. *)
Lemma request_only_key {A} conf cx c w (fail : A) onReply o s' :
  (∀ r s o s', onReply r s = (o, s') → _conf s'.1 = _conf s.1 ∧ _context s'.1 = _context s.1 ∧
     rw_state s'.2 = rw_state s.2) →
  request (argv c) fail onReply (mkRC conf (Some cx), w) = (o, s') →
  _conf s'.1 = conf ∧ (_context s'.1 = Some cx ∨ _context s'.1 = None) ∧
  only_key (ctx_server cx) (cmd_key c) (rw_state w) (rw_state s'.2).
Proof.
  intros Hr. unfold request, command, mbind, M_bind. cbn.
  destruct (redisCommandArgv cx (argv c) (rw_state w)) as [[r|] st'] eqn:Hc.
  - intros E. apply Hr in E as (-> & -> & ->). cbn. split_and!; [done|by left|].
    by eapply call_only_key.
  - cbn. intros [= <- <-]. cbn. split_and!; [done|by right|].
    eapply only_key_trans; [by eapply call_only_key|]. apply same_only_key, law_free.
Qed.

End laws.

(** ** Claims *)

Section claims.
Context `{Hiredis}.

(** C34: every call of the client, whatever the server answers and on every path, frees
    each reply it got and keeps at most its own context open; the one call that keeps a
    reply, exactly one, is a [Set] with NX that returns [kStatusKeyExistErr]. *)
Theorem client_frees_replies o s r s' :
  run_client o s = (r, s') →
  rw_replies s'.2 = rw_replies s.2 + kept r ∧
  rw_contexts s'.2 - held s'.1 = rw_contexts s.2 - held s.1 ∧
  (kept r = 1 → is_SetNX o).
Proof. apply run_client_accounts. Qed.

(** A [Set] with NX on a key that exists keeps the reply it got: each failed
    attempt to take a lock leaves one reply object behind. *)
Lemma Set_nx_leaks_reply `{!RedisLaws} conf cx k v x w :
  usable cx (rw_state w) → k ≠ EmptyString → rdb (ctx_server cx) (rw_state w) !! k = Some x →
  ∃ w', SetKey k v 0 2 (mkRC conf (Some cx), w) = (Ok kStatusKeyExistErr, (mkRC conf (Some cx), w')) ∧
    rw_replies w' = rw_replies w + 1 ∧
    rdb (ctx_server cx) (rw_state w') = rdb (ctx_server cx) (rw_state w).
Proof.
  intros Hu Hk Hx. pose proof (request_usable conf cx (CSet k v None IfMissing) w kStatusConnErr) as Hreq.
  unfold SetKey, mbind, M_bind; cbn. apply str_empty_false in Hk as ->. cbn.
  match goal with |- context [request _ _ ?f] => destruct (Hreq f Hu) as (r & w' & Hn & _ & Hs & E) end.
  cbn [argv app] in E. unfold set_args; cbn [Z.eqb app]. rewrite E. exists w'.
  destruct Hs as (Hd & _). cbn in Hd. rewrite Hx in Hd. by destruct Hd as [-> ->].
Qed.

End claims.

(** ** Servers in memory: an instance of the laws, for the witnesses *)

Definition exec (c : cmd) (m : db) : reply * db :=
  let refuse := (RError "ERR", m) in
  match c with
  | CGet k => (match m !! k with None => RNil | Some (VStr s) => RString s | _ => RError "ERR" end, m)
  | CSet k v ex c =>
      if negb (valid_expiry ex) then refuse
      else if set_allowed c (m !! k) then (RStatus "OK", <[k := VStr v]> m) else (RNil, m)
  | CDel k => (RInteger (match m !! k with Some _ => 1 | None => 0 end), delete k m)
  | CIncrBy k n =>
      match int_value (m !! k) with
      | Some z =>
          if bool_decide (in_s 64 n) && bool_decide (in_s 64 (z + n))
          then (RInteger (z + n), <[k := VStr (dec_string (z + n))]> m) else refuse
      | None => refuse
      end
  | CLPop k =>
      match list_value (m !! k) with
      | Some [] => (RNil, m)
      | Some (x :: l) => (RString x, put_list k l m)
      | None => refuse
      end
  | CRPush k vs =>
      match list_value (m !! k), vs with
      | Some l, _ :: _ => (RInteger (zlen (l ++ vs)), put_list k (l ++ vs) m)
      | _, _ => refuse
      end
  | CLRange k =>
      (match list_value (m !! k) with Some l => RArray (map RString l) | None => RError "ERR" end, m)
  | CSAdd k v =>
      match set_value (m !! k) with
      | Some s => (RInteger (if bool_decide (v ∈ s) then 0 else 1), <[k := VSet ({[v]} ∪ s)]> m)
      | None => refuse
      end
  | CSMembers k =>
      (match set_value (m !! k) with Some s => RArray (map RString (elements s)) | None => RError "ERR" end, m)
  end.

Lemma exec_documented c m : documented c m (exec c m).1 (exec c m).2.
Proof.
  destruct c; cbn; repeat case_match; cbn in *; simplify_eq;
    try (split; [|done]); try done; unfold is_error; eauto.
Qed.

Definition parse_cond (l : list string) : option set_cond :=
  match l with
  | [] => Some Always
  | [w] => if bool_decide (w = "XX") then Some IfExists else if bool_decide (w = "NX") then Some IfMissing else None
  | _ => None
  end.

Definition parse_set (k v : string) (l : list string) : option cmd :=
  match l with
  | w :: d :: l' =>
      if bool_decide (w = "EX")
      then (d ← strtoll_value d; c ← parse_cond l'; Some (CSet k v (Some d) c))
      else (c ← parse_cond l; Some (CSet k v None c))
  | _ => c ← parse_cond l; Some (CSet k v None c)
  end.

Definition parse_cmd (l : list string) : option cmd :=
  match l with
  | w :: k :: l =>
      if bool_decide (w = "GET") then Some (CGet k)
      else if bool_decide (w = "DEL") then Some (CDel k)
      else if bool_decide (w = "LPOP") then Some (CLPop k)
      else if bool_decide (w = "SMEMBERS") then Some (CSMembers k)
      else if bool_decide (w = "LRANGE") then Some (CLRange k)
      else if bool_decide (w = "RPUSH") then Some (CRPush k l)
      else match l with
           | v :: l =>
               if bool_decide (w = "SADD") then Some (CSAdd k v)
               else if bool_decide (w = "INCRBY") then (n ← strtoll_value v; Some (CIncrBy k n))
               else if bool_decide (w = "SET") then parse_set k v l
               else None
           | [] => None
           end
  | _ => None
  end.

Lemma parse_argv c : parse_cmd (argv c) = Some c.
Proof.
  destruct c as [k|k v [d|] []|k|k n|k|k vs|k|k v|k]; cbn [argv parse_cmd app];
    rewrite ?bool_decide_false, ?bool_decide_true by done; unfold parse_set, parse_cond;
    rewrite ?strtoll_value_dec; cbn; rewrite ?strtoll_value_dec; done.
Qed.

Definition mem_db (e : Endpoint) (st : gmap Endpoint db) : db := st !!! e.

Lemma mem_db_insert e m st : mem_db e (<[e := m]> st) = m.
Proof. unfold mem_db. apply lookup_total_insert_eq. Qed.

Definition mem_call (e : Endpoint) (args : list string) (st : gmap Endpoint db) :
    option reply * gmap Endpoint db :=
  match parse_cmd args with
  | Some c => (Some (exec c (mem_db e st)).1, <[e := (exec c (mem_db e st)).2]> st)
  | None => (Some (RStatus "OK"), st)
  end.

#[export] Instance MemHiredis : Hiredis := {|
  rstate := gmap Endpoint db;
  rctx := Endpoint;
  redisConnectWithTimeout h p _ st := (Some (h, p), st);
  redisErr _ _ := false;
  redisSetTimeout _ _ st := st;
  redisFree _ st := st;
  redisCommandArgv := mem_call;
  redisFormat s := ["AUTH"; s];
|}.

#[export, refine] Instance MemLaws : RedisLaws := {|
  rdb := mem_db;
  ctx_server e := e;
  usable _ _ := True;
|}.
Proof.
  - by intros h p t st cx st' [= <- <-].
  - done.
  - done.
  - by intros cx p st r st' [= <- <-] e.
  - intros cx c st r st' Hc. cbn in *. unfold mem_call in Hc. rewrite parse_argv in Hc.
    injection Hc as <- <-. left. rewrite mem_db_insert. apply exec_documented.
  - intros cx c st st' Hc. cbn in *. unfold mem_call in Hc. by rewrite parse_argv in Hc.
  - intros cx c st r st' e Hc He. cbn in *. unfold mem_call in Hc. rewrite parse_argv in Hc.
    injection Hc as <- <-. unfold mem_db. by rewrite lookup_total_insert_ne.
  - intros cx c st _. cbn. unfold mem_call. rewrite parse_argv. eexists _, _. split; [done|].
    split; [|done]. rewrite mem_db_insert. apply exec_documented.
Defined.

Definition wconf : RedisConf := mkConf "127.0.0.1" 16379 EmptyString 10.
Definition wserver : Endpoint := conf_server wconf.
(** A server that holds the given keys, and a client connected to it. *)
Definition wworld (m : db) : RWorld := @mkRW MemHiredis {[ wserver := m ]} 0 1.
Definition wclient : RedisClient := @mkRC MemHiredis wconf (@Some (string * Z) wserver).

(** A lock taken with NX frees its reply; a second attempt keeps one. *)
Lemma client_frees_replies_witness :
  rw_replies (run_client (OpSet "LOCK" "1" 60 2) (wclient, wworld ∅)).2.2 = 0 ∧
  rw_replies (run_client (OpSet "LOCK" "2" 60 2) (wclient, wworld {[ "LOCK" := VStr "1" ]})).2.2 = 1.
Proof.
  split.
  - destruct (run_client (OpSet "LOCK" "1" 60 2) (wclient, wworld ∅)) as [r s'] eqn:E.
    cbn [snd]. rewrite (proj1 (client_frees_replies _ _ _ _ E)). change r with (r, s').1. rewrite <- E. by vm_compute.
  - destruct (run_client (OpSet "LOCK" "2" 60 2) (wclient, wworld {[ "LOCK" := VStr "1" ]})) as [r s'] eqn:E.
    cbn [snd]. rewrite (proj1 (client_frees_replies _ _ _ _ E)). change r with (r, s').1. rewrite <- E. by vm_compute.
Defined.

Lemma Set_nx_leaks_reply_witness :
  ∃ w', SetKey "LOCK" "2" 0 2 (wclient, wworld {[ "LOCK" := VStr "1" ]}) = (Ok kStatusKeyExistErr, (wclient, w'))
    ∧ rw_replies w' = 1.
Proof.
  destruct (@Set_nx_leaks_reply MemHiredis _ wconf wserver "LOCK" "2" (VStr "1") (wworld {[ "LOCK" := VStr "1" ]}))
    as (w' & E & Hn & _); [done|done|reflexivity|].
  exists w'. split; [exact E|exact Hn].
Defined.

(** ** The operations on a usable context, one lemma each *)

Section usable_ops.
Context `{RedisLaws}.

(** [m] sends [c] and answers with [f] of the reply. *)
Definition sends {A} (m : M RC A) (c : cmd) (f : reply → A) : Prop := ∀ conf cx w,
  usable cx (rw_state w) →
  ∃ r w', served cx c w r w' ∧ m (mkRC conf (Some cx), w) = (Ok (f r), (mkRC conf (Some cx), w')).

Lemma sends_request {A} c (fail : A) onReply f :
  (∀ r s, ∃ n, onReply r s = (Ok (f r), (s.1, mkRW (rw_state s.2) n (rw_contexts s.2)))) →
  sends (request (argv c) fail onReply) c f.
Proof.
  intros Hr conf cx w Hu. destruct (request_usable conf cx c w fail onReply Hu) as (r & w' & _ & _ & Hs & E).
  destruct (Hr r (mkRC conf (Some cx), w')) as [n En].
  exists r, (mkRW (rw_state w') n (rw_contexts w')). by rewrite E, En.
Qed.

Lemma sends_guard {A} (b : bool) (fail1 fail2 : A) (m : M RC A) c f :
  b = false → sends m c f →
  sends (x ← gets (λ s : RC, _context s.1);
         if bool_decide (x = None) then mret fail1 else if b then mret fail2 else m) c f.
Proof. by intros -> Hm conf cx w Hu; apply (Hm conf cx w Hu). Qed.

Ltac solve_sends :=
  first [ apply sends_guard; [first [by apply str_empty_false|done]|] | idtac ];
  apply sends_request; intros ? [? []]; eexists; reflexivity.

Lemma Get_sends k v : k ≠ EmptyString →
  sends (Get k v) (CGet k) (λ r, (kStatusOK, match r with RString s => s | _ => v end)).
Proof. intros Hk. unfold Get. solve_sends. Qed.

Definition status_of_set (x : Z) (r : reply) : RedisStatus :=
  match r with
  | RNil => if x =? 2 then kStatusKeyExistErr else kStatusUndefineErr
  | RStatus s => if bool_decide (c_string s = "OK") then kStatusOK else kStatusUndefineErr
  | _ => kStatusUndefineErr
  end.

Definition set_cmd (k v : string) (d x : Z) : cmd :=
  CSet k v (if d =? 0 then None else Some d)
    (if x =? 0 then Always else if x =? 1 then IfExists else IfMissing).

Lemma Set_sends k v d x : k ≠ EmptyString → x <= 2 →
  sends (SetKey k v d x) (set_cmd k v d x) (status_of_set x).
Proof.
  intros Hk Hx. unfold SetKey. apply sends_guard.
  { apply str_empty_false in Hk as ->. destruct (Z.ltb_spec 2 x); [lia|done]. }
  replace (set_args k v d x) with (argv (set_cmd k v d x))
    by (unfold set_args, set_cmd; cbn; by destruct (d =? 0), (x =? 0), (x =? 1)).
  apply sends_request. intros r [s1 []]. destruct r; cbn; try (eexists; reflexivity).
  destruct (x =? 2); eexists; reflexivity.
Qed.

Lemma Delete_sends k : k ≠ EmptyString → sends (Delete k) (CDel k) (λ _, kStatusOK).
Proof. intros Hk. unfold Delete. solve_sends. Qed.

Lemma IncrBy_sends k n v : k ≠ EmptyString →
  sends (IncrBy k n v) (CIncrBy k n)
    (λ r, match r with RInteger z => (kStatusOK, z) | _ => (kStatusUndefineErr, v) end).
Proof. intros Hk. unfold IncrBy. solve_sends. Qed.

Definition status_of_integer (r : reply) : RedisStatus :=
  match r with RInteger _ => kStatusOK | _ => kStatusUndefineErr end.

Lemma RPush_sends k vs : k ≠ EmptyString → vs ≠ [] → sends (RPush k vs) (CRPush k vs) status_of_integer.
Proof.
  intros Hk Hv. unfold RPush. apply sends_guard.
  { apply str_empty_false in Hk as ->. by rewrite bool_decide_false. }
  apply sends_request. intros r [? []]. eexists; reflexivity.
Qed.

Lemma LPop_sends k v :
  sends (LPop k v) (CLPop k) (λ r, (kStatusOK, match r with RString s => s | _ => v end)).
Proof. unfold LPop. solve_sends. Qed.

Definition array_result (members : list string) (r : reply) : RedisStatus * list string :=
  match r with
  | RArray items => (kStatusOK, push_items members items)
  | _ => (kStatusUndefineErr, members)
  end.

Lemma LRange_sends k ms : sends (LRange k 0 (-1) ms) (CLRange k) (array_result ms).
Proof. unfold LRange, read_array. solve_sends. Qed.

Lemma SADD_sends k v : sends (SADD k v) (CSAdd k v) status_of_integer.
Proof. unfold SADD. solve_sends. Qed.

Lemma SMEMBERS_sends k ms : sends (SMEMBERS k ms) (CSMembers k) (array_result ms).
Proof. unfold SMEMBERS, read_array. solve_sends. Qed.

Lemma push_strings ms l : push_items ms (map RString l) = (ms ++ l)%list.
Proof. unfold push_items. f_equal. by induction l as [|x l IH]; [|cbn; f_equal]. Qed.

End usable_ops.
