(* ===== verification/Store.v ===== *)
(** The storage interface server/FPService.cpp works against: two handles, the block
    database and the cache, with the operations of [RedisCache] it calls.

    [Store] has the operations, [StoreLaws] what they promise while the servers
    answer.  The two handles may show the same keys: conf/db.conf and conf/cache.conf
    name one server.  RedisCache.v is the implementation. *)
From S2P Require Import Prelude Cnum Redis.
Open Scope Z_scope.

Inductive Handle := BlockDB | CacheDB.

#[global] Instance Handle_eq_dec : EqDecision Handle.
Proof. solve_decision. Defined.

(** Output arguments are passed in and returned. *)
Class Store (S : Type) := {
  sOpen : Handle → string → M S bool;
  sGet : Handle → string → string → M S (bool * string);
  sSet : Handle → string → string → Z → M S bool;
  sSetNX : Handle → string → string → M S bool;
  sDelete : Handle → string → M S bool;
  sIncrBy : Handle → string → Z → Z → M S (bool * Z);
  sEnQueue : Handle → string → string → M S bool;
  sDeQueueAll : Handle → string → list string → M S (bool * list string);
  sAddToSet : Handle → string → string → M S bool;
  sGetMembers : Handle → string → list string → M S (bool * list string);
}.

Definition str_or (v : string) (x : option rval) : string :=
  match x with Some (VStr s) => s | _ => v end.

Class StoreLaws (S : Type) `{Store S} := {
  view : Handle → S → string → option rval;
  ready : S → Prop;
  law_get h k v s : ready s → k ≠ EmptyString →
    ∃ s', sGet h k v s = (Ok (true, str_or v (view h s k)), s') ∧
      ready s' ∧ ∀ h' k', view h' s' k' = view h' s k';
  law_set h k v d s : ready s → k ≠ EmptyString → 0 < d →
    ∃ s', sSet h k v d s = (Ok true, s') ∧ ready s' ∧ view h s' k = Some (VStr v) ∧
      ∀ h' k', k' ≠ k → view h' s' k' = view h' s k';
  (** an empty key is refused before anything is sent *)
  law_set_empty h v d s : ready s →
    ∃ s', sSet h EmptyString v d s = (Ok false, s') ∧ ready s' ∧ ∀ h' k', view h' s' k' = view h' s k';
  law_setnx h k v s : ready s → k ≠ EmptyString →
    ∃ s', sSetNX h k v s = (Ok (bool_decide (view h s k = None)), s') ∧ ready s' ∧
      view h s' k = Some (default (VStr v) (view h s k)) ∧
      ∀ h' k', k' ≠ k → view h' s' k' = view h' s k';
  law_delete h k s : ready s → k ≠ EmptyString →
    ∃ s', sDelete h k s = (Ok true, s') ∧ ready s' ∧ view h s' k = None ∧
      ∀ h' k', k' ≠ k → view h' s' k' = view h' s k';
  law_incr h k n v z s : ready s → k ≠ EmptyString →
    int_value (view h s k) = Some z → in_s 64 n → in_s 64 (z + n) →
    ∃ s', sIncrBy h k n v s = (Ok (true, z + n), s') ∧ ready s' ∧
      view h s' k = Some (VStr (dec_string (z + n))) ∧
      ∀ h' k', k' ≠ k → view h' s' k' = view h' s k';
  (** an empty key is refused before anything is sent *)
  law_incr_empty h n v s : ready s →
    ∃ s', sIncrBy h EmptyString n v s = (Ok (false, v), s') ∧ ready s' ∧ ∀ h' k', view h' s' k' = view h' s k';
  law_enqueue h k v l s : ready s → k ≠ EmptyString → list_value (view h s k) = Some l →
    ∃ s', sEnQueue h k v s = (Ok true, s') ∧ ready s' ∧ view h s' k = Some (VList (l ++ [v])) ∧
      ∀ h' k', k' ≠ k → view h' s' k' = view h' s k';
  law_dequeue h k ms l s : ready s → k ≠ EmptyString → list_value (view h s k) = Some l →
    ∃ s', sDeQueueAll h k ms s = (Ok (true, ms ++ l), s') ∧ ready s' ∧ view h s' k = None ∧
      ∀ h' k', k' ≠ k → view h' s' k' = view h' s k';
  law_add h k v m s : ready s → set_value (view h s k) = Some m →
    ∃ s', sAddToSet h k v s = (Ok true, s') ∧ ready s' ∧ view h s' k = Some (VSet ({[v]} ∪ m)) ∧
      ∀ h' k', k' ≠ k → view h' s' k' = view h' s k';
  law_members h k ms m s : ready s → set_value (view h s k) = Some m →
    ∃ l s', sGetMembers h k ms s = (Ok (true, ms ++ l), s') ∧ l ≡ₚ elements m ∧
      ready s' ∧ ∀ h' k', view h' s' k' = view h' s k';
}.
