(* ===== verification/RedisCache.v ===== *)
(** The pool of Redis clients: cache/RedisCache.h and cache/RedisCache.cpp.

    [Dispatch] picks a client by a hash of the key; the other operations send one
    command through it.  The pool holds pointers: [None] is a client [Init] deleted
    and put into the pool all the same.  The configuration file is read by TinyXML;
    [XmlFiles] stands for it.  The last part is the instance of [Store] that
    server/FPService.cpp runs on: two pools over the same servers. *)
From S2P Require Import Prelude Cnum Redis Store.
From Stdlib Require Import Lia.
Open Scope Z_scope.

(** ** The hash *)

(** One round: [hash ^= ((hash << 5) + ( *key ) + (hash >> 2))] on [uint32_t], the
    character being signed. *)
Definition hash_step (hash : Z) (c : byte) : Z :=
  Z.lxor hash (u32 (Z.shiftl hash 5 + schar_val c + Z.shiftr hash 2)).

(** The loop starts at the eighth character. *)
Definition js_hash (key : string) : Z :=
  Z.land (fold_left hash_step (zdrop 7 (bytes_of key)) 1315423911) 0x7FFFFFFF.

Definition slot_of (key : string) (pool_size : Z) : Z := js_hash key mod pool_size.

(** ** The configuration file *)

(** The attributes of one [server] element; [None] is a missing one. *)
Record ServerElement := mkElem {
  el_ip : option string; el_port : option string;
  el_passwd : option string; el_timeout : option string;
}.

(** What TinyXML shows of a file: [None] when it cannot be opened, [Some None] when there
    is no root element [redis_conf], else its [server] elements. *)
Class XmlFiles := { redis_conf_file : string → option (option (list ServerElement)) }.

(** A missing attribute is a NULL given to [std::string] or [atoi]. *)
Definition read_server (e : ServerElement) : res RedisConf :=
  match el_ip e, el_port e, el_passwd e, el_timeout e with
  | Some ip, Some port, Some passwd, Some timeout =>
      Ok (mkConf ip (u16 (atoi port)) passwd (u32 (atoi timeout)))
  | _, _, _, _ => Throw Undefined
  end.

Fixpoint read_servers (l : list ServerElement) : res (list RedisConf) :=
  match l with
  | [] => Ok []
  | e :: l => c ← read_server e; cs ← read_servers l; Ok (c :: cs)
  end.

(** [LoadConf]: the flag it returns and [confArray]. *)
Definition LoadConf `{XmlFiles} (confPath : string) : res (bool * list RedisConf) :=
  if str_empty confPath then Ok (false, [])
  else match redis_conf_file (c_string confPath) with
       | None | Some None => Ok (false, [])
       | Some (Some servers) =>
           confs ← read_servers servers; Ok (negb (bool_decide (confs = [])), confs)
       end.

(** ** The pool *)

Section cache.
Context `{Hiredis}.

Record RedisCache := mkCache { _clientPool : list (option RedisClient) }.

Definition CS : Type := RedisCache * RWorld.

(** Runs [m] on the client a pool pointer names; a deleted one is undefined behaviour. *)
Definition on_client {A} (i : nat) (m : M RC A) : M CS A := λ s,
  match _clientPool s.1 !! i with
  | Some (Some c) =>
      let (r, s') := m (c, s.2) in
      (r, (mkCache (<[i := Some s'.1]> (_clientPool s.1)), s'.2))
  | _ => (Throw Undefined, s)
  end.

Definition push_client (c : option RedisClient) : M CS unit := modify (λ s,
  (mkCache (_clientPool s.1 ++ [c]), s.2)).

(** A client that is not in a pool yet. *)
Definition with_new_client {A} (conf : RedisConf) (m : M RC A) : M CS (A * RedisClient) := λ s,
  match m (new_RedisClient conf, s.2) with
  | (Ok a, (c, w)) => (Ok (a, c), (s.1, w))
  | (Throw e, (_, w)) => (Throw e, (s.1, w))
  end.

(** [delete client] runs the destructor, which disconnects. *)
Definition delete_client (c : RedisClient) : M CS unit := λ s,
  match Disconnect (c, s.2) with
  | (r, (_, w)) => (r, (s.1, w))
  end.

Fixpoint init_clients (confs : list RedisConf) : M CS unit :=
  match confs with
  | [] => mret tt
  | conf :: confs =>
      rc ← with_new_client conf (Init conf);
      (if rc.1 : bool then push_client (Some rc.2)
       else (delete_client rc.2 ;; push_client None)) ;;
      init_clients confs
  end.

(** [RedisCache::Init]. *)
Definition Cache_Init `{XmlFiles} (confPath : string) : M CS bool :=
  lc ← lift_res (LoadConf confPath);
  if negb lc.1 then mret false
  else (init_clients lc.2 ;;
        gets (λ s, negb (bool_decide (length (_clientPool s.1) = 0%nat)))).

(** [create]: [None] is the NULL a failed [Init] gives. *)
Definition create `{XmlFiles} (confPath : string) : M RWorld (option RedisCache) := λ w,
  match Cache_Init confPath (mkCache [], w) with
  | (Ok true, (c, w')) => (Ok (Some c), w')
  | (Ok false, (_, w')) => (Ok None, w')
  | (Throw e, (_, w')) => (Throw e, w')
  end.

(** [Dispatch]: the index of the client, [None] when it cannot be connected; the
    remainder by an empty pool is undefined. *)
Definition Dispatch (key : string) : M CS (option nat) :=
  n ← gets (λ s, zlen (_clientPool s.1));
  if n =? 0 then throw Undefined
  else
    (let i := Z.to_nat (slot_of key n) in
     connected ← on_client i (gets (λ s, IsConnected s.1));
     if connected : bool then mret (Some i)
     else (status ← on_client i Connect;
           mret (if bool_decide (status = kStatusOK) then Some i else None))).

(** The shape of the operations below. *)
Definition dispatch_do {A} (key : string) (fail : A) (m : M RC A) : M CS A :=
  c ← Dispatch key;
  match c with
  | None => mret fail
  | Some i => on_client i m
  end.

Definition is_ok (r : RedisStatus) : bool := bool_decide (r = kStatusOK).
Definition ok_with {A} (r : RedisStatus * A) : bool * A := (is_ok r.1, r.2).

Fixpoint check_clients (ids : list nat) : M CS unit :=
  match ids with
  | [] => mret tt
  | i :: ids =>
      up ← on_client i Ping;
      (if up : bool then mret tt else (on_client i Connect ;; mret tt)) ;;
      check_clients ids
  end.

Definition CheckRedis : M CS unit :=
  n ← gets (λ s, length (_clientPool s.1));
  check_clients (seq 0 n).

Definition Cache_Get (key value : string) : M CS (bool * string) :=
  dispatch_do key (false, value) (r ← Get key value; mret (ok_with r)).
Definition Cache_Set (key value : string) (duration : Z) : M CS bool :=
  dispatch_do key false (r ← SetKey key value duration 0; mret (is_ok r)).
Definition SetNX (key value : string) : M CS bool :=
  dispatch_do key false (r ← SetKey key value 0 2; mret (is_ok r)).
Definition Cache_Delete (key : string) : M CS bool :=
  dispatch_do key false (r ← Delete key; mret (is_ok r)).
Definition Cache_IncrBy (key : string) (increment rvalue : Z) : M CS (bool * Z) :=
  dispatch_do key (false, rvalue) (r ← IncrBy key increment rvalue; mret (ok_with r)).
Definition enQueue_all (topic : string) (vals : list string) : M CS bool :=
  dispatch_do topic false (r ← RPush topic vals; mret (is_ok r)).
Definition enQueue (topic value : string) : M CS bool :=
  dispatch_do topic false (r ← RPush topic [value]; mret (is_ok r)).
Definition deQueue (topic value : string) : M CS (bool * string) :=
  dispatch_do topic (false, value) (r ← LPop topic value; mret (ok_with r)).
Definition deQueueAll (key : string) (members : list string) : M CS (bool * list string) :=
  r ← dispatch_do key (false, members) (r ← LRange key 0 (-1) members; mret (ok_with r));
  if r.1 : bool then (d ← Cache_Delete key; mret (d, r.2)) else mret (false, r.2).
Definition AddToSet (key value : string) : M CS bool :=
  dispatch_do key false (r ← SADD key value; mret (is_ok r)).
Definition GetMembers (key : string) (members : list string) : M CS (bool * list string) :=
  dispatch_do key (false, members) (r ← SMEMBERS key members; mret (ok_with r)).

End cache.

(** ** The two handles of the service *)

Section storage.
Context `{Hiredis}.

Record Storage := mkStorage {
  st_block : option RedisCache; st_cache : option RedisCache; st_world : RWorld;
}.

Definition handle_of (h : Handle) (s : Storage) : option RedisCache :=
  match h with BlockDB => st_block s | CacheDB => st_cache s end.

Definition set_handle (h : Handle) (c : option RedisCache) (w : RWorld) (s : Storage) : Storage :=
  match h with
  | BlockDB => mkStorage c (st_cache s) w
  | CacheDB => mkStorage (st_block s) c w
  end.

(** A call through a NULL handle is undefined behaviour. *)
Definition on_cache {A} (h : Handle) (m : M CS A) : M Storage A := λ s,
  match handle_of h s with
  | None => (Throw Undefined, s)
  | Some c => let (r, s') := m (c, st_world s) in (r, set_handle h (Some s'.1) s'.2 s)
  end.

Definition open_cache `{XmlFiles} (h : Handle) (confPath : string) : M Storage bool := λ s,
  match create confPath (st_world s) with
  | (Ok c, w) => (Ok (bool_decide (is_Some c)), set_handle h c w s)
  | (Throw e, w) => (Throw e, set_handle h (handle_of h s) w s)
  end.

#[export] Instance RedisStore `{XmlFiles} : Store Storage := {|
  sOpen := open_cache;
  sGet h k v := on_cache h (Cache_Get k v);
  sSet h k v d := on_cache h (Cache_Set k v d);
  sSetNX h k v := on_cache h (SetNX k v);
  sDelete h k := on_cache h (Cache_Delete k);
  sIncrBy h k n r := on_cache h (Cache_IncrBy k n r);
  sEnQueue h k v := on_cache h (enQueue k v);
  sDeQueueAll h k ms := on_cache h (deQueueAll k ms);
  sAddToSet h k v := on_cache h (AddToSet k v);
  sGetMembers h k ms := on_cache h (GetMembers k ms);
|}.

End storage.

(** ** Lemmas *)

Section lemmas.
Context `{RedisLaws}.

Definition client_ready (w : RWorld) (o : option RedisClient) : Prop :=
  ∃ conf cx, o = Some (mkRC conf (Some cx)) ∧ usable cx (rw_state w).

(** Every client of the pool is connected to a server that answers. *)
Definition cache_ready (c : RedisCache) (w : RWorld) : Prop :=
  _clientPool c ≠ [] ∧ Forall (client_ready w) (_clientPool c).

Definition storage_ready (s : Storage) : Prop :=
  ∀ h, ∃ c, handle_of h s = Some c ∧ cache_ready c (st_world s).

Definition pool_slot (c : RedisCache) (key : string) : nat :=
  Z.to_nat (slot_of key (zlen (_clientPool c))).

(** The value a key has on the server its slot is connected to. *)
Definition cache_view (c : RedisCache) (w : RWorld) (key : string) : option rval :=
  match _clientPool c !! pool_slot c key with
  | Some (Some cl) =>
      match _context cl with
      | Some cx => rdb (ctx_server cx) (rw_state w) !! key
      | None => None
      end
  | _ => None
  end.

Definition storage_view (h : Handle) (s : Storage) (key : string) : option rval :=
  c ← handle_of h s; cache_view c (st_world s) key.

Lemma slot_lookup c w key :
  cache_ready c w →
  ∃ conf cx, _clientPool c !! pool_slot c key = Some (Some (mkRC conf (Some cx))) ∧ usable cx (rw_state w).
Proof.
  intros [Hne Hall]. assert (0 < zlen (_clientPool c)) as Hl.
  { pose proof (zlen_pos _ Hne). lia. }
  destruct (lookup_lt_is_Some_2 (_clientPool c) (pool_slot c key)) as [o Ho].
  { unfold pool_slot, slot_of. pose proof (Z.mod_pos_bound (js_hash key) _ Hl).
    unfold zlen in *. lia. }
  destruct (Forall_lookup_1 _ _ _ _ Hall Ho) as (conf & cx & -> & Hu). eauto.
Qed.

Lemma cache_ready_mono c w w' :
  (∀ cx, usable cx (rw_state w) → usable cx (rw_state w')) → cache_ready c w → cache_ready c w'.
Proof.
  intros Hus [Hne Hall]. split; [done|]. revert Hall. apply Forall_impl.
  intros o (conf & cx & -> & Hu). exists conf, cx. eauto.
Qed.

(** A client operation that leaves the client as it was leaves the pool as it was. *)
Lemma on_client_same {A} i (m : M RC A) c w cl a w' :
  _clientPool c !! i = Some (Some cl) → m (cl, w) = (Ok a, (cl, w')) →
  on_client i m (c, w) = (Ok a, (c, w')).
Proof.
  intros Hl E. unfold on_client. cbn [fst snd]. rewrite Hl, E. cbn [fst snd].
  rewrite list_insert_id by done. by destruct c.
Qed.

Lemma Dispatch_ready c w key :
  cache_ready c w → Dispatch key (c, w) = (Ok (Some (pool_slot c key)), (c, w)).
Proof.
  intros Hr. destruct (slot_lookup c w key Hr) as (conf & cx & Hl & Hu).
  pose proof (zlen_pos _ (proj1 Hr)) as Hz. unfold Dispatch.
  erewrite bind_Ok by reflexivity. cbn [fst].
  destruct (Z.eqb_spec (zlen (_clientPool c)) 0); [lia|]. cbv zeta.
  erewrite bind_Ok by (eapply on_client_same; [exact Hl|reflexivity]).
  unfold IsConnected; cbn [fst _context]. by rewrite bool_decide_true by (by exists cx).
Qed.

(** On a ready pool an operation sends its command through the slot of the key. *)
Lemma dispatch_sends {A} c w key (fail : A) m cm f :
  cache_ready c w → sends m cm f →
  ∃ conf cx r w', _clientPool c !! pool_slot c key = Some (Some (mkRC conf (Some cx))) ∧
    served cx cm w r w' ∧ dispatch_do key fail m (c, w) = (Ok (f r), (c, w')).
Proof.
  intros Hr Hm. destruct (slot_lookup c w key Hr) as (conf & cx & Hl & Hu).
  destruct (Hm conf cx w Hu) as (r & w' & Hs & E). exists conf, cx, r, w'. split_and!; [done..|].
  unfold dispatch_do. erewrite bind_Ok by (by apply Dispatch_ready).
  by eapply on_client_same.
Qed.

Lemma sends_map {A B} (m : M RC A) c f (g : A → B) :
  sends m c f → sends (r ← m; mret (g r)) c (λ r, g (f r)).
Proof.
  intros Hm conf cx w Hu. destruct (Hm conf cx w Hu) as (r & w' & Hs & E).
  exists r, w'. split; [done|]. by erewrite bind_Ok by exact E.
Qed.

(** The effect of one command on both handles. *)
Definition storage_step (h : Handle) (c : cmd) (s : Storage) (r : reply) (s' : Storage) : Prop :=
  ∃ m m', documented c m r m' ∧ m !! cmd_key c = storage_view h s (cmd_key c) ∧
    m' !! cmd_key c = storage_view h s' (cmd_key c) ∧ storage_ready s' ∧
    (∀ h' k, k ≠ cmd_key c → storage_view h' s' k = storage_view h' s k) ∧
    (m' = m → ∀ h' k, storage_view h' s' k = storage_view h' s k).

Lemma set_handle_same h h' c w s :
  handle_of h s = Some c → handle_of h' (set_handle h (Some c) w s) = handle_of h' s.
Proof. by destruct h, h'; cbn. Qed.

Lemma st_world_set_handle h c w s : st_world (set_handle h c w s) = w.
Proof. by destruct h. Qed.

Lemma storage_do {A} h (fail : A) m cm f s :
  storage_ready s → sends m cm f →
  ∃ r s', on_cache h (dispatch_do (cmd_key cm) fail m) s = (Ok (f r), s') ∧ storage_step h cm s r s'.
Proof.
  intros Hr Hm. destruct (Hr h) as (c & Hc & Hcr).
  destruct (dispatch_sends c (st_world s) (cmd_key cm) fail m cm f Hcr Hm)
    as (conf & cx & r & w' & Hl & (Hd & Ho & Hus) & E).
  set (s' := set_handle h (Some c) w' s).
  assert (∀ h', handle_of h' s' = handle_of h' s) as Hh by (intros; by apply set_handle_same).
  assert (st_world s' = w') as Hw by apply st_world_set_handle.
  assert (∀ s0, handle_of h s0 = Some c →
    storage_view h s0 (cmd_key cm) = rdb (ctx_server cx) (rw_state (st_world s0)) !! cmd_key cm) as Hv.
  { intros s0 Hs0. unfold storage_view, cache_view. rewrite Hs0. cbn. by rewrite Hl. }
  exists r, s'. split; [unfold on_cache; by rewrite Hc, E|].
  exists (rdb (ctx_server cx) (rw_state (st_world s))), (rdb (ctx_server cx) (rw_state w')).
  assert (∀ h' k, (∀ e, rdb e (rw_state w') !! k = rdb e (rw_state (st_world s)) !! k) →
    storage_view h' s' k = storage_view h' s k) as Hview.
  { intros h' k Hk. unfold storage_view, cache_view. rewrite Hh, Hw.
    destruct (handle_of h' s); cbn; [|done]. repeat case_match; [apply Hk|done..]. }
  split_and!; [done|by rewrite Hv| | | |].
  - rewrite Hv by (by rewrite Hh). by rewrite Hw.
  - intros h'. destruct (Hr h') as (c' & Hc' & Hcr'). exists c'. rewrite Hh, Hw.
    split; [done|]. by eapply cache_ready_mono.
  - intros h' k Hk. apply Hview. intros e. apply Ho. by right.
  - intros Hm' h' k. apply Hview. intros e. destruct (decide (e = ctx_server cx)) as [->|He].
    + by rewrite Hm'.
    + apply Ho. by left.
Qed.

End lemmas.

Section implementation.
Context `{RedisLaws, XmlFiles}.

Lemma on_cache_bind {A B} h (m : M CS A) (f : A → M CS B) s :
  on_cache h (m ≫= f) s = (on_cache h m ≫= λ a, on_cache h (f a)) s.
Proof.
  unfold on_cache, mbind, M_bind. destruct (handle_of h s) as [c|] eqn:Hc; [|done].
  destruct (m (c, st_world s)) as [[a|e] [c1 w1]]; cbn [fst snd].
  - assert (handle_of h (set_handle h (Some c1) w1 s) = Some c1) as -> by by destruct h.
    rewrite st_world_set_handle. destruct (f a (c1, w1)) as [r [c2 w2]]. by destruct h.
  - done.
Qed.

Lemma on_cache_ret {A} h (a : A) s : storage_ready s → on_cache h (mret a) s = (Ok a, s).
Proof.
  intros Hr. destruct (Hr h) as (c & Hc & _). unfold on_cache. rewrite Hc.
  destruct h, s as [b c' w]; cbn in *; by subst.
Qed.

(** Destructs the effect of one command into its documented result. *)
Ltac use_step H Hf :=
  let m := fresh "m" in let m' := fresh "m'" in
  let Hd := fresh "Hd" in let Hk := fresh "Hk" in let Hk' := fresh "Hk'" in
  let Hr := fresh "Hr" in let Hs := fresh "Hsame" in
  destruct H as (m & m' & Hd & Hk & Hk' & Hr & Hf & Hs); cbn [cmd_key documented] in *; try rewrite Hk in Hd.

Lemma impl_get h k v s : storage_ready s → k ≠ EmptyString →
  ∃ s', on_cache h (Cache_Get k v) s = (Ok (true, str_or v (storage_view h s k)), s') ∧
    storage_ready s' ∧ ∀ h' k', storage_view h' s' k' = storage_view h' s k'.
Proof.
  intros Hr Hk.
  destruct (storage_do h (false, v) _ _ _ s Hr (sends_map _ _ _ ok_with (Get_sends k v Hk)))
    as (r & s' & E & Hs).
  use_step Hs Hf. destruct Hd as [-> Hd]. exists s'. split_and!; [|done|by apply Hsame].
  etransitivity; [exact E|]. do 2 f_equal. unfold str_or.
  destruct (storage_view h s k) as [[]|]; [subst r; done|destruct Hd as [? ->]; done..|subst r; done].
Qed.

Lemma impl_set h k v d s : storage_ready s → k ≠ EmptyString → 0 < d →
  ∃ s', on_cache h (Cache_Set k v d) s = (Ok true, s') ∧ storage_ready s' ∧
    storage_view h s' k = Some (VStr v) ∧
    ∀ h' k', k' ≠ k → storage_view h' s' k' = storage_view h' s k'.
Proof.
  intros Hr Hk Hdur.
  destruct (storage_do h false _ _ _ s Hr (sends_map _ _ _ is_ok (Set_sends k v d 0 Hk ltac:(lia))))
    as (r & s' & E & Hs).
  unfold set_cmd in Hs; cbn [Z.eqb] in Hs. destruct (Z.eqb_spec d 0); [lia|].
  use_step Hs Hf. cbn [valid_expiry set_allowed] in Hd. destruct (Z.ltb_spec 0 d); [|lia].
  cbn [negb] in Hd. destruct Hd as [-> ->]. exists s'. split_and!; [exact E|done| |done].
  by rewrite <- Hk', lookup_insert_eq.
Qed.

Lemma impl_set_empty h v d s : storage_ready s →
  ∃ s', on_cache h (Cache_Set EmptyString v d) s = (Ok false, s') ∧ storage_ready s' ∧
    ∀ h' k', storage_view h' s' k' = storage_view h' s k'.
Proof.
  intros Hr. exists s. destruct (Hr h) as (c & Hc & Hcr).
  destruct (slot_lookup c (st_world s) EmptyString Hcr) as (conf & cx & Hl & _).
  split; [|done]. unfold on_cache, Cache_Set, dispatch_do. rewrite Hc.
  erewrite bind_Ok by (by apply Dispatch_ready).
  cbv beta iota. erewrite (on_client_same _ _ c (st_world s) _ false _ Hl) by reflexivity.
  destruct h, s; cbn in *; by subst.
Qed.

Lemma impl_setnx h k v s : storage_ready s → k ≠ EmptyString →
  ∃ s', on_cache h (SetNX k v) s = (Ok (bool_decide (storage_view h s k = None)), s') ∧
    storage_ready s' ∧ storage_view h s' k = Some (default (VStr v) (storage_view h s k)) ∧
    ∀ h' k', k' ≠ k → storage_view h' s' k' = storage_view h' s k'.
Proof.
  intros Hr Hk.
  destruct (storage_do h false _ _ _ s Hr (sends_map _ _ _ is_ok (Set_sends k v 0 2 Hk ltac:(lia))))
    as (r & s' & E & Hs).
  unfold set_cmd in Hs; cbn [Z.eqb] in Hs. use_step Hs Hf. cbn [valid_expiry negb set_allowed] in Hd.
  exists s'. destruct (storage_view h s k) as [x|] eqn:Hx; cbn [default].
  - destruct Hd as [-> ->]. split_and!; [exact E|done|cbn in *; congruence|done].
  - destruct Hd as [-> ->]. split_and!; [exact E|done|by rewrite <- Hk', lookup_insert_eq|done].
Qed.

Lemma impl_delete h k s : storage_ready s → k ≠ EmptyString →
  ∃ s', on_cache h (Cache_Delete k) s = (Ok true, s') ∧ storage_ready s' ∧
    storage_view h s' k = None ∧
    ∀ h' k', k' ≠ k → storage_view h' s' k' = storage_view h' s k'.
Proof.
  intros Hr Hk.
  destruct (storage_do h false _ _ _ s Hr (sends_map _ _ _ is_ok (Delete_sends k Hk)))
    as (r & s' & E & Hs).
  use_step Hs Hf. destruct Hd as [_ ->]. exists s'.
  split_and!; [exact E|done|by rewrite <- Hk', lookup_delete_eq|done].
Qed.

Lemma impl_incr h k n v z s : storage_ready s → k ≠ EmptyString →
  int_value (storage_view h s k) = Some z → in_s 64 n → in_s 64 (z + n) →
  ∃ s', on_cache h (Cache_IncrBy k n v) s = (Ok (true, z + n), s') ∧ storage_ready s' ∧
    storage_view h s' k = Some (VStr (dec_string (z + n))) ∧
    ∀ h' k', k' ≠ k → storage_view h' s' k' = storage_view h' s k'.
Proof.
  intros Hr Hk Hz Hn Hzn.
  destruct (storage_do h (false, v) _ _ _ s Hr (sends_map _ _ _ ok_with (IncrBy_sends k n v Hk)))
    as (r & s' & E & Hs).
  use_step Hs Hf. rewrite Hz, !bool_decide_true in Hd by done. destruct Hd as [-> ->]. exists s'.
  split_and!; [exact E|done|by rewrite <- Hk', lookup_insert_eq|done].
Qed.

Lemma impl_incr_empty h n v s : storage_ready s →
  ∃ s', on_cache h (Cache_IncrBy EmptyString n v) s = (Ok (false, v), s') ∧ storage_ready s' ∧
    ∀ h' k', storage_view h' s' k' = storage_view h' s k'.
Proof.
  intros Hr. exists s. destruct (Hr h) as (c & Hc & Hcr).
  destruct (slot_lookup c (st_world s) EmptyString Hcr) as (conf & cx & Hl & _).
  split; [|done]. unfold on_cache, Cache_IncrBy, dispatch_do. rewrite Hc.
  erewrite bind_Ok by (by apply Dispatch_ready).
  cbv beta iota. erewrite (on_client_same _ _ c (st_world s) _ (false, v) _ Hl) by reflexivity.
  destruct h, s; cbn in *; by subst.
Qed.

Lemma impl_enqueue h k v l s : storage_ready s → k ≠ EmptyString →
  list_value (storage_view h s k) = Some l →
  ∃ s', on_cache h (enQueue k v) s = (Ok true, s') ∧ storage_ready s' ∧
    storage_view h s' k = Some (VList (l ++ [v])) ∧
    ∀ h' k', k' ≠ k → storage_view h' s' k' = storage_view h' s k'.
Proof.
  intros Hr Hk Hl.
  destruct (storage_do h false _ _ _ s Hr (sends_map _ _ _ is_ok (RPush_sends k [v] Hk ltac:(done))))
    as (r & s' & E & Hs).
  use_step Hs Hf. rewrite Hl in Hd. destruct Hd as [-> ->]. exists s'.
  split_and!; [exact E|done| |done]. rewrite <- Hk'. unfold put_list.
  destruct (l ++ [v]) as [|x l'] eqn:El; [by apply app_eq_nil in El as [_ ?]|].
  by rewrite lookup_insert_eq.
Qed.

Lemma impl_dequeue h k ms l s : storage_ready s → k ≠ EmptyString →
  list_value (storage_view h s k) = Some l →
  ∃ s', on_cache h (deQueueAll k ms) s = (Ok (true, ms ++ l), s') ∧ storage_ready s' ∧
    storage_view h s' k = None ∧
    ∀ h' k', k' ≠ k → storage_view h' s' k' = storage_view h' s k'.
Proof.
  intros Hr Hk Hl.
  destruct (storage_do h (false, ms) _ _ _ s Hr (sends_map _ _ _ ok_with (LRange_sends k ms)))
    as (r & s1 & E & Hs).
  use_step Hs Hf. rewrite Hl in Hd. destruct Hd as [-> ->].
  destruct (impl_delete h k s1 Hr0 Hk) as (s' & E' & Hr' & Hv & Hf').
  exists s'. split_and!; [|done|done|].
  - unfold deQueueAll. rewrite on_cache_bind. erewrite bind_Ok by exact E.
    unfold array_result, ok_with; cbn [fst snd]. change (is_ok kStatusOK) with true. cbn iota.
    rewrite push_strings, on_cache_bind. erewrite bind_Ok by exact E'. by apply on_cache_ret.
  - intros h' k' Hn. rewrite Hf' by done. by apply Hf.
Qed.

Lemma impl_add h k v m s : storage_ready s → set_value (storage_view h s k) = Some m →
  ∃ s', on_cache h (AddToSet k v) s = (Ok true, s') ∧ storage_ready s' ∧
    storage_view h s' k = Some (VSet ({[v]} ∪ m)) ∧
    ∀ h' k', k' ≠ k → storage_view h' s' k' = storage_view h' s k'.
Proof.
  intros Hr Hm.
  destruct (storage_do h false _ _ _ s Hr (sends_map _ _ _ is_ok (SADD_sends k v)))
    as (r & s' & E & Hs).
  use_step Hs Hf. rewrite Hm in Hd. destruct Hd as [[n ->] ->]. exists s'.
  split_and!; [exact E|done|by rewrite <- Hk', lookup_insert_eq|done].
Qed.

Lemma impl_members h k ms m s : storage_ready s → set_value (storage_view h s k) = Some m →
  ∃ l s', on_cache h (GetMembers k ms) s = (Ok (true, ms ++ l), s') ∧ l ≡ₚ elements m ∧
    storage_ready s' ∧ ∀ h' k', storage_view h' s' k' = storage_view h' s k'.
Proof.
  intros Hr Hm.
  destruct (storage_do h (false, ms) _ _ _ s Hr (sends_map _ _ _ ok_with (SMEMBERS_sends k ms)))
    as (r & s' & E & Hs).
  use_step Hs Hf. rewrite Hm in Hd. destruct Hd as [-> (l & Hl & ->)]. exists l, s'.
  split_and!; [|done|done|by apply Hsame]. etransitivity; [exact E|].
  unfold array_result. by rewrite push_strings.
Qed.

(** The pools refine the storage interface of the service. *)
#[export] Instance RedisStoreLaws : StoreLaws Storage := {|
  view := storage_view;
  ready := storage_ready;
  law_get := impl_get;
  law_set := impl_set;
  law_set_empty := impl_set_empty;
  law_setnx := impl_setnx;
  law_delete := impl_delete;
  law_incr := impl_incr;
  law_incr_empty := impl_incr_empty;
  law_enqueue := impl_enqueue;
  law_dequeue := impl_dequeue;
  law_add := impl_add;
  law_members := impl_members;
|}.

End implementation.

(** ** The pool as one map *)

(** The operations of a pool on its data. *)
Inductive pool_op :=
  | PGet (k v : string) | PSet (k v : string) (d : Z) | PSetNX (k v : string) | PDelete (k : string)
  | PIncrBy (k : string) (n r : Z) | PEnQueue (k v : string) | PEnQueueAll (k : string) (vs : list string)
  | PDeQueue (k v : string) | PDeQueueAll (k : string) (ms : list string)
  | PAddToSet (k v : string) | PGetMembers (k : string) (ms : list string).

(** What a call returns: its flag and its output argument. *)
Inductive pool_out := OBool (b : bool) | OStr (b : bool) (s : string) | OInt (b : bool) (z : Z)
  | OList (b : bool) (l : list string).

(** What is promised of it: a server lists a set in an order of its own. *)
Inductive promise := Exactly (o : pool_out) | Members (before : list string) (s : gset string).
Definition answers (o : pool_out) (p : promise) : Prop :=
  match p with
  | Exactly o' => o = o'
  | Members before s => ∃ l, o = OList true (before ++ l) ∧ l ≡ₚ elements s
  end.

(** A duration is unsigned. *)
Definition op_valid (o : pool_op) : Prop := match o with PSet _ _ d => 0 <= d | _ => True end.

(** A client refuses an empty key, except to [deQueue], [AddToSet] and [GetMembers], and
    to the reading half of [deQueueAll]. *)
Definition refuses_key (k : string) (o : pool_out) (m : db) (r : promise * db) : promise * db :=
  if str_empty k then (Exactly o, m) else r.

Definition spec_op (o : pool_op) (m : db) : promise * db :=
  match o with
  | PGet k v => refuses_key k (OStr false v) m (Exactly (OStr true (str_or v (m !! k))), m)
  | PSet k v _ => refuses_key k (OBool false) m (Exactly (OBool true), <[k := VStr v]> m)
  | PSetNX k v => refuses_key k (OBool false) m
      (match m !! k with
       | None => (Exactly (OBool true), <[k := VStr v]> m)
       | Some _ => (Exactly (OBool false), m)
       end)
  | PDelete k => refuses_key k (OBool false) m (Exactly (OBool true), delete k m)
  | PIncrBy k n r => refuses_key k (OInt false r) m
      (match int_value (m !! k) with
       | Some z =>
           if bool_decide (in_s 64 n) && bool_decide (in_s 64 (z + n))
           then (Exactly (OInt true (z + n)), <[k := VStr (dec_string (z + n))]> m)
           else (Exactly (OInt false r), m)
       | None => (Exactly (OInt false r), m)
       end)
  | PEnQueue k v => refuses_key k (OBool false) m
      (match list_value (m !! k) with
       | Some l => (Exactly (OBool true), <[k := VList (l ++ [v])]> m)
       | None => (Exactly (OBool false), m)
       end)
  | PEnQueueAll k vs => refuses_key k (OBool false) m
      (match list_value (m !! k), vs with
       | Some l, _ :: _ => (Exactly (OBool true), <[k := VList (l ++ vs)]> m)
       | _, _ => (Exactly (OBool false), m)
       end)
  | PDeQueue k v =>            (* [true] in every case *)
      match list_value (m !! k) with
      | Some (x :: l) => (Exactly (OStr true x), put_list k l m)
      | _ => (Exactly (OStr true v), m)
      end
  | PDeQueueAll k ms =>
      match list_value (m !! k) with
      | Some l => refuses_key k (OList false (ms ++ l)) m (Exactly (OList true (ms ++ l)), delete k m)
      | None => (Exactly (OList false ms), m)
      end
  | PAddToSet k v =>
      match set_value (m !! k) with
      | Some s => (Exactly (OBool true), <[k := VSet ({[v]} ∪ s)]> m)
      | None => (Exactly (OBool false), m)
      end
  | PGetMembers k ms =>
      match set_value (m !! k) with
      | Some s => (Members ms s, m)
      | None => (Exactly (OList false ms), m)
      end
  end.

Fixpoint spec_ops (os : list pool_op) (m : db) : list promise * db :=
  match os with
  | [] => ([], m)
  | o :: os => let (r, m1) := spec_op o m in let (rs, m2) := spec_ops os m1 in (r :: rs, m2)
  end.

Section pool.
Context `{Hiredis}.

Definition pool_run (o : pool_op) : M CS pool_out :=
  match o with
  | PGet k v => r ← Cache_Get k v; mret (OStr r.1 r.2)
  | PSet k v d => r ← Cache_Set k v d; mret (OBool r)
  | PSetNX k v => r ← SetNX k v; mret (OBool r)
  | PDelete k => r ← Cache_Delete k; mret (OBool r)
  | PIncrBy k n v => r ← Cache_IncrBy k n v; mret (OInt r.1 r.2)
  | PEnQueue k v => r ← enQueue k v; mret (OBool r)
  | PEnQueueAll k vs => r ← enQueue_all k vs; mret (OBool r)
  | PDeQueue k v => r ← deQueue k v; mret (OStr r.1 r.2)
  | PDeQueueAll k ms => r ← deQueueAll k ms; mret (OList r.1 r.2)
  | PAddToSet k v => r ← AddToSet k v; mret (OBool r)
  | PGetMembers k ms => r ← GetMembers k ms; mret (OList r.1 r.2)
  end.

Fixpoint pool_runs (os : list pool_op) : M CS (list pool_out) :=
  match os with
  | [] => mret []
  | o :: os => r ← pool_run o; rs ← pool_runs os; mret (r :: rs)
  end.
End pool.

Section refinement.
Context `{RedisLaws}.

(** The pool shows the contents of [m]. *)
Definition shows (s : CS) (m : db) : Prop :=
  cache_ready s.1 s.2 ∧ ∀ k, cache_view s.1 s.2 k = m !! k.

(** A command acts on the value of its key alone. *)
Lemma documented_transport c m0 r m1 m :
  documented c m0 r m1 → m0 !! cmd_key c = m !! cmd_key c →
  ∃ m', documented c m r m' ∧ m' !! cmd_key c = m1 !! cmd_key c ∧
    ∀ k, k ≠ cmd_key c → m' !! k = m !! k.
Proof.
  intros Hd Hk.
  set (m' := match m1 !! cmd_key c with Some v => <[cmd_key c := v]> m | None => delete (cmd_key c) m end).
  assert (m' !! cmd_key c = m1 !! cmd_key c) as Hm'.
  { unfold m'. destruct (m1 !! cmd_key c); [apply lookup_insert_eq|apply lookup_delete_eq]. }
  assert (∀ k, k ≠ cmd_key c → m' !! k = m !! k) as Hf.
  { intros k Hn. unfold m'. destruct (m1 !! cmd_key c);
      [by apply lookup_insert_ne|by apply lookup_delete_ne]. }
  assert (m1 = m0 → m' = m) as Hsame.
  { intros ->. apply map_eq. intros k. destruct (decide (k = cmd_key c)) as [->|]; [congruence|by apply Hf]. }
  assert (∀ v, m1 = <[cmd_key c := v]> m0 → m' = <[cmd_key c := v]> m) as Hins.
  { intros v ->. unfold m'. by rewrite lookup_insert_eq. }
  assert (m1 = delete (cmd_key c) m0 → m' = delete (cmd_key c) m) as Hdel.
  { intros ->. unfold m'. by rewrite lookup_delete_eq. }
  exists m'. split; [|done].
  destruct c; cbn in *; try rewrite Hk in Hd; unfold put_list in *; repeat case_match; naive_solver.
Qed.

(** One command of the pool is one command of the map. *)
Lemma shows_step {A} c w m cm (fail : A) o f :
  shows (c, w) m → sends o cm f →
  ∃ r w' m', dispatch_do (cmd_key cm) fail o (c, w) = (Ok (f r), (c, w')) ∧
    documented cm m r m' ∧ shows (c, w') m'.
Proof.
  intros [Hr Hv] Ho. cbn [fst snd] in *.
  destruct (dispatch_sends c w (cmd_key cm) fail o cm f Hr Ho)
    as (conf & cx & r & w' & Hl & (Hd & Hoth & Hus) & E).
  assert (∀ w0, cache_view c w0 (cmd_key cm) = rdb (ctx_server cx) (rw_state w0) !! cmd_key cm) as Hview.
  { intros w0. unfold cache_view. by rewrite Hl. }
  destruct (documented_transport _ _ _ _ m Hd) as (m' & Hd' & Hk' & Hf); [by rewrite <- Hv, Hview|].
  exists r, w', m'. split_and!; [done..|]. split; [by eapply cache_ready_mono|].
  intros k. cbn [fst snd]. destruct (decide (k = cmd_key cm)) as [->|Hn].
  - by rewrite Hview, Hk'.
  - rewrite Hf, <- Hv by done. unfold cache_view. repeat case_match; [|done..]. apply Hoth. by right.
Qed.

Lemma put_list_app k l v vs m : put_list k (l ++ v :: vs) m = <[k := VList (l ++ v :: vs)]> m.
Proof. unfold put_list. by destruct l. Qed.

(** [pool_run] of an operation that is one command. *)
Lemma pool_run_do {A} s m cm (fail : A) o f (g : A → pool_out) p :
  shows s m → sends o cm f →
  (∀ r m', documented cm m r m' → answers (g (f r)) p.1 ∧ m' = p.2) →
  ∃ out s', (r ← dispatch_do (cmd_key cm) fail o; mret (g r)) s = (Ok out, s') ∧ answers out p.1 ∧ shows s' p.2.
Proof.
  destruct s as [c w]. intros Hs Ho Hg.
  destruct (shows_step c w m cm fail o f Hs Ho) as (r & w' & m' & E & Hd & Hs').
  destruct (Hg r m' Hd) as [Eo ->]. exists (g (f r)), (c, w'). split; [|done].
  by erewrite bind_Ok by exact E.
Qed.

(** ... and of one the client refuses before it sends anything. *)
Lemma pool_run_refused {A} s m k (fail a : A) (o : M RC A) (g : A → pool_out) :
  shows s m → (∀ conf cx w, o (mkRC conf (Some cx), w) = (Ok a, (mkRC conf (Some cx), w))) →
  (r ← dispatch_do k fail o; mret (g r)) s = (Ok (g a), s).
Proof.
  destruct s as [c w]. intros [Hr _] Ho. cbn [fst snd] in Hr.
  destruct (slot_lookup c w k Hr) as (conf & cx & Hl & _).
  erewrite bind_Ok; [reflexivity|]. unfold dispatch_do. erewrite bind_Ok by (by apply Dispatch_ready).
  by eapply on_client_same.
Qed.

(** One call keeps the promise. *)
Definition kept_by (run : M CS pool_out) (s : CS) (p : promise * db) : Prop :=
  ∃ out s', run s = (Ok out, s') ∧ answers out p.1 ∧ shows s' p.2.

(** Settles the case of an empty key, then leaves the command. *)
Ltac refuse_empty Hs Hk :=
  match goal with |- context [refuses_key ?k] =>
    unfold refuses_key; destruct (str_empty k) eqn:Hk;
    [ apply str_empty_true in Hk; subst k; eexists _, _; split; [eapply pool_run_refused; [exact Hs|intros; reflexivity]|by split]
    | apply str_empty_false in Hk ]
  end.

Lemma kept_strings o s m :
  shows s m → op_valid o →
  match o with PGet _ _ | PSet _ _ _ | PSetNX _ _ | PDelete _ | PIncrBy _ _ _ => True | _ => False end →
  kept_by (pool_run o) s (spec_op o m).
Proof.
  intros Hs Hv Ho. destruct o as [k v|k v d|k v|k|k n v|k v|k vs|k v|k ms|k v|k ms]; try done; cbn [pool_run spec_op].
  - refuse_empty Hs Hk.
    apply (pool_run_do s m (CGet k) _ _ _ (λ r, OStr r.1 r.2) _ Hs (sends_map _ _ _ ok_with (Get_sends k v Hk))).
    intros r m' [-> Hr]. unfold str_or.
    destruct (m !! k) as [[]|]; [subst r; done|destruct Hr as [? ->]; done..|subst r; done].
  - refuse_empty Hs Hk. cbn [op_valid] in Hv.
    apply (pool_run_do s m _ _ _ _ OBool _ Hs (sends_map _ _ _ is_ok (Set_sends k v d 0 Hk ltac:(lia)))).
    intros r m'. unfold set_cmd. destruct (Z.eqb_spec d 0); cbn; [by intros [-> ->]|].
    destruct (Z.ltb_spec 0 d); [|lia]. by intros [-> ->].
  - refuse_empty Hs Hk.
    apply (pool_run_do s m _ _ _ _ OBool _ Hs (sends_map _ _ _ is_ok (Set_sends k v 0 2 Hk ltac:(lia)))).
    intros r m'. cbn. destruct (m !! k); by intros [-> ->].
  - refuse_empty Hs Hk.
    apply (pool_run_do s m (CDel k) _ _ _ OBool _ Hs (sends_map _ _ _ is_ok (Delete_sends k Hk))).
    by intros r m' [_ ->].
  - refuse_empty Hs Hk.
    apply (pool_run_do s m (CIncrBy k n) _ _ _ (λ r, OInt r.1 r.2) _ Hs
      (sends_map _ _ _ ok_with (IncrBy_sends k n v Hk))).
    intros r m'. cbn. destruct (int_value (m !! k)) as [z|]; [destruct (_ && _)|].
    + by intros [-> ->].
    + by intros [[? ->] ->].
    + by intros [[? ->] ->].
Qed.

Lemma kept_sets o s m :
  shows s m → match o with PAddToSet _ _ | PGetMembers _ _ => True | _ => False end →
  kept_by (pool_run o) s (spec_op o m).
Proof.
  intros Hs Ho. destruct o as [k v|k v d|k v|k|k n v|k v|k vs|k v|k ms|k v|k ms]; try done; cbn [pool_run spec_op].
  - apply (pool_run_do s m (CSAdd k v) _ _ _ OBool _ Hs (sends_map _ _ _ is_ok (SADD_sends k v))).
    intros r m'. cbn. destruct (set_value (m !! k)) as [x|].
    + by intros [[? ->] ->].
    + by intros [[? ->] ->].
  - apply (pool_run_do s m (CSMembers k) _ _ _ (λ r, OList r.1 r.2) _ Hs
      (sends_map _ _ _ ok_with (SMEMBERS_sends k ms))).
    intros r m'. cbn. destruct (set_value (m !! k)) as [x|].
    + intros [-> (l & Hl & ->)]. split; [|done]. exists l. split; [|done]. unfold array_result. by rewrite push_strings.
    + by intros [-> [? ->]].
Qed.

(** The whole list, and then its deletion, which an empty key refuses. *)
Lemma kept_deQueueAll k ms s m : shows s m → kept_by (pool_run (PDeQueueAll k ms)) s (spec_op (PDeQueueAll k ms) m).
Proof.
  intros Hs. cbn [pool_run spec_op]. destruct s as [c w].
  destruct (shows_step c w m _ (false, ms) _ _ Hs (sends_map _ _ _ ok_with (LRange_sends k ms)))
    as (r & w1 & m1 & E & [-> Hr] & Hs1). cbn [cmd_key] in E, Hr.
  unfold kept_by, deQueueAll. rewrite bind_assoc. erewrite bind_Ok by exact E.
  destruct (list_value (m !! k)) as [l|].
  - subst r. unfold array_result, ok_with; cbn [fst snd]. change (is_ok kStatusOK) with true. cbn iota.
    rewrite push_strings, bind_assoc. fold (kept_by (d ← Cache_Delete k; r ← mret (d, ms ++ l); mret (OList r.1 r.2)) (c, w1)).
    assert (Hd : ∀ p, kept_by (d ← Cache_Delete k; mret (OList d (ms ++ l))) (c, w1) p →
      kept_by (d ← Cache_Delete k; r ← mret (d, ms ++ l); mret (OList r.1 r.2)) (c, w1) p) by done.
    apply Hd. refuse_empty Hs1 Hk.
    apply (pool_run_do (c, w1) m (CDel k) _ _ _ (λ d, OList d (ms ++ l)) _ Hs1
      (sends_map _ _ _ is_ok (Delete_sends k Hk))).
    by intros r m' [_ ->].
  - destruct Hr as [? ->]. eexists _, (c, w1). split; [reflexivity|]. by split.
Qed.

Lemma kept_queues o s m :
  shows s m →
  match o with PEnQueue _ _ | PEnQueueAll _ _ | PDeQueue _ _ => True | _ => False end →
  kept_by (pool_run o) s (spec_op o m).
Proof.
  intros Hs Ho. destruct o as [k v|k v d|k v|k|k n v|k v|k vs|k v|k ms|k v|k ms]; try done; cbn [pool_run spec_op].
  - refuse_empty Hs Hk.
    apply (pool_run_do s m (CRPush k [v]) _ _ _ OBool _ Hs (sends_map _ _ _ is_ok (RPush_sends k [v] Hk ltac:(done)))).
    intros r m'. cbn. destruct (list_value (m !! k)) as [l|].
    + rewrite put_list_app. by intros [-> ->].
    + by intros [[? ->] ->].
  - refuse_empty Hs Hk. destruct vs as [|v vs].
    { eexists _, _. split; [|by destruct (list_value (m !! k))].
      apply (pool_run_refused _ _ _ _ false _ OBool Hs). intros conf cx w.
      unfold RPush. apply str_empty_false in Hk. unfold mbind, M_bind; cbn. by rewrite Hk. }
    apply (pool_run_do s m (CRPush k (v :: vs)) _ _ _ OBool _ Hs
      (sends_map _ _ _ is_ok (RPush_sends k (v :: vs) Hk ltac:(done)))).
    intros r m'. cbn. destruct (list_value (m !! k)) as [l|].
    + rewrite put_list_app. by intros [-> ->].
    + by intros [[? ->] ->].
  - apply (pool_run_do s m (CLPop k) _ _ _ (λ r, OStr r.1 r.2) _ Hs (sends_map _ _ _ ok_with (LPop_sends k v))).
    intros r m'. cbn. destruct (list_value (m !! k)) as [[|x l]|].
    + by intros [-> ->].
    + by intros [-> ->].
    + by intros [[? ->] ->].
Qed.

Lemma pool_run_spec o s m : shows s m → op_valid o → kept_by (pool_run o) s (spec_op o m).
Proof.
  intros Hs Hv. destruct o; [by apply kept_strings..|by apply kept_queues|by apply kept_queues|by apply kept_queues
    |by apply kept_deQueueAll|by apply kept_sets|by apply kept_sets].
Qed.

(** C9: while its servers answer, and but for what expires, a pool of any size behaves like a
    single map: every sequence of its eleven operations on data, with keys and values of any
    kind, returns what the map returns, the members of a set in an order of the server's, and
    leaves the same contents. *)
Theorem pool_refines_map os s m :
  shows s m → Forall op_valid os →
  ∃ outs s', pool_runs os s = (Ok outs, s') ∧ Forall2 answers outs (spec_ops os m).1 ∧ shows s' (spec_ops os m).2.
Proof.
  intros Hs Hos. revert s m Hs. induction Hos as [|o os Ho Hos IH]; intros s m Hs; [by eexists [], s|].
  destruct (pool_run_spec o s m Hs Ho) as (out & s1 & E1 & Ha & Hs1). cbn [pool_runs spec_ops].
  destruct (spec_op o m) as [r m1]. cbn [fst snd] in *.
  destruct (IH s1 m1 Hs1) as (outs & s2 & E2 & Has & Hs2). destruct (spec_ops os m1) as [rs m2].
  exists (out :: outs), s2. erewrite bind_Ok by exact E1. erewrite bind_Ok by exact E2.
  split_and!; [done|by constructor|done].
Qed.

End refinement.

(** ** Further claims and witnesses *)

Section failures.
Context `{Hiredis, XmlFiles}.

(** When the only configured server cannot be connected, [Init] still reports success
    with a deleted client in the pool, and the first use of the pool is undefined. *)
Lemma Init_keeps_deleted_client path e conf w cx st :
  path ≠ EmptyString → redis_conf_file (c_string path) = Some (Some [e]) → read_server e = Ok conf →
  redisConnectWithTimeout (c_string (_host conf)) (_port conf) (_timeout conf) (rw_state w) = (Some cx, st) →
  redisErr cx st = true →
  ∃ w', Cache_Init path (mkCache [], w) = (Ok true, (mkCache [None], w')) ∧
    rw_contexts w' = rw_contexts w ∧
    ∀ key value, Cache_Get key value (mkCache [None], w') = (Throw Undefined, (mkCache [None], w')).
Proof.
  intros Hp Hf He Hc Herr.
  exists (mkRW (redisFree cx st) (rw_replies w) (rw_contexts w + 1 - 1)). split_and!; [|cbn; lia|].
  - assert (LoadConf path = Ok (true, [conf])) as HL.
    { unfold LoadConf. apply str_empty_false in Hp as ->. rewrite Hf. cbn [read_servers]. by rewrite He. }
    assert (init_clients [conf] (mkCache [], w) = (Ok tt,
      (mkCache [None], mkRW (redisFree cx st) (rw_replies w) (rw_contexts w + 1 - 1)))) as HI.
    { unfold init_clients, with_new_client, Init, Connect, reopen, Disconnect,
        modify, gets, set_context, get, mbind, M_bind; cbn. rewrite Hc; cbn. by rewrite Herr. }
    unfold Cache_Init. rewrite HL. erewrite bind_Ok by reflexivity. cbn [fst snd negb].
    by erewrite bind_Ok by exact HI.
  - intros key value. unfold Cache_Get, dispatch_do, Dispatch, mbind, M_bind; cbn.
    unfold on_client; cbn. unfold slot_of. change (zlen [None]) with 1. rewrite Z.mod_1_r. done.
Qed.

End failures.

(** [Dispatch] takes its slot from the characters behind the seventh: keys that agree
    there share a slot, so all keys of up to seven characters do; and the slot is always
    inside the pool. *)
Lemma slot_of_suffix k1 k2 n :
  0 < n → zdrop 7 (bytes_of k1) = zdrop 7 (bytes_of k2) →
  slot_of k1 n = slot_of k2 n ∧ 0 <= slot_of k1 n < n.
Proof.
  intros Hn E. split; [unfold slot_of, js_hash; by rewrite E|]. apply Z.mod_pos_bound. lia.
Qed.

Lemma slot_of_suffix_witness : slot_of "BCLOCK" 5 = slot_of "TX_POOL" 5 ∧ 0 <= slot_of "BCLOCK" 5 < 5.
Proof. apply slot_of_suffix; [lia|reflexivity]. Defined.

(** Two servers in memory. *)
Definition wpool : RedisCache :=
  @mkCache MemHiredis [Some (@mkRC MemHiredis (mkConf "h" 1 EmptyString 1) (@Some (string * Z) ("h", 1)%string));
                       Some (@mkRC MemHiredis (mkConf "h" 2 EmptyString 1) (@Some (string * Z) ("h", 2)%string))].
Definition wempty : RWorld := @mkRW MemHiredis ∅ 0 2.

Lemma wpool_shows : shows (wpool, wempty) ∅.
Proof.
  split.
  - split; [done|]. repeat constructor; eexists _, _; split; reflexivity.
  - intros k. unfold cache_view. cbn [fst snd]. repeat case_match; cbn; done.
Qed.

Definition wpool_ops : list pool_op :=
  [PIncrBy "account-one" 5 0; PSetNX "LOCK-of-the-chain" "a"; PSetNX "LOCK-of-the-chain" "b";
   PEnQueue "TX_POOL" "t1"; PEnQueueAll "TX_POOL" ["t2"; "t3"]; PDeQueue "TX_POOL" EmptyString; PDeQueueAll "TX_POOL" [];
   PGet "account-one" EmptyString; PAddToSet "members" "m1"; PGetMembers "members" []; PSet EmptyString "v" 0;
   PSet "account-one" "x" 0; PIncrBy "account-one" 1 9].

Definition wpool_outs : list promise :=
  [Exactly (OInt true 5); Exactly (OBool true); Exactly (OBool false); Exactly (OBool true); Exactly (OBool true);
   Exactly (OStr true "t1"); Exactly (OList true ["t2"; "t3"]); Exactly (OStr true "5"); Exactly (OBool true);
   Members [] {["m1"]}; Exactly (OBool false); Exactly (OBool true); Exactly (OInt false 9)].

Lemma wpool_promises : (spec_ops wpool_ops ∅).1 = wpool_outs.
Proof. by vm_compute. Qed.

Lemma pool_refines_map_witness :
  ∃ outs s', pool_runs wpool_ops (wpool, wempty) = (Ok outs, s') ∧ Forall2 answers outs wpool_outs ∧
    shows s' (spec_ops wpool_ops ∅).2.
Proof.
  rewrite <- wpool_promises. apply (pool_refines_map wpool_ops (wpool, wempty) ∅ wpool_shows).
  repeat constructor; cbn; lia.
Defined.

(** A server that refuses connections. *)
Definition DownHiredis : Hiredis := {|
  rstate := unit;
  rctx := unit;
  redisConnectWithTimeout _ _ _ st := (Some tt, st);
  redisErr _ _ := true;
  redisSetTimeout _ _ st := st;
  redisFree _ st := st;
  redisCommandArgv _ _ st := (None, st);
  redisFormat s := [s];
|}.
Definition wfile : XmlFiles := {|
  redis_conf_file _ := Some (Some [mkElem (Some "127.0.0.1") (Some "16379") (Some EmptyString) (Some "10")])%string
|}.

Lemma Init_keeps_deleted_client_witness :
  ∃ w', @Cache_Init DownHiredis wfile "cache.conf" (@mkCache DownHiredis [], @mkRW DownHiredis tt 0 0)
    = (Ok true, (@mkCache DownHiredis [None], w')).
Proof.
  destruct (@Init_keeps_deleted_client DownHiredis wfile "cache.conf"
    (mkElem (Some "127.0.0.1") (Some "16379") (Some EmptyString) (Some "10"))%string
    (mkConf "127.0.0.1" 16379 EmptyString 10) (@mkRW DownHiredis tt 0 0) tt tt) as (w' & E & _);
    [done|reflexivity..|]. by exists w'.
Defined.
