(* ===== verification/Proto.v ===== *)
(** The messages: server/FPProto.h, with the conversions of core/base/JsonMarshallable.h.

    Each message class has one [serialize] template that is run by the writing and by
    the reading archive; here it is one list of named fields, [serialize], run by
    [save] and [load].  The JSON text itself is cereal's: class [Cereal] maps a tree of
    values to a text and back, [CerealLaw] says that reading undoes writing. *)
From S2P Require Import Prelude Cnum BlockBuffer ByteStream Sender.
From Stdlib Require Import Lia.
Open Scope Z_scope.

(** ** Values, codecs and fields *)

#[warnings="-register-all"]
Inductive jval :=
  | JStr (s : string)
  | JNum (z : Z)
  | JArr (l : list jval)
  | JObj (l : list (string * jval)).

(** Writing is a function; reading fills an object that exists, and may stop part way. *)
Record codec (A : Type) := mkCodec { enc : A → jval; dec : jval → M A unit }.
Arguments mkCodec {_} _ _.
Arguments enc {_} _ _.
Arguments dec {_} _ _.

Definition cd_string : codec string := mkCodec JStr (λ v,
  match v with JStr s => put s | _ => throw CerealExn end).

(** A number that does not fit the type of the field is refused. *)
Definition cd_num (fits : Z → bool) : codec Z := mkCodec JNum (λ v,
  match v with
  | JNum z => if fits z then put z else throw CerealExn
  | _ => throw CerealExn
  end).
Definition cd_u64 : codec Z := cd_num (λ z, bool_decide (in_u 64 z)).
Definition cd_i64 : codec Z := cd_num (λ z, bool_decide (in_s 64 z)).
Definition cd_i32 : codec Z := cd_num (λ z, bool_decide (in_s 32 z)).
(** An enumeration is read as its underlying unsigned type. *)
Definition cd_enum : codec Z := cd_num (λ z, bool_decide (in_u 32 z)).

(** A member of class [T] under its name. *)
Record field (T : Type) := mkField { fname : string; fsave : T → jval; fload : jval → M T unit }.
Arguments mkField {_} _ _ _.
Arguments fname {_} _.
Arguments fsave {_} _ _.
Arguments fload {_} _ _.

(** [cereal::make_nvp (name, member)]. *)
Definition make_nvp {T A} (name : string) (c : codec A) (get : T → A) (set : A → T → T) : field T :=
  mkField name (λ t, enc c (get t)) (λ v t,
    let (r, a) := dec c v (get t) in (r, set a t)).

Fixpoint find_name (n : string) (l : list (string * jval)) : option jval :=
  match l with
  | [] => None
  | (m, v) :: l => if bool_decide (m = n) then Some v else find_name n l
  end.

(** Reads the fields in order; a missing one throws, with the earlier ones filled. *)
Fixpoint load_fields {T} (fs : list (field T)) (l : list (string * jval)) : M T unit :=
  match fs with
  | [] => mret tt
  | f :: fs =>
      match find_name (fname f) l with
      | Some v => fload f v ;; load_fields fs l
      | None => throw CerealExn
      end
  end.

(** A message class: its URI and its [serialize]. *)
Class Serializable (T : Type) := { msg_uri : Z; serialize : list (field T) }.
Arguments msg_uri T {_}.

Definition save `{Serializable T} (t : T) : jval := JObj (map (λ f, (fname f, fsave f t)) serialize).
Definition load `{Serializable T} (v : jval) : M T unit :=
  match v with JObj l => load_fields serialize l | _ => throw CerealExn end.
Definition cd_class (T : Type) `{Serializable T} : codec T := mkCodec save load.

(** [std::vector]: resized to the number of elements, which are then read in place. *)
Definition resized {A} (dflt : A) (n : nat) (l : list A) : list A := take n (l ++ replicate n dflt).
Fixpoint load_elems {A} (c : codec A) (vs : list jval) (i : nat) : M (list A) unit :=
  match vs with
  | [] => mret tt
  | v :: vs =>
      (λ l, match l !! i with
            | Some a => let (r, a') := dec c v a in (r, <[i := a']> l)
            | None => (Throw Undefined, l)
            end) ;;
      load_elems c vs (S i)
  end.
Definition cd_vector {A} (dflt : A) (c : codec A) : codec (list A) := mkCodec (λ l, JArr (map (enc c) l)) (λ v,
  match v with
  | JArr vs => modify (resized dflt (length vs)) ;; load_elems c vs 0
  | _ => throw CerealExn
  end).

(** ** The messages *)

(** What a default-initialised integer member contains. *)
Class Indeterminate := { ind_value : Z; ind_timestamp : Z }.

Definition kActionLogin : Z := 0.
Definition kActionLogout : Z := 1.

Record QueryBalance := mkQB { qb_address : string }.
#[export] Instance QueryBalance_ser : Serializable QueryBalance := {|
  msg_uri := 1;
  serialize := [make_nvp "addr" cd_string qb_address (λ a _, mkQB a)];
|}.

Record NodeInfo := mkNI {
  ni_address : string; ni_hostport : string; ni_timestamp : Z; ni_action : Z }.
Definition new_NodeInfo : NodeInfo := mkNI "" "" 0 kActionLogin.
Definition NodeInfo_of (addr hostport : string) (ts : Z) : NodeInfo := mkNI addr hostport ts kActionLogin.
#[export] Instance NodeInfo_ser : Serializable NodeInfo := {|
  msg_uri := 2;
  serialize := [
    make_nvp "addr" cd_string ni_address (λ a m, mkNI a (ni_hostport m) (ni_timestamp m) (ni_action m));
    make_nvp "hostport" cd_string ni_hostport (λ a m, mkNI (ni_address m) a (ni_timestamp m) (ni_action m));
    make_nvp "ts" cd_u64 ni_timestamp (λ a m, mkNI (ni_address m) (ni_hostport m) a (ni_action m));
    make_nvp "action" cd_enum ni_action (λ a m, mkNI (ni_address m) (ni_hostport m) (ni_timestamp m) a)];
|}.

Record Confirmation := mkConfirm { cf_address : string; cf_timestamp : Z }.
#[export] Instance Confirmation_ser : Serializable Confirmation := {|
  msg_uri := 3;
  serialize := [
    make_nvp "addr" cd_string cf_address (λ a m, mkConfirm a (cf_timestamp m));
    make_nvp "ts" cd_u64 cf_timestamp (λ a m, mkConfirm (cf_address m) a)];
|}.

Record Transaction := mkTx {
  tx_id : string; tx_from : string; tx_to : string; tx_value : Z; tx_timestamp : Z }.
Definition new_Transaction `{Indeterminate} : Transaction := mkTx "" "" "" ind_value ind_timestamp.
#[export] Instance Transaction_ser : Serializable Transaction := {|
  msg_uri := 4;
  serialize := [
    make_nvp "id" cd_string tx_id (λ a m, mkTx a (tx_from m) (tx_to m) (tx_value m) (tx_timestamp m));
    make_nvp "from" cd_string tx_from (λ a m, mkTx (tx_id m) a (tx_to m) (tx_value m) (tx_timestamp m));
    make_nvp "to" cd_string tx_to (λ a m, mkTx (tx_id m) (tx_from m) a (tx_value m) (tx_timestamp m));
    make_nvp "value" cd_i64 tx_value (λ a m, mkTx (tx_id m) (tx_from m) (tx_to m) a (tx_timestamp m));
    make_nvp "ts" cd_u64 tx_timestamp (λ a m, mkTx (tx_id m) (tx_from m) (tx_to m) (tx_value m) a)];
|}.

Record Block := mkBlock {
  bk_id : string; bk_prev : string; bk_next : string; bk_timestamp : Z; bk_txList : list Transaction }.
Definition new_Block `{Indeterminate} : Block := mkBlock "" "" "" ind_timestamp [].
#[export] Instance Block_ser `{Indeterminate} : Serializable Block := {|
  msg_uri := 5;
  serialize := [
    make_nvp "id" cd_string bk_id (λ a m, mkBlock a (bk_prev m) (bk_next m) (bk_timestamp m) (bk_txList m));
    make_nvp "prev" cd_string bk_prev (λ a m, mkBlock (bk_id m) a (bk_next m) (bk_timestamp m) (bk_txList m));
    make_nvp "next" cd_string bk_next (λ a m, mkBlock (bk_id m) (bk_prev m) a (bk_timestamp m) (bk_txList m));
    make_nvp "ts" cd_u64 bk_timestamp (λ a m, mkBlock (bk_id m) (bk_prev m) (bk_next m) a (bk_txList m));
    make_nvp "txs" (cd_vector new_Transaction (cd_class Transaction)) bk_txList
      (λ a m, mkBlock (bk_id m) (bk_prev m) (bk_next m) (bk_timestamp m) a)];
|}.

Record Response := mkRsp { rs_status : Z; rs_address : string; rs_desc : string }.
Definition new_Response : Response := mkRsp 0 "" "".
#[export] Instance Response_ser : Serializable Response := {|
  msg_uri := 6;
  serialize := [
    make_nvp "status" cd_i32 rs_status (λ a m, mkRsp a (rs_address m) (rs_desc m));
    make_nvp "addr" cd_string rs_address (λ a m, mkRsp (rs_status m) a (rs_desc m));
    make_nvp "desc" cd_string rs_desc (λ a m, mkRsp (rs_status m) (rs_address m) a)];
|}.

Record BlockSyncRequest := mkBSReq { bq_address : string; bq_lastBlockId : string; bq_timestamp : Z }.
#[export] Instance BlockSyncRequest_ser : Serializable BlockSyncRequest := {|
  msg_uri := 7;
  serialize := [
    make_nvp "address" cd_string bq_address (λ a m, mkBSReq a (bq_lastBlockId m) (bq_timestamp m));
    make_nvp "lastblock" cd_string bq_lastBlockId (λ a m, mkBSReq (bq_address m) a (bq_timestamp m));
    make_nvp "ts" cd_u64 bq_timestamp (λ a m, mkBSReq (bq_address m) (bq_lastBlockId m) a)];
|}.

Record BlockSyncResponse := mkBSRsp { br_address : string; br_blockList : list Block }.
Definition new_BlockSyncResponse : BlockSyncResponse := mkBSRsp "" [].
#[export] Instance BlockSyncResponse_ser `{Indeterminate} : Serializable BlockSyncResponse := {|
  msg_uri := 8;
  serialize := [
    make_nvp "address" cd_string br_address (λ a m, mkBSRsp a (br_blockList m));
    make_nvp "blocks" (cd_vector new_Block (cd_class Block)) br_blockList (λ a m, mkBSRsp (br_address m) a)];
|}.

(** ** The text *)

Class Cereal := {
  cereal_write : jval → string;
  cereal_read : string → option jval;      (** [None]: a [cereal::Exception] *)
}.

(** Strings are written and read as C strings. *)
Fixpoint clean (v : jval) : bool :=
  match v with
  | JStr s => bool_decide (c_string s = s)
  | JNum _ => true
  | JArr l => forallb clean l
  | JObj l => forallb (λ p, clean p.2) l
  end.

Class CerealLaw `{Cereal} := {
  read_write v : clean v = true → cereal_read (cereal_write v) = Some v;
  write_nonempty v : cereal_write v ≠ EmptyString;
  read_empty : cereal_read EmptyString = None;
}.

Section text.
Context `{Cereal, Serializable T}.

(** The reading archive over a text. *)
Definition archive_in (text : string) : M T unit :=
  match cereal_read text with
  | Some v => load v
  | None => throw CerealExn
  end.

Definition archive_out (t : T) : string := cereal_write (save t).

(** [toString]: the text and the flag. *)
Definition toString (t : T) : bool * string := (negb (str_empty (archive_out t)), archive_out t).

(** [fromString]; a failed one may have filled some members. *)
Definition fromString (json : string) : M T bool :=
  try_catch (archive_in json ;; mret true) (λ e,
    match e with CerealExn => Some (mret false) | _ => None end).

(** [marshal]: the text goes into the message body. *)
Definition json_marshal (t : T) : Marshallable := λ h, writeByte h (bytes_of (archive_out t)).

(** [unmarshal]: reads the rest of the body without consuming it. *)
Definition json_unmarshal (up : list byte) : M T unit :=
  try_catch (archive_in (string_of up)) (λ e,
    match e with CerealExn => Some (throw ReadStreamExn) | _ => None end).

End text.

(** ** Reading what was written *)

(** [c] reads back [a] over any old value. *)
Definition codec_ok {A} (c : codec A) (a : A) : Prop := ∀ old, dec c (enc c a) old = (Ok tt, a).

Lemma cd_string_ok s : codec_ok cd_string s.
Proof. by intros old. Qed.

Lemma cd_num_ok fits z : fits z = true → codec_ok (cd_num fits) z.
Proof. intros Hz old. cbn. by rewrite Hz. Qed.

Lemma cd_u64_ok z : in_u 64 z → codec_ok cd_u64 z.
Proof. intros. apply cd_num_ok. by apply bool_decide_eq_true. Qed.
Lemma cd_i64_ok z : in_s 64 z → codec_ok cd_i64 z.
Proof. intros. apply cd_num_ok. by apply bool_decide_eq_true. Qed.
Lemma cd_i32_ok z : in_s 32 z → codec_ok cd_i32 z.
Proof. intros. apply cd_num_ok. by apply bool_decide_eq_true. Qed.
Lemma cd_enum_ok z : in_u 32 z → codec_ok cd_enum z.
Proof. intros. apply cd_num_ok. by apply bool_decide_eq_true. Qed.

Lemma make_nvp_ok {T A} n (c : codec A) get set (x y : T) :
  codec_ok c (get x) →
  fload (make_nvp n c get set) (fsave (make_nvp n c get set) x) y = (Ok tt, set (get x) y).
Proof. intros Hc. cbn. by rewrite Hc. Qed.

(** Reading the fields of [x] one by one takes [y] to [z]. *)
Fixpoint copies {T} (fs : list (field T)) (x y z : T) : Prop :=
  match fs with
  | [] => y = z
  | f :: fs => ∃ y', fload f (fsave f x) y = (Ok tt, y') ∧ copies fs x y' z
  end.

Lemma find_name_saved {T} (x : T) (f : field T) fs :
  NoDup (map fname fs) → f ∈ fs → find_name (fname f) (map (λ f, (fname f, fsave f x)) fs) = Some (fsave f x).
Proof.
  induction fs as [|g fs IH]; intros Hnd Hf; [by apply elem_of_nil in Hf|].
  cbn in *. inversion_clear Hnd as [|? ? Hg Hnd2]. apply elem_of_cons in Hf as [->|Hf].
  - by rewrite bool_decide_true.
  - rewrite bool_decide_false; [by apply IH|]. intros E. apply Hg. rewrite E.
    apply list_elem_of_fmap. eauto.
Qed.

Lemma load_fields_saved {T} (x y z : T) all fs :
  NoDup (map fname all) → (∀ f, f ∈ fs → f ∈ all) → copies fs x y z →
  load_fields fs (map (λ f, (fname f, fsave f x)) all) y = (Ok tt, z).
Proof.
  intros Hnd. revert y. induction fs as [|f fs IH]; intros y Hin Hc; cbn in *; [by subst|].
  destruct Hc as (y' & E & Hc). rewrite find_name_saved by (try apply Hin; try done; by left).
  erewrite bind_Ok by exact E. apply IH; [|done]. intros g Hg. apply Hin. by right.
Qed.

Lemma load_saved `{Serializable T} (x y : T) :
  NoDup (map fname (serialize (T:=T))) → copies serialize x y x → load (save x) y = (Ok tt, x).
Proof. intros Hnd Hc. by apply load_fields_saved. Qed.

Lemma zlen_resized {A} (d : A) n l : length (resized d n l) = n.
Proof. unfold resized. rewrite length_take, length_app, length_replicate. lia. Qed.

Lemma load_elems_ok {A} (c : codec A) xs done_ rest :
  Forall (codec_ok c) xs → length rest = length xs →
  load_elems c (map (enc c) xs) (length done_) (done_ ++ rest) = (Ok tt, done_ ++ xs).
Proof.
  intros Hx. revert done_ rest. induction Hx as [|x xs Hx Hxs IH]; intros done_ rest Hl; cbn in *.
  - destruct rest; [done|discriminate].
  - destruct rest as [|r rest]; [discriminate|]. cbn in Hl.
    unfold mbind, M_bind. rewrite list_lookup_middle by done. rewrite Hx.
    rewrite insert_app_r_alt, Nat.sub_diag by done. change (<[0%nat:=x]> (r :: rest)) with (x :: rest).
    specialize (IH (done_ ++ [x]) rest ltac:(lia)). rewrite length_app in IH. cbn in IH.
    rewrite Nat.add_1_r, <- !app_assoc in IH. exact IH.
Qed.

Lemma cd_vector_ok {A} (d : A) c l : Forall (codec_ok c) l → codec_ok (cd_vector d c) l.
Proof.
  intros Hl old. cbn. erewrite bind_Ok by reflexivity. rewrite length_map.
  apply (load_elems_ok c l [] (resized d (length l) old) Hl). apply zlen_resized.
Qed.

(** ** The messages are read back *)

Definition clean_str (s : string) : Prop := c_string s = s.

Class MessageLaw (T : Type) `{Serializable T} := {
  valid : T → Prop;
  load_save x y : valid x → load (save x) y = (Ok tt, x);
  save_clean x : valid x → clean (save x) = true;
}.

Lemma cd_class_ok `{MessageLaw T} x : valid x → codec_ok (cd_class T) x.
Proof. intros Hx old. by apply load_save. Qed.

Lemma cd_vector_class_ok `{MessageLaw T} (d : T) l :
  Forall valid l → codec_ok (cd_vector d (cd_class T)) l.
Proof. intros Hl. apply cd_vector_ok. induction Hl; constructor; [by apply cd_class_ok|done]. Qed.

Ltac solve_load :=
  intros; destruct_and?; apply load_saved; [apply (bool_decide_unpack _); vm_compute; exact I|];
  repeat (eexists; split; [apply make_nvp_ok; first
    [apply cd_string_ok | by apply cd_u64_ok | by apply cd_i64_ok | by apply cd_i32_ok | by apply cd_enum_ok
    | by apply cd_vector_class_ok]|]);
  match goal with |- copies [] ?x _ _ => by destruct x end.

Ltac solve_clean :=
  intros; destruct_and?; cbn; unfold clean_str in *; rewrite ?bool_decide_true by done; try done.

#[export, refine] Instance QueryBalance_law : MessageLaw QueryBalance := {|
  valid m := clean_str (qb_address m);
|}.
Proof. 1: solve_load. solve_clean. Defined.

#[export, refine] Instance NodeInfo_law : MessageLaw NodeInfo := {|
  valid m := clean_str (ni_address m) ∧ clean_str (ni_hostport m) ∧
    in_u 64 (ni_timestamp m) ∧ in_u 32 (ni_action m);
|}.
Proof. 1: solve_load. solve_clean. Defined.

#[export, refine] Instance Confirmation_law : MessageLaw Confirmation := {|
  valid m := clean_str (cf_address m) ∧ in_u 64 (cf_timestamp m);
|}.
Proof. 1: solve_load. solve_clean. Defined.

#[export, refine] Instance Transaction_law : MessageLaw Transaction := {|
  valid m := clean_str (tx_id m) ∧ clean_str (tx_from m) ∧ clean_str (tx_to m) ∧
    in_s 64 (tx_value m) ∧ in_u 64 (tx_timestamp m);
|}.
Proof. 1: solve_load. solve_clean. Defined.

Lemma forallb_saved `{MessageLaw T} l : Forall valid l → forallb clean (map save l) = true.
Proof. induction 1 as [|x l Hx Hl IH]; [done|]. cbn [map forallb]. by rewrite save_clean, IH. Qed.

#[export, refine] Instance Block_law `{Indeterminate} : MessageLaw Block := {|
  valid m := clean_str (bk_id m) ∧ clean_str (bk_prev m) ∧ clean_str (bk_next m) ∧
    in_u 64 (bk_timestamp m) ∧ Forall valid (bk_txList m);
|}.
Proof. 1: solve_load. solve_clean. by rewrite forallb_saved. Defined.

#[export, refine] Instance Response_law : MessageLaw Response := {|
  valid m := in_s 32 (rs_status m) ∧ clean_str (rs_address m) ∧ clean_str (rs_desc m);
|}.
Proof. 1: solve_load. solve_clean. Defined.

#[export, refine] Instance BlockSyncRequest_law : MessageLaw BlockSyncRequest := {|
  valid m := clean_str (bq_address m) ∧ clean_str (bq_lastBlockId m) ∧ in_u 64 (bq_timestamp m);
|}.
Proof. 1: solve_load. solve_clean. Defined.

#[export, refine] Instance BlockSyncResponse_law `{Indeterminate} : MessageLaw BlockSyncResponse := {|
  valid m := clean_str (br_address m) ∧ Forall valid (br_blockList m);
|}.
Proof. 1: solve_load. solve_clean. by rewrite forallb_saved. Defined.

Section text_laws.
Context `{CerealLaw, MessageLaw T}.

Lemma archive_in_out (x y : T) : valid x → archive_in (archive_out x) y = (Ok tt, x).
Proof.
  intros Hx. unfold archive_in, archive_out. rewrite read_write by (by apply save_clean).
  by apply load_save.
Qed.

Lemma toString_ok (x : T) : toString x = (true, archive_out x).
Proof.
  unfold toString. assert (str_empty (archive_out x) = false) as ->; [|done].
  apply str_empty_false, write_nonempty.
Qed.

Lemma fromString_ok (x y : T) : valid x → fromString (archive_out x) y = (Ok true, x).
Proof.
  intros Hx. unfold fromString, try_catch. erewrite bind_Ok by (by apply archive_in_out). done.
Qed.

Lemma fromString_empty (y : T) : fromString EmptyString y = (Ok false, y).
Proof. unfold fromString, try_catch, archive_in, mbind, M_bind. by rewrite read_empty. Qed.

Lemma json_marshal_appends (x : T) : appends_body (json_marshal x) (bytes_of (archive_out x)).
Proof. intros h. apply appends_write. Qed.

(** C15: a valid message of any class is read back from its text, and from the body bytes
    [marshal] puts on the wire, whatever the receiving object held before. *)
Theorem message_round_trip (x y : T) :
  valid x →
  fromString (toString x).2 y = (Ok true, x) ∧
  json_unmarshal (bytes_of (archive_out x)) y = (Ok tt, x) ∧
  appends_body (json_marshal x) (bytes_of (archive_out x)).
Proof.
  intros Hx. split_and!; [by rewrite toString_ok; apply fromString_ok| |apply json_marshal_appends].
  unfold json_unmarshal, try_catch. by rewrite string_of_bytes_of, archive_in_out.
Qed.

End text_laws.

(** ** A text format, for the witnesses

    A tree is coded as a number and written in decimal. *)

Fixpoint jtree (v : jval) : gen_tree (string + Z) :=
  match v with
  | JStr s => GenLeaf (inl s)
  | JNum z => GenLeaf (inr z)
  | JArr l => GenNode 0 (map jtree l)
  | JObj l => GenNode 1 (map (λ p, GenNode 2 [GenLeaf (inl p.1); jtree p.2]) l)
  end.

Fixpoint treej (t : gen_tree (string + Z)) : jval :=
  match t with
  | GenLeaf (inl s) => JStr s
  | GenLeaf (inr z) => JNum z
  | GenNode 0 l => JArr (map treej l)
  | GenNode _ l => JObj (map (λ t, match t with
      | GenNode _ [GenLeaf (inl n); t] => (n, treej t)
      | _ => (EmptyString, JNum 0)
      end) l)
  end.

Fixpoint treej_jtree v : treej (jtree v) = v.
Proof.
  destruct v as [s|z|l|l]; cbn; [done..| |]; f_equal.
  - induction l as [|x l IH]; cbn; [done|]. f_equal; [apply treej_jtree|exact IH].
  - induction l as [|[n x] l IH]; cbn; [done|]. f_equal; [by rewrite treej_jtree|exact IH].
Defined.

Definition num_of (v : jval) : Z := Zpos (encode (jtree v)).

#[export] Instance MemCereal : Cereal := {|
  cereal_write v := dec_string (num_of v);
  cereal_read s :=
    match strtoll_value s with
    | Some (Zpos p) => treej <$> decode p
    | _ => None
    end;
|}.

#[export] Instance MemCerealLaw : CerealLaw.
Proof.
  split.
  - intros v _. unfold cereal_read, cereal_write, MemCereal. rewrite strtoll_value_dec.
    unfold num_of. rewrite decode_encode. cbn. by rewrite treej_jtree.
  - intros v. apply dec_string_not_empty.
  - done.
Defined.

#[export] Instance wind : Indeterminate := {| ind_value := 424242; ind_timestamp := 171717 |}.

Definition wtx : Transaction := mkTx "t1" "alice" "bob" 25 7.
Definition wblock : Block := mkBlock "b1" "b0" "" 1234 [wtx; mkTx "t2" "bob" "carol" (-3) 8].

Lemma message_round_trip_witness :
  fromString (toString wblock).2 new_Block = (Ok true, wblock) ∧
  json_unmarshal (bytes_of (archive_out wblock)) new_Block = (Ok tt, wblock).
Proof.
  destruct (message_round_trip wblock new_Block) as (H1 & H2 & _).
  - repeat first [split|constructor]; done.
  - split; [exact H1|exact H2].
Defined.
