(* ===== verification/Config.v ===== *)
(** The configuration: server/Config.h and server/Config.cpp.

    [Load] reads the elements of an XML file one after the other into the object; the
    TinyXML document is the parameter [ConfigFiles].  The second route, through
    cereal ([serialize], [ToString], [FromString]), uses the fields of Proto.v. *)
From S2P Require Import Prelude Cnum ByteStream Sender Proto.
Open Scope Z_scope.

Record Config := mkConfig {
  blockSyncInterval : Z; nodeRole : Z; host : string; initBlockId : string;
  lastBlockKey : string; dbService : string; cacheService : string; txPoolKey : string;
  BCLock : string; childNodesKey : string; parentNode : string; logLevel : Z; logPath : string;
}.

(** The constructor sets one member; the two other integers are indeterminate. *)
Definition new_Config (nodeRole logLevel : Z) : Config :=
  mkConfig 500 nodeRole "" "" "" "" "" "" "" "" "" logLevel "".

Definition set_blockSyncInterval (v : Z) (c : Config) : Config := mkConfig v (nodeRole c) (host c)
  (initBlockId c) (lastBlockKey c) (dbService c) (cacheService c) (txPoolKey c) (BCLock c)
  (childNodesKey c) (parentNode c) (logLevel c) (logPath c).
Definition set_nodeRole (v : Z) (c : Config) : Config := mkConfig (blockSyncInterval c) v (host c)
  (initBlockId c) (lastBlockKey c) (dbService c) (cacheService c) (txPoolKey c) (BCLock c)
  (childNodesKey c) (parentNode c) (logLevel c) (logPath c).
Definition set_host (v : string) (c : Config) : Config := mkConfig (blockSyncInterval c) (nodeRole c) v
  (initBlockId c) (lastBlockKey c) (dbService c) (cacheService c) (txPoolKey c) (BCLock c)
  (childNodesKey c) (parentNode c) (logLevel c) (logPath c).
Definition set_initBlockId (v : string) (c : Config) : Config := mkConfig (blockSyncInterval c) (nodeRole c)
  (host c) v (lastBlockKey c) (dbService c) (cacheService c) (txPoolKey c) (BCLock c)
  (childNodesKey c) (parentNode c) (logLevel c) (logPath c).
Definition set_lastBlockKey (v : string) (c : Config) : Config := mkConfig (blockSyncInterval c) (nodeRole c)
  (host c) (initBlockId c) v (dbService c) (cacheService c) (txPoolKey c) (BCLock c)
  (childNodesKey c) (parentNode c) (logLevel c) (logPath c).
Definition set_dbService (v : string) (c : Config) : Config := mkConfig (blockSyncInterval c) (nodeRole c)
  (host c) (initBlockId c) (lastBlockKey c) v (cacheService c) (txPoolKey c) (BCLock c)
  (childNodesKey c) (parentNode c) (logLevel c) (logPath c).
Definition set_cacheService (v : string) (c : Config) : Config := mkConfig (blockSyncInterval c) (nodeRole c)
  (host c) (initBlockId c) (lastBlockKey c) (dbService c) v (txPoolKey c) (BCLock c)
  (childNodesKey c) (parentNode c) (logLevel c) (logPath c).
Definition set_txPoolKey (v : string) (c : Config) : Config := mkConfig (blockSyncInterval c) (nodeRole c)
  (host c) (initBlockId c) (lastBlockKey c) (dbService c) (cacheService c) v (BCLock c)
  (childNodesKey c) (parentNode c) (logLevel c) (logPath c).
Definition set_BCLock (v : string) (c : Config) : Config := mkConfig (blockSyncInterval c) (nodeRole c)
  (host c) (initBlockId c) (lastBlockKey c) (dbService c) (cacheService c) (txPoolKey c) v
  (childNodesKey c) (parentNode c) (logLevel c) (logPath c).
Definition set_childNodesKey (v : string) (c : Config) : Config := mkConfig (blockSyncInterval c) (nodeRole c)
  (host c) (initBlockId c) (lastBlockKey c) (dbService c) (cacheService c) (txPoolKey c) (BCLock c)
  v (parentNode c) (logLevel c) (logPath c).
Definition set_parentNode (v : string) (c : Config) : Config := mkConfig (blockSyncInterval c) (nodeRole c)
  (host c) (initBlockId c) (lastBlockKey c) (dbService c) (cacheService c) (txPoolKey c) (BCLock c)
  (childNodesKey c) v (logLevel c) (logPath c).
Definition set_logLevel (v : Z) (c : Config) : Config := mkConfig (blockSyncInterval c) (nodeRole c)
  (host c) (initBlockId c) (lastBlockKey c) (dbService c) (cacheService c) (txPoolKey c) (BCLock c)
  (childNodesKey c) (parentNode c) v (logPath c).
Definition set_logPath (v : string) (c : Config) : Config := mkConfig (blockSyncInterval c) (nodeRole c)
  (host c) (initBlockId c) (lastBlockKey c) (dbService c) (cacheService c) (txPoolKey c) (BCLock c)
  (childNodesKey c) (parentNode c) (logLevel c) v.

(** What TinyXML shows of a file: [None] when it cannot be opened, [Some None] without a
    root element [server], else the text of each element below it. *)
Class ConfigFiles := { config_file : string → option (option (string → option string)) }.

(** The object, and the number of [FILE]s that are open. *)
Abbreviation LoadM := (M (Config * Z)).

Definition on_config (f : Config → Config) : LoadM unit := modify (λ s, (f s.1, s.2)).
Definition file_open : LoadM unit := modify (λ s, (s.1, s.2 + 1)).
Definition file_close : LoadM unit := modify (λ s, (s.1, s.2 - 1)).

(** An element the file must have: without its text [Load] returns false at once. *)
Definition required (text : string → option string) (name : string) (set : string → Config → Config)
    (rest : LoadM bool) : LoadM bool :=
  match text name with
  | None => mret false
  | Some s => on_config (set s) ;; rest
  end.

Definition optional (text : string → option string) (name : string) (set : string → Config → Config) : LoadM unit :=
  match text name with
  | None => mret tt
  | Some s => on_config (set s)
  end.

(** The elements behind [blockSyncInterval], in the order [Load] asks for them. *)
Definition Load_elements (text : string → option string) : LoadM bool :=
  required text "initBlockId" set_initBlockId (
  required text "host" set_host (
  required text "dbService" set_dbService (
  required text "cacheService" set_cacheService (
  required text "lastBlockKey" set_lastBlockKey (
  required text "txPoolKey" set_txPoolKey (
  required text "BCLock" set_BCLock (
  required text "nodeRole" (λ s, set_nodeRole (atoi s)) (
  required text "childNodesKey" set_childNodesKey (
  optional text "parentNode" set_parentNode ;;
  optional text "logLevel" (λ s, set_logLevel (atoi s)) ;;
  optional text "logPath" set_logPath ;;
  mret true))))))))).

(** [Config::Load], built without [CFG_CEREAL]. *)
Definition Load `{ConfigFiles} (file : string) : LoadM bool :=
  match config_file file with
  | None => mret false
  | Some None => file_open ;; file_close ;; mret false
  | Some (Some text) =>
      file_open ;;
      optional text "blockSyncInterval" (λ s, set_blockSyncInterval (atoi s)) ;;
      Load_elements text
  end.

(** [Config::serialize]. *)
#[export] Instance Config_ser : Serializable Config := {|
  msg_uri := 0;      (* not a message *)
  serialize := [
    make_nvp "blockSyncInterval" cd_i32 blockSyncInterval set_blockSyncInterval;
    make_nvp "initBlockId" cd_string initBlockId set_initBlockId;
    make_nvp "host" cd_string host set_host;
    make_nvp "parentNode" cd_string parentNode set_parentNode;
    make_nvp "childNodesKey" cd_string childNodesKey set_childNodesKey;
    make_nvp "logLevel" cd_i32 logLevel set_logLevel;
    make_nvp "logPath" cd_string logPath set_logPath;
    make_nvp "dbService" cd_string dbService set_dbService;
    make_nvp "cacheService" cd_string cacheService set_cacheService;
    make_nvp "BCLock" cd_string BCLock set_BCLock;
    make_nvp "txPoolKey" cd_string txPoolKey set_txPoolKey;
    make_nvp "lastBlockKey" cd_string lastBlockKey set_lastBlockKey;
    make_nvp "nodeRole" cd_i32 nodeRole set_nodeRole];
|}.

Definition ToString `{Cereal} (c : Config) : bool * string := toString c.
Definition FromString `{Cereal} (json : string) : M Config bool := fromString json.

(** ** Configurations in files, through cereal

    The files of the process by name; a stream on a name that cannot be opened reads as
    empty, and takes what is written to it without a complaint. *)

Record FileSystem := mkFS { fs_files : gmap string string; fs_writable : string → bool }.

Definition fs_write (file text : string) (fs : FileSystem) : FileSystem :=
  if fs_writable fs file then mkFS (<[file := text]> (fs_files fs)) (fs_writable fs) else fs.

(** [FromJsonFile] and [FromXmlFile]; [archive] is the format of the archive. *)
Definition FromFile (archive : Cereal) (fs : FileSystem) (file : string) : M Config bool :=
  @fromString archive _ _ (default ""%string (fs_files fs !! file)).
(** [ToJsonFile] and [ToXmlFile]. *)
Definition ToFile (archive : Cereal) (c : Config) (file : string) : M FileSystem bool := λ fs,
  (Ok true, fs_write file (@archive_out archive _ _ c) fs).

Definition FromJsonFile (json : Cereal) := FromFile json.
Definition ToJsonFile (json : Cereal) := ToFile json.
Definition FromXmlFile (xml : Cereal) := FromFile xml.
Definition ToXmlFile (xml : Cereal) := ToFile xml.

(** [Config::Load] of a build with [CFG_CEREAL]. *)
Definition Load_cereal (xml : Cereal) (fs : FileSystem) (file : string) : M Config bool := FromXmlFile xml fs file.

(** [Config::Instance]: made at the first call; [instance] is the static member. *)
Definition Instance_get (nodeRole logLevel : Z) : M (option Config) Config := λ instance,
  match instance with
  | Some c => (Ok c, instance)
  | None => let c := new_Config nodeRole logLevel in (Ok c, Some c)
  end.

(** ** Properties *)

#[export, refine] Instance Config_law : MessageLaw Config := {|
  valid m := in_s 32 (blockSyncInterval m) ∧ clean_str (initBlockId m) ∧ clean_str (host m) ∧
    clean_str (parentNode m) ∧ clean_str (childNodesKey m) ∧ in_s 32 (logLevel m) ∧ clean_str (logPath m) ∧
    clean_str (dbService m) ∧ clean_str (cacheService m) ∧ clean_str (BCLock m) ∧ clean_str (txPoolKey m) ∧
    clean_str (lastBlockKey m) ∧ in_s 32 (nodeRole m);
|}.
Proof. 1: solve_load. solve_clean. Defined.

Definition required_names : list string :=
  ["initBlockId"; "host"; "dbService"; "cacheService"; "lastBlockKey"; "txPoolKey"; "BCLock";
   "nodeRole"; "childNodesKey"]%string.

(** The members of a configuration that [Load] has accepted. *)
Definition configured (text : string → option string) (c0 c : Config) : Prop :=
  text "initBlockId"%string = Some (initBlockId c) ∧ text "host"%string = Some (host c) ∧
  text "dbService"%string = Some (dbService c) ∧ text "cacheService"%string = Some (cacheService c) ∧
  text "lastBlockKey"%string = Some (lastBlockKey c) ∧ text "txPoolKey"%string = Some (txPoolKey c) ∧
  text "BCLock"%string = Some (BCLock c) ∧ text "childNodesKey"%string = Some (childNodesKey c) ∧
  (∃ s, text "nodeRole"%string = Some s ∧ nodeRole c = atoi s) ∧
  blockSyncInterval c = from_option atoi (blockSyncInterval c0) (text "blockSyncInterval"%string) ∧
  parentNode c = default (parentNode c0) (text "parentNode"%string) ∧
  logLevel c = from_option atoi (logLevel c0) (text "logLevel"%string) ∧
  logPath c = default (logPath c0) (text "logPath"%string).

Section load.
Context (text : string → option string).

(** [m] returns false and opens no file. *)
Definition refuses (m : LoadM bool) : Prop := ∀ s, ∃ c, m s = (Ok false, (c, s.2)).

Lemma required_missing name set rest : text name = None → refuses (required text name set rest).
Proof. intros Hn s. unfold required. rewrite Hn. by exists s.1; destruct s. Qed.

Lemma required_refuses name set rest : refuses rest → refuses (required text name set rest).
Proof.
  intros Hr s. unfold required. destruct (text name); [|by exists s.1; destruct s].
  destruct (Hr (set s0 s.1, s.2)) as [c E]. exists c. exact E.
Qed.

Lemma required_Some name v set rest s :
  text name = Some v → required text name set rest s = rest (set v s.1, s.2).
Proof. intros Hn. unfold required. by rewrite Hn. Qed.

Lemma optional_run {A} name set (k : LoadM A) s :
  (optional text name set ;; k) s = k (from_option set id (text name) s.1, s.2).
Proof. unfold optional. by destruct (text name), s. Qed.

Lemma Load_elements_missing :
  ¬ Forall (λ m, is_Some (text m)) required_names → refuses (Load_elements text).
Proof.
  intros Hn. apply not_Forall_Exists in Hn; [|intros; apply _]. unfold required_names in Hn.
  repeat (apply Exists_cons in Hn as [Hn%eq_None_not_Some|Hn];
    [repeat first [by apply required_missing|apply required_refuses]|]).
  by apply Exists_nil in Hn.
Qed.

Lemma Load_elements_all c0 n :
  Forall (λ m, is_Some (text m)) required_names →
  ∃ c, Load_elements text (from_option (λ s, set_blockSyncInterval (atoi s)) id
      (text "blockSyncInterval"%string) c0, n) = (Ok true, (c, n)) ∧ configured text c0 c.
Proof.
  intros Hall. unfold required_names in Hall.
  repeat match goal with Hall : Forall _ (_ :: _) |- _ =>
    let v := fresh "v" in let E := fresh "E" in
    apply Forall_cons_1 in Hall as [[v E] Hall] end.
  unfold Load_elements.
  repeat match goal with E : text ?n = Some ?v |- context [required text ?n ?f ?k ?s] =>
    rewrite (required_Some n v f k s E) end.
  rewrite !optional_run.
  eexists. split; [reflexivity|]. unfold configured.
  rewrite E, E0, E1, E2, E3, E4, E5, E6, E7.
  destruct (text "blockSyncInterval"%string), (text "parentNode"%string), (text "logLevel"%string),
    (text "logPath"%string); cbn; split_and!; eauto.
Qed.
End load.

(** On a file with a [server] element, [Load] returns true exactly when all nine
    required elements have a text, and then every member holds what the file says or, for an
    optional element, its old value; either way the file it opened stays open. *)
Lemma Load_spec `{ConfigFiles} file text c0 n :
  config_file file = Some (Some text) →
  ∃ b c, Load file (c0, n) = (Ok b, (c, n + 1)) ∧
    (b = true ↔ Forall (λ m, is_Some (text m)) required_names) ∧
    (b = true → configured text c0 c).
Proof.
  intros Hf. set (c1 := from_option (λ s, set_blockSyncInterval (atoi s)) id (text "blockSyncInterval"%string) c0).
  assert (Load file (c0, n) = Load_elements text (c1, n + 1)) as ->.
  { unfold Load. rewrite Hf. cbn iota. erewrite bind_Ok by reflexivity. exact (optional_run text _ _ _ (c0, n + 1)). }
  destruct (decide (Forall (λ m, is_Some (text m)) required_names)) as [Hall|Hn].
  - destruct (Load_elements_all text c0 (n + 1) Hall) as (c & E & Hc).
    exists true, c. split; [exact E|]. done.
  - destruct (Load_elements_missing text Hn (c1, n + 1)) as [c E].
    exists false, c. split; [exact E|]. done.
Qed.

Definition wtext : string → option string := λ m,
  if bool_decide (m ∈ required_names) then Some "1"%string
  else if bool_decide (m = "logLevel"%string) then Some "2"%string else None.

Lemma Load_spec_witness :
  ∃ c, @Load {| config_file _ := Some (Some wtext) |} "conf" (new_Config 7 9, 0) = (Ok true, (c, 1)) ∧
    logLevel c = 2 ∧ blockSyncInterval c = 500.
Proof.
  destruct (@Load_spec {| config_file _ := Some (Some wtext) |} "conf" wtext (new_Config 7 9) 0 eq_refl)
    as (b & c & E & Hb & Hc).
  assert (b = true) as -> by (apply Hb; repeat (constructor; [eexists; reflexivity|]); constructor).
  destruct (Hc eq_refl) as (_ & _ & _ & _ & _ & _ & _ & _ & _ & Hi & _ & Hl & _).
  exists c. split; [exact E|]. split; [exact Hl|exact Hi].
Defined.

(** Written and read back in either format, over any old object; a file that is not there, or
    that could not be written, is refused and leaves the object alone, and the writer says
    true all the same. *)
Lemma config_file_round_trip (archive : Cereal) `{!CerealLaw} fs file c c0 :
  valid c →
  ∃ fs', ToFile archive c file fs = (Ok true, fs') ∧
    (fs_writable fs file = true → FromFile archive fs' file c0 = (Ok true, c)) ∧
    (fs_writable fs file = false → fs_files fs !! file = None → FromFile archive fs' file c0 = (Ok false, c0)) ∧
    (∀ f, f ≠ file → fs_files fs' !! f = fs_files fs !! f).
Proof.
  intros Hc. eexists. split; [reflexivity|]. unfold fs_write, FromFile. split_and!.
  - intros ->. cbn. rewrite lookup_insert_eq. cbn. by apply fromString_ok.
  - intros -> ->. cbn. by apply fromString_empty.
  - intros f Hf. destruct (fs_writable fs file); [|done]. cbn. by rewrite lookup_insert_ne.
Qed.

Lemma Instance_once nr ll nr' ll' inst :
  ∃ c, (Instance_get nr ll ;; Instance_get nr' ll') inst = (Ok c, Some c) ∧ (Instance_get nr ll inst).1 = Ok c.
Proof. destruct inst as [c|]; [by exists c|]. by exists (new_Config nr ll). Qed.
