(* ===== verification/Helper.v ===== *)
(** The helpers of server/Helper.cpp: random names and addresses in network order.

    [srand] and [rand] are the C library's: class [Rand] gives the sequence a seed
    starts, and the clock of [time (NULL)] is an argument. *)
From S2P Require Import Prelude Cnum ByteStream.
From Stdlib Require Import Lia Ascii.
Open Scope Z_scope.

Class Rand := { rand_after : Z → nat → Z }.   (** seed, number of earlier calls *)

(** C: the values of [rand] are not negative. *)
Class RandLaw `{Rand} := { rand_nonneg seed n : 0 <= rand_after seed n }.

(** One character: [x % 3] chooses between upper case, lower case and digits. *)
Definition rand_char (x : Z) : ascii :=
  let y := Z.rem x 3 in
  ascii_of_N (Z.to_N (
    if y =? 0 then 65 + Z.rem x 26
    else if y =? 1 then 97 + Z.rem x 26
    else 48 + Z.rem x 10)).

Fixpoint rand_string `{Rand} (seed : Z) (i n : nat) : string :=
  match n with
  | O => EmptyString
  | S n => String (rand_char (rand_after seed i)) (rand_string seed (S i) n)
  end.

(** [GetRandStr (str, len)]: [len - 1] characters and the terminator; the seed is
    [time (NULL)] as [unsigned]. *)
Definition GetRandStr `{Rand} (now len : Z) : string := rand_string (u32 now) 0 (Z.to_nat (len - 1)).

(** [NetAtoi]: four bytes, the first one the highest; [int] arithmetic. *)
Definition NetAtoi (l : list byte) : Z :=
  fold_left (λ out i, s32 (out + s32 (Z.shiftl (byte_val (default x00 (l !! i))) (24 - 8 * Z.of_nat i)))) [0; 1; 2; 3]%nat 0.

(** [NetItoa]. *)
Definition NetItoa (z : Z) : list byte :=
  map (λ i, byte_of (Z.land (Z.shiftr z (24 - 8 * Z.of_nat i)) 255)) [0; 1; 2; 3]%nat.

Definition alnum (c : ascii) : bool :=
  let n := Z.of_N (N_of_ascii c) in
  ((65 <=? n) && (n <=? 90)) || ((97 <=? n) && (n <=? 122)) || ((48 <=? n) && (n <=? 57)).

Lemma rand_char_alnum x : 0 <= x → alnum (rand_char x) = true.
Proof.
  intros Hx. unfold rand_char, alnum. rewrite !Z.rem_mod_nonneg by lia.
  pose proof (Z.mod_pos_bound x 3). pose proof (Z.mod_pos_bound x 26). pose proof (Z.mod_pos_bound x 10).
  destruct (x mod 3 =? 0); [|destruct (x mod 3 =? 1)];
    rewrite N_ascii_embedding, Z2N.id by lia; lia.
Qed.

Fixpoint all_alnum (s : string) : bool :=
  match s with EmptyString => true | String c s => alnum c && all_alnum s end.

Lemma rand_string_spec `{RandLaw} seed i n :
  String.length (rand_string seed i n) = n ∧ all_alnum (rand_string seed i n) = true.
Proof.
  revert i. induction n as [|n IH]; intros i; [done|]. destruct (IH (S i)) as [Hl Ha].
  cbn. rewrite Hl, Ha, rand_char_alnum by apply rand_nonneg. done.
Qed.

Lemma c_string_alnum s : all_alnum s = true → c_string s = s.
Proof.
  induction s as [|c s IH]; [done|]. cbn. intros [Hc Hs]%andb_true_iff. rewrite (IH Hs).
  destruct (N.eqb_spec (N_of_ascii c) 0) as [E|]; [|done].
  unfold alnum in Hc. rewrite E in Hc. done.
Qed.

Lemma bytes_mod z :
  (0 + (z / 2 ^ 24) mod 256 * 2 ^ 24 + (z / 2 ^ 16) mod 256 * 2 ^ 16
     + (z / 2 ^ 8) mod 256 * 2 ^ 8 + (z / 2 ^ 0) mod 256 * 2 ^ 0) mod 2 ^ 32 = z mod 2 ^ 32.
Proof.
  assert (z mod 2 ^ 32 = z mod 256 + 256 * ((z / 256) mod 256)
    + 65536 * ((z / 65536) mod 256) + 16777216 * ((z / 16777216) mod 256)) as E.
  { change (2 ^ 32) with (256 * (256 * (256 * 256))).
    rewrite (Z.rem_mul_r z 256), (Z.rem_mul_r (z / 256) 256), (Z.rem_mul_r (z / 256 / 256) 256) by lia.
    rewrite !Z.div_div by lia. change (256 * 256) with 65536. change (256 * 65536) with 16777216. change (65536 * 256) with 16777216. ring. }
  rewrite <- (Z.mod_mod z (2 ^ 32)) by lia. f_equal. rewrite E.
  change (2 ^ 0) with 1. rewrite Z.div_1_r. change (2 ^ 24) with 16777216. change (2 ^ 16) with 65536. change (2 ^ 8) with 256. ring.
Qed.

(** [NetAtoi] undoes [NetItoa] on every [int]. *)
Lemma NetAtoi_NetItoa z : in_s 32 z → NetAtoi (NetItoa z) = z.
Proof.
  intros Hz. unfold NetAtoi, NetItoa. cbn.
  change 255 with (Z.ones 8). rewrite !Z.land_ones, !Z.shiftr_div_pow2, !Z.shiftl_mul_pow2 by lia.
  rewrite !byte_val_of. repeat rewrite ?swrap_add_r, ?swrap_add_l, <- ?Z.add_assoc by lia.
  rewrite !Z.add_assoc. cbn [Z.of_nat Z.mul Z.sub Z.add Z.opp Pos.mul Pos.sub].
  change (2 ^ 8) with 256. rewrite !Z.mod_mod by lia.
  rewrite (swrap_cong 32 _ z); [by apply swrap_small|]. apply bytes_mod.
Qed.

Lemma NetAtoi_NetItoa_witness : NetAtoi (NetItoa (-2)) = -2.
Proof. apply NetAtoi_NetItoa. done. Defined.
