(* ===== verification/Service.v ===== *)
(** The node's service: server/FPService.h and server/FPService.cpp.

    [Service] is the object with the storage behind it; every member function is a
    definition of its name, run against the interface [Store] of Store.v.  The clock,
    the messages handed to [IRouteTarget::sendTo] and the random numbers are explicit:
    the clocks are read from [Clock], what is sent is logged in [sv_sent].

    [updateBalance] is declared [bool] and returns nothing, which C++ leaves undefined;
    the model takes the function as returning to its callers, which ignore the value. *)
From S2P Require Import Prelude Cnum Redis Store RedisCache ByteStream Sender Proto Config Helper.
From Stdlib Require Import Lia OrderedTypeEx.
Open Scope Z_scope.

Definition kNodeRoleNone : Z := 0.
Definition kNodeRoleRoot : Z := 1.
Definition kNodeRoleMiner : Z := 2.

(** Successive readings of [clock ()] and of [time (NULL)]. *)
Class Clock := { clock_at : nat → Z; time_at : nat → Z }.

(** One [sendTo]: the address, the URI and the message. *)
Record Sent := mkSent { sent_to : string; sent_uri : Z; sent_body : jval }.

(** The hash the file defines (and does not use): it stops at a separator. *)
Definition is_separator (c : byte) : bool :=
  bool_decide (c = x20) || bool_decide (c = x0d) || bool_decide (c = x09) || bool_decide (c = x26).
Fixpoint jshash_loop (hash : Z) (l : list byte) : Z :=
  match l with
  | [] => hash
  | c :: l =>
      if is_separator c then hash
      else jshash_loop (Z.lxor hash (u32 (Z.shiftl hash 5 + schar_val c + Z.shiftr hash 2))) l
  end.
Definition jshash (id : string) : Z :=
  if str_empty id then 0 else Z.land (jshash_loop 1315423911 (zdrop 7 (bytes_of id))) 0x7FFFFFFF.

(** [std::map<string, int64_t>]: an association list in the order of the keys, with
    [operator[]] creating a zero. *)
Fixpoint map_add (k : string) (d : Z) (m : list (string * Z)) : list (string * Z) :=
  match m with
  | [] => [(k, s64 (0 + d))]
  | (k', v) :: m' =>
      match String.compare k k' with
      | Lt => (k, s64 (0 + d)) :: m
      | Eq => (k', s64 (v + d)) :: m'
      | Gt => (k', v) :: map_add k d m'
      end
  end.

(** The net change of every account named in a block. *)
Definition block_changes (txs : list Transaction) : list (string * Z) :=
  fold_left (λ m tx, map_add (tx_to tx) (tx_value tx) (map_add (tx_from tx) (- tx_value tx) m)) txs [].

Section service.
Context {S : Type} `{Store S, Cereal, Indeterminate, Rand, Clock}.
Context (gConfig : Config).

Record Service := mkSvc {
  sv_id : string; sv_address : string; sv_hostport : string; sv_role : Z; sv_parent : string;
  sv_route : bool;              (** [_routeTarget] is not NULL *)
  sv_store : S; sv_ticks : nat; sv_sent : list Sent;
}.

Definition new_Service (id : string) (st : S) : Service :=
  mkSvc id "" "" kNodeRoleNone "" false st 0 [].

Definition on_store {A} (m : M S A) : M Service A := λ s,
  let (r, st) := m (sv_store s) in
  (r, mkSvc (sv_id s) (sv_address s) (sv_hostport s) (sv_role s) (sv_parent s) (sv_route s) st
        (sv_ticks s) (sv_sent s)).

(** [timestamp ()]: [clock ()] as [uint64_t]. *)
Definition timestamp : M Service Z := λ s,
  (Ok (u64 (clock_at (sv_ticks s))),
   mkSvc (sv_id s) (sv_address s) (sv_hostport s) (sv_role s) (sv_parent s) (sv_route s) (sv_store s)
     (Datatypes.S (sv_ticks s)) (sv_sent s)).

Definition time_NULL : M Service Z := λ s,
  (Ok (time_at (sv_ticks s)),
   mkSvc (sv_id s) (sv_address s) (sv_hostport s) (sv_role s) (sv_parent s) (sv_route s) (sv_store s)
     (Datatypes.S (sv_ticks s)) (sv_sent s)).

(** [_routeTarget->sendTo]; a NULL target is undefined behaviour. *)
Definition sendTo {T} `{Serializable T} (ipport : string) (obj : T) : M Service unit := λ s,
  if sv_route s
  then (Ok tt, mkSvc (sv_id s) (sv_address s) (sv_hostport s) (sv_role s) (sv_parent s) (sv_route s)
                 (sv_store s) (sv_ticks s) (sv_sent s ++ [mkSent ipport (msg_uri T) (save obj)]))
  else (Throw Undefined, s).

Definition set_init (hostport parent : string) (route : bool) : M Service unit := modify (λ s,
  mkSvc (sv_id s) (sv_address s) hostport (sv_role s) parent route (sv_store s) (sv_ticks s) (sv_sent s)).
Definition set_role (r : Z) : M Service unit := modify (λ s,
  mkSvc (sv_id s) (sv_address s) (sv_hostport s) r (sv_parent s) (sv_route s) (sv_store s) (sv_ticks s) (sv_sent s)).

(** Runs [m] on an object of the caller; what it leaves in it is returned. *)
Definition on_object {T A} (obj : T) (m : M T A) : M Service (A * T) :=
  match m obj with
  | (Ok a, obj') => mret (a, obj')
  | (Throw e, _) => throw e
  end.

(** ** Storage, locks and blocks *)

Definition getBlock (blockId : string) (block : Block) : M Service (bool * Block) :=
  r ← on_store (sGet BlockDB blockId EmptyString);
  on_object block (fromString r.2).

Definition getLastBlock (block : Block) : M Service (bool * Block) := getBlock (lastBlockKey gConfig) block.

Definition tryLock (lock : string) : M Service bool :=
  id ← gets sv_id; on_store (sSetNX CacheDB lock id).

(** The loop [while (1)] of [acquireLock], at most [fuel] rounds of it. *)
Fixpoint acquireLock (fuel : nat) (lock : string) : M Service unit :=
  match fuel with
  | O => throw OutOfFuel
  | Datatypes.S fuel =>
      id ← gets sv_id;
      ok ← on_store (sSetNX CacheDB lock id);
      if ok : bool then mret tt else acquireLock fuel lock
  end.

Definition releaseLock (lock : string) : M Service unit :=
  r ← on_store (sGet CacheDB lock EmptyString);
  self ← gets sv_id;
  if str_empty r.2 || bool_decide (r.2 = self) then (on_store (sDelete CacheDB lock) ;; mret tt)
  else mret tt.

Definition initStorage : M Service bool :=
  db ← on_store (sOpen BlockDB (dbService gConfig));
  if negb db then mret false else on_store (sOpen CacheDB (cacheService gConfig)).

Definition storeBlock (block : Block) : M Service bool :=
  if (toString block).1
  then on_store (sSet BlockDB (bk_id block) (toString block).2 (u32 (-1)))
  else mret false.

(** ** Balances *)

Fixpoint apply_changes (m : list (string * Z)) : M Service unit :=
  match m with
  | [] => mret tt
  | (account, change) :: m => on_store (sIncrBy CacheDB account change 0) ;; apply_changes m
  end.

Definition updateBalance (block : Block) : M Service unit := apply_changes (block_changes (bk_txList block)).

(** The loop of [initBalance] over the chain of blocks, at most [fuel] rounds of it. *)
Fixpoint initBalance_loop (fuel : nat) (blockId : string) : M Service bool :=
  match fuel with
  | O => throw OutOfFuel
  | Datatypes.S fuel =>
      if str_empty blockId then mret true
      else
        (r ← getBlock blockId new_Block;
         if negb r.1 then mret false
         else (updateBalance r.2 ;; initBalance_loop fuel (bk_next r.2)))
  end.

Definition initBalance (fuel : nat) : M Service bool := initBalance_loop fuel (initBlockId gConfig).

(** [uint64_t - uint64_t > int]: the interval is converted to [uint64_t]; the block that
    would bring the chain up to date is compiled out. *)
Definition syncBlockChain : M Service bool :=
  r ← getLastBlock new_Block;
  if r.1 : bool then (timestamp ;; mret true) else mret true.

(** ** Blocks *)

(** [genBlockId]: [srand (time (NULL))] and 63 characters. *)
Definition genBlockId : M Service string :=
  now ← time_NULL; mret (c_string (GetRandStr now 64)).

(** A transaction of the pool; one that cannot be read is kept all the same. *)
Definition read_tx (txStr : string) : M Service Transaction :=
  r ← on_object new_Transaction (fromString txStr); mret r.2.

Fixpoint read_txs (l : list string) : M Service (list Transaction) :=
  match l with
  | [] => mret []
  | t :: l => tx ← read_tx t; txs ← read_txs l; mret (tx :: txs)
  end.

(** [createBlock]; the test that the last block is too young only logs. *)
Definition createBlock (block : Block) : M Service (bool * Block) :=
  last ← getBlock (lastBlockKey gConfig) new_Block;
  ts ← timestamp;
  let block := mkBlock (bk_id block) (bk_prev block) (bk_next block) ts (bk_txList block) in
  txs ← on_store (sDeQueueAll CacheDB (txPoolKey gConfig) []);
  if txs.1 : bool then
    (if bool_decide (txs.2 = []) then mret (false, block)
     else
       (txList ← read_txs txs.2;
        id ← genBlockId;
        let block := mkBlock id (bk_id last.2) (bk_next block) ts (bk_txList block ++ txList) in
        let lastBlock := mkBlock (bk_id last.2) (bk_prev last.2) id (bk_timestamp last.2) (bk_txList last.2) in
        storeBlock block ;;
        storeBlock lastBlock ;;
        mret (true, block)))
  else mret (false, block).

Fixpoint broadcast_loop (nodes : list string) (block : Block) : M Service unit :=
  match nodes with
  | [] => mret tt
  | n :: nodes =>
      r ← on_object new_NodeInfo (fromString n);
      (if r.1 : bool then sendTo (ni_hostport r.2) block else mret tt) ;;
      broadcast_loop nodes block
  end.

Definition broadcast (block : Block) : M Service bool :=
  r ← on_store (sGetMembers CacheDB (childNodesKey gConfig) []);
  if negb r.1 || bool_decide (r.2 = []) then mret false
  else (broadcast_loop r.2 block ;; mret true).

Definition BUILDER_LOCK : string := "_BLOCK_BUILDER_LOCK_".

Definition generateNewBlock : M Service unit :=
  role ← gets sv_role;
  if negb (role =? kNodeRoleRoot) then mret tt
  else
    (locked ← tryLock BUILDER_LOCK;
     if locked : bool then
       (r ← createBlock new_Block;
        (if r.1 : bool then (broadcast r.2 ;; mret tt) else mret tt) ;;
        releaseLock BUILDER_LOCK)
     else mret tt).

(** ** The handlers *)

(** [queryBalance]: the flag and [value]. *)
Definition queryBalance (userId : string) (value : Z) : M Service (bool * Z) :=
  r ← on_store (sGet CacheDB userId EmptyString);
  mret (if r.1 : bool then (true, atoll (c_string r.2)) else (false, value)).

Definition queryBalanceString (userId value : string) : M Service (bool * string) :=
  on_store (sGet CacheDB userId value).

Definition handleLogin (nodeInfo : NodeInfo) : M Service bool :=
  if (toString nodeInfo).1
  then on_store (sAddToSet CacheDB (childNodesKey gConfig) (toString nodeInfo).2)
  else mret false.

Definition forward (tx : Transaction) : M Service bool :=
  route ← gets sv_route;
  parent ← gets sv_parent;
  if negb route || str_empty parent then mret false
  else (sendTo parent tx ;; mret true).

Definition handleTransaction (tx : Transaction) : M Service bool :=
  q ← queryBalance (tx_from tx) 0;
  if negb q.1 then mret false
  else
    (role ← gets sv_role;
     if role =? kNodeRoleMiner then forward tx
     else if role =? kNodeRoleRoot then
       ((if q.2 >=? tx_value tx then
           (on_store (sIncrBy CacheDB (tx_from tx) (s64 (- tx_value tx)) 0) ;;
            on_store (sIncrBy CacheDB (tx_to tx) (tx_value tx) 0) ;;
            mret tt)
         else mret tt) ;;
        if (toString tx).1
        then (on_store (sEnQueue CacheDB (txPoolKey gConfig) (toString tx).2) ;; mret true)
        else mret false)
     else mret true).

Fixpoint queryBlockChain_loop (fuel : nat) (blockId : string) (blockList : list Block) : M Service (list Block) :=
  match fuel with
  | O => throw OutOfFuel
  | Datatypes.S fuel =>
      if str_empty blockId then mret blockList
      else
        (r ← getBlock blockId new_Block;
         if negb r.1 then mret blockList
         else queryBlockChain_loop fuel (bk_next r.2) (blockList ++ [r.2]))
  end.

(** [queryBlockChain]: always true; the list is returned. *)
Definition queryBlockChain (fuel : nat) (fromBlockId : string) (blockList : list Block) : M Service (bool * list Block) :=
  r ← getBlock fromBlockId new_Block;
  l ← queryBlockChain_loop fuel (if r.1 : bool then bk_next r.2 else EmptyString) blockList;
  mret (true, l).

(** [recieveBlock] logs and returns; the code behind its [return] never runs. *)
Definition recieveBlock (block : Block) : M Service unit := mret tt.

Definition handleBlockArrived (block : Block) : M Service bool :=
  role ← gets sv_role;
  if negb (role =? kNodeRoleMiner) then mret false
  else (recieveBlock block ;; mret true).

(** The time stamp is the value [clock_t ()], a zero. *)
Definition login : M Service bool :=
  s ← get;
  if str_empty (sv_parent s) || str_empty (sv_hostport s) then mret false
  else (sendTo (sv_parent s) (NodeInfo_of (sv_address s) (sv_hostport s) 0) ;; mret true).

Definition getAddress : M Service string := gets sv_address.

(** ** Start *)

Definition INIT_LOCK : string := "_INIT_BALANCE_LOCKER".

Definition init (fuel : nat) (hostPort : string) (route : bool) : M Service bool :=
  set_init hostPort (parentNode gConfig) route ;;
  if negb (nodeRole gConfig =? kNodeRoleMiner) && negb (nodeRole gConfig =? kNodeRoleRoot) then mret false
  else
    (set_role (nodeRole gConfig) ;;
     opened ← initStorage;
     if negb opened then mret false
     else
       (releaseLock (BCLock gConfig) ;;
        synced ← (if nodeRole gConfig =? kNodeRoleMiner then
                    (acquireLock fuel (BCLock gConfig) ;;
                     blockSync ← syncBlockChain;
                     releaseLock (BCLock gConfig) ;;
                     mret blockSync)
                  else mret true);
        if negb synced then mret false
        else
          (first ← tryLock INIT_LOCK;
           (if first : bool then (initBalance fuel ;; mret tt) else mret tt) ;;
           if nodeRole gConfig =? kNodeRoleMiner then
             (locked ← tryLock (BCLock gConfig);
              if locked : bool then
                (loginSuccess ← login;
                 releaseLock (BCLock gConfig) ;;
                 mret loginSuccess)
              else mret true)
           else mret true))).

End service.

(** ** Sums of changes *)

(** What a transaction adds to an account, and a list of them. *)
Definition tx_delta (tx : Transaction) (k : string) : Z :=
  (if decide (k = tx_to tx) then tx_value tx else 0) - (if decide (k = tx_from tx) then tx_value tx else 0).
Fixpoint net (txs : list Transaction) (k : string) : Z :=
  match txs with [] => 0 | tx :: txs => tx_delta tx k + net txs k end.

Lemma tx_delta_from tx : tx_from tx ≠ tx_to tx → tx_delta tx (tx_from tx) = - tx_value tx.
Proof. intros Hn. unfold tx_delta. rewrite decide_False, decide_True by done. lia. Qed.
Lemma tx_delta_to tx : tx_from tx ≠ tx_to tx → tx_delta tx (tx_to tx) = tx_value tx.
Proof. intros Hn. unfold tx_delta. rewrite decide_True, decide_False by congruence. lia. Qed.

Fixpoint change_of (k : string) (m : list (string * Z)) : Z :=
  match m with
  | [] => 0
  | (k', v) :: m => if decide (k = k') then v else change_of k m
  end.

Lemma compare_Eq k k' : String.compare k k' = Eq ↔ k = k'.
Proof.
  split; [apply String.compare_eq_iff|intros ->].
  pose proof (String.compare_antisym k' k') as E. destruct (String.compare k' k'); done.
Qed.

Lemma compare_Lt_trans a b c :
  String.compare a b = Lt → String.compare b c = Lt → String.compare a c = Lt.
Proof.
  intros H1 H2. apply (String_as_OT.cmp_lt a c). apply (String_as_OT.lt_trans _ b);
    apply String_as_OT.cmp_lt; [exact H1|exact H2].
Qed.

(** The keys stay in order, so each occurs once. *)
Definition sorted_keys (m : list (string * Z)) : Prop :=
  StronglySorted (λ a b, String.compare a b = Lt) (map fst m).

Lemma map_add_keys k d m x : x ∈ map fst (map_add k d m) ↔ x = k ∨ x ∈ map fst m.
Proof.
  induction m as [|[k' v] m IH]; cbn; [by rewrite elem_of_cons|].
  destruct (String.compare k k') eqn:E; cbn; rewrite ?elem_of_cons; [|tauto|rewrite IH; tauto].
  apply compare_Eq in E as ->. tauto.
Qed.

Lemma compare_Gt_Lt a b : String.compare a b = Gt → String.compare b a = Lt.
Proof. intros E. rewrite String.compare_antisym, E. done. Qed.

Lemma map_add_sorted k d m : sorted_keys m → sorted_keys (map_add k d m).
Proof.
  unfold sorted_keys. induction m as [|[k' v] m IH]; cbn; intros Hs; [by repeat constructor|].
  inversion_clear Hs as [|? ? Hs' Hall]. destruct (String.compare k k') eqn:E; cbn.
  - by constructor.
  - constructor; [by constructor|]. constructor; [done|]. revert Hall. apply Forall_impl.
    intros x Hx. by eapply compare_Lt_trans.
  - constructor; [by apply IH|]. apply Forall_forall. intros x Hx.
    apply list_elem_of_In, map_add_keys in Hx as [->|Hx]; [by apply compare_Gt_Lt|].
    rewrite Forall_forall in Hall. by apply Hall, list_elem_of_In.
Qed.

Lemma change_of_add k d m x :
  sorted_keys m → s64 (change_of x (map_add k d m)) = s64 (change_of x m + (if decide (x = k) then d else 0)).
Proof.
  unfold sorted_keys. induction m as [|[k' v] m IH]; cbn; intros Hs.
  - destruct (decide (x = k)); [|done]. by rewrite swrap_idemp by lia.
  - inversion_clear Hs as [|? ? Hs' Hall]. destruct (String.compare k k') eqn:E; cbn.
    + apply compare_Eq in E as ->. destruct (decide (x = k')); [by rewrite swrap_idemp by lia|by rewrite Z.add_0_r].
    + destruct (decide (x = k)) as [->|]; [|by rewrite Z.add_0_r].
      rewrite swrap_idemp by lia. destruct (decide (k = k')) as [->|Hk].
      { assert (String.compare k' k' = Eq) as Hx by by apply compare_Eq. congruence. }
      assert (change_of k m = 0) as ->; [|done].
      assert (Forall (λ y, String.compare k y = Lt) (map fst m)) as Hlt.
      { revert Hall. apply Forall_impl. intros y Hy. by eapply compare_Lt_trans. }
      clear -Hlt. induction m as [|[k2 v2] m IH]; [done|]. cbn in *. apply Forall_cons_1 in Hlt as [Hlt Hm].
      destruct (decide (k = k2)) as [->|]; [|by apply IH].
      assert (String.compare k2 k2 = Eq) as Hx by by apply compare_Eq. congruence.
    + destruct (decide (x = k')) as [->|]; [|by apply IH].
      destruct (decide (k' = k)) as [->|]; [|by rewrite Z.add_0_r].
      assert (String.compare k k = Eq) as Hx by by apply compare_Eq. congruence.
Qed.

Lemma s64_range z : in_s 64 (s64 z).
Proof. apply swrap_range. lia. Qed.

Lemma map_add_range k d m :
  Forall (λ p, in_s 64 p.2) m → Forall (λ p, in_s 64 p.2) (map_add k d m).
Proof.
  induction 1 as [|[k' v] m Hv Hm IH]; cbn.
  - constructor; [apply s64_range|constructor].
  - destruct (String.compare k k'); (constructor; [try apply s64_range; done|try done]). by constructor.
Qed.

Lemma change_of_range k m : Forall (λ p, in_s 64 p.2) m → in_s 64 (change_of k m).
Proof.
  induction 1 as [|[k' v] m Hv Hm IH]; cbn; [done|]. by destruct (decide (k = k')).
Qed.

(** The map of a block, its keys in order, is the net change of each account modulo 2^64. *)
Lemma block_changes_fold txs m :
  sorted_keys m → Forall (λ p, in_s 64 p.2) m →
  let m' := fold_left (λ m tx, map_add (tx_to tx) (tx_value tx) (map_add (tx_from tx) (- tx_value tx) m)) txs m in
  sorted_keys m' ∧ Forall (λ p, in_s 64 p.2) m' ∧
  (∀ k, s64 (change_of k m') = s64 (change_of k m + net txs k)) ∧
  (∀ k, k ∈ map fst m' ↔ k ∈ map fst m ∨ ∃ tx, tx ∈ txs ∧ (k = tx_from tx ∨ k = tx_to tx)).
Proof.
  revert m. induction txs as [|tx txs IH]; intros m Hs Hr; cbn [fold_left net].
  - split_and!; [done|done|intros k; by rewrite Z.add_0_r|]. intros k. split; [by left|].
    intros [?|(tx & Hx & _)]; [done|by apply elem_of_nil in Hx].
  - assert (sorted_keys (map_add (tx_from tx) (- tx_value tx) m)) as Hs1 by by apply map_add_sorted.
    destruct (IH (map_add (tx_to tx) (tx_value tx) (map_add (tx_from tx) (- tx_value tx) m)))
      as (Hs2 & Hr2 & Hc & Hk); [by apply map_add_sorted|by repeat apply map_add_range|].
    split_and!; [done|done| |].
    + intros k. rewrite Hc, <- (swrap_add_l 64 (change_of k (map_add _ _ _))) by lia.
      rewrite change_of_add by done. rewrite swrap_add_l, <- Z.add_assoc by lia.
      rewrite <- (swrap_add_l 64 (change_of k (map_add _ _ m))) by lia.
      rewrite change_of_add by done. rewrite swrap_add_l by lia. unfold tx_delta. f_equal.
      destruct (decide (k = tx_from tx)), (decide (k = tx_to tx)); lia.
    + intros k. rewrite Hk, !map_add_keys. setoid_rewrite elem_of_cons. naive_solver.
Qed.

Lemma block_changes_spec txs :
  sorted_keys (block_changes txs) ∧ Forall (λ p, in_s 64 p.2) (block_changes txs) ∧
  (∀ k, change_of k (block_changes txs) = s64 (net txs k)) ∧
  (∀ k, k ∈ map fst (block_changes txs) ↔ ∃ tx, tx ∈ txs ∧ (k = tx_from tx ∨ k = tx_to tx)).
Proof.
  destruct (block_changes_fold txs []) as (Hs & Hr & Hc & Hk); [constructor|constructor|].
  fold (block_changes txs) in *. split_and!; [done|done| |].
  - intros k. rewrite <- (swrap_small 64 (change_of k (block_changes txs))) by (lia || by apply change_of_range).
    rewrite Hc. done.
  - intros k. rewrite Hk. cbn. rewrite elem_of_nil. tauto.
Qed.

Lemma sorted_keys_NoDup m : sorted_keys m → NoDup (map fst m).
Proof.
  unfold sorted_keys. induction 1 as [|k ks Hs IH Hall]; constructor; [|done].
  intros Hin. rewrite Forall_forall in Hall. assert (String.compare k k = Lt) as E
    by by apply Hall, list_elem_of_In.
  assert (String.compare k k = Eq) by by apply compare_Eq. congruence.
Qed.

(** ** The service over a storage that answers *)

Section specs.
Context {S : Type} `{StoreLaws S, CerealLaw, Indeterminate, Rand, Clock}.
Context (gConfig : Config).
Implicit Types s : Service (S:=S).

(** The balance an account shows in the cache. *)
Definition balance (st : S) (k : string) : option Z := int_value (view CacheDB st k).

Definition with_store (st : S) s : Service :=
  mkSvc (sv_id s) (sv_address s) (sv_hostport s) (sv_role s) (sv_parent s) (sv_route s) st (sv_ticks s) (sv_sent s).

Lemma on_store_Ok {A} (m : M S A) s a st :
  m (sv_store s) = (Ok a, st) → on_store m s = (Ok a, with_store st s).
Proof. intros E. unfold on_store. by rewrite E. Qed.

Lemma int_value_dec z : in_s 64 z → int_value (Some (VStr (dec_string z))) = Some z.
Proof. intros Hz. cbn. rewrite strtoll_value_dec. cbn. by rewrite !bool_decide_true. Qed.

Lemma int_value_atoll v z : int_value v = Some z → atoll (c_string (str_or EmptyString v)) = z.
Proof.
  destruct v as [[t|l|m]|]; cbn; [|done..|].
  - destruct (strtoll_value t) as [z'|] eqn:E; cbn; [|done].
    destruct (bool_decide_reflect (dec_string z' = t)) as [<-|]; cbn; [|done].
    destruct (bool_decide_reflect (in_s 64 z')); [|done]. intros [= <-].
    rewrite c_string_dec. by apply atoll_dec.
  - by intros [= <-].
Qed.

Lemma queryBalance_ok s k v z :
  ready (sv_store s) → k ≠ EmptyString → balance (sv_store s) k = Some z →
  ∃ st, queryBalance k v s = (Ok (true, z), with_store st s) ∧ ready st ∧
    ∀ h k, view h st k = view h (sv_store s) k.
Proof.
  intros Hr Hk Hz. destruct (law_get CacheDB k EmptyString _ Hr Hk) as (st & E & Hr' & Hv).
  exists st. split; [|done]. unfold queryBalance. erewrite bind_Ok by (by apply on_store_Ok).
  cbn [fst snd]. by rewrite (int_value_atoll _ z Hz).
Qed.

Lemma incr_ok s k n v z :
  ready (sv_store s) → k ≠ EmptyString → balance (sv_store s) k = Some z → in_s 64 n → in_s 64 (z + n) →
  ∃ st, on_store (sIncrBy CacheDB k n v) s = (Ok (true, z + n), with_store st s) ∧ ready st ∧
    balance st k = Some (z + n) ∧ ∀ h k', k' ≠ k → view h st k' = view h (sv_store s) k'.
Proof.
  intros Hr Hk Hz Hn Hzn. destruct (law_incr CacheDB k n v z _ Hr Hk Hz Hn Hzn) as (st & E & Hr' & Hv & Hf).
  exists st. split_and!; [by apply on_store_Ok|done| |done]. unfold balance. rewrite Hv. by apply int_value_dec.
Qed.

(** The change of [m] may be made to the balances of [st]; the account with the empty name has none. *)
Definition affordable (st : S) (m : list (string * Z)) : Prop :=
  Forall (λ p, p.1 = EmptyString ∨ in_s 64 p.2 ∧ ∃ z, balance st p.1 = Some z ∧ in_s 64 (z + p.2)) m.

(** One entry of the map: the empty account is refused, which nobody looks at. *)
Lemma change_account_ok s k d :
  ready (sv_store s) →
  (k = EmptyString ∨ in_s 64 d ∧ ∃ z, balance (sv_store s) k = Some z ∧ in_s 64 (z + d)) →
  ∃ r st, on_store (sIncrBy CacheDB k d 0) s = (Ok r, with_store st s) ∧ ready st ∧
    (k ≠ EmptyString → balance st k = (λ z, z + d) <$> balance (sv_store s) k) ∧
    (∀ h k', k' = EmptyString ∨ k' ≠ k → view h st k' = view h (sv_store s) k').
Proof.
  intros Hr Hk. destruct (decide (k = EmptyString)) as [->|Hne].
  - destruct (law_incr_empty CacheDB d 0 _ Hr) as (st & E & Hr' & Hv).
    exists (false, 0), st. split_and!; [by apply on_store_Ok|done|done|intros; apply Hv].
  - destruct Hk as [|(Hd & z & Hz & Hzd)]; [done|].
    destruct (incr_ok s k d 0 z Hr Hne Hz Hd Hzd) as (st & E & Hr' & Hb & Hf).
    exists (true, z + d), st. split_and!; [done|done|by rewrite Hb, Hz|].
    intros h k' [->|Hk]; apply Hf; [by apply not_eq_sym|done].
Qed.

Lemma change_of_absent k m : k ∉ map fst m → change_of k m = 0.
Proof.
  induction m as [|[k2 d2] m IH]; [done|]. cbn. intros [Hn Hk]%not_elem_of_cons.
  destruct (decide (k = k2)); [done|by apply IH].
Qed.

Lemma apply_changes_ok m s :
  ready (sv_store s) → NoDup (map fst m) → affordable (sv_store s) m →
  ∃ st, apply_changes m s = (Ok tt, with_store st s) ∧ ready st ∧
    (∀ k, k ≠ EmptyString → balance st k = (λ z, z + change_of k m) <$> balance (sv_store s) k) ∧
    (∀ h k, k = EmptyString ∨ k ∉ map fst m → view h st k = view h (sv_store s) k).
Proof.
  revert s. induction m as [|[k d] m IH]; intros s Hr Hnd Haf.
  - exists (sv_store s). split_and!; [by destruct s|done| |done]. intros k _. cbn.
    destruct (balance _ k); cbn; [by rewrite Z.add_0_r|done].
  - cbn in Hnd. inversion_clear Hnd as [|? ? Hk Hnd']. apply Forall_cons_1 in Haf as [Hkd Haf]. cbn [fst snd] in *.
    destruct (change_account_ok s k d Hr Hkd) as (r & st1 & E1 & Hr1 & Hb1 & Hf1).
    assert (∀ k', k' ≠ k → balance st1 k' = balance (sv_store s) k') as Hbf.
    { intros k' Hn. unfold balance. rewrite Hf1; [done|by right]. }
    destruct (IH (with_store st1 s) Hr1 Hnd') as (st2 & E2 & Hr2 & Hb2 & Hf2).
    { rewrite Forall_forall in Haf. apply Forall_forall. intros [k' d'] Hin.
      destruct (Haf _ Hin) as [?|(? & z' & Hz' & ?)]; [by left|right]. split; [done|]. exists z'. split; [|done].
      cbn [sv_store with_store fst]. rewrite Hbf; [done|]. intros ->. apply Hk.
      apply list_elem_of_fmap. exists (k, d'). split; [done|by apply list_elem_of_In]. }
    exists st2. cbn [apply_changes]. split_and!; [|done| |].
    + erewrite bind_Ok by exact E1. exact E2.
    + intros k' Hne. rewrite Hb2 by done. cbn [sv_store with_store change_of]. destruct (decide (k' = k)) as [->|Hn].
      * rewrite Hb1 by done. rewrite change_of_absent by done. destruct (balance (sv_store s) k); cbn; [f_equal; lia|done].
      * by rewrite Hbf.
    + intros h k' Hn. cbn in Hn. rewrite not_elem_of_cons in Hn.
      rewrite Hf2 by tauto. apply Hf1. tauto.
Qed.

(** The sum of the balances of some accounts. *)
Fixpoint total (st : S) (ks : list string) : Z :=
  match ks with [] => 0 | k :: ks => default 0 (balance st k) + total st ks end.

Definition named (txs : list Transaction) (k : string) : Prop :=
  ∃ tx, tx ∈ txs ∧ (k = tx_from tx ∨ k = tx_to tx).

#[global] Instance named_dec txs k : Decision (named txs k).
Proof.
  refine (cast_if (decide (Exists (λ tx, k = tx_from tx ∨ k = tx_to tx) txs))).
  - rewrite Exists_exists in *. destruct e as (tx & ? & ?). exists tx. by rewrite list_elem_of_In.
  - intros (tx & Hin & Hk). apply n. apply Exists_exists. exists tx. by rewrite <- list_elem_of_In.
Defined.

Fixpoint sum_over (f : string → Z) (ks : list string) : Z :=
  match ks with [] => 0 | k :: ks => f k + sum_over f ks end.

Lemma sum_over_single v a ks :
  NoDup ks → sum_over (λ k, if decide (k = a) then v else 0) ks = if decide (a ∈ ks) then v else 0.
Proof.
  induction ks as [|k ks IH]; intros Hnd; cbn; [by rewrite decide_False by apply not_elem_of_nil|].
  inversion_clear Hnd as [|? ? Hk Hnd']. rewrite IH by done. destruct (decide (k = a)) as [->|Hn].
  - rewrite decide_False, decide_True by (done || by left). lia.
  - destruct (decide (a ∈ ks)); [rewrite decide_True by (by right)|rewrite decide_False]; [lia|lia|].
    rewrite elem_of_cons. naive_solver.
Qed.

Lemma sum_over_sub f g ks : sum_over (λ k, f k - g k) ks = sum_over f ks - sum_over g ks.
Proof. induction ks as [|k ks IH]; cbn; lia. Qed.
Lemma sum_over_add f g ks : sum_over (λ k, f k + g k) ks = sum_over f ks + sum_over g ks.
Proof. induction ks as [|k ks IH]; cbn; lia. Qed.

(** What a transaction takes from one account it gives to another. *)
Lemma sum_delta tx ks : NoDup ks → tx_from tx ∈ ks → tx_to tx ∈ ks → sum_over (tx_delta tx) ks = 0.
Proof.
  intros Hnd Hf Ht. unfold tx_delta. rewrite sum_over_sub, !sum_over_single by done.
  rewrite !decide_True by done. lia.
Qed.

Lemma sum_net txs ks : NoDup ks → (∀ k, named txs k → k ∈ ks) → sum_over (net txs) ks = 0.
Proof.
  intros Hnd. induction txs as [|tx txs IH]; intros Hin.
  - clear. induction ks as [|k ks IH]; cbn in *; lia.
  - cbn [net]. rewrite (sum_over_add (tx_delta tx) (net txs)), IH, sum_delta; [done|done| | |].
    + apply Hin. exists tx. split; [by left|by left].
    + apply Hin. exists tx. split; [by left|by right].
    + intros k (tx' & Hx & Hk). apply Hin. exists tx'. split; [by right|done].
Qed.

Lemma total_shift st st' f ks :
  (∀ k, k ∈ ks → default 0 (balance st' k) = default 0 (balance st k) + f k) →
  total st' ks = total st ks + sum_over f ks.
Proof.
  induction ks as [|k ks IH]; intros Hk; cbn; [done|].
  rewrite Hk, IH by (by left || (intros; apply Hk; by right)). lia.
Qed.

Lemma net_unnamed txs k : ¬ named txs k → net txs k = 0.
Proof.
  induction txs as [|tx txs IH]; intros Hn; [done|]. cbn. rewrite IH.
  - unfold tx_delta. rewrite !decide_False; [lia|..]; intros ->; apply Hn; exists tx; set_solver.
  - intros (tx' & ? & ?). apply Hn. exists tx'. set_solver.
Qed.

(** What the cache makes of the net change of an account: the empty name is no key, so what that
    account pays is taken from nobody. *)
Definition posted (txs : list Transaction) (k : string) : Z :=
  if decide (k = EmptyString) then 0 else net txs k.

Lemma posted_account txs k : k ≠ EmptyString → posted txs k = net txs k.
Proof. intros Hk. unfold posted. by rewrite decide_False. Qed.

Lemma posted_app l1 l2 k : posted (l1 ++ l2) k = posted l1 k + posted l2 k.
Proof.
  unfold posted. destruct (decide _); [done|]. induction l1 as [|tx l1 IH]; cbn; lia.
Qed.

Lemma sum_posted txs ks :
  NoDup ks → (∀ k, named txs k → k ∈ ks) → sum_over (posted txs) ks = - net txs EmptyString.
Proof.
  intros Hnd Hin. pose proof (sum_net txs ks Hnd Hin) as Hs.
  assert (∀ l, NoDup l → sum_over (posted txs) l =
    sum_over (net txs) l - if decide (EmptyString ∈ l) then net txs EmptyString else 0) as E.
  { clear. induction l as [|k l IH]; intros Hnd; [done|]. cbn. inversion_clear Hnd as [|? ? Hk Hnd'].
    rewrite IH by done. unfold posted. destruct (decide (k = EmptyString)) as [->|Hne].
    - rewrite (decide_False (P := EmptyString ∈ l)) by done. rewrite decide_True by by left. lia.
    - destruct (decide (EmptyString ∈ l)); [rewrite decide_True by (by right)|rewrite decide_False]; [lia|lia|].
      rewrite elem_of_cons. naive_solver. }
  rewrite E, Hs by done. destruct (decide (EmptyString ∈ ks)) as [|Hn]; [lia|].
  rewrite net_unnamed; [done|]. intros Hx. by apply Hn, Hin.
Qed.

(** Every account named in the block has a balance its net change keeps in range. *)
Definition block_fits (st : S) (txs : list Transaction) : Prop :=
  ∀ k, named txs k → k = EmptyString ∨ ∃ z, balance st k = Some z ∧ in_s 64 (z + s64 (net txs k)).

Lemma block_fits_affordable st txs : block_fits st txs → affordable st (block_changes txs).
Proof.
  intros Hb. destruct (block_changes_spec txs) as (Hs & Hr & Hc & Hk).
  apply Forall_forall. intros [k d] Hin. cbn.
  assert (k ∈ map fst (block_changes txs)) as Hkin.
  { apply list_elem_of_fmap. exists (k, d). split; [done|by apply list_elem_of_In]. }
  assert (change_of k (block_changes txs) = d) as Hd.
  { apply sorted_keys_NoDup in Hs. clear -Hs Hin. induction (block_changes txs) as [|[k' v] m IH]; [done|].
    cbn in *. inversion_clear Hs as [|? ? Hk Hs']. destruct Hin as [[= -> ->]|Hin]; [by rewrite decide_True|].
    rewrite decide_False; [by apply IH|]. intros ->. apply Hk, list_elem_of_fmap. exists (k', d).
    split; [done|by apply list_elem_of_In]. }
  apply Hk in Hkin as Hn. destruct (Hb k Hn) as [?|(z & Hz & Hzr)]; [by left|right].
  rewrite Hc in Hd. subst d. split; [apply s64_range|eauto].
Qed.

Lemma updateBalance_ok block s :
  ready (sv_store s) → block_fits (sv_store s) (bk_txList block) →
  ∃ st, updateBalance block s = (Ok tt, with_store st s) ∧ ready st ∧
    (∀ k, balance st k = (λ z, z + s64 (posted (bk_txList block) k)) <$> balance (sv_store s) k) ∧
    (∀ h k, k = EmptyString ∨ ¬ named (bk_txList block) k → view h st k = view h (sv_store s) k).
Proof.
  intros Hr Hb. destruct (block_changes_spec (bk_txList block)) as (Hs & _ & Hc & Hk).
  destruct (apply_changes_ok (block_changes (bk_txList block)) s Hr) as (st & E & Hr' & Hbal & Hf).
  { by apply sorted_keys_NoDup. }
  { by apply block_fits_affordable. }
  exists st. split_and!; [exact E|done| |].
  - intros k. unfold posted. destruct (decide (k = EmptyString)) as [->|Hne].
    + assert (balance st EmptyString = balance (sv_store s) EmptyString) as -> by (unfold balance; rewrite Hf; [done|by left]).
      destruct (balance _ _); cbn; [by rewrite Z.add_0_r|done].
    + rewrite Hbal by done. by rewrite Hc.
  - intros h k Hn. apply Hf. rewrite Hk. exact Hn.
Qed.

(** C1: applying a block to the cache adds to every balance the net change the block's
    transactions make to that account and touches no other key; the sum of the balances of any
    accounts that include the named ones stays the same, but for what the account without a
    name pays: that money is new. *)
Theorem updateBalance_conserves block ks s :
  ready (sv_store s) → block_fits (sv_store s) (bk_txList block) →
  NoDup ks → (∀ k, named (bk_txList block) k → k ∈ ks) → (∀ k, in_s 64 (net (bk_txList block) k)) →
  ∃ st, updateBalance block s = (Ok tt, with_store st s) ∧ ready st ∧
    (∀ k, k ≠ EmptyString → balance st k = (λ z, z + net (bk_txList block) k) <$> balance (sv_store s) k) ∧
    (∀ h k, k = EmptyString ∨ ¬ named (bk_txList block) k → view h st k = view h (sv_store s) k) ∧
    total st ks = total (sv_store s) ks - net (bk_txList block) EmptyString.
Proof.
  intros Hr Hb Hnd Hin Hnet. destruct (updateBalance_ok block s Hr Hb) as (st & E & Hr' & Hbal & Hf).
  assert (∀ k, balance st k = (λ z, z + posted (bk_txList block) k) <$> balance (sv_store s) k) as Hbal'.
  { intros k. rewrite Hbal. unfold posted. destruct (decide _); [done|]. by rewrite swrap_small by (lia || apply Hnet). }
  exists st. split_and!; [done|done| |done|].
  { intros k Hk. by rewrite Hbal', posted_account. }
  rewrite (total_shift (sv_store s) st (posted (bk_txList block))).
  - rewrite sum_posted by done. lia.
  - intros k _. rewrite Hbal'. destruct (balance (sv_store s) k) eqn:Ek; cbn; [done|].
    unfold posted. destruct (decide (k = EmptyString)) as [|Hne]; [done|].
    rewrite net_unnamed; [done|]. intros Hn. destruct (Hb k Hn) as [?|(z & Hz & _)]; [done|congruence].
Qed.

(** The two [IncrBy] of an accepted transaction. *)
Lemma transfer_ok tx bf bt s :
  ready (sv_store s) → tx_from tx ≠ EmptyString → tx_to tx ≠ EmptyString →
  balance (sv_store s) (tx_from tx) = Some bf → balance (sv_store s) (tx_to tx) = Some bt →
  in_s 64 (tx_value tx) → in_s 64 (- tx_value tx) → in_s 64 (bf - tx_value tx) → in_s 64 (bt + tx_value tx) →
  ∃ st, (on_store (sIncrBy CacheDB (tx_from tx) (s64 (- tx_value tx)) 0) ;;
         on_store (sIncrBy CacheDB (tx_to tx) (tx_value tx) 0) ;; mret tt) s = (Ok tt, with_store st s) ∧
    ready st ∧
    (∀ k, balance st k = (λ z, z + tx_delta tx k) <$> balance (sv_store s) k) ∧
    (∀ h k, k ≠ tx_from tx → k ≠ tx_to tx → view h st k = view h (sv_store s) k).
Proof.
  intros Hr Hfe Hte Hbf Hbt Hv Hnv Hf Ht. rewrite (swrap_small 64 (- tx_value tx)) by (lia || done).
  destruct (incr_ok s (tx_from tx) (- tx_value tx) 0 bf) as (st1 & E1 & Hr1 & Hb1 & Hf1); try done.
  set (bt1 := if decide (tx_to tx = tx_from tx) then bf - tx_value tx else bt).
  assert (balance st1 (tx_to tx) = Some bt1) as Hbt1.
  { unfold bt1. destruct (decide (tx_to tx = tx_from tx)) as [->|Hn]; [by rewrite Hb1|].
    unfold balance in *. by rewrite Hf1. }
  assert (in_s 64 (bt1 + tx_value tx)) as Hr1'.
  { unfold bt1. destruct (decide (tx_to tx = tx_from tx)) as [E|]; [|done].
    rewrite E in Hbt. assert (bt = bf) as -> by congruence. unfold in_s in *. lia. }
  destruct (incr_ok (with_store st1 s) (tx_to tx) (tx_value tx) 0 bt1) as (st2 & E2 & Hr2 & Hb2 & Hf2); try done.
  exists st2. split_and!; [|done| |].
  - erewrite bind_Ok by exact E1. by erewrite bind_Ok by exact E2.
  - intros k. unfold tx_delta. cbn [sv_store with_store] in *.
    destruct (decide (k = tx_to tx)) as [->|Hkt].
    + rewrite Hb2, Hbt. unfold bt1. destruct (decide (tx_to tx = tx_from tx)) as [E|]; cbn; f_equal; [|lia].
      rewrite E in Hbt. assert (bt = bf) as -> by congruence. lia.
    + assert (balance st2 k = balance st1 k) as -> by (unfold balance; by rewrite Hf2).
      destruct (decide (k = tx_from tx)) as [->|Hkf]; [rewrite Hb1, Hbf; cbn; f_equal; lia|].
      assert (balance st1 k = balance (sv_store s) k) as -> by (unfold balance; by rewrite Hf1).
      destruct (balance (sv_store s) k); cbn; [f_equal; lia|done].
  - intros h k Hkf Hkt. rewrite Hf2 by done. by apply Hf1.
Qed.

(** The root's handler on a storage that answers: what the two parts of its result are. *)
Lemma handleTransaction_root_ok tx bf bt l s :
  ready (sv_store s) → sv_role s = kNodeRoleRoot →
  tx_from tx ≠ EmptyString → tx_to tx ≠ EmptyString → txPoolKey gConfig ≠ EmptyString →
  tx_from tx ≠ txPoolKey gConfig → tx_to tx ≠ txPoolKey gConfig →
  balance (sv_store s) (tx_from tx) = Some bf → balance (sv_store s) (tx_to tx) = Some bt →
  list_value (view CacheDB (sv_store s) (txPoolKey gConfig)) = Some l →
  in_s 64 (tx_value tx) → in_s 64 (- tx_value tx) → in_s 64 (bf - tx_value tx) → in_s 64 (bt + tx_value tx) →
  ∃ st, handleTransaction gConfig tx s = (Ok true, with_store st s) ∧ ready st ∧
    view CacheDB st (txPoolKey gConfig) = Some (VList (l ++ [archive_out tx])) ∧
    (∀ k, k ≠ txPoolKey gConfig → balance st k =
      (λ z, z + (if bf >=? tx_value tx then tx_delta tx k else 0)) <$> balance (sv_store s) k) ∧
    (∀ h k, k ≠ txPoolKey gConfig → k ≠ tx_from tx → k ≠ tx_to tx →
      view h st k = view h (sv_store s) k).
Proof.
  intros Hr Hrole Hfe Hte Hpe Hfp Htp Hbf Hbt Hl Hv Hnv Hf Ht.
  destruct (queryBalance_ok s (tx_from tx) 0 bf Hr Hfe Hbf) as (st0 & E0 & Hr0 & Hv0).
  assert (∃ st1, (if bf >=? tx_value tx then
      (on_store (sIncrBy CacheDB (tx_from tx) (s64 (- tx_value tx)) 0) ;;
       on_store (sIncrBy CacheDB (tx_to tx) (tx_value tx) 0) ;; mret tt)
      else mret tt) (with_store st0 s) = (Ok tt, with_store st1 s) ∧ ready st1 ∧
    (∀ k, balance st1 k = (λ z, z + (if bf >=? tx_value tx then tx_delta tx k else 0)) <$> balance (sv_store s) k) ∧
    (∀ h k, k ≠ tx_from tx → k ≠ tx_to tx → view h st1 k = view h (sv_store s) k)) as (st1 & E1 & Hr1 & Hb1 & Hf1).
  { assert (∀ k, balance st0 k = balance (sv_store s) k) as Hb0 by (intros; unfold balance; by rewrite Hv0).
    destruct (bf >=? tx_value tx).
    - destruct (transfer_ok tx bf bt (with_store st0 s)) as (st1 & E & Hr1 & Hb1 & Hf1);
        cbn [sv_store with_store]; rewrite ?Hb0; try done.
      exists st1. split_and!; [exact E|done| |].
      + intros k. rewrite Hb1. cbn [sv_store with_store]. by rewrite Hb0.
      + intros h k ? ?. rewrite Hf1 by done. apply Hv0.
    - exists st0. split_and!; [done|done| |by intros; apply Hv0].
      intros k. rewrite Hb0. destruct (balance (sv_store s) k); cbn; [by rewrite Z.add_0_r|done]. }
  destruct (law_enqueue CacheDB (txPoolKey gConfig) (archive_out tx) l st1 Hr1 Hpe) as (st2 & E2 & Hr2 & Hv2 & Hf2).
  { by rewrite Hf1 by congruence. }
  exists st2. split_and!; [|done|done| |].
  - unfold handleTransaction. erewrite bind_Ok by exact E0. cbn [fst snd negb].
    erewrite bind_Ok by reflexivity. cbn [sv_role with_store]. rewrite Hrole.
    change (kNodeRoleRoot =? kNodeRoleMiner) with false. change (kNodeRoleRoot =? kNodeRoleRoot) with true. cbn iota.
    erewrite bind_Ok by exact E1. rewrite toString_ok. cbn [fst snd].
    erewrite bind_Ok by (apply on_store_Ok; exact E2). done.
  - intros k Hk. unfold balance in *. rewrite Hf2 by done. apply Hb1.
  - intros h k Hk Hkf Hkt. rewrite Hf2 by done. by apply Hf1.
Qed.

(** A transaction the root can settle: the storage answers, both accounts hold a number in
    range before and after, and the pool is a queue. *)
Record settles (tx : Transaction) (bf bt : Z) (l : list string) s : Prop := {
  st_ready : ready (sv_store s);
  st_role : sv_role s = kNodeRoleRoot;
  st_from : tx_from tx ≠ EmptyString;
  st_to : tx_to tx ≠ EmptyString;
  st_pool : txPoolKey gConfig ≠ EmptyString;
  st_from_pool : tx_from tx ≠ txPoolKey gConfig;
  st_to_pool : tx_to tx ≠ txPoolKey gConfig;
  st_bf : balance (sv_store s) (tx_from tx) = Some bf;
  st_bt : balance (sv_store s) (tx_to tx) = Some bt;
  st_l : list_value (view CacheDB (sv_store s) (txPoolKey gConfig)) = Some l;
  st_v : in_s 64 (tx_value tx);
  st_nv : in_s 64 (- tx_value tx);
  st_fv : in_s 64 (bf - tx_value tx);
  st_tv : in_s 64 (bt + tx_value tx);
}.

Lemma handleTransaction_settles tx bf bt l s :
  settles tx bf bt l s →
  ∃ st, handleTransaction gConfig tx s = (Ok true, with_store st s) ∧ ready st ∧
    view CacheDB st (txPoolKey gConfig) = Some (VList (l ++ [archive_out tx])) ∧
    (∀ k, k ≠ txPoolKey gConfig → balance st k =
      (λ z, z + (if bf >=? tx_value tx then tx_delta tx k else 0)) <$> balance (sv_store s) k) ∧
    (∀ h k, k ≠ txPoolKey gConfig → k ≠ tx_from tx → k ≠ tx_to tx →
      view h st k = view h (sv_store s) k).
Proof. intros []. by apply (handleTransaction_root_ok tx bf bt l). Qed.

(** C2: when the payer's balance covers the value, the root moves the value from the payer
    to the payee, keeps the sum of the balances of any accounts that include both, appends
    the transaction's text to the pool, and touches nothing else. *)
Theorem handleTransaction_accepts tx bf bt l ks s :
  settles tx bf bt l s → tx_value tx <= bf →
  NoDup ks → tx_from tx ∈ ks → tx_to tx ∈ ks → txPoolKey gConfig ∉ ks →
  ∃ st, handleTransaction gConfig tx s = (Ok true, with_store st s) ∧
    (tx_from tx ≠ tx_to tx →
      balance st (tx_from tx) = Some (bf - tx_value tx) ∧ balance st (tx_to tx) = Some (bt + tx_value tx)) ∧
    total st ks = total (sv_store s) ks ∧
    view CacheDB st (txPoolKey gConfig) = Some (VList (l ++ [archive_out tx])) ∧
    (∀ h k, k ≠ txPoolKey gConfig → k ≠ tx_from tx → k ≠ tx_to tx → view h st k = view h (sv_store s) k).
Proof.
  intros Hs Hle Hnd Hf Ht Hp. destruct (handleTransaction_settles tx bf bt l s Hs) as (st & E & _ & Hq & Hb & Hv).
  assert ((bf >=? tx_value tx) = true) as Hge by (apply Z.geb_le; lia). rewrite Hge in Hb.
  exists st. split_and!; [done| | |done|done].
  - intros Hn. rewrite !Hb by apply Hs. rewrite (st_bf _ _ _ _ _ Hs), (st_bt _ _ _ _ _ Hs).
    rewrite tx_delta_from, tx_delta_to by done. cbn. split; f_equal; lia.
  - rewrite (total_shift (sv_store s) st (tx_delta tx)), sum_delta; [lia|done..|].
    intros k Hk. rewrite Hb by congruence. destruct (balance (sv_store s) k) eqn:Ek; cbn; [done|].
    unfold tx_delta. rewrite !decide_False; [done|..]; intros ->;
      [rewrite (st_bf _ _ _ _ _ Hs) in Ek|rewrite (st_bt _ _ _ _ _ Hs) in Ek]; done.
Qed.

(** When the payer's balance does not cover the value, the root changes no balance, yet
    reports success and appends the transaction to the pool, from which blocks are made. *)
Lemma handleTransaction_rejected_queued tx bf bt l s :
  settles tx bf bt l s → bf < tx_value tx →
  ∃ st, handleTransaction gConfig tx s = (Ok true, with_store st s) ∧
    (∀ k, k ≠ txPoolKey gConfig → balance st k = balance (sv_store s) k) ∧
    view CacheDB st (txPoolKey gConfig) = Some (VList (l ++ [archive_out tx])).
Proof.
  intros Hs Hlt. destruct (handleTransaction_settles tx bf bt l s Hs) as (st & E & _ & Hq & Hb & _).
  assert ((bf >=? tx_value tx) = false) as Hge by (rewrite Z.geb_leb; apply Z.leb_gt; lia). rewrite Hge in Hb.
  exists st. split_and!; [done| |done]. intros k Hk. rewrite Hb by done.
  destruct (balance (sv_store s) k); cbn; [by rewrite Z.add_0_r|done].
Qed.

(** A transaction with a negative value passes the test on the payer whatever the
    payee holds, and takes the amount from the payee. *)
Lemma handleTransaction_negative_takes tx bf bt l s :
  settles tx bf bt l s → tx_value tx < 0 <= bf → tx_from tx ≠ tx_to tx →
  ∃ st, handleTransaction gConfig tx s = (Ok true, with_store st s) ∧
    balance st (tx_from tx) = Some (bf + Z.abs (tx_value tx)) ∧
    balance st (tx_to tx) = Some (bt - Z.abs (tx_value tx)).
Proof.
  intros Hs Hv Hn. destruct (handleTransaction_settles tx bf bt l s Hs) as (st & E & _ & _ & Hb & _).
  assert ((bf >=? tx_value tx) = true) as Hge by (apply Z.geb_le; lia). rewrite Hge in Hb.
  exists st. split; [done|]. rewrite !Hb by apply Hs. rewrite (st_bf _ _ _ _ _ Hs), (st_bt _ _ _ _ _ Hs).
  rewrite tx_delta_from, tx_delta_to by done. cbn. split; f_equal; lia.
Qed.

(** A miner settles nothing: it sends a transaction of a known payer unchanged to its
    parent, and its storage shows what it showed. *)
Lemma handleTransaction_forwards tx bf s :
  ready (sv_store s) → sv_role s = kNodeRoleMiner → sv_route s = true → sv_parent s ≠ EmptyString →
  tx_from tx ≠ EmptyString → balance (sv_store s) (tx_from tx) = Some bf →
  ∃ s', handleTransaction gConfig tx s = (Ok true, s') ∧
    sv_sent s' = sv_sent s ++ [mkSent (sv_parent s) 4 (save tx)] ∧
    ∀ h k, view h (sv_store s') k = view h (sv_store s) k.
Proof.
  intros Hr Hrole Hroute Hp Hf Hb. destruct (queryBalance_ok s (tx_from tx) 0 bf Hr Hf Hb) as (st & E & Hr' & Hv).
  eexists. unfold handleTransaction. erewrite bind_Ok by exact E. cbn [fst snd negb].
  erewrite bind_Ok by reflexivity. cbn [sv_role with_store]. rewrite Hrole.
  change (kNodeRoleMiner =? kNodeRoleMiner) with true. cbn iota. unfold forward.
  erewrite bind_Ok by reflexivity. erewrite bind_Ok by reflexivity. cbn [sv_route sv_parent with_store].
  rewrite Hroute. apply str_empty_false in Hp as ->. cbn [negb orb]. unfold sendTo, mbind, M_bind.
  cbn [sv_route sv_parent with_store]. rewrite Hroute. split; [reflexivity|]. split; [done|]. exact Hv.
Qed.

(** ** Blocks *)

Lemma on_object_Ok {T A} (obj : T) (m : M T A) a obj' s :
  m obj = (Ok a, obj') → on_object obj m s = (Ok (a, obj'), s).
Proof. intros E. unfold on_object. by rewrite E. Qed.

Lemma getBlock_missing k b s :
  ready (sv_store s) → k ≠ EmptyString → view BlockDB (sv_store s) k = None →
  ∃ st, getBlock k b s = (Ok (false, b), with_store st s) ∧ ready st ∧
    ∀ h k', view h st k' = view h (sv_store s) k'.
Proof.
  intros Hr Hk Hn. destruct (law_get BlockDB k EmptyString _ Hr Hk) as (st & E & Hr' & Hv).
  exists st. split; [|done]. unfold getBlock. erewrite bind_Ok by (by apply on_store_Ok).
  rewrite Hn. cbn [fst snd str_or]. by rewrite (on_object_Ok b (fromString EmptyString) false b) by apply fromString_empty.
Qed.

(** The block a key of the database holds. *)
Definition holds_block (st : S) (k : string) (b : Block) : Prop :=
  valid b ∧ view BlockDB st k = Some (VStr (archive_out b)).

Lemma getBlock_found k b b0 s :
  ready (sv_store s) → k ≠ EmptyString → holds_block (sv_store s) k b →
  ∃ st, getBlock k b0 s = (Ok (true, b), with_store st s) ∧ ready st ∧
    ∀ h k', view h st k' = view h (sv_store s) k'.
Proof.
  intros Hr Hk [Hb Hv]. destruct (law_get BlockDB k EmptyString _ Hr Hk) as (st & E & Hr' & Hv').
  exists st. split; [|done]. unfold getBlock. erewrite bind_Ok by (by apply on_store_Ok).
  rewrite Hv. cbn [fst snd str_or]. by rewrite (on_object_Ok b0 (fromString (archive_out b)) true b) by by apply fromString_ok.
Qed.

Lemma storeBlock_ok b s :
  ready (sv_store s) → bk_id b ≠ EmptyString →
  ∃ st, storeBlock b s = (Ok true, with_store st s) ∧ ready st ∧
    view BlockDB st (bk_id b) = Some (VStr (archive_out b)) ∧
    ∀ h k, k ≠ bk_id b → view h st k = view h (sv_store s) k.
Proof.
  intros Hr Hk. destruct (law_set BlockDB (bk_id b) (archive_out b) (u32 (-1)) _ Hr Hk) as (st & E & Hr' & Hv & Hf); [done|].
  exists st. unfold storeBlock. rewrite toString_ok. cbn [fst snd]. by rewrite (on_store_Ok _ _ _ _ E).
Qed.

Lemma storeBlock_unnamed b s :
  ready (sv_store s) → bk_id b = EmptyString →
  ∃ st, storeBlock b s = (Ok false, with_store st s) ∧ ready st ∧
    ∀ h k, view h st k = view h (sv_store s) k.
Proof.
  intros Hr Hk. destruct (law_set_empty BlockDB (archive_out b) (u32 (-1)) _ Hr) as (st & E & Hr' & Hv).
  exists st. unfold storeBlock. rewrite toString_ok, Hk. cbn [fst snd]. by rewrite (on_store_Ok _ _ _ _ E).
Qed.

Lemma read_txs_ok txs s : Forall valid txs → read_txs (map archive_out txs) s = (Ok txs, s).
Proof.
  induction 1 as [|tx txs Htx Htxs IH]; [done|]. cbn [map read_txs].
  assert (read_tx (archive_out tx) s = (Ok tx, s)) as E.
  { unfold read_tx. by erewrite bind_Ok by (apply on_object_Ok; by apply fromString_ok). }
  erewrite bind_Ok by exact E. by erewrite bind_Ok by exact IH.
Qed.

(** The id of the next block: a function of the second in which it is drawn. *)
Definition id_at (now : Z) : string := c_string (GetRandStr now 64).

(** The pool holds the texts of [txs], no block is recorded as the last one, and the id of
    the next block is a fresh key. *)
Record poolable (txs : list Transaction) s : Prop := {
  po_ready : ready (sv_store s);
  po_last : lastBlockKey gConfig ≠ EmptyString;
  po_none : view BlockDB (sv_store s) (lastBlockKey gConfig) = None;
  po_pool : txPoolKey gConfig ≠ EmptyString;
  po_list : list_value (view CacheDB (sv_store s) (txPoolKey gConfig)) = Some (map archive_out txs);
  po_valid : Forall valid txs;
  po_txs : txs ≠ [];
  po_id : id_at (time_at (Datatypes.S (sv_ticks s))) ≠ EmptyString;
  po_id_pool : id_at (time_at (Datatypes.S (sv_ticks s))) ≠ txPoolKey gConfig;
  po_id_last : id_at (time_at (Datatypes.S (sv_ticks s))) ≠ lastBlockKey gConfig;
}.

Lemma createBlock_ok txs s :
  poolable txs s →
  let id := id_at (time_at (Datatypes.S (sv_ticks s))) in
  let b := mkBlock id EmptyString EmptyString (u64 (clock_at (sv_ticks s))) txs in
  ∃ s', createBlock gConfig new_Block s = (Ok (true, b), s') ∧ ready (sv_store s') ∧
    view BlockDB (sv_store s') id = Some (VStr (archive_out b)) ∧
    view CacheDB (sv_store s') (txPoolKey gConfig) = None ∧
    (∀ h k, k ≠ id → k ≠ txPoolKey gConfig → view h (sv_store s') k = view h (sv_store s) k) ∧
    sv_ticks s' = Datatypes.S (Datatypes.S (sv_ticks s)) ∧ sv_role s' = sv_role s ∧ sv_id s' = sv_id s ∧
    sv_route s' = sv_route s ∧ sv_sent s' = sv_sent s.
Proof.
  intros [Hr Hlast Hnone Hpool Hlist Hval Hne Hid Hidp Hidl] id b.
  destruct (getBlock_missing _ new_Block s Hr Hlast Hnone) as (st1 & E1 & Hr1 & Hv1).
  set (s2 := mkSvc (sv_id s) (sv_address s) (sv_hostport s) (sv_role s) (sv_parent s) (sv_route s) st1
     (Datatypes.S (sv_ticks s)) (sv_sent s)).
  assert (timestamp (with_store st1 s) = (Ok (u64 (clock_at (sv_ticks s))), s2)) as E2 by done.
  destruct (law_dequeue CacheDB (txPoolKey gConfig) [] (map archive_out txs) st1 Hr1 Hpool)
    as (st3 & E3 & Hr3 & Hq3 & Hf3); [by rewrite Hv1|]. cbn [app] in E3.
  pose proof (read_txs_ok txs (with_store st3 s2) Hval) as E4.
  set (s5 := mkSvc (sv_id s) (sv_address s) (sv_hostport s) (sv_role s) (sv_parent s) (sv_route s) st3
     (Datatypes.S (Datatypes.S (sv_ticks s))) (sv_sent s)).
  assert (genBlockId (with_store st3 s2) = (Ok id, s5)) as E5 by done.
  destruct (storeBlock_ok b s5) as (st6 & E6 & Hr6 & Hb6 & Hf6); [done|done|].
  destruct (storeBlock_unnamed (mkBlock EmptyString EmptyString id ind_timestamp []) (with_store st6 s5))
    as (st7 & E7 & Hr7 & Hv7); [done|done|].
  exists (with_store st7 s5). split_and!; [|done| | | |done..].
  - unfold createBlock. erewrite bind_Ok by exact E1. cbn [fst snd].
    erewrite bind_Ok by exact E2. erewrite bind_Ok by (apply on_store_Ok; exact E3). cbn [fst snd].
    rewrite bool_decide_false by (by destruct txs). erewrite bind_Ok by exact E4.
    erewrite bind_Ok by exact E5. erewrite bind_Ok by exact E6. by erewrite bind_Ok by exact E7.
  - cbn [sv_store with_store]. by rewrite Hv7.
  - cbn [sv_store with_store]. rewrite Hv7, Hf6 by done. done.
  - intros h k Hk1 Hk2. cbn [sv_store with_store]. rewrite Hv7, Hf6 by done. cbn [sv_store].
    rewrite Hf3 by done. by rewrite Hv1.
Qed.

Lemma c_string_idemp t : c_string (c_string t) = c_string t.
Proof.
  induction t as [|c t IH]; [done|]. cbn. destruct (N.eqb_spec (Ascii.N_of_ascii c) 0) as [|Hn]; [done|].
  cbn. apply N.eqb_neq in Hn as ->. by rewrite IH.
Qed.

Lemma u64_range z : in_u 64 (u64 z).
Proof. apply uwrap_range. lia. Qed.

Lemma id_at_block_valid now ts txs : Forall valid txs → valid (mkBlock (id_at now) EmptyString EmptyString (u64 ts) txs).
Proof. intros Htxs. split_and!; [apply c_string_idemp|done|done|apply u64_range|exact Htxs]. Qed.

(** C10: [createBlock] takes all the transactions out of the pool, in their order, into one
    block, which is then what its id reads back from the database. *)
Theorem createBlock_drains_pool txs s :
  poolable txs s →
  ∃ b s', createBlock gConfig new_Block s = (Ok (true, b), s') ∧ bk_txList b = txs ∧
    view CacheDB (sv_store s') (txPoolKey gConfig) = None ∧ holds_block (sv_store s') (bk_id b) b ∧
    ∀ b0, ∃ s'', getBlock (bk_id b) b0 s' = (Ok (true, b), s'').
Proof.
  intros Hp. destruct (createBlock_ok txs s Hp) as (s' & E & Hr & Hv & Hq & _).
  assert (holds_block (sv_store s') (id_at (time_at (Datatypes.S (sv_ticks s))))
    (mkBlock (id_at (time_at (Datatypes.S (sv_ticks s)))) EmptyString EmptyString (u64 (clock_at (sv_ticks s))) txs)) as Hh.
  { split; [|done]. by apply id_at_block_valid, Hp. }
  eexists _, s'. split_and!; [exact E|done|done|exact Hh|]. intros b0.
  destruct (getBlock_found _ _ b0 s' Hr (po_id _ _ Hp) Hh) as (st & Eg & _). by eexists.
Qed.

(** As long as no block is recorded under the key of the last block, a new block has no
    predecessor, no block points to it, and the key stays empty: blocks are never linked. *)
Lemma createBlock_never_links txs s :
  poolable txs s → lastBlockKey gConfig ≠ txPoolKey gConfig →
  ∃ b s', createBlock gConfig new_Block s = (Ok (true, b), s') ∧
    bk_prev b = EmptyString ∧ bk_next b = EmptyString ∧
    view BlockDB (sv_store s') (lastBlockKey gConfig) = None ∧
    ∀ k, k ≠ bk_id b → k ≠ txPoolKey gConfig → view BlockDB (sv_store s') k = view BlockDB (sv_store s) k.
Proof.
  intros Hp Hn. destruct (createBlock_ok txs s Hp) as (s' & E & _ & _ & _ & Hf & _).
  eexists _, s'. split_and!; [exact E|done|done| |].
  - rewrite Hf by (done || apply not_eq_sym, Hp). apply Hp.
  - intros k Hk1 Hk2. by apply Hf.
Qed.

(** Two blocks made in the same second have the same id, so the second one replaces the
    first in the database. *)
Lemma createBlock_same_second_replaces txs1 txs2 s1 s2 :
  poolable txs1 s1 → poolable txs2 s2 →
  time_at (Datatypes.S (sv_ticks s1)) = time_at (Datatypes.S (sv_ticks s2)) →
  ∃ b1 s1' b2 s2', createBlock gConfig new_Block s1 = (Ok (true, b1), s1') ∧
    createBlock gConfig new_Block s2 = (Ok (true, b2), s2') ∧
    bk_txList b1 = txs1 ∧ bk_txList b2 = txs2 ∧ bk_id b1 = bk_id b2 ∧
    view BlockDB (sv_store s2') (bk_id b1) = Some (VStr (archive_out b2)).
Proof.
  intros Hp1 Hp2 Ht. destruct (createBlock_ok txs1 s1 Hp1) as (s1' & E1 & _).
  destruct (createBlock_ok txs2 s2 Hp2) as (s2' & E2 & _ & Hv2 & _).
  eexists _, s1', _, s2'. split_and!; [exact E1|exact E2|done|done| |]; cbn; rewrite Ht; done.
Qed.

(** ** Chains *)

(** The blocks reached from an id by [_next]. *)
Inductive chain (st : S) : string → list Block → Prop :=
  | chain_end : chain st EmptyString []
  | chain_next id b bs :
      id ≠ EmptyString → holds_block st id b → chain st (bk_next b) bs → chain st id (b :: bs).

(** The keys a chain is read from. *)
Definition chain_keys (id : string) (bs : list Block) : list string := id :: map bk_next bs.

Lemma chain_view st st' id bs :
  (∀ k, k ≠ EmptyString → k ∈ chain_keys id bs → view BlockDB st' k = view BlockDB st k) → chain st id bs → chain st' id bs.
Proof.
  intros Hv Hc. revert Hv. induction Hc as [|id b bs Hid Hb Hbs IH]; intros Hv; [constructor|].
  constructor; [done| |].
  - split; [apply Hb|]. rewrite Hv; [apply Hb|done|by left].
  - apply IH. intros k Hne Hk. apply Hv; [done|by right].
Qed.

Lemma queryBlockChain_loop_ok fuel id bs acc s :
  ready (sv_store s) → chain (sv_store s) id bs → (length bs < fuel)%nat →
  ∃ st, queryBlockChain_loop fuel id acc s = (Ok (acc ++ bs), with_store st s) ∧ ready st ∧
    ∀ h k, view h st k = view h (sv_store s) k.
Proof.
  revert fuel id acc s. induction bs as [|b bs IH]; intros fuel id acc s Hr Hc Hf;
    (destruct fuel as [|fuel]; [cbn in Hf; lia|]); cbn [queryBlockChain_loop].
  - inversion Hc; subst. exists (sv_store s). rewrite app_nil_r. by destruct s.
  - inversion Hc as [|? ? ? Hid Hb Hbs]; subst. pose proof Hid as Hid'. apply str_empty_false in Hid' as ->.
    destruct (getBlock_found id b new_Block s Hr Hid Hb) as (st1 & E1 & Hr1 & Hv1).
    destruct (IH fuel (bk_next b) (acc ++ [b]) (with_store st1 s) Hr1) as (st2 & E2 & Hr2 & Hv2).
    { eapply chain_view; [|exact Hbs]. by intros. }
    { cbn in Hf. lia. }
    exists st2. split_and!; [|done|].
    + erewrite bind_Ok by exact E1. cbn [fst snd negb]. rewrite <- app_assoc in E2. exact E2.
    + intros h k. rewrite Hv2. apply Hv1.
Qed.

(** [queryBlockChain] returns the blocks behind the one it is asked about, in the order
    of the chain; a number of rounds above the length of the chain is enough. *)
Lemma queryBlockChain_returns_chain fuel id b bs s :
  ready (sv_store s) → chain (sv_store s) id (b :: bs) → (length bs < fuel)%nat →
  ∃ s', queryBlockChain fuel id [] s = (Ok (true, bs), s') ∧
    ∀ h k, view h (sv_store s') k = view h (sv_store s) k.
Proof.
  intros Hr Hc Hf. inversion Hc as [|? ? ? Hid Hb Hbs]; subst.
  destruct (getBlock_found id b new_Block s Hr Hid Hb) as (st1 & E1 & Hr1 & Hv1).
  destruct (queryBlockChain_loop_ok fuel (bk_next b) bs [] (with_store st1 s) Hr1) as (st2 & E2 & _ & Hv2).
  { eapply chain_view; [|exact Hbs]. by intros. }
  { done. }
  exists (with_store st2 (with_store st1 s)). split.
  - unfold queryBlockChain. erewrite bind_Ok by exact E1. cbn [fst snd]. by erewrite bind_Ok by exact E2.
  - intros h k. cbn [sv_store with_store]. rewrite Hv2. apply Hv1.
Qed.

(** C36: on a block that points to itself [queryBlockChain] never ends: no number of rounds
    is enough. *)
Theorem queryBlockChain_cycle_diverges fuel id b s :
  ready (sv_store s) → id ≠ EmptyString → holds_block (sv_store s) id b → bk_next b = id →
  ∃ s', queryBlockChain fuel id [] s = (Throw OutOfFuel, s').
Proof.
  intros Hr Hid Hb Hn.
  assert (∀ acc s, ready (sv_store s) → holds_block (sv_store s) id b →
    ∃ s', queryBlockChain_loop fuel id acc s = (Throw OutOfFuel, s')) as Hloop.
  { clear s Hr Hb. induction fuel as [|fuel IH]; intros acc s Hr Hb; [by eexists|].
    cbn [queryBlockChain_loop]. pose proof Hid as Hid'. apply str_empty_false in Hid' as ->.
    destruct (getBlock_found id b new_Block s Hr Hid Hb) as (st1 & E1 & Hr1 & Hv1).
    destruct (IH (acc ++ [b]) (with_store st1 s) Hr1) as (s' & E').
    { destruct Hb. split; [done|]. cbn [sv_store with_store]. by rewrite Hv1. }
    exists s'. erewrite bind_Ok by exact E1. cbn [fst snd negb]. by rewrite Hn. }
  destruct (getBlock_found id b new_Block s Hr Hid Hb) as (st1 & E1 & Hr1 & Hv1).
  destruct (Hloop [] (with_store st1 s) Hr1) as (s' & E').
  { destruct Hb. split; [done|]. cbn [sv_store with_store]. by rewrite Hv1. }
  exists s'. unfold queryBlockChain. erewrite bind_Ok by exact E1. cbn [fst snd]. rewrite Hn.
  unfold mbind, M_bind. by rewrite E'.
Qed.

(** ** Replaying the chain *)

(** Each block of the chain keeps the balances it names in range when its turn comes, and no
    account is the key of a block of the chain; the account without a name may pay. *)
Record replay_fits (st : S) (id : string) (bs : list Block) : Prop := {
  rf_fits p b q k : bs = p ++ b :: q → named (bk_txList b) k →
    k = EmptyString ∨ in_s 64 (net (bk_txList b) k) ∧
    ∃ z, balance st k = Some z ∧ in_s 64 (z + posted (p ≫= bk_txList) k + net (bk_txList b) k);
  rf_keys b k : b ∈ bs → k ≠ EmptyString → named (bk_txList b) k → k ∉ chain_keys id bs;
}.

(** One round: the block's net changes, with the wrap-around gone. *)
Lemma replay_block_ok b s :
  ready (sv_store s) →
  (∀ k, named (bk_txList b) k → k = EmptyString ∨ in_s 64 (net (bk_txList b) k) ∧
    ∃ z, balance (sv_store s) k = Some z ∧ in_s 64 (z + net (bk_txList b) k)) →
  ∃ st, updateBalance b s = (Ok tt, with_store st s) ∧ ready st ∧
    (∀ k, balance st k = (λ z, z + posted (bk_txList b) k) <$> balance (sv_store s) k) ∧
    (∀ h k, ¬ named (bk_txList b) k → view h st k = view h (sv_store s) k).
Proof.
  intros Hr Hfits. destruct (updateBalance_ok b s Hr) as (st & E & Hr' & Hb & Hf).
  { intros k Hk. destruct (Hfits k Hk) as [?|(Hnr & z & Hz & Hzr)]; [by left|right]. exists z.
    by rewrite swrap_small by (lia || done). }
  exists st. split_and!; [done|done| |intros; apply Hf; by right]. intros k. rewrite Hb. unfold posted.
  destruct (decide (k = EmptyString)) as [|Hne]; [done|].
  destruct (decide (named (bk_txList b) k)) as [Hk|Hk].
  - destruct (Hfits k Hk) as [|(Hnr & _)]; [done|]. by rewrite swrap_small by (lia || done).
  - by rewrite net_unnamed.
Qed.

Lemma replay_fits_next st st' id b bs :
  replay_fits st id (b :: bs) →
  (∀ k, balance st' k = (λ z, z + posted (bk_txList b) k) <$> balance st k) →
  replay_fits st' (bk_next b) bs.
Proof.
  intros Hfits Hb. split.
  - intros p b' q k -> Hk. destruct (rf_fits _ _ _ Hfits (b :: p) b' q k eq_refl Hk) as [?|(Hnr & z & Hz & Hzr)]; [by left|right].
    split; [done|]. exists (z + posted (bk_txList b) k). rewrite Hb, Hz. split; [done|].
    cbn [mbind list_bind] in Hzr. rewrite posted_app in Hzr. by rewrite Z.add_assoc in Hzr.
  - intros b' k Hin Hne Hk Hn. apply (rf_keys _ _ _ Hfits b' k); [by right|done|done|]. by right.
Qed.

Lemma initBalance_loop_ok fuel id bs s :
  ready (sv_store s) → chain (sv_store s) id bs → replay_fits (sv_store s) id bs → (length bs < fuel)%nat →
  ∃ st, initBalance_loop fuel id s = (Ok true, with_store st s) ∧ ready st ∧
    (∀ k, balance st k = (λ z, z + posted (bs ≫= bk_txList) k) <$> balance (sv_store s) k) ∧
    (∀ h k, ¬ named (bs ≫= bk_txList) k → view h st k = view h (sv_store s) k).
Proof.
  revert fuel id s. induction bs as [|b bs IH]; intros fuel id s Hr Hc Hfits Hf;
    (destruct fuel as [|fuel]; [cbn in Hf; lia|]); cbn [initBalance_loop].
  - inversion Hc; subst. exists (sv_store s). split_and!; [by destruct s|done| |done].
    intros k. unfold posted. cbn. destruct (decide _), (balance _ k); cbn; by rewrite ?Z.add_0_r.
  - inversion Hc as [|? ? ? Hid Hb Hbs]; subst. pose proof Hid as Hid'. apply str_empty_false in Hid' as ->.
    destruct (getBlock_found id b new_Block s Hr Hid Hb) as (st1 & E1 & Hr1 & Hv1).
    assert (∀ k, balance st1 k = balance (sv_store s) k) as Hb1 by (intros; unfold balance; by rewrite Hv1).
    destruct (replay_block_ok b (with_store st1 s) Hr1) as (st2 & E2 & Hr2 & Hb2 & Hf2).
    { intros k Hk. cbn [sv_store with_store]. rewrite Hb1.
      pose proof (rf_fits _ _ _ Hfits [] b bs k eq_refl Hk) as Hx. cbn [mbind list_bind] in Hx.
      assert (posted [] k = 0) as E0 by (unfold posted; by destruct (decide _)). rewrite E0 in Hx.
      by setoid_rewrite Z.add_0_r in Hx. }
    cbn [sv_store with_store] in *. setoid_rewrite Hb1 in Hb2. setoid_rewrite Hv1 in Hf2.
    destruct (IH fuel (bk_next b) (with_store st2 s) Hr2) as (st3 & E3 & Hr3 & Hb3 & Hf3).
    { eapply chain_view; [|exact Hbs]. intros k Hne Hk. apply Hf2. intros Hn.
      apply (rf_keys _ _ _ Hfits b k); [by left|done|done|]. by right. }
    { by eapply replay_fits_next. }
    { cbn in Hf. lia. }
    cbn [sv_store with_store] in *. exists st3. split_and!; [|done| |].
    + erewrite bind_Ok by exact E1. cbn [fst snd negb]. by erewrite bind_Ok by exact E2.
    + intros k. rewrite Hb3, Hb2. cbn [mbind list_bind]. rewrite posted_app.
      destruct (balance (sv_store s) k); cbn; [f_equal; lia|done].
    + intros h k Hn. rewrite Hf3, Hf2; [done|..]; intros (tx & Hin & Hk); apply Hn; exists tx;
        cbn [mbind list_bind]; rewrite elem_of_app; tauto.
Qed.

(** ** Locks *)

Definition frees (s : Service (S:=S)) (lock : string) : bool :=
  str_empty (str_or EmptyString (view CacheDB (sv_store s) lock)) ||
  bool_decide (str_or EmptyString (view CacheDB (sv_store s) lock) = sv_id s).

Lemma releaseLock_ok lock s :
  ready (sv_store s) → lock ≠ EmptyString →
  ∃ st, releaseLock lock s = (Ok tt, with_store st s) ∧ ready st ∧
    view CacheDB st lock = (if frees s lock then None else view CacheDB (sv_store s) lock) ∧
    ∀ h k, k ≠ lock → view h st k = view h (sv_store s) k.
Proof.
  intros Hr Hl. destruct (law_get CacheDB lock EmptyString _ Hr Hl) as (st1 & E1 & Hr1 & Hv1).
  destruct (law_delete CacheDB lock st1 Hr1 Hl) as (st2 & E2 & Hr2 & Hv2 & Hf2).
  unfold releaseLock, frees. destruct (_ || _) eqn:Hfr.
  - exists st2. split_and!; [|done|done|].
    + erewrite bind_Ok by (apply on_store_Ok; exact E1). erewrite bind_Ok by reflexivity.
      cbn [snd sv_id with_store]. rewrite Hfr. by erewrite bind_Ok by (apply on_store_Ok; exact E2).
    + intros h k Hk. rewrite Hf2 by done. apply Hv1.
  - exists st1. split_and!; [|done|done|by intros; apply Hv1].
    erewrite bind_Ok by (apply on_store_Ok; exact E1). erewrite bind_Ok by reflexivity.
    cbn [snd sv_id with_store]. by rewrite Hfr.
Qed.

Lemma tryLock_ok lock s :
  ready (sv_store s) → lock ≠ EmptyString →
  ∃ st, tryLock lock s = (Ok (bool_decide (view CacheDB (sv_store s) lock = None)), with_store st s) ∧ ready st ∧
    view CacheDB st lock = Some (default (VStr (sv_id s)) (view CacheDB (sv_store s) lock)) ∧
    ∀ h k, k ≠ lock → view h st k = view h (sv_store s) k.
Proof.
  intros Hr Hl. destruct (law_setnx CacheDB lock (sv_id s) _ Hr Hl) as (st & E & Hr' & Hv & Hf).
  exists st. split; [|done]. unfold tryLock. erewrite bind_Ok by reflexivity. by apply on_store_Ok.
Qed.

(** A root does nothing when its timer fires and the builder's lock has any value. *)
Lemma generateNewBlock_locked v s :
  ready (sv_store s) → view CacheDB (sv_store s) BUILDER_LOCK = Some v →
  ∃ st, generateNewBlock gConfig s = (Ok tt, with_store st s) ∧ ready st ∧
    ∀ k, view CacheDB st k = view CacheDB (sv_store s) k.
Proof.
  intros Hr Hv. destruct (tryLock_ok BUILDER_LOCK s Hr) as (st & E & Hr' & Hl & Hf); [done|]. rewrite Hv in E, Hl.
  assert (Hsame : ∀ k, view CacheDB st k = view CacheDB (sv_store s) k).
  { intros k. destruct (decide (k = BUILDER_LOCK)) as [->|Hk]; [by rewrite Hl, Hv|by apply Hf]. }
  unfold generateNewBlock. erewrite bind_Ok by reflexivity. destruct (negb (sv_role s =? kNodeRoleRoot)).
  - exists (sv_store s). split; [by destruct s|done].
  - erewrite bind_Ok by exact E. by exists st.
Qed.

(** C21: accounts, locks and the queue are keys of one store, and a payment to the account
    named as the builder's lock takes the lock for good: the root accepts it like any
    other, and from then on the timer makes no block, however often it fires; the queue
    and the balances stay as they are. *)
Theorem account_named_as_lock tx bf bt l s n :
  settles tx bf bt l s → tx_to tx = BUILDER_LOCK → tx_from tx ≠ BUILDER_LOCK →
  tx_value tx <= bf → bt + tx_value tx ≠ 0 →
  ∃ st st', handleTransaction gConfig tx s = (Ok true, with_store st s) ∧
    Nat.iter n (λ r, generateNewBlock gConfig r.2) (Ok tt, with_store st s) = (Ok tt, with_store st' s) ∧
    view CacheDB st' (txPoolKey gConfig) = Some (VList (l ++ [archive_out tx])) ∧
    ∀ k, view CacheDB st' k = view CacheDB st k.
Proof.
  intros Hs Hto Hfrom Hle Hnz. destruct (handleTransaction_settles tx bf bt l s Hs) as (st & E & Hr & Hq & Hb & _).
  assert (∃ v, view CacheDB st BUILDER_LOCK = Some v) as [v Hv].
  { pose proof (Hb BUILDER_LOCK) as Hl. rewrite <- Hto in Hl at 1. specialize (Hl (st_to_pool _ _ _ _ _ Hs)).
    rewrite <- Hto in Hl. rewrite (st_bt _ _ _ _ _ Hs) in Hl.
    assert ((bf >=? tx_value tx) = true) as Hge by (apply Z.geb_le; lia). rewrite Hge in Hl.
    rewrite tx_delta_to in Hl by congruence. unfold balance in Hl. rewrite Hto in Hl.
    destruct (view CacheDB st BUILDER_LOCK) as [v|]; [by exists v|]. cbn in Hl. injection Hl as Hl. lia. }
  exists st. assert (G : ∃ st', Nat.iter n (λ r, generateNewBlock gConfig r.2) (Ok tt, with_store st s) =
      (Ok tt, with_store st' s) ∧ ready st' ∧ ∀ k, view CacheDB st' k = view CacheDB st k).
  { induction n as [|n (st1 & E1 & Hr1 & Hv1)]; [by exists st|]. cbn [Nat.iter nat_rect]. unfold Nat.iter in E1. rewrite E1. cbn [snd].
    destruct (generateNewBlock_locked v (with_store st1 s) Hr1) as (st2 & E2 & Hr2 & Hv2);
      [cbn [sv_store with_store]; by rewrite Hv1|].
    exists st2. split; [exact E2|]. split; [exact Hr2|]. intros k. rewrite Hv2. apply Hv1. }
  destruct G as (st' & E' & _ & Hv'). exists st'. split_and!; [exact E|exact E'|by rewrite Hv'|exact Hv'].
Qed.

(** A lock taken by one node is refused to another one with a different id, whose
    release leaves it in place; the owner's release frees it for the other. *)
Lemma lock_excludes lock a b :
  ready (sv_store a) → lock ≠ EmptyString → view CacheDB (sv_store a) lock = None →
  sv_id a ≠ EmptyString → sv_id a ≠ sv_id b →
  ∃ st1 st2 st3 st4 st5,
    tryLock lock a = (Ok true, with_store st1 a) ∧
    tryLock lock (with_store st1 b) = (Ok false, with_store st2 b) ∧
    releaseLock lock (with_store st2 b) = (Ok tt, with_store st3 b) ∧
    view CacheDB st3 lock = Some (VStr (sv_id a)) ∧
    releaseLock lock (with_store st3 a) = (Ok tt, with_store st4 a) ∧
    tryLock lock (with_store st4 b) = (Ok true, with_store st5 b).
Proof.
  intros Hr Hl Hn Ha Hab.
  destruct (tryLock_ok lock a Hr Hl) as (st1 & E1 & Hr1 & Hv1 & _). rewrite Hn in *. cbn [default] in Hv1.
  destruct (tryLock_ok lock (with_store st1 b) Hr1 Hl) as (st2 & E2 & Hr2 & Hv2 & _).
  cbn [sv_store with_store] in *. rewrite Hv1 in *. cbn [default from_option id] in Hv2.
  destruct (releaseLock_ok lock (with_store st2 b) Hr2 Hl) as (st3 & E3 & Hr3 & Hv3 & _).
  assert (frees (with_store st2 b) lock = false) as Hfr.
  { unfold frees. cbn [sv_store sv_id with_store]. rewrite Hv2. cbn [str_or].
    apply str_empty_false in Ha as ->. by apply bool_decide_eq_false. }
  rewrite Hfr in Hv3. cbn [sv_store with_store] in Hv3.
  destruct (releaseLock_ok lock (with_store st3 a) Hr3 Hl) as (st4 & E4 & Hr4 & Hv4 & _).
  assert (frees (with_store st3 a) lock = true) as Hfr4.
  { unfold frees. cbn [sv_store sv_id with_store]. rewrite Hv3, Hv2. cbn [str_or].
    rewrite (bool_decide_true (sv_id a = sv_id a)) by done. apply orb_true_r. }
  rewrite Hfr4 in Hv4.
  destruct (tryLock_ok lock (with_store st4 b) Hr4 Hl) as (st5 & E5 & _).
  cbn [sv_store with_store] in *. rewrite Hv4 in E5.
  exists st1, st2, st3, st4, st5. split_and!; [exact E1|exact E2|exact E3|congruence|exact E4|exact E5].
Qed.

(** ** Start of the root node *)

(** The storage as [initStorage] leaves it, with a chain of blocks the cache can replay, and
    lock keys that are neither accounts nor blocks. *)
Record startable (bs : list Block) s (st1 st2 : S) : Prop := {
  su_role : nodeRole gConfig = kNodeRoleRoot;
  su_db : sOpen BlockDB (dbService gConfig) (sv_store s) = (Ok true, st1);
  su_cache : sOpen CacheDB (cacheService gConfig) st1 = (Ok true, st2);
  su_ready : ready st2;
  su_lock : BCLock gConfig ≠ EmptyString;
  su_lock_init : BCLock gConfig ≠ INIT_LOCK;
  su_chain : chain st2 (initBlockId gConfig) bs;
  su_fits : replay_fits st2 (initBlockId gConfig) bs;
  su_keys k : (k = BCLock gConfig ∨ k = INIT_LOCK) →
    (k ∉ chain_keys (initBlockId gConfig) bs) ∧ ¬ named (bs ≫= bk_txList) k;
}.

Lemma named_bind b bs k : b ∈ bs → named (bk_txList b) k → named (bs ≫= bk_txList) k.
Proof.
  intros Hb (tx & Htx & Hk). exists tx. split; [|done]. apply list_elem_of_bind. exists b. done.
Qed.

Lemma replay_fits_view st st' id bs :
  (∀ k, named (bs ≫= bk_txList) k → balance st' k = balance st k) → replay_fits st id bs → replay_fits st' id bs.
Proof.
  intros Hb [Hf Hk]. split; [|done]. intros p b q k Hbs Hn.
  destruct (Hf p b q k Hbs Hn) as [?|(Hr & z & Hz & Hzr)]; [by left|right]. split; [done|]. exists z.
  rewrite Hb; [done|]. apply (named_bind b); [|done]. rewrite Hbs, elem_of_app, elem_of_cons. tauto.
Qed.

(** The two locks around [initBalance]. *)
Lemma init_locks_ok bs s st1 st2 :
  startable bs s st1 st2 →
  ∃ st4, (releaseLock (BCLock gConfig) ;; tryLock INIT_LOCK) (with_store st2 s) =
      (Ok (bool_decide (view CacheDB st2 INIT_LOCK = None)), with_store st4 s) ∧ ready st4 ∧
    (∀ h k, k ≠ BCLock gConfig → k ≠ INIT_LOCK → view h st4 k = view h st2 k) ∧
    is_Some (view CacheDB st4 INIT_LOCK) ∧
    chain st4 (initBlockId gConfig) bs ∧ replay_fits st4 (initBlockId gConfig) bs.
Proof.
  intros [Hrole Hdb Hcache Hr Hl Hli Hc Hfits Hkeys].
  destruct (releaseLock_ok (BCLock gConfig) (with_store st2 s) Hr Hl) as (st3 & E3 & Hr3 & _ & Hf3).
  destruct (tryLock_ok INIT_LOCK (with_store st3 s) Hr3) as (st4 & E4 & Hr4 & Hv4 & Hf4); [done|].
  cbn [sv_store with_store] in *.
  assert (view CacheDB st3 INIT_LOCK = view CacheDB st2 INIT_LOCK) as Hi by by apply Hf3, not_eq_sym.
  assert (∀ h k, k ≠ BCLock gConfig → k ≠ INIT_LOCK → view h st4 k = view h st2 k) as Hframe.
  { intros h k H1' H2'. rewrite Hf4, Hf3 by done. done. }
  exists st4. split_and!; [|done|done|by rewrite Hv4; eexists| |].
  - erewrite bind_Ok by exact E3. rewrite <- Hi. exact E4.
  - eapply chain_view; [|exact Hc]. intros k _ Hk. apply Hframe; intros ->;
      [exact (proj1 (Hkeys _ (or_introl eq_refl)) Hk)|exact (proj1 (Hkeys _ (or_intror eq_refl)) Hk)].
  - eapply replay_fits_view; [|exact Hfits]. intros k Hk. unfold balance. rewrite Hframe; [done|..]; intros ->;
      [exact (proj2 (Hkeys _ (or_introl eq_refl)) Hk)|exact (proj2 (Hkeys _ (or_intror eq_refl)) Hk)].
Qed.

(** The start of a root node whose storage holds the chain [bs]. *)
Lemma init_replays fuel hostPort bs s st1 st2 :
  startable bs s st1 st2 → (length bs < fuel)%nat →
  ∃ s', init gConfig fuel hostPort true s = (Ok true, s') ∧ ready (sv_store s') ∧
    is_Some (view CacheDB (sv_store s') INIT_LOCK) ∧ sv_role s' = kNodeRoleRoot ∧
    ∀ k, k ≠ BCLock gConfig → k ≠ INIT_LOCK → balance (sv_store s') k =
      (λ z, z + (if bool_decide (view CacheDB st2 INIT_LOCK = None) then posted (bs ≫= bk_txList) k else 0))
        <$> balance st2 k.
Proof.
  intros Hs Hf.
  set (s1 := mkSvc (sv_id s) (sv_address s) hostPort kNodeRoleRoot (parentNode gConfig) true (sv_store s)
    (sv_ticks s) (sv_sent s)).
  assert (startable bs s1 st1 st2) as Hs1 by (destruct Hs; by split).
  destruct (init_locks_ok bs s1 st1 st2 Hs1) as (st4 & E & Hr4 & Hf4 & Hi4 & Hc4 & Hfits4).
  destruct (initBalance_loop_ok fuel (initBlockId gConfig) bs (with_store st4 s1) Hr4 Hc4 Hfits4 Hf)
    as (st5 & E5 & Hr5 & Hb5 & Hf5). cbn [sv_store with_store] in *.
  assert (initStorage gConfig s1 = (Ok true, with_store st2 s1)) as Eo.
  { unfold initStorage. erewrite bind_Ok by (apply on_store_Ok; apply Hs1). cbn [negb].
    exact (on_store_Ok _ (with_store st1 s1) _ _ (su_cache _ _ _ _ Hs1)). }
  assert (∀ s', ((if bool_decide (view CacheDB st2 INIT_LOCK = None)
      then (initBalance gConfig fuel ;; mret tt) else mret tt) (with_store st4 s1)) = (Ok tt, s') →
    init gConfig fuel hostPort true s = (Ok true, s')) as Hinit.
  { intros s' E'. unfold init. erewrite bind_Ok by reflexivity. rewrite (su_role _ _ _ _ Hs).
    change (negb (kNodeRoleRoot =? kNodeRoleMiner) && negb (kNodeRoleRoot =? kNodeRoleRoot)) with false. cbn iota.
    erewrite bind_Ok by reflexivity. erewrite bind_Ok by exact Eo. cbn [negb].
    change (kNodeRoleRoot =? kNodeRoleMiner) with false. cbn iota.
    apply bind_inv_Ok in E as ([] & s3 & Erel & Etry). erewrite bind_Ok by exact Erel.
    erewrite bind_Ok by reflexivity. cbn [negb]. erewrite bind_Ok by exact Etry.
    by erewrite bind_Ok by exact E'. }
  assert (∀ k, k ≠ BCLock gConfig → k ≠ INIT_LOCK → balance st4 k = balance st2 k) as Hb4.
  { intros k ? ?. unfold balance. by rewrite Hf4. }
  destruct (bool_decide (view CacheDB st2 INIT_LOCK = None)).
  - exists (with_store st5 (with_store st4 s1)). split_and!.
    + apply Hinit. by erewrite bind_Ok by exact E5.
    + exact Hr5.
    + cbn [sv_store with_store]. rewrite Hf5; [done|]. apply (su_keys _ _ _ _ Hs). by right.
    + done.
    + intros k H1' H2'. cbn [sv_store with_store]. by rewrite Hb5, Hb4.
  - exists (with_store st4 s1). split_and!; [by apply Hinit|done|done|done|].
    intros k H1' H2'. cbn [sv_store with_store]. rewrite Hb4 by done.
    destruct (balance st2 k); cbn; [by rewrite Z.add_0_r|done].
Qed.

(** C17: the first start of a root node adds the net change of the whole chain to every
    balance; a later start, which finds the marker of the first one, changes no balance. *)
Theorem init_replays_once fuel hostPort bs s st1 st2 :
  startable bs s st1 st2 → (length bs < fuel)%nat →
  ∃ s', init gConfig fuel hostPort true s = (Ok true, s') ∧
    is_Some (view CacheDB (sv_store s') INIT_LOCK) ∧
    ∀ k, k ≠ EmptyString → k ≠ BCLock gConfig → k ≠ INIT_LOCK → balance (sv_store s') k =
      (λ z, z + (if bool_decide (view CacheDB st2 INIT_LOCK = None) then net (bs ≫= bk_txList) k else 0))
        <$> balance st2 k.
Proof.
  intros Hs Hf. destruct (init_replays fuel hostPort bs s st1 st2 Hs Hf) as (s' & E & _ & Hi & _ & Hb).
  exists s'. split_and!; [done|done|]. intros k Hne H1' H2'. rewrite Hb by done. by rewrite posted_account.
Qed.

End specs.

(** ** Witnesses: one server in memory behind both handles *)

#[export] Instance wrand : Rand := {| rand_after seed n := (seed + 7919 * Z.of_nat n) mod 1000003 |}.
#[export] Instance wclock : Clock := {| clock_at n := 100 + Z.of_nat n; time_at _ := 1500000000 |}.
#[export] Instance wxml : XmlFiles := {|
  redis_conf_file _ := Some (Some [mkElem (Some "h") (Some "1") (Some EmptyString) (Some "10")])%string |}.

Definition wcfg (role : Z) : Config :=
  mkConfig 500 role "127.0.0.1" "genesis" "LAST_BLOCK" "db.conf" "cache.conf" "TX_POOL" "BCLOCK" "CHILD_NODE"
    "10.0.0.1:9090" 2 "logs".

Definition wcache : RedisCache :=
  @mkCache MemHiredis [Some (@mkRC MemHiredis (mkConf "h" 1 EmptyString 10) (@Some (string * Z) ("h", 1)%string))].
Definition wst (m : db) : Storage (H:=MemHiredis) :=
  mkStorage (Some wcache) (Some wcache) (@mkRW MemHiredis {[ ("h", 1)%string := m ]} 0 1).
Definition wsvc (role : Z) (m : db) : Service :=
  mkSvc "9090" "" "10.0.0.2:9090" role "10.0.0.1:9090" true (wst m) 0 [].

Lemma wst_ready m : ready (wst m).
Proof. intros []; exists wcache; (split; [done|]); (split; [done|]); repeat constructor; eexists _, _; done. Qed.

Definition wbalances : db :=
  {[ "alice" := VStr "100"; "bob" := VStr "7"; "TX_POOL" := VList ["t0"] ]}%string.

Lemma wsettles v : v ∈ [25; 250; -30] →
  settles (wcfg 1) (mkTx "t1" "alice" "bob" v 7) 100 7 ["t0"%string] (wsvc 1 wbalances).
Proof.
  rewrite !elem_of_cons, elem_of_nil. intros Hv.
  split; try done; [apply wst_ready|..]; destruct_or! Hv; subst; done.
Qed.

Lemma account_named_as_lock_witness :
  ∃ st st', handleTransaction (wcfg 1) (mkTx "t1" "alice" BUILDER_LOCK 1 7) (wsvc 1 wbalances) =
      (Ok true, with_store st (wsvc 1 wbalances)) ∧
    Nat.iter 3 (λ r, generateNewBlock (wcfg 1) r.2) (Ok tt, with_store st (wsvc 1 wbalances)) =
      (Ok tt, with_store st' (wsvc 1 wbalances)).
Proof.
  destruct (account_named_as_lock (wcfg 1) (mkTx "t1" "alice" BUILDER_LOCK 1 7) 100 0 ["t0"%string] (wsvc 1 wbalances) 3)
    as (st & st' & E & E' & _).
  - split; try done. apply wst_ready.
  - reflexivity.
  - discriminate.
  - cbn. lia.
  - cbn. lia.
  - exists st, st'. split; [exact E|exact E'].
Defined.

Lemma handleTransaction_accepts_witness :
  ∃ st, handleTransaction (wcfg 1) wtx (wsvc 1 wbalances) = (Ok true, with_store st (wsvc 1 wbalances)) ∧
    balance st "alice" = Some 75 ∧ balance st "bob" = Some 32 ∧
    total st ["alice"; "bob"] = 107.
Proof.
  destruct (handleTransaction_accepts (wcfg 1) wtx 100 7 ["t0"%string] ["alice"; "bob"]%string (wsvc 1 wbalances))
    as (st & E & Hb & Ht & _).
  - apply (wsettles 25). by left.
  - done.
  - by apply (bool_decide_unpack _).
  - by left.
  - right; by left.
  - by apply (bool_decide_unpack _).
  - destruct (Hb ltac:(done)) as [Ha Hbob]. exists st. split; [exact E|]. split; [exact Ha|]. split; [exact Hbob|].
    etransitivity; [exact Ht|]. vm_compute. reflexivity.
Defined.

Lemma handleTransaction_rejected_queued_witness :
  ∃ st, handleTransaction (wcfg 1) (mkTx "t1" "alice" "bob" 250 7) (wsvc 1 wbalances) =
      (Ok true, with_store st (wsvc 1 wbalances)) ∧
    balance st "alice" = Some 100.
Proof.
  destruct (handleTransaction_rejected_queued (wcfg 1) (mkTx "t1" "alice" "bob" 250 7) 100 7 ["t0"%string]
    (wsvc 1 wbalances)) as (st & E & Hb & _).
  - apply (wsettles 250). right; by left.
  - done.
  - exists st. split; [exact E|]. rewrite Hb by done. vm_compute. reflexivity.
Defined.

Lemma handleTransaction_negative_takes_witness :
  ∃ st, handleTransaction (wcfg 1) (mkTx "t1" "alice" "bob" (-30) 7) (wsvc 1 wbalances) =
      (Ok true, with_store st (wsvc 1 wbalances)) ∧
    balance st "alice" = Some 130 ∧ balance st "bob" = Some (-23).
Proof.
  apply (handleTransaction_negative_takes (wcfg 1) (mkTx "t1" "alice" "bob" (-30) 7) 100 7 ["t0"%string]).
  - apply (wsettles (-30)). right; right; by left.
  - done.
  - done.
Defined.

Lemma handleTransaction_forwards_witness :
  ∃ s', handleTransaction (wcfg 2) wtx (wsvc 2 wbalances) = (Ok true, s') ∧
    sv_sent s' = [mkSent "10.0.0.1:9090" 4 (save wtx)].
Proof.
  destruct (handleTransaction_forwards (wcfg 2) wtx 100 (wsvc 2 wbalances)) as (s' & E & Hs & _);
    [apply wst_ready|done..|]. by exists s'.
Defined.

Ltac decide_by_compute := apply (bool_decide_unpack _); vm_compute; exact I.

Ltac valid_by_compute :=
  repeat match goal with
  | |- _ ∧ _ => split
  | |- Forall _ _ => constructor
  | |- @valid ?T ?C ?L ?x => let v := eval cbn in (@valid T C L x) in change v
  end; decide_by_compute.

Definition wtxs : list Transaction := [wtx; mkTx "t2" "bob" "carol" 3 8].
Definition wpooldb : db := {[ "TX_POOL"%string := VList (map archive_out wtxs) ]}.

Lemma wtxs_valid : Forall valid wtxs.
Proof. repeat constructor; decide_by_compute. Qed.

Lemma wpoolable : poolable (wcfg 1) wtxs (wsvc 1 wpooldb).
Proof.
  split; [apply wst_ready|done|vm_compute; reflexivity|done|vm_compute; reflexivity|apply wtxs_valid|done|..];
    decide_by_compute.
Qed.

Lemma createBlock_drains_pool_witness :
  ∃ b s', createBlock (wcfg 1) new_Block (wsvc 1 wpooldb) = (Ok (true, b), s') ∧ bk_txList b = wtxs ∧
    view CacheDB (sv_store s') "TX_POOL" = None.
Proof.
  destruct (createBlock_drains_pool (wcfg 1) wtxs (wsvc 1 wpooldb) wpoolable) as (b & s' & E & Htx & Hp & _).
  exists b, s'. split; [exact E|]. split; [exact Htx|exact Hp].
Defined.

Lemma createBlock_never_links_witness :
  ∃ b s', createBlock (wcfg 1) new_Block (wsvc 1 wpooldb) = (Ok (true, b), s') ∧ bk_prev b = EmptyString.
Proof.
  destruct (createBlock_never_links (wcfg 1) wtxs (wsvc 1 wpooldb) wpoolable) as (b & s' & E & Hb & _); [done|].
  exists b, s'. split; [exact E|exact Hb].
Defined.

Lemma createBlock_same_second_replaces_witness :
  ∃ b1 s1' b2 s2', createBlock (wcfg 1) new_Block (wsvc 1 wpooldb) = (Ok (true, b1), s1') ∧
    createBlock (wcfg 1) new_Block (wsvc 1 wpooldb) = (Ok (true, b2), s2') ∧ bk_id b1 = bk_id b2.
Proof.
  destruct (createBlock_same_second_replaces (wcfg 1) wtxs wtxs (wsvc 1 wpooldb) (wsvc 1 wpooldb)
    wpoolable wpoolable eq_refl) as (b1 & s1' & b2 & s2' & E1 & E2 & _ & _ & Hid & _).
  exists b1, s1', b2, s2'. split; [exact E1|]. split; [exact E2|exact Hid].
Defined.

Lemma updateBalance_conserves_witness :
  ∃ st, updateBalance (mkBlock "b" "" "" 0 wtxs) (wsvc 1 wbalances) = (Ok tt, with_store st (wsvc 1 wbalances)) ∧
    balance st "carol" = Some 3 ∧ total st ["alice"; "bob"; "carol"] = 107.
Proof.
  assert (∀ k, named wtxs k → k ∈ ["alice"; "bob"; "carol"]%string) as Hk.
  { intros k (tx & Htx & Hk). unfold wtxs in Htx. rewrite !elem_of_cons, elem_of_nil in Htx.
    destruct Htx as [->|[->|[]]]; cbn in Hk; rewrite !elem_of_cons; destruct Hk; subst; tauto. }
  destruct (updateBalance_conserves (mkBlock "b" "" "" 0 wtxs) ["alice"; "bob"; "carol"]%string (wsvc 1 wbalances))
    as (st & E & _ & Hb & _ & Ht).
  - apply wst_ready.
  - intros k Hn. apply Hk in Hn. rewrite !elem_of_cons, elem_of_nil in Hn.
    destruct_or! Hn; subst; right; eexists; (split; [vm_compute; reflexivity|decide_by_compute]).
  - decide_by_compute.
  - exact Hk.
  - intros k. destruct (decide (named wtxs k)) as [Hn|Hn].
    + apply Hk in Hn. rewrite !elem_of_cons, elem_of_nil in Hn. destruct_or! Hn; subst; decide_by_compute.
    + cbn [bk_txList]. rewrite net_unnamed by done. done.
  - exists st. split; [exact E|]. split; [rewrite Hb by done; vm_compute; reflexivity|].
    etransitivity; [exact Ht|]. vm_compute. reflexivity.
Defined.

Definition wgenesis : Block := mkBlock "genesis" "" "b1" 1 [mkTx "g" "god" "alice" 50 1].
Definition wb1 : Block := mkBlock "b1" "genesis" "" 2 [mkTx "h" "alice" "bob" 20 2].
Definition wchaindb : db := {[ "genesis" := VStr (archive_out wgenesis); "b1" := VStr (archive_out wb1) ]}%string.

Lemma wgenesis_valid : valid wgenesis.
Proof. valid_by_compute. Qed.

Lemma wb1_valid : valid wb1.
Proof. valid_by_compute. Qed.

Lemma wchain : chain (wst wchaindb) "genesis" [wgenesis; wb1].
Proof.
  constructor; [done|split; [exact wgenesis_valid|vm_compute; reflexivity]|].
  constructor; [done|split; [exact wb1_valid|vm_compute; reflexivity]|constructor].
Qed.

Lemma queryBlockChain_returns_chain_witness :
  ∃ s', queryBlockChain 2 "genesis" [] (wsvc 1 wchaindb) = (Ok (true, [wb1]), s').
Proof.
  destruct (queryBlockChain_returns_chain 2 "genesis" wgenesis [wb1] (wsvc 1 wchaindb)) as (s' & E & _);
    [apply wst_ready|exact wchain|cbn; lia|]. exists s'. exact E.
Defined.

Definition wloop : Block := mkBlock "b1" "" "b1" 2 [].

Lemma queryBlockChain_cycle_diverges_witness :
  ∃ s', queryBlockChain 1000 "b1" [] (wsvc 1 {[ "b1" := VStr (archive_out wloop) ]}) = (Throw OutOfFuel, s').
Proof.
  apply (queryBlockChain_cycle_diverges 1000 "b1" wloop); [apply wst_ready|done| |done].
  split; [|vm_compute; reflexivity]. repeat split; repeat constructor; decide_by_compute.
Defined.

Lemma lock_excludes_witness :
  ∃ st, tryLock "BCLOCK" (wsvc 1 ∅) = (Ok true, with_store st (wsvc 1 ∅)).
Proof.
  destruct (lock_excludes "BCLOCK" (wsvc 1 ∅)
    (mkSvc "9091" "" "10.0.0.2:9090" 1 "10.0.0.1:9090" true (wst ∅) 0 [])) as (st & _ & _ & _ & _ & E & _);
    [apply wst_ready|done|vm_compute; reflexivity|done|done|]. exists st. exact E.
Defined.

Lemma wstartable : startable (wcfg 1) [wgenesis; wb1] (wsvc 1 wchaindb)
  (set_handle BlockDB (Some wcache) (@mkRW MemHiredis {[ ("h", 1)%string := wchaindb ]} 0 2) (wst wchaindb))
  (set_handle CacheDB (Some wcache) (@mkRW MemHiredis {[ ("h", 1)%string := wchaindb ]} 0 3) (wst wchaindb)).
Proof.
  assert (∀ b, b ∈ [wgenesis; wb1] → b = wgenesis ∨ b = wb1) as Hb2.
  { intros b. rewrite !elem_of_cons, elem_of_nil. tauto. }
  assert (∀ b k, b ∈ [wgenesis; wb1] → named (bk_txList b) k → k ∈ ["god"; "alice"; "bob"]%string) as Hn.
  { intros b k [->| ->]%Hb2 (tx & Htx & Hk); cbn in Htx; rewrite elem_of_cons, elem_of_nil in Htx;
      destruct Htx as [->|[]]; rewrite !elem_of_cons; cbn in Hk; tauto. }
  split; try done.
  - intros []; exists wcache; (split; [done|]); (split; [done|]); repeat constructor; eexists _, _; done.
  - constructor; [done|split; [exact wgenesis_valid|vm_compute; reflexivity]|].
    constructor; [done|split; [exact wb1_valid|vm_compute; reflexivity]|constructor].
  - split.
    + intros p b q k Hbs Hk. assert (b ∈ [wgenesis; wb1]) as Hin by (rewrite Hbs, elem_of_app, elem_of_cons; tauto).
      pose proof (Hn b k Hin Hk) as Hk'. rewrite !elem_of_cons, elem_of_nil in Hk'. clear Hin Hk.
      destruct p as [|b0 [|b1 p]]; [injection Hbs as <- <-|injection Hbs as <- <- <-|by destruct p];
        destruct_or! Hk'; try (by destruct Hk'); subst k;
        (right; split; [decide_by_compute|eexists; split; [vm_compute; reflexivity|decide_by_compute]]).
    + intros b k Hin _ Hk. pose proof (Hn b k Hin Hk) as Hk'. rewrite !elem_of_cons, elem_of_nil in Hk'.
      destruct_or! Hk'; subst; decide_by_compute.
  - intros k [->| ->]; (split; [decide_by_compute|]); intros (tx & Htx & Hk);
      apply list_elem_of_bind in Htx as (b & Htx & Hin); pose proof (Hn b _ Hin (ex_intro _ tx (conj Htx Hk))) as Hx;
      rewrite !elem_of_cons, elem_of_nil in Hx; destruct_or! Hx; done.
Qed.

Lemma init_replays_once_witness :
  ∃ s', init (wcfg 1) 3 "10.0.0.2:9090" true (wsvc 1 wchaindb) = (Ok true, s') ∧
    balance (sv_store s') "alice" = Some 30 ∧ balance (sv_store s') "god" = Some (-50).
Proof.
  destruct (init_replays_once (wcfg 1) 3 "10.0.0.2:9090" _ _ _ _ wstartable) as (s' & E & _ & Hb); [cbn; lia|].
  exists s'. split; [exact E|].
  split; (rewrite Hb by done; vm_compute; reflexivity).
Defined.
