(* ===== verification/Dispatch.v ===== *)
(** * Dispatch.v: from a request to its handler

    [core/base/ServiceContext.h] (the table of forms), [core/base/ServerContext.cpp]
    (the dispatcher), [core/base/CerealHandler.h] (the form of a JSON message) and
    [MsgProtoConsumer::doRequest].  [S] is the state of the program the handlers
    work on, [K] the type of connection pointers. *)

From S2P Require Import Prelude ByteStream Cnum Sender Framing Proto.

Section dispatch.
Context {S K : Type}.

(** [FormEntry::type] and [TargetProc]: the tag and the union in one; the macros of
    ServiceContext.h pair each tag with its member. *)
Inductive TargetProc (Cmd : Type) :=
  | fpt_vc (f : Cmd → M S unit)
  | fpt_vuc (f : Z → Cmd → M S unit)
  | fpt_vkc (f : Z → Cmd → M S unit)
  | fpt_vcc (f : Cmd → K → M S unit)
  | fpt_null.
Arguments fpt_vc {_} _.
Arguments fpt_vuc {_} _.
Arguments fpt_vkc {_} _.
Arguments fpt_vcc {_} _.
Arguments fpt_null {_}.

(** [requestForm] is an [IFormHandle]: its [handlePacket] builds a command from the
    stream of a request. *)
Record FormEntry := mkEntry {
  fe_uri : Z;
  fe_Cmd : Type;
  requestForm : option (M RS fe_Cmd);
  fe_proc : TargetProc fe_Cmd;
  fe_target : bool;          (** [target] is not NULL *)
}.

Definition set_target (e : FormEntry) (t : bool) : FormEntry :=
  mkEntry (fe_uri e) (fe_Cmd e) (requestForm e) (fe_proc e) t.

(** The last entry of every table. *)
Definition END_FORM_MAP : FormEntry := mkEntry 0 unit None fpt_null false.

(** [ServerContext]: the map, keyed by the eight bits of [uri_t], and the writer. *)
Record ServerContext := mkCtx { entries : gmap Z FormEntry; ctx_writer : bool }.
Definition new_ServerContext : ServerContext := mkCtx ∅ false.

Definition setWriter (w : bool) : M ServerContext unit := modify (λ c, mkCtx (entries c) w).
Definition clear_entries : M ServerContext unit := modify (λ c, mkCtx ∅ (ctx_writer c)).

(** The loop of [addEntry] over a table that ends at an entry with URI 0; one that
    does not is read beyond its end. *)
Fixpoint add_entries (es : list FormEntry) (target : bool) : M ServerContext unit :=
  match es with
  | [] => throw Undefined
  | e :: es =>
      if fe_uri e =? 0 then mret tt
      else
        c ← get;
        match entries c !! u8 (fe_uri e) with
        | Some _ => throw AssertFail
        | None =>
            put (mkCtx (<[u8 (fe_uri e) := set_target e target]> (entries c)) (ctx_writer c)) ;;
            add_entries es target
        end
  end.

(** [addEntry]; the writer handed to [inf] is returned. *)
Definition addEntry (es : list FormEntry) (target : bool) : M ServerContext bool :=
  w ← gets ctx_writer; add_entries es target ;; mret w.

(** [Request::setFormHandler]: the command, or what [handlePacket] throws; the read
    stream is that of the request. *)
Definition setFormHandler (e : FormEntry) (req : Request) : res (fe_Cmd e) :=
  match requestForm e with
  | Some handlePacket => (handlePacket (up req)).1
  | None => Throw Undefined
  end.

(** [dispatchMessage]; a command is never NULL here, since [handlePacket] returns an
    object or throws. *)
Definition dispatchMessage (e : FormEntry) (req : Request) (cmd : fe_Cmd e) (conn : K) : M S unit :=
  if negb (fe_target e) then mret tt
  else match fe_proc e with
       | fpt_vc f => f cmd
       | fpt_vcc f => f cmd conn
       | fpt_vkc f => f (getKey req) cmd
       | fpt_vuc f => f (getUid req) cmd
       | fpt_null => mret tt
       end.

Definition on_ReadStreamExn {A} (m : M S A) (e : exn) : option (M S A) :=
  match e with ReadStreamExn => Some m | _ => None end.

(** [requestDispatch]: whether there is a writer. *)
Definition requestDispatch (c : ServerContext) (req : Request) (conn : K) : M S bool :=
  match entries c !! u8 (rq_uri req) with
  | None => mret (ctx_writer c)
  | Some e =>
      try_catch
        (cmd ← lift_res (setFormHandler e req);
         dispatchMessage e req cmd conn ;;
         mret (ctx_writer c))
        (on_ReadStreamExn (mret (ctx_writer c)))
  end.

(** [DirectWriter::flush] *)
Definition writer_flush : M S Z := mret 0.

(** [MsgProtoConsumer::doRequest], which the JSON consumer inherits. *)
Definition doRequest (c : ServerContext) (conn : K) (req : Request) : M S Z :=
  w ← requestDispatch c req conn;
  if w : bool then writer_flush else mret 0.

End dispatch.
Arguments TargetProc : clear implicits.
Arguments FormEntry : clear implicits.
Arguments ServerContext : clear implicits.
Arguments fpt_vc {_ _ _} _.
Arguments fpt_vuc {_ _ _} _.
Arguments fpt_vkc {_ _ _} _.
Arguments fpt_vcc {_ _ _} _.
Arguments fpt_null {_ _ _}.

(** ** Forms *)

(** [FormHandleT<T>::handlePacket]: the binary form; [m] reads a [T]. *)
Definition FormHandleT_handlePacket {T} (unmarshal : M RS T) : M RS T := unmarshal.

(** [CerealMsgHandle<T>::handlePacket]: a new object is read from the whole body, which
    is used up; what cereal throws is not a [ReadStreamExn] and goes on. *)
Definition CerealMsgHandle_handlePacket `{Cereal} {T} `{Serializable T} (fresh : T) : M RS T := λ up,
  match archive_in (string_of up) fresh with
  | (Ok _, obj) => (Ok obj, [])
  | (Throw e, _) => (Throw e, up)
  end.

(** The macro [J_ON_LINK]. *)
Definition J_ON_LINK {S K} `{Cereal} {T} `{Serializable T} (fresh : T) (fp : T → K → M S unit) : FormEntry S K :=
  mkEntry (msg_uri T) T (Some (CerealMsgHandle_handlePacket fresh)) (fpt_vcc fp) false.

(** The other macros of CerealHandler.h: the command alone, with the user id, with the key. *)
Definition J_ON_REQUEST {S K} `{Cereal} {T} `{Serializable T} (fresh : T) (fp : T → M S unit) : FormEntry S K :=
  mkEntry (msg_uri T) T (Some (CerealMsgHandle_handlePacket fresh)) (fpt_vc fp) false.
Definition J_ON_UREQUEST {S K} `{Cereal} {T} `{Serializable T} (fresh : T) (fp : Z → T → M S unit) : FormEntry S K :=
  mkEntry (msg_uri T) T (Some (CerealMsgHandle_handlePacket fresh)) (fpt_vuc fp) false.
Definition J_ON_SREQUEST {S K} `{Cereal} {T} `{Serializable T} (fresh : T) (fp : Z → T → M S unit) : FormEntry S K :=
  mkEntry (msg_uri T) T (Some (CerealMsgHandle_handlePacket fresh)) (fpt_vkc fp) false.

(** The macros of ServiceContext.h, over the binary form. *)
Definition ON_REQUEST {S K T} (uri : Z) (unmarshal : M RS T) (fp : T → M S unit) : FormEntry S K :=
  mkEntry uri T (Some (FormHandleT_handlePacket unmarshal)) (fpt_vc fp) false.
Definition ON_UREQUEST {S K T} (uri : Z) (unmarshal : M RS T) (fp : Z → T → M S unit) : FormEntry S K :=
  mkEntry uri T (Some (FormHandleT_handlePacket unmarshal)) (fpt_vuc fp) false.
Definition ON_KREQUEST {S K T} (uri : Z) (unmarshal : M RS T) (fp : Z → T → M S unit) : FormEntry S K :=
  mkEntry uri T (Some (FormHandleT_handlePacket unmarshal)) (fpt_vkc fp) false.
Definition ON_LINK {S K T} (uri : Z) (unmarshal : M RS T) (fp : T → K → M S unit) : FormEntry S K :=
  mkEntry uri T (Some (FormHandleT_handlePacket unmarshal)) (fpt_vcc fp) false.

(** ** Lemmas *)

Section dispatch_lemmas.
Context {S K : Type}.
Implicit Types (c : ServerContext S K) (e : FormEntry S K).

Lemma try_catch_Ok {A} (m : M S A) h s a s' :
  m s = (Ok a, s') → try_catch m h s = (Ok a, s').
Proof. unfold try_catch. by intros ->. Qed.

(** A table is accepted when its URIs are new to the context and to each other. *)
Definition fresh_table c (es : list (FormEntry S K)) : Prop :=
  NoDup (map (λ e, u8 (fe_uri e)) es) ∧
  Forall (λ e, fe_uri e ≠ 0 ∧ entries c !! u8 (fe_uri e) = None) es.

Lemma add_entries_spec es t c :
  fresh_table c es →
  ∃ c', add_entries (es ++ [END_FORM_MAP]) t c = (Ok tt, c') ∧ ctx_writer c' = ctx_writer c ∧
    (∀ e, e ∈ es → entries c' !! u8 (fe_uri e) = Some (set_target e t)) ∧
    (∀ u, u ∉ map (λ e, u8 (fe_uri e)) es → entries c' !! u = entries c !! u).
Proof.
  revert c. induction es as [|e es IH]; intros c [Hnd Hf].
  - exists c. split_and!; [done|done|by intros e ?%elem_of_nil|done].
  - cbn in Hnd. inversion_clear Hnd as [|? ? He Hnd']. apply Forall_cons_1 in Hf as [[H0 Hn] Hf].
    destruct (IH (mkCtx (<[u8 (fe_uri e) := set_target e t]> (entries c)) (ctx_writer c)))
      as (c' & E & Hw & Hin & Hout).
    { split; [done|]. rewrite Forall_forall in Hf. apply Forall_forall. intros x Hx.
      destruct (Hf x Hx) as [Hx0 Hxn]. split; [done|]. cbn. rewrite lookup_insert_ne; [done|].
      intros E. apply He. rewrite E. apply list_elem_of_fmap. exists x. split; [done|by apply list_elem_of_In]. }
    exists c'. split_and!.
    + cbn [app add_entries]. destruct (Z.eqb_spec (fe_uri e) 0); [done|].
      erewrite bind_Ok by reflexivity. rewrite Hn. erewrite bind_Ok by reflexivity. exact E.
    + by rewrite Hw.
    + intros x [->|Hx]%elem_of_cons; [|by apply Hin]. rewrite Hout by done. cbn. by rewrite lookup_insert_eq.
    + intros u Hu. cbn in Hu. apply not_elem_of_cons in Hu as [Hu Hu']. rewrite Hout by done. cbn.
      by rewrite lookup_insert_ne.
Qed.

(** A URI in no table: the request is dropped and the loop goes on. *)
Lemma doRequest_unknown c conn req s :
  entries c !! u8 (rq_uri req) = None → doRequest c conn req s = (Ok 0, s).
Proof. intros E. unfold doRequest, requestDispatch. rewrite E. by destruct c as [? []]. Qed.

(** A known one: the form is read and the handler runs, a [ReadStreamExn] of either is
    dropped, anything else goes on to the consumer. *)
Lemma doRequest_known c conn req e s :
  entries c !! u8 (rq_uri req) = Some e →
  doRequest c conn req s =
    (try_catch (cmd ← lift_res (setFormHandler e req); dispatchMessage e req cmd conn) (on_ReadStreamExn (mret tt)) ;;
     mret 0) s.
Proof.
  intros E. unfold doRequest, requestDispatch. rewrite E. unfold mbind, M_bind, try_catch, lift_res.
  destruct (setFormHandler e req) as [cmd|x]; [destruct (dispatchMessage e req cmd conn s) as [[[]|y] s1]|];
    destruct c as [? []]; cbn; try done;
    match goal with |- context [on_ReadStreamExn _ ?y] => destruct y end; done.
Qed.

(** A handler that takes a key gets the session of the message: for a [JsonRequest] that is
    what the virtual [getKey] returns. *)
Lemma doRequest_session `{Cereal} {T} `{Serializable T} un c conn f (fresh obj : T) g s :
  entries c !! u8 (fr_uri f) = Some (set_target (J_ON_SREQUEST fresh g) true) →
  archive_in (string_of (fr_body f)) fresh = (Ok tt, obj) →
  doRequest c conn (frame_request un f) s =
    (try_catch (g (fr_session f) obj) (on_ReadStreamExn (mret tt)) ;; mret 0) s.
Proof.
  intros E Ha. rewrite (doRequest_known _ _ _ (set_target (J_ON_SREQUEST fresh g) true)) by exact E.
  unfold setFormHandler. cbn [requestForm set_target J_ON_SREQUEST up frame_request].
  unfold CerealMsgHandle_handlePacket. rewrite Ha. cbn [fst]. reflexivity.
Qed.


Lemma J_form_reads `{CerealLaw} `{MessageLaw T} (x fresh : T) :
  valid x → (CerealMsgHandle_handlePacket fresh (bytes_of (archive_out x))) = (Ok x, []).
Proof. intros Hx. unfold CerealMsgHandle_handlePacket. by rewrite string_of_bytes_of, archive_in_out. Qed.

End dispatch_lemmas.
