(* ===== verification/Handler.v ===== *)
(** * Handler.v: the node's request handlers

    [server/FPReqHandler.h], [server/FPReqHandler.cpp] and [core/base/TimerHandler.h]:
    the table of forms, one handler per message, the start and the timer of the node.
    A [Node] is the handler object with the service it owns, beside whatever the
    answers go to: class [Peer] says what the handlers need of a connection and of
    the timer list, so every theorem holds for any network. *)

From S2P Require Import Prelude Cnum Redis Store RedisCache BlockBuffer ByteStream Sender Framing Proto.
From S2P Require Import Config Helper Service Dispatch.
From Stdlib Require Import Lia.
Open Scope Z_scope.

(** [IConn::send] of packed bytes, and [IOLoop::addTimer] for the node's own timer. *)
Class Peer (K C : Type) := {
  peer_send : K → list byte → M C unit;
  peer_addTimer : Z → M C unit;
}.

Section node.
Context {S K C : Type} `{Store S, Cereal, Indeterminate, Rand, Clock, Peer K C}.
(** The allocator and what it leaves in new objects, the configuration, the rounds
    granted to the loops over locks and chains. *)
Context (h : Heap) (junk : Header) (stats : BlockStats) (gConfig : Config) (fuel : nat).

(** [FPReqHandler] with its [TimerHandler]; [_service] NULL is [None]. *)
Record Node := mkNode {
  _service : option (Service (S:=S));
  nd_writer : bool;
  tm_x : bool;              (** [TimerHandler::_x] is not NULL *)
  tm_to : Z;                (** [TimerHandler::_to] *)
  nd_peer : C;
}.

Definition new_FPReqHandler (c : C) : Node := mkNode None false false 0 c.

Definition set_service (v : option Service) : M Node unit := modify (λ n,
  mkNode v (nd_writer n) (tm_x n) (tm_to n) (nd_peer n)).
Definition set_writer (w : bool) : M Node unit := modify (λ n,
  mkNode (_service n) w (tm_x n) (tm_to n) (nd_peer n)).

(** A call of [_service]; through NULL it is undefined. *)
Definition on_service {A} (m : M Service A) : M Node A := λ n,
  match _service n with
  | Some sv => let (r, sv') := m sv in (r, mkNode (Some sv') (nd_writer n) (tm_x n) (tm_to n) (nd_peer n))
  | None => (Throw Undefined, n)
  end.

Definition on_peer {A} (m : M C A) : M Node A := λ n,
  let (r, c) := m (nd_peer n) in (r, mkNode (_service n) (nd_writer n) (tm_x n) (tm_to n) c).

(** [IRouteTarget::answer] through [DirectWriter::answer]. *)
Definition answer {T} `{Serializable T} (conn : K) (obj : T) : M Node unit :=
  w ← gets nd_writer;
  if negb w then throw Undefined
  else
    (bs ← lift_res (answer_bytes h junk stats (msg_uri T) (json_marshal obj));
     on_peer (peer_send conn bs)).

(** ** The handlers *)

Definition set_status (st : Z) (r : Response) : Response := mkRsp st (rs_address r) (rs_desc r).

Definition onQueryBalance (req : QueryBalance) (conn : K) : M Node unit :=
  let rsp := set_status (-1) new_Response in
  r ← on_service (queryBalanceString (qb_address req) EmptyString);
  answer conn (if r.1 : bool then mkRsp 0 (rs_address rsp) ("balance = " +:+ r.2) else rsp).

Definition onTransaction (req : Transaction) (conn : K) : M Node unit :=
  let rsp := new_Response in
  ok ← on_service (handleTransaction gConfig req);
  answer conn (if negb ok then set_status (-1) rsp else rsp).

Definition onNodeAction (req : NodeInfo) (conn : K) : M Node unit :=
  let rsp := new_Response in
  ok ← on_service (handleLogin gConfig req);
  answer conn (if ok : bool then set_status 0 rsp else rsp).

Definition onBlockArrived (req : Block) (conn : K) : M Node unit :=
  let rsp := new_Response in
  ok ← on_service (handleBlockArrived req);
  answer conn (if ok : bool then set_status 0 rsp else rsp).

Definition onBlockSyncRequest (req : BlockSyncRequest) (conn : K) : M Node unit :=
  addr ← on_service getAddress;
  r ← on_service (queryBlockChain fuel (bq_lastBlockId req) (br_blockList new_BlockSyncResponse));
  answer conn (mkBSRsp addr r.2).

(** The loop of [onBlockSyncResponse]; it stops at the first block refused. *)
Fixpoint arrive_loop (blocks : list Block) (rsp : Response) : M Node Response :=
  match blocks with
  | [] => mret rsp
  | b :: blocks =>
      ok ← on_service (handleBlockArrived b);
      if negb ok then mret (set_status (-1) rsp) else arrive_loop blocks rsp
  end.

Definition onBlockSyncResponse (req : BlockSyncResponse) (conn : K) : M Node unit :=
  rsp ← arrive_loop (br_blockList req) new_Response;
  answer conn rsp.

(** [BlockSyncRequest()]: only the time stamp is left indeterminate. *)
Definition new_BlockSyncRequest : BlockSyncRequest := mkBSReq "" "" ind_timestamp.

(** [FPReqHandler::formEntries] *)
Definition formEntries : list (FormEntry Node K) := [
  J_ON_LINK (mkQB "") onQueryBalance;
  J_ON_LINK new_Transaction onTransaction;
  J_ON_LINK new_Block onBlockArrived;
  J_ON_LINK new_NodeInfo onNodeAction;
  J_ON_LINK new_BlockSyncRequest onBlockSyncRequest;
  J_ON_LINK new_BlockSyncResponse onBlockSyncResponse;
  END_FORM_MAP].

(** ** The timer *)

(** [TimerHandler::start]: [uint32_t] to [int] at the call of [addTimer]. *)
Definition timer_init : M Node unit := modify (λ n,
  mkNode (_service n) (nd_writer n) true (tm_to n) (nd_peer n)).
Definition timer_start (timeout : Z) : M Node unit :=
  modify (λ n, mkNode (_service n) (nd_writer n) (tm_x n) (u32 timeout) (nd_peer n)) ;;
  t ← gets tm_to; on_peer (peer_addTimer (s32 t)).
Definition timer_stop : M Node unit := on_peer (peer_addTimer (-1)).

(** [FPReqHandler::onTimer] *)
Definition onTimer : M Node bool :=
  sv ← gets _service;
  match sv with
  | None => mret false
  | Some _ => on_service (generateNewBlock gConfig) ;; mret true
  end.

(** [TimerHandler::doEvent] *)
Definition timer_doEvent : M Node unit :=
  x ← gets tm_x;
  if x : bool then
    (again ← onTimer;
     if again : bool then (t ← gets tm_to; on_peer (peer_addTimer (s32 t))) else mret tt)
  else mret tt.

(** ** Start *)

(** What [sprintf] writes into the 128 bytes of [buf]; longer text is undefined. *)
Definition hostPort_of (host : string) (port : Z) : res string :=
  let s := c_string host +:+ ":" +:+ dec_string port in
  if 128 <=? Z.of_nat (String.length s) + 1 then Throw Undefined else Ok s.

(** [FPReqHandler::init]; [store] is the storage of the new service. *)
Definition init_handler (serviceId : string) (store : S) (port : Z) : M Node bool :=
  set_service (Some (new_Service serviceId store)) ;;
  hostPort ← lift_res (hostPort_of (host gConfig) port);
  ok ← on_service (init gConfig fuel hostPort true);
  if negb ok then (set_service None ;; mret false)
  else
    (role ← on_service (gets sv_role);
     (if role =? kNodeRoleRoot then timer_init ;; timer_start (blockSyncInterval gConfig) else mret tt) ;;
     mret true).

(** What [main] builds before the loop: the context knows the writer, the table is
    entered with the handler as its target, and the handler gets the writer. *)
Definition node_context : res (ServerContext Node K) :=
  match (setWriter true ;; addEntry formEntries true) new_ServerContext with
  | (Ok _, c) => Ok c
  | (Throw e, _) => Throw e
  end.

(** ** What a peer sees: one reply per message *)

(** A message of a class the node has a form for, or of any other URI. *)
Inductive NodeMsg :=
  | MQuery (m : QueryBalance) | MNode (m : NodeInfo) | MTx (m : Transaction) | MBlock (m : Block)
  | MSyncReq (m : BlockSyncRequest) | MSyncRsp (m : BlockSyncResponse)
  | MOther (uri : Z) (text : string).

Definition msg_code (m : NodeMsg) : Z :=
  match m with
  | MQuery _ => 1 | MNode _ => 2 | MTx _ => 4 | MBlock _ => 5 | MSyncReq _ => 7 | MSyncRsp _ => 8
  | MOther u _ => u
  end.
Definition msg_text (m : NodeMsg) : string :=
  match m with
  | MQuery m => archive_out m | MNode m => archive_out m | MTx m => archive_out m
  | MBlock m => archive_out m | MSyncReq m => archive_out m | MSyncRsp m => archive_out m
  | MOther _ t => t
  end.
Definition msg_frame (ss : Z) (m : NodeMsg) : frame := mkFrame ss (msg_code m) (bytes_of (msg_text m)).

(** The handler of a message. *)
Definition handle (m : NodeMsg) (conn : K) : M Node unit :=
  match m with
  | MQuery m => onQueryBalance m conn
  | MNode m => onNodeAction m conn
  | MTx m => onTransaction m conn
  | MBlock m => onBlockArrived m conn
  | MSyncReq m => onBlockSyncRequest m conn
  | MSyncRsp m => onBlockSyncResponse m conn
  | MOther _ _ => mret tt
  end.

(** The reference: the handlers called one after the other, no bytes involved.  A
    [ReadStreamExn] would be dropped by the dispatcher. *)
Fixpoint serve (ms : list NodeMsg) (conn : K) : M Node unit :=
  match ms with
  | [] => mret tt
  | m :: ms => try_catch (handle m conn) (on_ReadStreamExn (mret tt)) ;; serve ms conn
  end.

(** The abstract node: what the service does for a message, and the URI and text of the
    one answer; a message of another URI has none. *)
Definition reply_status (ok : bool) : Z * string := (6, archive_out (mkRsp (if ok then 0 else -1) "" "")).
Definition node_reply (m : NodeMsg) : M (Service (S:=S)) (option (Z * string)) :=
  match m with
  | MQuery m =>
      r ← queryBalanceString (qb_address m) EmptyString;
      mret (Some (if r.1 : bool then (6, archive_out (mkRsp 0 "" ("balance = " +:+ r.2))) else reply_status false))
  | MNode m => handleLogin gConfig m ;; mret (Some (reply_status true))
  | MTx m => ok ← handleTransaction gConfig m; mret (Some (reply_status ok))
  | MBlock m => mret (Some (reply_status true))
  | MSyncReq m =>
      addr ← gets sv_address;
      r ← queryBlockChain fuel (bq_lastBlockId m) [];
      mret (Some (8, archive_out (mkBSRsp addr r.2)))
  | MSyncRsp m =>
      role ← gets sv_role;
      mret (Some (reply_status (bool_decide (br_blockList m = []) || (role =? kNodeRoleMiner))))
  | MOther _ _ => mret None
  end.

End node.
Arguments Node : clear implicits.
Arguments Node _ _ : clear implicits.

(** A peer that keeps what it is sent. *)
Definition Log (K : Type) : Type := list (K * list byte).
#[export] Instance LogPeer K : Peer K (Log K) := {|
  peer_send k bs := modify (λ l, l ++ [(k, bs)]);
  peer_addTimer _ := mret tt;
|}.

(** The replies to a list of messages, in order. *)
Fixpoint node_replies {St} `{Store St, Cereal, Indeterminate, Rand, Clock} (gConfig : Config) (fuel : nat)
    (ms : list NodeMsg) : M (Service (S:=St)) (list (Z * string)) :=
  match ms with
  | [] => mret []
  | m :: ms =>
      r ← node_reply gConfig fuel m; rs ← node_replies gConfig fuel ms;
      mret (option_list r ++ rs)
  end.

(** ** Lemmas *)

Section node_lemmas.
Context {S K C : Type} `{Store S, CerealLaw, Indeterminate, Rand, Clock, Peer K C}.
Context (h : Heap) (junk : Header) (stats : BlockStats) (gConfig : Config) (fuel : nat).
Abbreviation Nd := (Node S C).
Abbreviation context := (node_context (K:=K) (C:=C) h junk stats gConfig fuel).

(** The entry of each message class. *)
Definition entry_of (m : NodeMsg) : option (FormEntry Nd K) :=
  match m with
  | MQuery _ => Some (J_ON_LINK (mkQB "") (onQueryBalance h junk stats))
  | MTx _ => Some (J_ON_LINK new_Transaction (onTransaction h junk stats gConfig))
  | MBlock _ => Some (J_ON_LINK new_Block (onBlockArrived h junk stats))
  | MNode _ => Some (J_ON_LINK new_NodeInfo (onNodeAction h junk stats gConfig))
  | MSyncReq _ => Some (J_ON_LINK new_BlockSyncRequest (onBlockSyncRequest h junk stats fuel))
  | MSyncRsp _ => Some (J_ON_LINK new_BlockSyncResponse (onBlockSyncResponse h junk stats))
  | MOther _ _ => None
  end.

Definition node_uris : list Z := [1; 2; 4; 5; 7; 8].

Definition msg_valid (m : NodeMsg) : Prop :=
  match m with
  | MQuery m => valid m | MNode m => valid m | MTx m => valid m
  | MBlock m => valid m | MSyncReq m => valid m | MSyncRsp m => valid m
  | MOther u _ => in_u 8 u ∧ u ∉ node_uris
  end.

Lemma node_context_entries :
  ∃ c, context = Ok c ∧ ctx_writer c = true ∧
    (∀ m e, entry_of m = Some e → entries c !! msg_code m = Some (set_target e true)) ∧
    (∀ u, u ∉ node_uris → entries c !! u = None).
Proof.
  destruct (add_entries_spec (removelast (formEntries h junk stats gConfig fuel)) true
    (mkCtx (∅ : gmap Z (FormEntry Nd K)) true)) as (c & E & Hw & Hin & Hout).
  { split; [by apply (bool_decide_unpack _)|]. repeat constructor; done. }
  exists c. split_and!; [| done| |].
  - unfold node_context, addEntry. erewrite bind_Ok by reflexivity. erewrite bind_Ok by reflexivity.
    cbn [ctx_writer entries]. erewrite bind_Ok by exact E. done.
  - intros m e He. replace (msg_code m) with (u8 (fe_uri e)) by (destruct m; by simplify_eq/=).
    apply Hin. destruct m; simplify_eq/=; rewrite !elem_of_cons; tauto.
  - intros u Hu. rewrite Hout; [done|]. cbn. revert Hu. unfold node_uris.
    rewrite !elem_of_cons, !elem_of_nil. tauto.
Qed.

Lemma context_entries c :
  context = Ok c →
  (∀ m e, entry_of m = Some e → entries c !! msg_code m = Some (set_target e true)) ∧
  (∀ u, u ∉ node_uris → entries c !! u = None).
Proof.
  intros E. destruct node_context_entries as (c' & E' & _ & H1' & H2').
  rewrite E in E'. injection E' as ->. by split.
Qed.

Lemma msg_code_u8 m e : entry_of m = Some e → u8 (msg_code m) = msg_code m.
Proof. by destruct m. Qed.

(** One complete message reaches its handler, whatever its session. *)
Lemma doRequest_msg c un conn ss m s :
  context = Ok c → msg_valid m →
  doRequest c conn (frame_request un (msg_frame ss m)) s =
    (try_catch (handle h junk stats gConfig fuel m conn) (on_ReadStreamExn (mret tt)) ;; mret 0) s.
Proof.
  intros Hc Hm. destruct (context_entries c Hc) as [He Ho].
  destruct (entry_of m) as [e|] eqn:Em.
  - rewrite (doRequest_known c conn _ (set_target e true)).
    2: { cbn [rq_uri frame_request msg_frame fr_uri]. rewrite (msg_code_u8 m e Em). by apply He. }
    unfold setFormHandler, frame_request, msg_frame; cbn [up fr_body].
    unfold mbind, M_bind, try_catch, lift_res.
    destruct m; try discriminate Em; injection Em as <-;
      cbn [requestForm set_target J_ON_LINK msg_text msg_valid] in *;
      rewrite (J_form_reads _ _ Hm); done.
  - destruct m as [| | | | | |u t]; try done. destruct Hm as [Hu Hn].
    rewrite doRequest_unknown; [done|]. cbn. rewrite uwrap_small by done. by apply Ho.
Qed.

Lemma run_frames_serve c un conn (ms : list (Z * NodeMsg)) s :
  context = Ok c → Forall msg_valid (ms.*2) →
  run_frames un (doRequest c conn) ((λ p, msg_frame p.1 p.2) <$> ms) s =
    (serve h junk stats gConfig fuel (ms.*2) conn ;; mret true) s.
Proof.
  intros Hc. revert s. induction ms as [|[ss m] ms IH]; intros s Hv; [done|].
  apply Forall_cons_1 in Hv as [Hm Hv]. cbn [fmap list_fmap run_frames serve fst snd] in *.
  pose proof (doRequest_msg c un conn ss m s Hc Hm) as E. unfold mbind, M_bind in E |- *. rewrite E.
  destruct (try_catch _ _ s) as [[[]|e] s']; [|done]. cbn. apply IH. exact Hv.
Qed.

Definition sized (p : Z * NodeMsg) : Prop :=
  in_u 32 p.1 ∧ 1 + Z.of_nat (String.length (msg_text p.2)) < 2 ^ 29.

Lemma zlen_bytes_of t : zlen (bytes_of t) = Z.of_nat (String.length t).
Proof. induction t as [|a t IH]; [done|]. rewrite bytes_of_cons, zlen_cons, IH. cbn [String.length]. lia. Qed.

Lemma msg_frame_wf p : sized p → msg_valid p.2 → frame_wf (msg_frame p.1 p.2).
Proof.
  intros [Hs Hl] Hv. split; [done|]. split; [destruct p as [? []]; try done; apply Hv|].
  cbn [fr_body msg_frame]. by rewrite zlen_bytes_of.
Qed.

Lemma msg_frames_wf ms :
  Forall sized ms → Forall msg_valid (ms.*2) → Forall frame_wf ((λ p, msg_frame p.1 p.2) <$> ms).
Proof.
  intros Hs. induction Hs as [|p ms Hp Hs IH]; cbn; intros Hv; [constructor|].
  apply Forall_cons_1 in Hv as [Hpv Hv]. constructor; [by apply msg_frame_wf|by apply IH].
Qed.

Lemma feed_serve c un conn ms chunks s :
  context = Ok c → Forall sized ms → Forall msg_valid (ms.*2) →
  Forall (λ c, zlen c <= 2 ^ 30) chunks →
  concat chunks = stream ((λ p, msg_frame p.1 p.2) <$> ms) →
  feed un (doRequest c conn) [] chunks s =
    (serve h junk stats gConfig fuel (ms.*2) conn ;; mret (Some [])) s.
Proof.
  intros Hc Hs Hv Hch Hcat.
  rewrite (feed_run_frames un (doRequest c conn) chunks [] ((λ p, msg_frame p.1 p.2) <$> ms) s); [|..|done|done].
  - unfold mbind, M_bind. pose proof (run_frames_serve c un conn ms s Hc Hv) as E.
    unfold mbind, M_bind in E. rewrite E.
    by destruct (serve h junk stats gConfig fuel (ms.*2) conn s) as [[[]|e] s'].
  - by apply msg_frames_wf.
  - done.
Qed.

(** C5: however a stream of valid messages is cut into reads, the node does what calling
    its handlers one after the other does: headers, dispatch table and JSON texts cancel
    out, messages of other URIs are skipped, and no byte is left over. *)
Theorem node_serves_stream c un conn ms chunks s :
  context = Ok c → Forall sized ms → Forall msg_valid (ms.*2) →
  Forall (λ c, zlen c <= 2 ^ 30) chunks →
  concat chunks = stream ((λ p, msg_frame p.1 p.2) <$> ms) →
  feed un (doRequest c conn) [] chunks s =
    (serve h junk stats gConfig fuel (ms.*2) conn ;; mret (Some [])) s.
Proof. apply feed_serve. Qed.

(** ** One reply per message *)

Definition with_service (sv : Service) (n : Nd) : Nd :=
  mkNode (Some sv) (nd_writer n) (tm_x n) (tm_to n) (nd_peer n).

(** The frame of a reply: session -1, the URI, the text. *)
Definition reply_frame (r : Z * string) : list byte := json_frame (2 ^ 32 - 1) r.1 (bytes_of r.2).
Definition fits (r : Z * string) : Prop := HEADER_SIZE + zlen (bytes_of r.2) <= maxsize.

Definition send_reply (conn : K) (r : option (Z * string)) : M Nd unit :=
  match r with Some r => on_peer (peer_send conn (reply_frame r)) | None => mret tt end.

Lemma on_service_run {A} (m : M Service A) (n : Nd) sv a sv' :
  _service n = Some sv → m sv = (Ok a, sv') → on_service m n = (Ok a, with_service sv' n).
Proof. intros E Em. unfold on_service. by rewrite E, Em. Qed.

Lemma answer_run {T} `{Serializable T} conn (obj : T) (n : Nd) :
  heap_avail h → in_u 8 (msg_uri T) → nd_writer n = true → fits (msg_uri T, archive_out obj) →
  answer h junk stats conn obj n = on_peer (peer_send conn (reply_frame (msg_uri T, archive_out obj))) n.
Proof.
  intros Hh Hu Hw Hf. unfold answer. erewrite bind_Ok by reflexivity. rewrite Hw. cbn [negb].
  rewrite (answer_bytes_ok h junk stats _ _ _ Hh Hu (json_marshal_appends obj) Hf). done.
Qed.

Lemma arrive_loop_run blocks rsp (n : Nd) sv :
  _service n = Some sv →
  arrive_loop blocks rsp n =
    (Ok (if bool_decide (blocks = []) || (sv_role sv =? kNodeRoleMiner) then rsp else set_status (-1) rsp), n).
Proof.
  intros Hs. induction blocks as [|b blocks IH]; [done|]. cbn [arrive_loop].
  assert (on_service (handleBlockArrived b) n = (Ok (sv_role sv =? kNodeRoleMiner), n)) as E.
  { unfold on_service. rewrite Hs. unfold handleBlockArrived. erewrite bind_Ok by reflexivity.
    destruct n; cbn in *; subst. by destruct (sv_role sv =? kNodeRoleMiner). }
  erewrite bind_Ok by exact E. rewrite bool_decide_false by done. cbn [orb].
  destruct (sv_role sv =? kNodeRoleMiner) eqn:Er; cbn [negb]; [|done].
  rewrite IH. by rewrite orb_true_r.
Qed.

Lemma with_service_id n sv : _service n = Some sv → with_service sv n = n.
Proof. destruct n; cbn. by intros ->. Qed.

(** A handler does to the service what [node_reply] does and sends its reply in one frame. *)
Lemma handle_reply m conn (n : Nd) sv r sv' :
  heap_avail h → nd_writer n = true → _service n = Some sv →
  node_reply gConfig fuel m sv = (Ok r, sv') → (∀ x, r = Some x → fits x) →
  handle h junk stats gConfig fuel m conn n = send_reply conn r (with_service sv' n).
Proof.
  intros Hh Hw Hs Hr Hf. assert (nd_writer (with_service sv' n) = true) as Hw' by done.
  destruct m as [q|m|tx|b|q|q|u t]; cbn [handle node_reply] in *.
  - inv_bind Hr. injection Hr as <- <-. unfold onQueryBalance.
    erewrite bind_Ok by (by eapply on_service_run). destruct a as [[] v]; cbn [fst snd] in *;
      rewrite answer_run by (done || by apply Hf); done.
  - inv_bind Hr. injection Hr as <- <-. unfold onNodeAction.
    erewrite bind_Ok by (by eapply on_service_run). destruct a;
      rewrite answer_run by (done || by apply Hf); done.
  - inv_bind Hr. injection Hr as <- <-. unfold onTransaction.
    erewrite bind_Ok by (by eapply on_service_run). destruct a;
      rewrite answer_run by (done || by apply Hf); done.
  - injection Hr as <- <-. unfold onBlockArrived.
    assert (on_service (handleBlockArrived b) n = (Ok (sv_role sv =? kNodeRoleMiner), with_service sv n)) as E.
    { eapply on_service_run; [done|]. unfold handleBlockArrived. erewrite bind_Ok by reflexivity.
      by destruct (sv_role sv =? kNodeRoleMiner). }
    erewrite bind_Ok by exact E. destruct (sv_role sv =? kNodeRoleMiner);
      rewrite answer_run by (done || by apply Hf); done.
  - inv_bind Hr. injection Hrun as <- <-. inv_bind Hr. injection Hr as <- <-. unfold onBlockSyncRequest.
    erewrite bind_Ok by (by eapply on_service_run). rewrite with_service_id by done.
    erewrite bind_Ok by (by eapply on_service_run). rewrite answer_run by (done || by apply Hf). done.
  - inv_bind Hr. injection Hrun as <- <-. injection Hr as <- <-. unfold onBlockSyncResponse.
    erewrite bind_Ok by (by apply arrive_loop_run). rewrite with_service_id by done.
    destruct (bool_decide _ || _); rewrite answer_run by (done || by apply Hf); done.
  - injection Hr as <- <-. by rewrite with_service_id.
Qed.

(** ** Errors *)

(** The entry of a URI of the table is a JSON form. *)
Lemma node_entry_form c u :
  context = Ok c → u ∈ node_uris →
  ∃ (T : Type) (ser : Serializable T) (fresh : T) (fp : T → K → M Nd unit),
    entries c !! u = Some (set_target (J_ON_LINK fresh fp) true).
Proof.
  intros Hc Hu. destruct (context_entries c Hc) as [He _]. unfold node_uris in Hu.
  rewrite !elem_of_cons, elem_of_nil in Hu. destruct_or! Hu; try done; subst.
  - exists QueryBalance, _, (mkQB ""), (onQueryBalance h junk stats). exact (He (MQuery (mkQB "")) _ eq_refl).
  - exists NodeInfo, _, new_NodeInfo, (onNodeAction h junk stats gConfig). exact (He (MNode new_NodeInfo) _ eq_refl).
  - exists Transaction, _, new_Transaction, (onTransaction h junk stats gConfig). exact (He (MTx new_Transaction) _ eq_refl).
  - exists Block, _, new_Block, (onBlockArrived h junk stats). exact (He (MBlock new_Block) _ eq_refl).
  - exists BlockSyncRequest, _, new_BlockSyncRequest, (onBlockSyncRequest h junk stats fuel). exact (He (MSyncReq new_BlockSyncRequest) _ eq_refl).
  - exists BlockSyncResponse, _, new_BlockSyncResponse, (onBlockSyncResponse h junk stats). exact (He (MSyncRsp new_BlockSyncResponse) _ eq_refl).
Qed.

Lemma doRequest_bad c un conn ss u body s :
  context = Ok c → u ∈ node_uris → in_u 8 u → cereal_read (string_of body) = None →
  doRequest c conn (frame_request un (mkFrame ss u body)) s = (Throw CerealExn, s).
Proof.
  intros Hc Hu Hu8 Hb. destruct (node_entry_form c u Hc Hu) as (T & ser & fresh & fp & He).
  rewrite (doRequest_known c conn _ (set_target (J_ON_LINK fresh fp) true)).
  2: { cbn. by rewrite uwrap_small. }
  unfold setFormHandler, frame_request; cbn [up fr_body requestForm set_target J_ON_LINK].
  unfold CerealMsgHandle_handlePacket, archive_in. rewrite Hb. done.
Qed.

(** C8: a message of a known URI whose body is not JSON ends the run of the consumer: the
    messages before it have been handled, what cereal throws goes through the dispatcher
    (which catches the read errors of binary forms only), and none behind it is looked at. *)
Theorem bad_body_stops c un conn ms ss u body fs tail s :
  context = Ok c → Forall sized ms → Forall msg_valid (ms.*2) →
  u ∈ node_uris → cereal_read (string_of body) = None → frame_wf (mkFrame ss u body) →
  Forall frame_wf fs → incomplete tail = true →
  json_onData un (doRequest c conn)
    (stream (((λ p, msg_frame p.1 p.2) <$> ms) ++ mkFrame ss u body :: fs) ++ tail) s =
  (serve h junk stats gConfig fuel (ms.*2) conn ;; throw CerealExn) s.
Proof.
  intros Hc Hs Hv Hu Hb Hwf Hfs Ht.
  rewrite json_onData_frames_tail, handle_frames_run; [|apply Forall_app; split; [by apply msg_frames_wf|by constructor]|done].
  unfold mbind, M_bind. rewrite run_frames_app. unfold mbind, M_bind.
  pose proof (run_frames_serve c un conn ms s Hc Hv) as E. unfold mbind, M_bind in E. rewrite E. clear E.
  destruct (serve h junk stats gConfig fuel (ms.*2) conn s) as [[[]|e] s']; [|done].
  cbn [mret M_ret]. unfold mret, M_ret at 1. cbn [run_frames]. unfold mbind, M_bind.
  by rewrite doRequest_bad by (done || apply Hwf).
Qed.

(** ** Start and timer *)

Lemma hostPort_of_ok hst port : Z.of_nat (String.length (c_string hst +:+ ":" +:+ dec_string port)) < 127 →
  hostPort_of hst port = Ok (c_string hst +:+ ":" +:+ dec_string port).
Proof. intros Hl. unfold hostPort_of. by destruct (Z.leb_spec 128 (Z.of_nat (String.length (c_string hst +:+ ":" +:+ dec_string port)) + 1)); [lia|]. Qed.

(** A firing of the timer of a node with a service: the block, then the timer again. *)
Lemma timer_fires (n : Nd) sv sv' :
  _service n = Some sv → tm_x n = true → generateNewBlock gConfig sv = (Ok tt, sv') →
  timer_doEvent gConfig n = on_peer (peer_addTimer (s32 (tm_to n))) (with_service sv' n).
Proof.
  intros Hs Hx Hg. unfold timer_doEvent. erewrite bind_Ok by reflexivity. rewrite Hx.
  assert (onTimer gConfig n = (Ok true, with_service sv' n)) as E.
  { unfold onTimer. erewrite bind_Ok by reflexivity. rewrite Hs.
    by erewrite bind_Ok by (by eapply on_service_run). }
  erewrite bind_Ok by exact E. done.
Qed.

(** [init] of the handler on the three outcomes of the service's [init]. *)
Lemma init_handler_run id st port (n : Nd) ok sv' :
  Z.of_nat (String.length (c_string (host gConfig) +:+ ":" +:+ dec_string port)) < 127 →
  init gConfig fuel (c_string (host gConfig) +:+ ":" +:+ dec_string port) true (new_Service id st) = (Ok ok, sv') →
  init_handler gConfig fuel id st port n =
    (if negb ok then (set_service None ;; mret false)
     else
       ((if sv_role sv' =? kNodeRoleRoot then timer_init ;; timer_start (blockSyncInterval gConfig) else mret tt) ;;
        mret true)) (with_service sv' n).
Proof.
  intros Hl Hi. unfold init_handler. erewrite bind_Ok by reflexivity. rewrite hostPort_of_ok by done.
  erewrite bind_Ok by reflexivity. erewrite bind_Ok by (eapply on_service_run; [reflexivity|exact Hi]).
  by destruct ok.
Qed.

End node_lemmas.

(** ** The node against its abstract specification *)

Section node_spec.
Context {S K : Type} `{Store S, CerealLaw, Indeterminate, Rand, Clock}.
Context (h : Heap) (junk : Header) (stats : BlockStats) (gConfig : Config) (fuel : nat).
Abbreviation Nd := (Node S (Log K)).
Abbreviation context := (node_context (K:=K) (C:=Log K) h junk stats gConfig fuel).

(** The node after answering [rs] on [conn]. *)
Definition answered (conn : K) (sv : Service) (rs : list (Z * string)) (n : Nd) : Nd :=
  mkNode (Some sv) (nd_writer n) (tm_x n) (tm_to n) (nd_peer n ++ map (λ r, (conn, reply_frame r)) rs).

Lemma handle_logged m conn (n : Nd) sv r sv' :
  heap_avail h → nd_writer n = true → _service n = Some sv →
  node_reply gConfig fuel m sv = (Ok r, sv') → (∀ x, r = Some x → fits x) →
  handle h junk stats gConfig fuel m conn n = (Ok tt, answered conn sv' (option_list r) n).
Proof.
  intros Hh Hw Hs Hr Hf. rewrite (handle_reply h junk stats gConfig fuel m conn n sv r sv') by done.
  destruct r as [r|]; [done|]. cbn. unfold answered. cbn. by rewrite app_nil_r.
Qed.

Lemma serve_logged ms conn (n : Nd) sv rs sv' :
  heap_avail h → nd_writer n = true → _service n = Some sv →
  node_replies gConfig fuel ms sv = (Ok rs, sv') → Forall fits rs →
  serve h junk stats gConfig fuel ms conn n = (Ok tt, answered conn sv' rs n).
Proof.
  intros Hh. revert n sv rs. induction ms as [|m ms IH]; intros n sv rs Hw Hs Hr Hf; cbn [serve node_replies] in *.
  - injection Hr as <- <-. unfold answered. cbn. rewrite app_nil_r. by destruct n; cbn in *; subst.
  - inv_bind Hr. inv_bind Hr. injection Hr as <- <-. apply Forall_app in Hf as [Hf1 Hf2].
    erewrite bind_Ok; [|apply try_catch_Ok, (handle_logged m conn n sv a); try done].
    2: { intros x ->. by apply Forall_cons_1 in Hf1 as [? _]. }
    rewrite (IH (answered conn s (option_list a) n) s a0) by done.
    unfold answered. cbn. by rewrite <- app_assoc, <- map_app.
Qed.

Lemma feed_logged c un conn ms chunks (n : Nd) sv rs sv' :
  heap_avail h → context = Ok c → Forall sized ms → Forall msg_valid (ms.*2) →
  Forall (λ c, zlen c <= 2 ^ 30) chunks → concat chunks = stream ((λ p, msg_frame p.1 p.2) <$> ms) →
  nd_writer n = true → _service n = Some sv →
  node_replies gConfig fuel (ms.*2) sv = (Ok rs, sv') → Forall fits rs →
  feed un (doRequest c conn) [] chunks n = (Ok (Some []), answered conn sv' rs n).
Proof.
  intros Hh Hc Hs Hv Hch Hcat Hw Hsv Hr Hf.
  rewrite (feed_serve h junk stats gConfig fuel c un conn ms chunks) by done.
  by erewrite bind_Ok by (by eapply serve_logged).
Qed.

(** C6: the node implements its abstract specification: over any chunking of a stream of
    valid messages, the service ends as [node_replies] leaves it and the connection gets
    exactly one frame per message of the node's classes, in order, with session -1 and the
    text of the reply. *)
Theorem node_refines_replies c un conn ms chunks (n : Nd) sv rs sv' :
  heap_avail h → context = Ok c → Forall sized ms → Forall msg_valid (ms.*2) →
  Forall (λ c, zlen c <= 2 ^ 30) chunks → concat chunks = stream ((λ p, msg_frame p.1 p.2) <$> ms) →
  nd_writer n = true → _service n = Some sv →
  node_replies gConfig fuel (ms.*2) sv = (Ok rs, sv') → Forall fits rs →
  ∃ n', feed un (doRequest c conn) [] chunks n = (Ok (Some []), n') ∧ _service n' = Some sv' ∧
    nd_peer n' = nd_peer n ++ map (λ r, (conn, reply_frame r)) rs.
Proof. intros. eexists. split; [by eapply feed_logged|]. done. Qed.

(** The answer to a login and to a block has status 0 whatever the service did: the
    status of [Response] starts as 0 and the handlers have no branch that changes it. *)
Lemma login_and_block_always_ok m b conn (n : Nd) sv ok sv' :
  heap_avail h → nd_writer n = true → _service n = Some sv → fits (reply_status true) →
  handleLogin gConfig m sv = (Ok ok, sv') →
  onNodeAction h junk stats gConfig m conn n = (Ok tt, answered conn sv' [reply_status true] n) ∧
  onBlockArrived h junk stats b conn n = (Ok tt, answered conn sv [reply_status true] n) ∧
  (sv_role sv ≠ kNodeRoleMiner → handleBlockArrived b sv = (Ok false, sv)).
Proof.
  intros Hh Hw Hs Hf Hl. split_and!.
  - refine (handle_logged (MNode m) conn n sv (Some (reply_status true)) sv' Hh Hw Hs _ _); [|by intros ? [= <-]].
    cbn. unfold mbind, M_bind. by rewrite Hl.
  - refine (handle_logged (MBlock b) conn n sv (Some (reply_status true)) sv Hh Hw Hs _ _); [done|by intros ? [= <-]].
  - intros Hr. unfold handleBlockArrived. erewrite bind_Ok by reflexivity.
    by destruct (Z.eqb_spec (sv_role sv) kNodeRoleMiner).
Qed.

End node_spec.

Section node_root.
Context {S K : Type} `{StoreLaws S, CerealLaw, Indeterminate, Rand, Clock}.
Context (h : Heap) (junk : Header) (stats : BlockStats) (gConfig : Config) (fuel : nat).
Abbreviation Nd := (Node S (Log K)).
Abbreviation context := (node_context (K:=K) (C:=Log K) h junk stats gConfig fuel).

(** C7: end to end, a root node that reads the bytes of a covered transaction, in any
    chunks, moves its value between the two accounts, queues it, and answers with the one
    frame of status 0. *)
Theorem root_settles_bytes c un conn ss tx bf bt l chunks (n : Nd) sv :
  heap_avail h → context = Ok c → settles gConfig tx bf bt l sv → tx_value tx <= bf →
  tx_from tx ≠ tx_to tx → valid tx → sized (ss, MTx tx) → Forall (λ c, zlen c <= 2 ^ 30) chunks →
  concat chunks = frame_bytes (msg_frame ss (MTx tx)) →
  nd_writer n = true → _service n = Some sv → fits (reply_status true) →
  ∃ n' sv', feed un (doRequest c conn) [] chunks n = (Ok (Some []), n') ∧ _service n' = Some sv' ∧
    balance (sv_store sv') (tx_from tx) = Some (bf - tx_value tx) ∧
    balance (sv_store sv') (tx_to tx) = Some (bt + tx_value tx) ∧
    view CacheDB (sv_store sv') (txPoolKey gConfig) = Some (VList (l ++ [archive_out tx])) ∧
    nd_peer n' = nd_peer n ++ [(conn, json_frame (2 ^ 32 - 1) 6 (bytes_of (archive_out new_Response)))].
Proof.
  intros Hh Hc Hs Hle Hne Hv Hsz Hch Hcat Hw Hsv Hf.
  destruct (handleTransaction_settles gConfig tx bf bt l sv Hs) as (st & E & _ & Hq & Hb & _).
  assert ((bf >=? tx_value tx) = true) as Hge by (apply Z.geb_le; lia). rewrite Hge in Hb.
  exists (answered conn (with_store st sv) [reply_status true] n), (with_store st sv). split_and!.
  - apply (feed_logged h junk stats gConfig fuel c un conn [(ss, MTx tx)] chunks n sv); try done.
    + by constructor.
    + by constructor.
    + by rewrite Hcat; cbn; rewrite app_nil_r.
    + cbn [fmap list_fmap snd node_replies node_reply]. unfold mbind, M_bind. by rewrite E.
    + by constructor.
  - done.
  - cbn. rewrite Hb by apply Hs. rewrite (st_bf _ _ _ _ _ _ Hs). cbn. f_equal.
    rewrite tx_delta_from by done. lia.
  - cbn. rewrite Hb by apply Hs. rewrite (st_bt _ _ _ _ _ _ Hs). cbn. f_equal.
    by rewrite tx_delta_to.
  - done.
  - done.
Qed.

End node_root.

(** ** Witnesses *)

Definition wnode (role : Z) (m : db) : Node (Storage (H:=MemHiredis)) (Log Z) :=
  mkNode (Some (wsvc role m)) true false 0 [].
Definition wuninit : Uninit := {| un_len := 1; un_uri := 2; un_appId := 3; un_sessionId := 4 |}.
Definition wmsgs : list (Z * NodeMsg) :=
  [(7, MQuery (mkQB "alice")); (8, MOther 200 "?"); (9, MTx wtx)].
Definition wbytes : list byte := stream ((λ p, msg_frame p.1 p.2) <$> wmsgs).
(** The stream cut in the middle of its first header. *)
Definition wchunks : list (list byte) := [ztake 5 wbytes; zdrop 5 wbytes].

Lemma wchunks_concat : concat wchunks = wbytes.
Proof. cbn. rewrite app_nil_r. apply ztake_zdrop. Qed.
Lemma wchunks_small : Forall (λ c, zlen c <= 2 ^ 30) wchunks.
Proof. constructor; [decide_by_compute|]. constructor; [decide_by_compute|constructor]. Qed.
Lemma wmsgs_sized : Forall sized wmsgs.
Proof. repeat (apply Forall_cons_2; [split; decide_by_compute|]). constructor. Qed.
Lemma wmsgs_valid : Forall msg_valid (wmsgs.*2).
Proof.
  repeat (apply Forall_cons_2; [cbn [msg_valid snd]; valid_by_compute|]). constructor.
Qed.

Definition wreplies := node_replies (wcfg 1) 5 (wmsgs.*2) (wsvc 1 wbalances).
Definition wanswers : list (Z * string) :=
  [(6, archive_out (mkRsp 0 "" "balance = 100")); (6, archive_out new_Response)].
Lemma wreplies_ok : wreplies.1 = Ok wanswers.
Proof. vm_compute. reflexivity. Qed.
Lemma wanswers_fit : Forall fits wanswers.
Proof. constructor; [decide_by_compute|]. constructor; [decide_by_compute|constructor]. Qed.
Lemma wstatus_fits : fits (reply_status true).
Proof. decide_by_compute. Qed.

Abbreviation wcontext := (node_context (S:=Storage (H:=MemHiredis)) (K:=Z) (C:=Log Z) wheap wjunk (mkStats 0 0) (wcfg 1) 5).

Lemma node_serves_stream_witness :
  ∃ c, wcontext = Ok c ∧
    feed wuninit (doRequest c 3) [] wchunks (wnode 1 wbalances) =
      (serve wheap wjunk (mkStats 0 0) (wcfg 1) 5 (wmsgs.*2) 3 ;; mret (Some [])) (wnode 1 wbalances).
Proof.
  destruct (node_context_entries (K:=Z) (C:=Log Z) wheap wjunk (mkStats 0 0) (wcfg 1) 5) as (c & E & _).
  exists c. split; [exact E|].
  exact (node_serves_stream wheap wjunk (mkStats 0 0) (wcfg 1) 5 c wuninit 3 wmsgs wchunks _ E
    wmsgs_sized wmsgs_valid wchunks_small wchunks_concat).
Defined.

Lemma node_refines_replies_witness :
  ∃ c n', wcontext = Ok c ∧ feed wuninit (doRequest c 3) [] wchunks (wnode 1 wbalances) = (Ok (Some []), n') ∧
    nd_peer n' = [(3, reply_frame (6, archive_out (mkRsp 0 "" "balance = 100")));
                  (3, reply_frame (6, archive_out new_Response))].
Proof.
  destruct (node_context_entries (K:=Z) (C:=Log Z) wheap wjunk (mkStats 0 0) (wcfg 1) 5) as (c & E & _).
  destruct (node_refines_replies wheap wjunk (mkStats 0 0) (wcfg 1) 5 c wuninit 3 wmsgs wchunks
    (wnode 1 wbalances) (wsvc 1 wbalances) wanswers wreplies.2) as (n' & Hf & _ & Hp).
  - done.
  - exact E.
  - exact wmsgs_sized.
  - exact wmsgs_valid.
  - exact wchunks_small.
  - exact wchunks_concat.
  - done.
  - done.
  - exact (run_eta _ _ wreplies_ok).
  - exact wanswers_fit.
  - exists c, n'. split; [exact E|]. split; [exact Hf|]. exact Hp.
Defined.

Definition wtx_chunks : list (list byte) := [ztake 5 (frame_bytes (msg_frame 9 (MTx wtx))); zdrop 5 (frame_bytes (msg_frame 9 (MTx wtx)))].

Lemma root_settles_bytes_witness :
  ∃ c n' sv', wcontext = Ok c ∧
    feed wuninit (doRequest c 3) [] wtx_chunks (wnode 1 wbalances) = (Ok (Some []), n') ∧
    _service n' = Some sv' ∧ balance (sv_store sv') "alice" = Some 75 ∧ balance (sv_store sv') "bob" = Some 32 ∧
    length (nd_peer n') = 1%nat.
Proof.
  destruct (node_context_entries (K:=Z) (C:=Log Z) wheap wjunk (mkStats 0 0) (wcfg 1) 5) as (c & E & _).
  destruct (root_settles_bytes wheap wjunk (mkStats 0 0) (wcfg 1) 5 c wuninit 3 9 wtx 100 7 ["t0"%string]
    wtx_chunks (wnode 1 wbalances) (wsvc 1 wbalances)) as (n' & sv' & Hf & Hs & Ha & Hb & _ & Hp).
  - done.
  - exact E.
  - apply (wsettles 25). by left.
  - done.
  - done.
  - valid_by_compute.
  - split; decide_by_compute.
  - constructor; [decide_by_compute|]. constructor; [decide_by_compute|constructor].
  - cbn [wtx_chunks concat]. rewrite app_nil_r. apply ztake_zdrop.
  - done.
  - done.
  - exact wstatus_fits.
  - exists c, n', sv'. split; [exact E|]. split; [exact Hf|]. split; [exact Hs|].
    split; [exact Ha|]. split; [exact Hb|]. by rewrite Hp.
Defined.

Lemma bad_body_stops_witness :
  ∃ c, wcontext = Ok c ∧
    json_onData wuninit (doRequest c 3) (stream [msg_frame 8 (MOther 200 "?"); mkFrame 1 4 (bytes_of "{bad")] ++ [])
      (wnode 1 wbalances) = (Throw CerealExn, wnode 1 wbalances).
Proof.
  destruct (node_context_entries (K:=Z) (C:=Log Z) wheap wjunk (mkStats 0 0) (wcfg 1) 5) as (c & E & _).
  exists c. split; [exact E|].
  refine (bad_body_stops wheap wjunk (mkStats 0 0) (wcfg 1) 5 c wuninit 3 [(8, MOther 200 "?")] 1 4
    (bytes_of "{bad") [] [] (wnode 1 wbalances) E _ _ _ _ _ _ _).
  - apply Forall_cons_2; [split; decide_by_compute|constructor].
  - apply Forall_cons_2; [cbn [msg_valid snd]; valid_by_compute|constructor].
  - decide_by_compute.
  - vm_compute. reflexivity.
  - split; [decide_by_compute|]. split; decide_by_compute.
  - constructor.
  - reflexivity.
Defined.

(** A storage where the key of the children holds a string: the login fails and is answered
    like a success. *)
Definition wbroken : Service := wsvc 1 {[ "CHILD_NODE" := VStr "x" ]}%string.

Lemma login_and_block_always_ok_witness :
  ∃ sv', handleLogin (wcfg 1) new_NodeInfo wbroken = (Ok false, sv') ∧
    (onNodeAction wheap wjunk (mkStats 0 0) (wcfg 1) new_NodeInfo 3
      (mkNode (Some wbroken) true false 0 ([] : Log Z))).1 = Ok tt.
Proof.
  assert ((handleLogin (wcfg 1) new_NodeInfo wbroken).1 = Ok false) as E by (vm_compute; reflexivity).
  eexists. split; [exact (run_eta _ _ E)|].
  destruct (login_and_block_always_ok wheap wjunk (mkStats 0 0) (wcfg 1) 5 new_NodeInfo new_Block 3
    (mkNode (Some wbroken) true false 0 ([] : Log Z)) wbroken false
    (handleLogin (wcfg 1) new_NodeInfo wbroken).2) as [Hl _].
  - intros ?; reflexivity.
  - reflexivity.
  - reflexivity.
  - exact wstatus_fits.
  - exact (run_eta _ _ E).
  - rewrite Hl. reflexivity.
Defined.
