(* ===== verification/WhiteList.v ===== *)
(** * WhiteList.v: the address white list of [core/xnet/WhiteLst.h] and [WhiteLst.cpp]

    A set of IPv4 addresses in network order, filled from lines such as
    ["10.0.0.7"], ["10.0.0.1-10.0.0.9"] and ["10.0.0.0/24"].  [inet_addr] is the C
    library's.  The theorems say which addresses a block with a prefix length adds, that
    the loop over a range ends, that blocks of more than 65537 addresses are dropped, and that a printed list
    is read back as it was. *)

From S2P Require Import Prelude Cnum.
From Stdlib Require Import Lia.
Open Scope Z_scope.

(** ** [ntohl] and [htonl] on a little-endian machine: the four bytes in reverse *)

Definition swap32 (v : Z) : Z :=
  Z.lor (Z.lor (Z.shiftl (Z.land v 0xff) 24) (Z.shiftl (Z.land v 0xff00) 8))
        (Z.lor (Z.land (Z.shiftr v 8) 0xff00) (Z.land (Z.shiftr v 24) 0xff)).
Abbreviation ntohl := swap32.
Abbreviation htonl := swap32.

(** [~] of [uint32_t]. *)
Definition lnot32 (v : Z) : Z := Z.lxor v (Z.ones 32).

Definition INADDR_NONE : Z := 2 ^ 32 - 1.
Definition valid_addr (ip : Z) : bool := negb (ip =? INADDR_NONE).

Section whitelist.
Context (inet_addr : string → Z).

Definition aton_addr (s : string) : Z := u32 (inet_addr (c_string s)).

(** [m_hosts] *)
Definition WhiteLst : Type := gset Z.

Definition find (ip : Z) (w : WhiteLst) : bool := bool_decide (ip ∈ w).
Definition empty (w : WhiteLst) : bool := bool_decide (w = ∅).

Definition add_host (host : Z) : M WhiteLst unit :=
  modify (λ w, if valid_addr host then {[ host ]} ∪ w else w).

(** The loop of [add(h1, h2)] with its [uint32_t] counter, at most [fuel] rounds of it. *)
Fixpoint add_loop (fuel : nat) (i i2 : Z) : M WhiteLst unit :=
  match fuel with
  | O => throw OutOfFuel
  | S fuel =>
      if i <=? i2 then modify (λ w, {[ htonl i ]} ∪ w) ;; add_loop fuel (u32 (i + 1)) i2
      else mret tt
  end.

Definition range_fuel : nat := Z.to_nat (64 * 1024 + 2).

Definition add_range (h1 h2 : Z) : M WhiteLst unit :=
  if negb (valid_addr h1) || negb (valid_addr h2) then mret tt
  else
    let i1 := ntohl h1 in
    let i2 := ntohl h2 in
    if 64 * 1024 <? u32 (i2 - i1) then mret tt
    else add_loop range_fuel i1 i2.

(** [strpbrk (h, "/-")]: the text before the first of the two, it, and the text behind. *)
Definition slash : Ascii.ascii := Ascii.ascii_of_nat 47.
Definition dash : Ascii.ascii := Ascii.ascii_of_nat 45.
Fixpoint split_host (s : string) : option (string * Ascii.ascii * string) :=
  match s with
  | EmptyString => None
  | String c s =>
      if Ascii.eqb c slash || Ascii.eqb c dash then Some (EmptyString, c, s)
      else (λ p, (String c p.1.1, p.1.2, p.2)) <$> split_host s
  end.

(** [while (--len > 0) mask = mask >> 1 | 0x80000000] *)
Fixpoint mask_loop (n : nat) (mask : Z) : Z :=
  match n with O => mask | S n => mask_loop n (Z.lor (Z.shiftr mask 1) 0x80000000) end.
Definition prefix_mask (len : Z) : Z := mask_loop (Z.to_nat (len - 1)) 0x80000000.

(** [parse_add]; the case of a prefix length falls through into that of a range. *)
Definition parse_add (host : string) : M WhiteLst unit :=
  match split_host (c_string host) with
  | None => add_host (aton_addr host)
  | Some (before, c, after) =>
      let ip1 := aton_addr before in
      if negb (valid_addr ip1) then mret tt
      else if Ascii.eqb c slash then
        let len := atoi after in
        if (len <=? 0) || (32 <? len) then mret tt
        else
          let mask := htonl (prefix_mask len) in
          (add_range (Z.land ip1 mask) (Z.lor ip1 (lnot32 mask)) ;;
           add_range ip1 (aton_addr after))
      else add_range ip1 (aton_addr after)
  end.

(** [std::getline] until the end of the file: the lines, a last one without newline
    included. *)
Definition newline : Ascii.ascii := Ascii.ascii_of_nat 10.
Fixpoint getlines (line s : string) : list string :=
  match s with
  | EmptyString => if str_empty line then [] else [line]
  | String c s =>
      if Ascii.eqb c newline then line :: getlines EmptyString s
      else getlines (line +:+ String c EmptyString) s
  end.

Fixpoint add_lines (lines : list string) : M WhiteLst unit :=
  match lines with
  | [] => mret tt
  | l :: lines =>
      (match l with
       | EmptyString => mret tt
       | String c _ => if Ascii.eqb c (Ascii.ascii_of_nat 35) then mret tt else parse_add l
       end) ;; add_lines lines
  end.

(** [load_add] of a file with the given text; one that cannot be opened has no lines. *)
Definition load_add (text : option string) : M WhiteLst unit :=
  add_lines (getlines EmptyString (default EmptyString text)).

Definition reload (text : option string) : M WhiteLst unit := put ∅ ;; load_add text.

(** [trace]: one address a line, in the order of the set. *)
Fixpoint trace_hosts (inet_ntoa : Z → string) (hosts : list Z) : string :=
  match hosts with
  | [] => EmptyString
  | i :: hosts => inet_ntoa i +:+ String newline (trace_hosts inet_ntoa hosts)
  end.
Definition WhiteLst_trace (inet_ntoa : Z → string) (w : WhiteLst) : string := trace_hosts inet_ntoa (key_order w).

End whitelist.

(** ** Bits *)

Lemma testbit_bound a n i : in_u n a → 0 <= n <= i → Z.testbit a i = false.
Proof.
  intros [Ha Hb] Hi. destruct (Z.eq_dec a 0) as [->|]; [apply Z.bits_0|].
  apply Z.bits_above_log2; [done|]. apply Z.log2_lt_pow2; [lia|].
  apply Z.lt_le_trans with (2 ^ n); [done|]. apply Z.pow_le_mono_r; lia.
Qed.

Lemma in_u_bits a n : 0 <= n → 0 <= a → (∀ i, n <= i → Z.testbit a i = false) → in_u n a.
Proof.
  intros Hn Ha Hi. split; [done|]. destruct (Z.eq_dec a 0) as [->|]; [by apply Z.pow_pos_nonneg|].
  apply Z.log2_lt_pow2; [lia|]. destruct (Z.lt_ge_cases (Z.log2 a) n) as [|Hge]; [done|].
  pose proof (Z.bit_log2 a ltac:(lia)). rewrite Hi in H; done.
Qed.

Lemma cases_32 (P : Z → Prop) : Forall P (seqZ 0 32) → ∀ i, 0 <= i < 32 → P i.
Proof. intros HP i Hi. rewrite Forall_forall in HP. apply HP, list_elem_of_In, elem_of_seqZ. lia. Qed.

(** Bit [i] of the swapped word is bit [i + 24 - 16 * (i / 8)] of the word. *)
Lemma swap32_bit v i : 0 <= i < 32 → Z.testbit (swap32 v) i = Z.testbit v (i + 24 - 16 * (i / 8)).
Proof.
  revert i. apply cases_32. unfold swap32. repeat constructor;
    rewrite !Z.lor_spec, !Z.land_spec, !Z.shiftl_spec, !Z.land_spec, !Z.shiftr_spec by lia;
    cbn -[Z.testbit]; rewrite ?(Z.testbit_neg_r v) by lia;
    repeat match goal with |- context [Z.testbit ?c ?k] =>
      lazymatch c with v => fail | _ => let b := eval vm_compute in (Z.testbit c k) in
        change (Z.testbit c k) with b end end;
    rewrite ?andb_false_r, ?andb_true_r, ?orb_false_r, ?orb_false_l; try done.
Qed.

Lemma swap32_high v i : 32 <= i → Z.testbit (swap32 v) i = false.
Proof.
  intros Hi. unfold swap32. rewrite !Z.lor_spec, !Z.shiftl_spec, !Z.land_spec by lia.
  rewrite (testbit_bound 0xff 8 (i - 24)), (testbit_bound 0xff00 16 (i - 8)), (testbit_bound 0xff00 16 i),
    (testbit_bound 0xff 8 i) by (unfold in_u; lia). by rewrite !andb_false_r.
Qed.

Lemma swap32_range v : in_u 32 (swap32 v).
Proof.
  apply in_u_bits; [lia| |apply swap32_high]. unfold swap32.
  repeat (apply Z.lor_nonneg; split); rewrite ?Z.shiftl_nonneg; apply Z.land_nonneg; lia.
Qed.

(** Two words that agree on the first 32 bits. *)
Lemma eq_bits_32 a b : in_u 32 a → in_u 32 b → (∀ i, 0 <= i < 32 → Z.testbit a i = Z.testbit b i) → a = b.
Proof.
  intros Ha Hb Hi. apply Z.bits_inj'. intros i Hi0. destruct (Z.lt_ge_cases i 32); [by apply Hi|].
  by rewrite !(testbit_bound _ 32) by (done || lia).
Qed.

Lemma swap32_involutive v : in_u 32 v → swap32 (swap32 v) = v.
Proof.
  intros Hv. apply eq_bits_32; [apply swap32_range|done|]. intros i Hi.
  rewrite !swap32_bit by lia_divmod. f_equal. lia_divmod.
Qed.

Lemma in_u_land a b : in_u 32 a → in_u 32 b → in_u 32 (Z.land a b).
Proof.
  intros Ha Hb. apply in_u_bits; [lia|apply Z.land_nonneg; left; apply Ha|]. intros i Hi.
  rewrite Z.land_spec, (testbit_bound a 32) by (done || lia). done.
Qed.
Lemma in_u_lor a b : in_u 32 a → in_u 32 b → in_u 32 (Z.lor a b).
Proof.
  intros Ha Hb. apply in_u_bits; [lia|apply Z.lor_nonneg; split; [apply Ha|apply Hb]|]. intros i Hi.
  by rewrite Z.lor_spec, !(testbit_bound _ 32) by (done || lia).
Qed.

Lemma swap32_land a b : in_u 32 a → in_u 32 b → swap32 (Z.land a b) = Z.land (swap32 a) (swap32 b).
Proof.
  intros Ha Hb. apply eq_bits_32; [apply swap32_range|apply in_u_land; apply swap32_range|]. intros i Hi.
  by rewrite Z.land_spec, !swap32_bit, Z.land_spec.
Qed.
Lemma swap32_lor a b : in_u 32 a → in_u 32 b → swap32 (Z.lor a b) = Z.lor (swap32 a) (swap32 b).
Proof.
  intros Ha Hb. apply eq_bits_32; [apply swap32_range|apply in_u_lor; apply swap32_range|]. intros i Hi.
  by rewrite Z.lor_spec, !swap32_bit, Z.lor_spec.
Qed.

Lemma lnot32_bit v i : 0 <= i < 32 → Z.testbit (lnot32 v) i = negb (Z.testbit v i).
Proof. intros Hi. unfold lnot32. rewrite Z.lxor_spec, Z.ones_spec_low by lia. by rewrite xorb_true_r. Qed.
Lemma lnot32_range v : in_u 32 v → in_u 32 (lnot32 v).
Proof.
  intros Hv. apply in_u_bits; [lia| |].
  - unfold lnot32. apply Z.lxor_nonneg. split; intros _; [done|apply Hv].
  - intros i Hi. unfold lnot32. rewrite Z.lxor_spec, Z.ones_spec_high, (testbit_bound v 32) by (done || lia). done.
Qed.
Lemma swap32_lnot32 v : in_u 32 v → swap32 (lnot32 v) = lnot32 (swap32 v).
Proof.
  intros Hv. apply eq_bits_32; [apply swap32_range|apply lnot32_range, swap32_range|]. intros i Hi.
  rewrite lnot32_bit, !swap32_bit, lnot32_bit by lia_divmod. done.
Qed.

Lemma swap32_inj a b : in_u 32 a → in_u 32 b → swap32 a = swap32 b → a = b.
Proof. intros Ha Hb E. by rewrite <- (swap32_involutive a), E, swap32_involutive. Qed.

Lemma valid_addr_swap a : in_u 32 a → valid_addr (swap32 a) = valid_addr a.
Proof.
  intros Ha. unfold valid_addr. f_equal.
  destruct (Z.eqb_spec a INADDR_NONE) as [->|Hn]; [done|]. apply Z.eqb_neq. intros E. apply Hn.
  apply swap32_inj; [done|done|]. rewrite E. done.
Qed.

(** ** Prefix masks *)

Lemma prefix_mask_value len : 1 <= len <= 32 → prefix_mask len = 2 ^ 32 - 2 ^ (32 - len).
Proof.
  intros Hl. enough (∀ i, 0 <= i < 32 → prefix_mask (i + 1) = 2 ^ 32 - 2 ^ (31 - i)) as H.
  { replace len with ((len - 1) + 1) at 1 by lia. rewrite H by lia. do 2 f_equal. lia. }
  apply cases_32. repeat constructor; vm_compute; done.
Qed.

Lemma mask_shiftl n : 0 <= n <= 32 → 2 ^ 32 - 2 ^ n = Z.shiftl (Z.ones (32 - n)) n.
Proof.
  intros Hn. rewrite Z.shiftl_mul_pow2, Z.ones_equiv by lia.
  rewrite Z.mul_pred_l, <- Z.pow_add_r by lia. do 2 f_equal. lia.
Qed.

Lemma mask_bit n i : 0 <= n <= 32 → 0 <= i < 32 → Z.testbit (2 ^ 32 - 2 ^ n) i = (n <=? i).
Proof.
  intros Hn Hi. rewrite mask_shiftl, Z.shiftl_spec by lia. destruct (Z.leb_spec n i).
  - rewrite Z.ones_spec_low; [done|lia].
  - by rewrite Z.testbit_neg_r by lia.
Qed.

Lemma mask_range n : 0 <= n <= 32 → in_u 32 (2 ^ 32 - 2 ^ n).
Proof.
  intros Hn. pose proof (Z.pow_pos_nonneg 2 n ltac:(lia) ltac:(lia)).
  pose proof (Z.pow_le_mono_r 2 n 32 ltac:(lia) ltac:(lia)). unfold in_u. lia.
Qed.

(** The first and the last address of the block of [a]. *)
Definition first_of (n a : Z) : Z := a / 2 ^ n * 2 ^ n.
Definition last_of (n a : Z) : Z := a / 2 ^ n * 2 ^ n + (2 ^ n - 1).

Lemma land_mask n a : 0 <= n <= 32 → in_u 32 a → Z.land a (2 ^ 32 - 2 ^ n) = first_of n a.
Proof.
  intros Hn Ha. unfold first_of. rewrite <- Z.shiftr_div_pow2, <- Z.shiftl_mul_pow2, <- Z.ldiff_ones_r by lia.
  apply Z.bits_inj'. intros i Hi. rewrite Z.land_spec, Z.ldiff_spec.
  destruct (Z.lt_ge_cases i 32); [|by rewrite (testbit_bound a 32) by (done || lia)].
  rewrite mask_bit by lia. destruct (Z.leb_spec n i).
  - by rewrite Z.ones_spec_high by lia.
  - by rewrite Z.ones_spec_low by lia.
Qed.

Lemma lor_mask n a : 0 <= n <= 32 → in_u 32 a → Z.lor a (lnot32 (2 ^ 32 - 2 ^ n)) = last_of n a.
Proof.
  intros Hn Ha. pose proof (Z.pow_pos_nonneg 2 n ltac:(lia) ltac:(lia)). unfold last_of.
  rewrite <- lor_shiftl_add, <- Z.shiftr_div_pow2, <- Z.ldiff_ones_r by lia.
  replace (2 ^ n - 1) with (Z.ones n) by (rewrite Z.ones_equiv; lia).
  apply Z.bits_inj'. intros i Hi. rewrite !Z.lor_spec, Z.ldiff_spec.
  destruct (Z.lt_ge_cases i 32).
  - rewrite lnot32_bit, mask_bit by lia. destruct (Z.leb_spec n i).
    + rewrite Z.ones_spec_high by lia. by rewrite andb_true_r.
    + rewrite Z.ones_spec_low by lia. by rewrite !orb_true_r.
  - rewrite (testbit_bound (lnot32 _) 32), (testbit_bound a 32), Z.ones_spec_high
      by (lia || done || by apply lnot32_range, mask_range). done.
Qed.

#[local] Opaque swap32 lnot32.

(** The side conditions of the lemmas above. *)
Ltac word32 := repeat first
  [ assumption | lia | apply swap32_range | apply in_u_land | apply in_u_lor | apply lnot32_range | apply mask_range
  | apply uwrap_range ].

(** The two ends as [parse_add] computes them in network order. *)
Lemma block_first ip n :
  0 <= n <= 32 → in_u 32 ip → Z.land ip (htonl (2 ^ 32 - 2 ^ n)) = htonl (first_of n (ntohl ip)).
Proof.
  intros Hn Hip. pose proof (mask_range n Hn) as Hm. rewrite <- land_mask by word32.
  rewrite (swap32_land (ntohl ip) (2 ^ 32 - 2 ^ n)), (swap32_involutive ip) by word32. done.
Qed.
Lemma block_last ip n :
  0 <= n <= 32 → in_u 32 ip → Z.lor ip (lnot32 (htonl (2 ^ 32 - 2 ^ n))) = htonl (last_of n (ntohl ip)).
Proof.
  intros Hn Hip. pose proof (mask_range n Hn) as Hm. rewrite <- lor_mask by word32.
  rewrite (swap32_lor (ntohl ip) (lnot32 (2 ^ 32 - 2 ^ n))), (swap32_lnot32 (2 ^ 32 - 2 ^ n)),
    (swap32_involutive ip) by word32.
  done.
Qed.

Lemma block_ends_range n a : 0 <= n <= 32 → in_u 32 a → in_u 32 (first_of n a) ∧ in_u 32 (last_of n a).
Proof.
  intros Hn Ha. rewrite <- land_mask, <- lor_mask by word32. pose proof (mask_range n Hn).
  split; word32.
Qed.

Lemma block_members n a x :
  0 <= n <= 32 → in_u 32 a → in_u 32 x →
  (∃ k, first_of n a <= k <= last_of n a ∧ x = htonl k) ↔ ntohl x / 2 ^ n = a / 2 ^ n.
Proof.
  intros Hn Ha Hx. assert (0 < 2 ^ n) as Hp by (apply Z.pow_pos_nonneg; lia).
  destruct (block_ends_range n a Hn Ha) as [Hf Hl]. unfold first_of, last_of, in_u in *. split.
  - intros (k & Hk & ->). rewrite (swap32_involutive k) by (unfold in_u; lia).
    symmetry. apply (Z.div_unique k (2 ^ n) (a / 2 ^ n) (k - a / 2 ^ n * 2 ^ n)); lia.
  - intros E. exists (ntohl x). rewrite (swap32_involutive x) by done. split; [|done].
    pose proof (Z.div_mod (ntohl x) (2 ^ n) ltac:(lia)). pose proof (Z.mod_pos_bound (ntohl x) (2 ^ n) ltac:(lia)).
    nia.
Qed.

Lemma block_guard len : 1 <= len <= 32 → 2 ^ (32 - len) - 1 <= 65536 ↔ 16 <= len.
Proof.
  intros Hl. destruct (Z.le_gt_cases 16 len) as [H|H].
  - pose proof (Z.pow_le_mono_r 2 (32 - len) 16 ltac:(lia) ltac:(lia)). lia.
  - pose proof (Z.pow_le_mono_r 2 17 (32 - len) ltac:(lia) ltac:(lia)). lia.
Qed.

(** ** The set after an addition *)

Lemma add_loop_spec fuel i i2 w :
  0 <= i → i2 < 2 ^ 32 - 1 → Z.max 0 (i2 - i + 1) < Z.of_nat fuel →
  ∃ w', add_loop fuel i i2 w = (Ok tt, w') ∧
    ∀ x, x ∈ w' ↔ x ∈ w ∨ ∃ k, i <= k <= i2 ∧ x = htonl k.
Proof.
  revert i w. induction fuel as [|fuel IH]; intros i w Hi Hi2 Hf; cbn [add_loop].
  - lia.
  - destruct (Z.leb_spec i i2) as [Hle|Hgt].
    + erewrite bind_Ok by reflexivity. rewrite uwrap_small by (unfold in_u; lia).
      destruct (IH (i + 1) ({[ htonl i ]} ∪ w)) as (w' & E & Hw); [lia..|].
      exists w'. split; [exact E|]. intros x. rewrite Hw, elem_of_union, elem_of_singleton. split.
      * intros [[->|?]|(k & Hk & ->)]; [right; exists i; split; [lia|done]|by left|right; exists k; split; [lia|done]].
      * intros [?|(k & Hk & ->)]; [left; by right|]. destruct (Z.eq_dec k i) as [->|]; [left; by left|].
        right. exists k. split; [lia|done].
    + exists w. split; [done|]. intros x. split; [by left|]. intros [?|(k & Hk & _)]; [done|lia].
Qed.

Lemma add_range_spec h1 h2 w :
  in_u 32 h1 → in_u 32 h2 →
  ∃ w', add_range h1 h2 w = (Ok tt, w') ∧
    ∀ x, x ∈ w' ↔ x ∈ w ∨
      (valid_addr h1 = true ∧ valid_addr h2 = true ∧ u32 (ntohl h2 - ntohl h1) <= 65536 ∧
       ∃ k, ntohl h1 <= k <= ntohl h2 ∧ x = htonl k).
Proof.
  intros H1 H2. pose proof (swap32_range h1) as R1. pose proof (swap32_range h2) as R2. unfold add_range.
  destruct (valid_addr h1) eqn:E1; cbn [negb orb]; [|exists w; split; [done|naive_solver]].
  destruct (valid_addr h2) eqn:E2; cbn [negb orb]; [|exists w; split; [done|naive_solver]].
  rewrite <- valid_addr_swap in E2 by done. unfold valid_addr, INADDR_NONE in E2.
  apply negb_true_iff, Z.eqb_neq in E2. unfold in_u in *.
  destruct (Z.ltb_spec (64 * 1024) (u32 (ntohl h2 - ntohl h1))) as [Hg|Hg].
  { exists w. split; [done|]. intros x. split; [by left|]. intros [?|(_ & _ & ? & _)]; [done|lia]. }
  destruct (add_loop_spec range_fuel (ntohl h1) (ntohl h2) w) as (w' & E & Hw); [lia|lia| |].
  { unfold range_fuel. rewrite Z2Nat.id by lia. destruct (Z.le_gt_cases (ntohl h1) (ntohl h2)); [|lia].
    rewrite uwrap_small in Hg by (unfold in_u; lia). lia. }
  exists w'. split; [exact E|]. intros x. rewrite Hw. clear -Hg. split.
  - intros [Hx|Hx]; [by left|right]. exact (conj eq_refl (conj eq_refl (conj Hg Hx))).
  - intros [Hx|(_ & _ & _ & Hx)]; [by left|by right].
Qed.

Lemma parse_add_total inet_addr host w : ∃ w', parse_add inet_addr host w = (Ok tt, w').
Proof.
  unfold parse_add. destruct (split_host (c_string host)) as [[[before c] after]|]; [|by eexists].
  assert (∀ s, in_u 32 (aton_addr inet_addr s)) as Ha by (intros; apply uwrap_range; lia).
  destruct (negb _); [by eexists|].
  destruct (add_range_spec (aton_addr inet_addr before) (aton_addr inet_addr after) w) as (w1 & E1 & _); [apply Ha..|].
  destruct (Ascii.eqb c slash); [|by eexists].
  set (len := atoi after). destruct ((len <=? 0) || (32 <? len)) eqn:El; [by eexists|].
  destruct (add_range_spec (Z.land (aton_addr inet_addr before) (htonl (prefix_mask len)))
    (Z.lor (aton_addr inet_addr before) (lnot32 (htonl (prefix_mask len)))) w) as (w2 & E2 & _).
  { apply in_u_land; [apply Ha|apply swap32_range]. }
  { apply in_u_lor; [apply Ha|apply lnot32_range, swap32_range]. }
  erewrite bind_Ok by exact E2.
  destruct (add_range_spec (aton_addr inet_addr before) (aton_addr inet_addr after) w2) as (w3 & E3 & _); [apply Ha..|].
  by exists w3.
Qed.

Lemma add_lines_total inet_addr ls w : ∃ w', add_lines inet_addr ls w = (Ok tt, w').
Proof.
  revert w. induction ls as [|l ls IH]; intros w; [by eexists|]. cbn [add_lines].
  destruct l as [|c l]; [exact (IH w)|]. destruct (Ascii.eqb c _); [exact (IH w)|].
  destruct (parse_add_total inet_addr (String c l) w) as (w1 & E).
  erewrite bind_Ok by exact E. apply IH.
Qed.

(** Reading a file ends, whatever its text and whatever [inet_addr] makes of it: the
    64K guard bounds the loop over a range, and the address 255.255.255.255, at which the
    32-bit counter would wrap below its bound for ever, is refused before the loop. *)
Lemma load_add_total inet_addr text w : ∃ w', load_add inet_addr text w = (Ok tt, w').
Proof. apply add_lines_total. Qed.

(** C32: a line "address/length" adds exactly the addresses that share the first [len]
    bits, when these are at most 65536 and do not end at 255.255.255.255; otherwise it adds
    nothing and reports nothing.  Falling through into the case of a range adds nothing
    more, given that [inet_addr] takes a single number as the whole address. *)
Theorem parse_add_block inet_addr host before after len w :
  split_host (c_string host) = Some (before, slash, after) →
  atoi after = len → 1 <= len <= 32 → aton_addr inet_addr after = htonl len →
  valid_addr (aton_addr inet_addr before) = true → len < ntohl (aton_addr inet_addr before) →
  ∃ w', parse_add inet_addr host w = (Ok tt, w') ∧
    ∀ x, in_u 32 x →
      find x w' = find x w || ((16 <=? len) && valid_addr (last_of (32 - len) (ntohl (aton_addr inet_addr before))) &&
        (ntohl x / 2 ^ (32 - len) =? ntohl (aton_addr inet_addr before) / 2 ^ (32 - len))).
Proof.
  intros Hsp Hat Hlen Hin Hv Hgt. unfold parse_add. rewrite Hsp, Hv, Hat. cbn [negb].
  rewrite Ascii.eqb_refl. destruct (Z.leb_spec len 0); [lia|]. destruct (Z.ltb_spec 32 len); [lia|]. cbn [orb].
  assert (in_u 32 (aton_addr inet_addr before)) as Hu by (apply uwrap_range; lia).
  revert Hv Hgt Hu. generalize (aton_addr inet_addr before) as ip1. intros ip1 Hv Hgt Hu.
  set (n := 32 - len). set (a := ntohl ip1) in *.
  assert (0 <= n <= 31) as Hn by (unfold n; lia).
  assert (in_u 32 a) as Ha by apply swap32_range.
  rewrite prefix_mask_value by lia. fold n. rewrite block_first, block_last by word32. fold a.
  assert (0 < 2 ^ n) as Hpow by (apply Z.pow_pos_nonneg; lia).
  destruct (block_ends_range n a) as [Hfu Hlu]; [lia|exact Ha|].
  destruct (add_range_spec (htonl (first_of n a)) (htonl (last_of n a)) w) as (w1 & E1 & Hw1); [apply swap32_range..|].
  destruct (add_range_spec ip1 (aton_addr inet_addr after) w1) as (w2 & E2 & Hw2); [exact Hu|apply uwrap_range; lia|].
  exists w2. split; [by erewrite bind_Ok by exact E1|].
  rewrite Hin in Hw2. intros x Hx. unfold find. apply eq_bool_prop_intro. rewrite orb_True, !bool_decide_spec.
  rewrite Hw2, Hw1, !swap32_involutive, !valid_addr_swap by word32. fold a. clear Hw1 Hw2.
  assert (u32 (last_of n a - first_of n a) = 2 ^ n - 1) as ->.
  { rewrite uwrap_small; unfold last_of, first_of; [lia|]. pose proof (Z.pow_le_mono_r 2 n 31). unfold in_u. lia. }
  rewrite (swap32_involutive len) by (unfold in_u; lia).
  pose proof (block_members n a x ltac:(lia) Ha Hx) as Hmem.
  assert (2 ^ n - 1 <= 65536 ↔ 16 <= len) as Hg by (by apply block_guard).
  assert (valid_addr (last_of n a) = true → valid_addr (first_of n a) = true) as Hvf.
  { unfold valid_addr, INADDR_NONE. rewrite !negb_true_iff, !Z.eqb_neq. unfold last_of, first_of, in_u in *. lia. }
  rewrite !andb_True, !Is_true_true, Z.leb_le, Z.eqb_eq, <- Hmem, <- Hg.
  split.
  - intros [[?|(? & ? & ? & ?)]|(_ & _ & _ & k & Hk & _)]; [by left|by right|lia].
  - intros [?|((? & ?) & ?)]; [by left; left|left; right]. split_and!; auto.
Qed.

(** ** The printed list, read again *)

(** The characters of a dotted address. *)
Definition dotted_char (c : Ascii.ascii) : bool :=
  Ascii.eqb c (Ascii.ascii_of_nat 46) || match digit_val c with Some _ => true | None => false end.
Fixpoint dotted (s : string) : bool :=
  match s with EmptyString => true | String c s => dotted_char c && dotted s end.

(** None of them means anything to [c_string], [strpbrk], [getline] or [load_add]. *)
Lemma dotted_char_plain c : dotted_char c = true →
  Ascii.eqb c slash = false ∧ Ascii.eqb c dash = false ∧ Ascii.eqb c newline = false ∧
  Ascii.eqb c (Ascii.ascii_of_nat 35) = false ∧ (Ascii.N_of_ascii c =? 0)%N = false.
Proof. destruct c as [[] [] [] [] [] [] [] []]; (done || intros _; split_and!; reflexivity). Qed.

Lemma getlines_dotted l : dotted l = true → ∀ line s,
  getlines line (l +:+ String newline s) = (line +:+ l) :: getlines EmptyString s.
Proof.
  induction l as [|c l IH]; intros Hl line s; [change (EmptyString +:+ String newline s) with (String newline s)|
    rewrite str_app_cons]; cbn [getlines].
  - by rewrite Ascii.eqb_refl, str_app_nil_r.
  - cbn [dotted] in Hl. apply andb_true_iff in Hl as [Hc Hl].
    destruct (dotted_char_plain c Hc) as (_ & _ & -> & _). rewrite IH by done. f_equal.
    by rewrite str_app_assoc.
Qed.

Lemma dotted_host l : dotted l = true → split_host l = None ∧ c_string l = l.
Proof.
  induction l as [|c l IH]; [done|]. cbn [dotted]. intros [Hc Hl]%andb_true_iff.
  destruct (dotted_char_plain c Hc) as (H1 & H2 & _ & _ & H0). destruct (IH Hl) as [IH1 IH2].
  cbn [split_host c_string]. by rewrite H1, H2, H0, IH1, IH2.
Qed.

Section reloaded.
Context (inet_addr : string → Z) (inet_ntoa : Z → string).

(** What the C library promises of the two functions, at one address of the list. *)
Record printable (i : Z) : Prop := {
  pr_text : inet_ntoa i ≠ EmptyString ∧ dotted (inet_ntoa i) = true;
  pr_back : inet_addr (inet_ntoa i) = i;
  pr_valid : in_u 32 i ∧ valid_addr i = true }.

Lemma getlines_trace hosts :
  Forall printable hosts → getlines EmptyString (trace_hosts inet_ntoa hosts) = map inet_ntoa hosts.
Proof.
  induction 1 as [|i l [[_ Hd] _ _] _ IH]; [done|]. cbn [trace_hosts map]. by rewrite getlines_dotted, IH.
Qed.

Lemma parse_add_dotted i w : printable i → parse_add inet_addr (inet_ntoa i) w = (Ok tt, {[ i ]} ∪ w).
Proof.
  intros [[_ Hd] Hb [Hu Hv]]. destruct (dotted_host _ Hd) as [Hs Hc]. unfold parse_add, aton_addr.
  rewrite !Hc, Hs, Hb, (uwrap_small 32) by done. unfold add_host, modify. by rewrite Hv.
Qed.

Lemma add_lines_trace hosts : Forall printable hosts → ∀ w,
  add_lines inet_addr (map inet_ntoa hosts) w = (Ok tt, list_to_set hosts ∪ w).
Proof.
  induction 1 as [|i l Hi _ IH]; intros w; cbn [map add_lines list_to_set]; [by rewrite (left_id_L ∅ (∪))|].
  pose proof (parse_add_dotted i w Hi) as E. destruct Hi as [[Hne Hd] _ _].
  destruct (inet_ntoa i) as [|c s]; [done|]. cbn [dotted] in Hd. apply andb_true_iff in Hd as [Hd _].
  destruct (dotted_char_plain c Hd) as (_ & _ & _ & -> & _). erewrite bind_Ok by exact E. rewrite IH.
  f_equal. set_solver.
Qed.

(** A list that is printed and loaded again is the same list, whatever was there before. *)
Lemma trace_reloaded w w0 :
  (∀ i, i ∈ w → printable i) → reload inet_addr (Some (WhiteLst_trace inet_ntoa w)) w0 = (Ok tt, w).
Proof.
  intros Hw. unfold reload, load_add, WhiteLst_trace. erewrite bind_Ok by reflexivity. cbn [from_option id].
  assert (Forall printable (key_order w)) as Hp by (apply list.Forall_forall; intros i Hi%elem_of_key_order; by apply Hw).
  rewrite getlines_trace, add_lines_trace by done. f_equal. apply set_eq. intros i.
  rewrite elem_of_union, elem_of_list_to_set, elem_of_key_order. set_solver.
Qed.
End reloaded.

(** ** Witnesses *)

(** [inet_addr] on the addresses used below; what it refuses is [INADDR_NONE]. *)
Definition winet_addr (s : string) : Z :=
  if bool_decide (s = "10.1.2.7"%string) then htonl 0x0a010207
  else if bool_decide (s = "24"%string) then htonl 24
  else if bool_decide (s = "8"%string) then htonl 8
  else INADDR_NONE.

Lemma parse_add_block_witness :
  ∃ w, parse_add winet_addr "10.1.2.7/24" ∅ = (Ok tt, w) ∧
    find (htonl 0x0a0102ff) w = true ∧ find (htonl 0x0a010300) w = false.
Proof.
  destruct (parse_add_block winet_addr "10.1.2.7/24" "10.1.2.7" "24" 24 ∅) as (w & E & Hf).
  - reflexivity.
  - reflexivity.
  - lia.
  - reflexivity.
  - reflexivity.
  - reflexivity.
  - exists w. split; [exact E|]. rewrite !Hf by (apply swap32_range). split; reflexivity.
Defined.

(** The guard drops a /8 without a word. *)
Example parse_add_wide : parse_add winet_addr "10.1.2.7/8" ∅ = (Ok tt, ∅).
Proof. vm_compute. reflexivity. Qed.

(** Two addresses printed and loaded over a third. *)
Definition two_addr (s : string) : Z :=
  if bool_decide (s = "10.1.2.7"%string) then htonl 0x0a010207
  else if bool_decide (s = "10.1.2.9"%string) then htonl 0x0a010209 else INADDR_NONE.
Definition two_ntoa (i : Z) : string := if ntohl i =? 0x0a010207 then "10.1.2.7" else "10.1.2.9".
Example two_reloaded :
  WhiteLst_trace two_ntoa {[ htonl 0x0a010207; htonl 0x0a010209 ]} =
    ("10.1.2.7" +:+ String newline ("10.1.2.9" +:+ String newline EmptyString)) ∧
  reload two_addr (Some (WhiteLst_trace two_ntoa {[ htonl 0x0a010207; htonl 0x0a010209 ]})) {[ 1 ]} =
    (Ok tt, {[ htonl 0x0a010207; htonl 0x0a010209 ]}).
Proof.
  split; [vm_compute; reflexivity|]. apply trace_reloaded.
  intros i [->%elem_of_singleton | ->%elem_of_singleton]%elem_of_union;
    (split; [split; [done|]|..]; vm_compute; repeat split; done).
Qed.
