(* ===== verification/Console.v ===== *)
(** * Console.v: the line console of [core/base/ConsoleServer.h] and [ConsoleServer.cpp]

    A consumer for text commands from the local host: [onData] cuts one line off the
    input, splits it at spaces and answers with what the command's handler writes.
    [S] is the state the handlers and the connection live in; the connection's
    [sendBin] is a parameter.  The theorems give the words of a line, what a
    complete line does, and that further lines of the same read are left waiting. *)

From S2P Require Import Prelude Cnum.
From Stdlib Require Import Lia.
Open Scope Z_scope.

(** ** Split *)

(** [find_first_of] and [find_first_not_of] from a position: the first element at or
    behind it that satisfies [p]; [npos] is [None]. *)
Fixpoint find_from (p : byte → bool) (l : list byte) (i pos : nat) : option nat :=
  match l with
  | [] => None
  | c :: l => if (pos <=? i)%nat && p c then Some i else find_from p l (S i) pos
  end.

Section split.
Context (delim : byte → bool).

Definition find_first_of (l : list byte) (pos : nat) : option nat := find_from delim l 0 pos.
Definition find_first_not_of (l : list byte) (pos : nat) : option nat := find_from (λ c, negb (delim c)) l 0 pos.

(** [line.substr (bi, ei - bi).c_str ()] *)
Definition word_at (line : list byte) (bi ei : nat) : string :=
  c_string (string_of (take (ei - bi) (drop bi line))).

Fixpoint Split_loop (fuel : nat) (line : list byte) (bi : option nat) (words : list string) : res (list string) :=
  match fuel with
  | O => Throw OutOfFuel
  | S fuel =>
      match bi with
      | None => Ok words
      | Some bi =>
          let ei := default (length line) (find_first_of line bi) in
          Split_loop fuel line (find_first_not_of line ei) (words ++ [word_at line bi ei])
      end
  end.

(** Each round moves behind the word it found, so this fuel is never used up. *)
Definition Split (line : list byte) (words : list string) : res (list string) :=
  Split_loop (S (S (length line))) line (find_first_not_of line 0) words.

(** The reference: the maximal runs without delimiter, [w] the one being read. *)
Fixpoint runs (w : list byte) (l : list byte) : list (list byte) :=
  match l with
  | [] => match w with [] => [] | _ => [w] end
  | c :: l =>
      if delim c then match w with [] => runs [] l | _ => w :: runs [] l end
      else runs (w ++ [c]) l
  end.

End split.

(** ** The server *)

Definition is_blank (c : byte) : bool := bool_decide (c = x20).
Definition CRLF : string := string_of [x0d; x0a].

Section console.
Context {S : Type} (sendBin : list byte → M S unit).

(** [ICommandHandler]: a registered method writes its text; [help] is the server's own. *)
Inductive ICommandHandler :=
  | CmdHelp
  | Cmd (mf : list string → M S string).

(** [m_mapHandlers], in the order of the names. *)
Definition Handlers : Type := list (string * ICommandHandler).

Fixpoint find_handler (cmd : string) (m : Handlers) : option ICommandHandler :=
  match m with
  | [] => None
  | (c, h) :: m => if decide (c = cmd) then Some h else find_handler cmd m
  end.

(** [RegisterCmdHandler]: an old handler of the name is replaced. *)
Fixpoint RegisterCmdHandler (cmd : string) (h : ICommandHandler) (m : Handlers) : Handlers :=
  match m with
  | [] => [(cmd, h)]
  | (c, h') :: m' =>
      match String.compare cmd c with
      | Lt => (cmd, h) :: m
      | Eq => (c, h) :: m'
      | Gt => (c, h') :: RegisterCmdHandler cmd h m'
      end
  end.

Definition new_ConsoleServer : Handlers := RegisterCmdHandler "help" CmdHelp [].

(** [OnHelp] *)
Definition OnHelp (m : Handlers) : string :=
  fold_left (λ os p, os +:+ p.1 +:+ CRLF) m ("+OK list supported command" +:+ CRLF).

Definition OnCommand (m : Handlers) (h : ICommandHandler) (vecArg : list string) : M S string :=
  match h with CmdHelp => mret (OnHelp m) | Cmd mf => mf vecArg end.

(** [DispatchCommand] *)
Definition DispatchCommand (m : Handlers) (vecArg : list string) : M S unit :=
  str ← match vecArg with
        | [] => mret ("-ERR command not support " +:+ CRLF)
        | cmd :: _ =>
            match find_handler cmd m with
            | None => mret ("-ERR command not support: " +:+ cmd +:+ CRLF)
            | Some h => OnCommand m h vecArg
            end
        end;
  sendBin (bytes_of str).

(** The loop of [onData] over the input: the line without its end, and [nRead]. *)
Fixpoint get_line (pre l : list byte) : option (list byte * Z) :=
  match l with
  | [] => None
  | c :: l =>
      if bool_decide (c = x0a) then
        Some (match reverse pre with
              | x0d :: rev => reverse rev
              | _ => pre
              end, zlen pre + 1)
      else get_line (pre ++ [c]) l
  end.

(** [onData]; [peer] is the peer's address, [localhost] [inet_addr("127.0.0.1")]. *)
Definition console_onData (localhost peer : Z) (m : Handlers) (data : list byte) : M S Z :=
  if negb (peer =? localhost) then mret (-1)
  else
    match get_line [] data with
    | None => mret 0
    | Some (strLine, nRead) =>
        (if 0 <? zlen strLine then
           (vecArg ← lift_res (Split is_blank strLine []); DispatchCommand m vecArg)
         else mret tt) ;;
        mret (s32 nRead)
    end.

End console.
Arguments ICommandHandler : clear implicits.
Arguments Handlers : clear implicits.

(** ** Lemmas *)

Lemma find_from_S p l i pos : find_from p l (S i) (S pos) = S <$> find_from p l i pos.
Proof.
  revert i. induction l as [|c l IH]; intros i; [done|]. cbn [find_from Nat.leb].
  destruct ((pos <=? i)%nat && p c); [done|]. exact (IH (S i)).
Qed.

Lemma find_from_le p l i pos : (pos <= i)%nat → find_from p l i pos = find_from p l i 0.
Proof.
  revert i. induction l as [|c l IH]; intros i Hi; [done|]. cbn [find_from].
  rewrite (proj2 (Nat.leb_le pos i)) by done. cbn [Nat.leb andb]. destruct (p c); [done|]. apply IH. lia.
Qed.

Lemma find_from_tail p l : find_from p l 1 0 = S <$> find_from p l 0 0.
Proof. by rewrite <- (find_from_le p l 1 1), find_from_S by lia. Qed.

(** Searching from a position is searching the rest. *)
Lemma find_from_drop p l pos :
  (pos <= length l)%nat → find_from p l 0 pos = (λ x, (pos + x)%nat) <$> find_from p (drop pos l) 0 0.
Proof.
  revert l. induction pos as [|pos IH]; intros l Hl.
  - rewrite drop_0. by destruct (find_from p l 0 0).
  - destruct l as [|c l]; [cbn in Hl; lia|]. cbn [find_from drop Nat.leb andb].
    rewrite find_from_S, IH by (cbn in Hl; lia). by destruct (find_from p (drop pos l) 0 0).
Qed.

(** The first match splits the list. *)
Lemma find_from_Some p l x :
  find_from p l 0 0 = Some x →
  (x < length l)%nat ∧ Forall (λ c, p c = false) (take x l) ∧ ∃ c, l !! x = Some c ∧ p c = true.
Proof.
  revert x. induction l as [|c l IH]; intros x; [done|]. cbn [find_from Nat.leb andb].
  destruct (p c) eqn:Ec.
  - intros [= <-]. split_and!; [cbn; lia|constructor|by exists c].
  - rewrite find_from_tail. destruct (find_from p l 0 0) as [y|] eqn:E; [|done]. intros [= <-].
    destruct (IH y eq_refl) as (Hl & Hf & d & Hd & Hp). split_and!; [cbn; lia|by constructor|by exists d].
Qed.

Lemma find_from_None p l : find_from p l 0 0 = None → Forall (λ c, p c = false) l.
Proof.
  assert (∀ i, find_from p l i 0 = None → Forall (λ c, p c = false) l) as H; [|apply H].
  induction l as [|c l IH]; intros i; [by constructor|]. cbn [find_from Nat.leb andb].
  destruct (p c) eqn:Ec; [done|]. intros E. constructor; [done|by eapply IH].
Qed.

Section split_lemmas.
Context (delim : byte → bool).

Lemma runs_word w l k :
  Forall (λ c, delim c = false) w → (k = [] ∨ ∃ c k', k = c :: k' ∧ delim c = true) →
  runs delim l (w ++ k) = match l ++ w with [] => runs delim [] k | _ => (l ++ w) :: runs delim [] k end.
Proof.
  intros Hw Hk. revert l. induction Hw as [|c w Hc Hw IH]; intros l.
  - rewrite app_nil_r. cbn [app]. destruct Hk as [->|(c & k' & -> & Hc)]; [by destruct l|].
    cbn [runs]. rewrite Hc. by destruct l.
  - cbn [app runs]. rewrite Hc, IH, <- app_assoc. done.
Qed.

Lemma runs_blanks w l : Forall (λ c, delim c = true) w → runs delim [] (w ++ l) = runs delim [] l.
Proof. induction 1 as [|c w Hc Hw IH]; [done|]. cbn [app runs]. by rewrite Hc. Qed.

(** From a word's first position the loop collects the runs of the rest. *)
Lemma Split_loop_runs fuel line pos words :
  (pos <= length line)%nat → (length line - pos < fuel)%nat →
  Split_loop delim fuel line (find_first_not_of delim line pos) words =
    Ok (words ++ map (λ w, c_string (string_of w)) (runs delim [] (drop pos line))).
Proof.
  revert pos words. induction fuel as [|fuel IH]; intros pos words Hpos Hf; [lia|]. cbn [Split_loop].
  unfold find_first_not_of. rewrite find_from_drop by done.
  destruct (find_from (λ c, negb (delim c)) (drop pos line) 0 0) as [x|] eqn:Ex.
  - apply find_from_Some in Ex as (Hx & Hb & c & Hc & Hnc). rewrite length_drop in Hx. cbn [fmap option_fmap option_map].
    set (bi := (pos + x)%nat). unfold find_first_of. rewrite (find_from_drop delim line bi) by lia.
    assert (∃ n, default (length line) ((λ y, (bi + y)%nat) <$> find_from delim (drop bi line) 0 0) = (bi + n)%nat ∧
      (0 < n)%nat ∧ (bi + n <= length line)%nat ∧ Forall (λ c, delim c = false) (take n (drop bi line)) ∧
      (drop (bi + n) line = [] ∨ ∃ c k, drop (bi + n) line = c :: k ∧ delim c = true)) as (n & -> & Hn & Hle & Hw & Hend).
    { destruct (find_from delim (drop bi line) 0 0) as [y|] eqn:Ey.
      - apply find_from_Some in Ey as (Hy & Hw & d & Hd & Hdd). rewrite length_drop in Hy. cbn.
        exists y. split_and!; [done| |lia|done|].
        + destruct y; [|lia]. rewrite lookup_drop in Hd, Hc. unfold bi in Hd. rewrite Nat.add_0_r in Hd.
          rewrite Hd in Hc. injection Hc as ->. rewrite Hdd in Hnc. done.
        + right. rewrite <- drop_drop. destruct (drop y (drop bi line)) as [|e k] eqn:Ee.
          * apply (f_equal length) in Ee. rewrite !length_drop in Ee. cbn in Ee. lia.
          * exists e, k. split; [done|]. pose proof (lookup_drop (drop bi line) y 0) as Hl.
            rewrite Ee, Nat.add_0_r, Hd in Hl. cbn in Hl. by injection Hl as ->.
      - apply find_from_None in Ey. cbn. exists (length line - bi)%nat. split_and!; [lia|lia|lia|by apply Forall_take|].
        left. apply drop_ge. lia. }
    change (find_from (λ c, negb (delim c)) line 0 (bi + n)) with (find_first_not_of delim line (bi + n)).
    rewrite IH by lia. rewrite <- app_assoc. do 2 f_equal. unfold word_at.
    replace (bi + n - bi)%nat with n by lia. cbn [app].
    assert (drop pos line = take x (drop pos line) ++ take n (drop bi line) ++ drop (bi + n) line) as ->.
    { rewrite <- (take_drop x (drop pos line)) at 1. f_equal. rewrite drop_drop. fold bi.
      rewrite <- (take_drop n (drop bi line)) at 1. by rewrite drop_drop. }
    rewrite runs_blanks, runs_word; [|done|done|].
    2: { revert Hb. apply Forall_impl. intros d Hd. by destruct (delim d). }
    cbn [app]. destruct (take n (drop bi line)) as [|d k] eqn:Ek; [|done].
    apply (f_equal length) in Ek. rewrite length_take, length_drop in Ek. cbn in Ek. lia.
  - apply find_from_None in Ex. cbn. f_equal.
    rewrite <- (app_nil_r (drop pos line)), runs_blanks; [cbn; by rewrite app_nil_r|].
    revert Ex. apply Forall_impl. intros d Hd. by destruct (delim d).
Qed.

Lemma Split_runs line words :
  Split delim line words = Ok (words ++ map (λ w, c_string (string_of w)) (runs delim [] line)).
Proof. unfold Split. rewrite (Split_loop_runs (S (S (length line))) line 0) by lia. done. Qed.

End split_lemmas.

(** A line without its carriage return. *)
Definition strip_cr (line : list byte) : list byte :=
  match reverse line with x0d :: rev => reverse rev | _ => line end.

(** The words of a line, cut at spaces. *)
Definition words_of (line : list byte) : list string :=
  map (λ w, c_string (string_of w)) (runs is_blank [] line).

Lemma get_line_spec pre line rest :
  x0a ∉ line → get_line pre (line ++ x0a :: rest) = Some (strip_cr (pre ++ line), zlen (pre ++ line) + 1).
Proof.
  revert pre. induction line as [|c line IH]; intros pre Hn.
  - cbn. by rewrite app_nil_r.
  - apply not_elem_of_cons in Hn as [Hc Hn]. cbn [app get_line]. rewrite bool_decide_false by congruence.
    rewrite IH by done. by rewrite <- app_assoc.
Qed.

Lemma get_line_None pre l : x0a ∉ l → get_line pre l = None.
Proof.
  revert pre. induction l as [|c l IH]; intros pre Hn; [done|].
  apply not_elem_of_cons in Hn as [Hc Hn]. cbn [get_line]. rewrite bool_decide_false by congruence. by apply IH.
Qed.

Section console_theorems.
Context {S : Type} (sendBin : list byte → M S unit).

(** Splitting a line by positions, as [Split] does, gives the maximal runs of
    characters that are no delimiters, in order, each up to a NUL. *)
Lemma Split_is_runs delim line words :
  Split delim line words = Ok (words ++ map (λ w, c_string (string_of w)) (runs delim [] line)).
Proof. apply Split_runs. Qed.

(** [onData] answers the first complete line of the input and returns the offset
    behind it.  What follows it in the same read does not matter: a second complete line
    is neither run nor answered until the peer sends more.  Without a complete line, and
    for a peer that is not the local host, nothing is answered. *)
Lemma console_one_line localhost peer m line rest s :
  x0a ∉ line → zlen line < 2 ^ 31 - 1 →
  console_onData sendBin localhost localhost m (line ++ x0a :: rest) s =
    ((if bool_decide (strip_cr line = []) then mret tt else DispatchCommand sendBin m (words_of (strip_cr line))) ;;
     mret (zlen line + 1)) s ∧
  console_onData sendBin localhost localhost m line s = (Ok 0, s) ∧
  (peer ≠ localhost → console_onData sendBin localhost peer m (line ++ x0a :: rest) s = (Ok (-1), s)).
Proof.
  intros Hn Hl. pose proof (zlen_nonneg line). split_and!.
  - unfold console_onData. rewrite Z.eqb_refl. cbn [negb]. rewrite get_line_spec by done. cbn [app].
    rewrite swrap_small by (lia || (unfold in_s; lia)).
    destruct (bool_decide_reflect (strip_cr line = [])) as [->|Hs]; [done|].
    apply zlen_pos in Hs. destruct (Z.ltb_spec 0 (zlen (strip_cr line))); [|lia].
    rewrite Split_runs. done.
  - unfold console_onData. rewrite Z.eqb_refl, get_line_None by done. done.
  - intros Hp. unfold console_onData. by destruct (Z.eqb_spec peer localhost).
Qed.

End console_theorems.

Definition wecho (l : list byte) : M (list string) unit := modify (λ s, s ++ [string_of l]).

Lemma console_one_line_witness :
  console_onData wecho 1 1 new_ConsoleServer (bytes_of "quit  now" ++ x0a :: bytes_of ("help" +:+ string_of [x0a])) [] =
    (Ok 10, ["-ERR command not support: quit" +:+ CRLF]).
Proof.
  destruct (console_one_line wecho 1 2 new_ConsoleServer (bytes_of "quit  now")
    (bytes_of ("help" +:+ string_of [x0a])) []) as [E _].
  - apply (bool_decide_unpack _). vm_compute. exact I.
  - reflexivity.
  - rewrite E. vm_compute. reflexivity.
Defined.
