(* ===== verification/Events.v ===== *)
(** * Events.v: the event loop

    [SocketHandler] ([core/xnet/EventHandler.cpp]), [EventEpoll] and [IOLoop]
    ([core/xnet/IOLoop.cpp]) and [ServerStatus].  Handlers are pointers of type [H]; what
    they do when called is the parameter [doEvent], a step of the whole state, since a
    handler may set timers, change its events, or delete handlers.  The kernel's side is
    the table [interest] of [epoll] and a script of what each [poll] returns and how many
    clicks of the interval timer arrived meanwhile. *)

From S2P Require Import Prelude ByteStream Socket Timer.
From Stdlib Require Import Lia.
Open Scope Z_scope.

Inductive Status := kNull | kInitializing | kInitialized | kStarting | kRunning | kStopping | kStopped.
Inductive SubStatus := kSubStatusNull | kStoppingListener.

#[global] Instance Status_eq_dec : EqDecision Status.
Proof. solve_decision. Defined.

Definition EPOLLIN : Z := 1.
Definition EPOLLOUT : Z := 4.
Definition EPOLLERR : Z := 8.
Definition EPOLLHUP : Z := 16.
Definition TIME_CLICK : Z := 500.

(** [a & ~b] of [int]. *)
Definition land_not (a b : Z) : Z := Z.land a (Z.lnot b).
Definition has (ev bit : Z) : bool := negb (Z.land ev bit =? 0).

Section events.
Context {H : Type} `{Countable H} {P : Type}.

(** The handlers' sockets that exist, the set [_sockets] of [EventEpoll], the kernel's
    table from descriptors to the pointer and the events registered, the timers, the rest
    of [IOLoop], and the program. *)
Record LoopState := mkLoop {
  lp_socks : gmap H Socket;
  _sockets : gset H;
  interest : gmap Z (H * Z);
  lp_timers : TimerList (H:=H);
  m_elapsed : Z;
  _status : Status;
  _substatus : SubStatus;
  prog : P;
}.

Definition with_sockets (socks : gmap H Socket) (set : gset H) (int : gmap Z (H * Z)) (s : LoopState) : LoopState :=
  mkLoop socks set int (lp_timers s) (m_elapsed s) (_status s) (_substatus s) (prog s).
Definition with_timers (t : TimerList) (s : LoopState) : LoopState :=
  mkLoop (lp_socks s) (_sockets s) (interest s) t (m_elapsed s) (_status s) (_substatus s) (prog s).
Definition with_elapsed (e : Z) (s : LoopState) : LoopState :=
  mkLoop (lp_socks s) (_sockets s) (interest s) (lp_timers s) e (_status s) (_substatus s) (prog s).
Definition with_status (st : Status) (sub : SubStatus) (s : LoopState) : LoopState :=
  mkLoop (lp_socks s) (_sockets s) (interest s) (lp_timers s) (m_elapsed s) st sub (prog s).

(** The constructor of [IOLoop]. *)
Definition new_IOLoop (p : P) : LoopState :=
  mkLoop ∅ ∅ ∅ new_TimerList 0 kInitialized kSubStatusNull p.

(** [socket ()] of a handler; of one that does not exist it is undefined. *)
Definition socket_of (h : H) : M LoopState Socket := λ s,
  match lp_socks s !! h with Some sk => (Ok sk, s) | None => (Throw Undefined, s) end.
Definition set_socket_flags (h : H) (f : SockFlags → SockFlags) : M LoopState unit := modify (λ s,
  with_sockets (alter (λ sk, mkSocket (f (m_sock_flags sk)) (m_lastRcvTime sk) (m_socket sk)) h (lp_socks s))
    (_sockets s) (interest s) s).

(** ** EventEpoll *)

(** [setupEpoll]: [epoll_ctl]; an error of the kernel is logged and forgotten. *)
Definition epoll_add (fd : Z) (h : H) (ev : Z) : M LoopState unit := modify (λ s,
  match interest s !! fd with
  | Some _ => s                                             (* EEXIST *)
  | None => with_sockets (lp_socks s) (_sockets s) (<[fd := (h, ev)]> (interest s)) s
  end).
Definition epoll_mod (fd : Z) (h : H) (ev : Z) : M LoopState unit := modify (λ s,
  match interest s !! fd with
  | Some _ => with_sockets (lp_socks s) (_sockets s) (<[fd := (h, ev)]> (interest s)) s
  | None => s                                               (* ENOENT *)
  end).
Definition epoll_del (fd : Z) : M LoopState unit := modify (λ s,
  with_sockets (lp_socks s) (_sockets s) (delete fd (interest s)) s).

(** The events of [epoll] for those of a socket. *)
Definition epoll_events (ev : Z) : Z :=
  Z.lor (if has ev EVENT_READ then EPOLLIN else 0) (if has ev EVENT_WRITE then EPOLLOUT else 0).

(** [EventEpoll::addEventHandler] *)
Definition addEventHandler (remove add : Z) (h : H) : M LoopState Z :=
  s ← get;
  modify (λ s, with_sockets (lp_socks s) ({[ h ]} ∪ _sockets s) (interest s) s) ;;
  sk ← socket_of h;
  (if bool_decide (h ∈ _sockets s) then
     let currstate := Z.lor (land_not (selevent (m_sock_flags sk)) remove) add in
     epoll_mod (m_socket sk) h (epoll_events currstate)
   else
     epoll_add (m_socket sk) h (Z.lor EPOLLIN (if has add EVENT_WRITE then EPOLLOUT else 0))) ;;
  mret 0.

(** [EventEpoll::removeEventHandler] *)
Definition removeEventHandler (h : H) : M LoopState Z :=
  sk ← socket_of h;
  epoll_del (m_socket sk) ;;
  modify (λ s, with_sockets (lp_socks s) (_sockets s ∖ {[ h ]}) (interest s) s) ;;
  mret 0.

(** ** SocketHandler *)

(** [SocketHandler::addEvent]; [selevent] has eight bits. *)
Definition addEvent (h : H) (remove add : Z) : M LoopState unit :=
  sk ← socket_of h;
  if negb (isValid sk) then throw RuntimeError
  else
    let f := m_sock_flags sk in
    let add := if shutdown_send f then land_not add EVENT_WRITE else add in
    let add := if shutdown_recv f then land_not add EVENT_READ else add in
    let remove := land_not remove add in
    let remove := Z.land remove (selevent f) in
    let add := land_not add (selevent f) in
    if negb (remove + add =? EVENT_NONE) then
      (addEventHandler remove add h ;;
       set_socket_flags h (λ f, with_selevent (u8 (Z.lor (land_not (selevent f) remove) add)) f) ;;
       set_socket_flags h (with_selected true))
    else mret tt.

(** [SocketHandler::removeEvent], which leaves [selevent], and the destructor: the socket is
    closed, and the kernel forgets a closed descriptor. *)
Definition removeEvent (h : H) : M LoopState unit :=
  sk ← socket_of h;
  if selected (m_sock_flags sk) then (removeEventHandler h ;; set_socket_flags h (with_selected false))
  else mret tt.
Definition delete_handler (h : H) : M LoopState unit :=
  sk ← socket_of h;
  removeEvent h ;;
  modify (λ s, with_sockets (delete h (lp_socks s)) (_sockets s) (delete (m_socket sk) (interest s)) s).

(** [Socket::Close] on the socket of a handler that lives on. *)
Definition close_socket (h : H) : M LoopState unit :=
  sk ← socket_of h;
  if isValid sk then
    modify (λ s, with_sockets (<[h := mkSocket flags_reset (m_lastRcvTime sk) INVALID_SOCK]> (lp_socks s))
                   (_sockets s) (delete (m_socket sk) (interest s)) s)
  else mret tt.

(** [SignalHandler::addEvent] and [SignalHandler::removeEvent], which leave the flags alone;
    [_sigFd] is the descriptor of the socket from [start] on, and -1 before like it. *)
Definition signal_addEvent (h : H) (remove add : Z) : M LoopState unit :=
  sk ← socket_of h;
  if negb (isValid sk) then mret tt
  else if negb (remove + add =? EVENT_NONE) then (addEventHandler remove add h ;; mret tt) else mret tt.
Definition signal_removeEvent (h : H) : M LoopState unit :=
  sk ← socket_of h;
  if negb (isValid sk) then (removeEventHandler h ;; mret tt) else mret tt.

(** ** IOLoop *)

(** [EventHandler::addTimer] through [IOLoop::addTimer]. *)
Definition loop_addTimer (timeout : Z) (h : H) : M LoopState unit :=
  modify (λ s, with_timers (Timer.addTimer timeout h (lp_timers s)) s).

(** [increase_elapsed], once per SIGALRM. *)
Definition increase_elapsed (elapsed : Z) (s : LoopState) : LoopState := with_elapsed (s32 (m_elapsed s + elapsed)) s.
Fixpoint clicks (n : nat) (s : LoopState) : LoopState :=
  match n with O => s | S n => clicks n (increase_elapsed TIME_CLICK s) end.

Definition isRunning (s : LoopState) : bool := bool_decide (_status s = kRunning).

(** What one [epoll_wait] gives: the signals handled meanwhile and the ready handlers
    with their events, or [None] for an error. *)
Record Wait := mkWait { w_clicks : nat; w_ready : option (list (H * Z)) }.

Context (doEvent : H → Z → M LoopState unit).

(** The loop of [EventEpoll::poll]. *)
Fixpoint poll_events (evs : list (H * Z)) : M LoopState unit :=
  match evs with
  | [] => mret tt
  | (sk, ev) :: evs =>
      (if has ev (Z.lor EPOLLIN (Z.lor EPOLLERR EPOLLHUP)) then doEvent sk EVENT_READ else mret tt) ;;
      (if has ev EPOLLOUT then doEvent sk EVENT_WRITE else mret tt) ;;
      poll_events evs
  end.

Definition poll (w : Wait) : M LoopState Z :=
  modify (clicks (w_clicks w)) ;;
  match w_ready w with
  | None => mret (-1)
  | Some evs => poll_events evs ;; mret (Z.of_nat (length evs))
  end.

(** The loop of [IOLoop::checkTimeout]. *)
Fixpoint timeout_events (hs : list H) : M LoopState unit :=
  match hs with
  | [] => mret tt
  | h :: hs => doEvent h EVENT_TIMEOUT ;; timeout_events hs
  end.

Definition checkTimeout : M LoopState Z :=
  s ← get;
  let (hs, t) := checkTimer (m_elapsed s) (lp_timers s) in
  modify (with_timers t) ;;
  modify (with_elapsed 0) ;;
  timeout_events hs ;;
  mret (Z.of_nat (length hs)).

(** The loop of [IOLoop::run] over a script of waits; when the script ends the loop is
    still running. *)
Fixpoint run_loop (ws : list Wait) : M LoopState unit :=
  s ← get;
  if negb (isRunning s) then mret tt
  else
    match ws with
    | [] => throw OutOfFuel
    | w :: ws => poll w ;; checkTimeout ;; run_loop ws
    end.

Definition run (ws : list Wait) : M LoopState unit :=
  modify (λ s, with_status kRunning (_substatus s) s) ;; run_loop ws.

(** [IOLoop::stop] *)
Definition stop : M LoopState unit :=
  s ← get;
  if negb (isRunning s) then throw AssertFail
  else modify (with_status kStopping kStoppingListener).

End events.
Arguments LoopState H {_ _} P.
Arguments Wait : clear implicits.

(** ** Bits of event masks *)

Lemma has_bit ev k : 0 <= k → has ev (2 ^ k) = Z.testbit ev k.
Proof.
  intros Hk. unfold has. assert (Z.land ev (2 ^ k) = if Z.testbit ev k then 2 ^ k else 0) as ->.
  { apply Z.bits_inj'. intros i Hi. rewrite Z.land_spec, Z.pow2_bits_eqb by done.
    destruct (Z.eqb_spec k i) as [->|Hn].
    - rewrite andb_true_r. destruct (Z.testbit ev i); [by rewrite Z.pow2_bits_true|by rewrite Z.bits_0].
    - rewrite andb_false_r. destruct (Z.testbit ev k); [by rewrite Z.pow2_bits_false|by rewrite Z.bits_0]. }
  destruct (Z.testbit ev k); [|done]. destruct (Z.eqb_spec (2 ^ k) 0) as [E|]; [|done].
  pose proof (Z.pow_pos_nonneg 2 k ltac:(lia) Hk). lia.
Qed.

Lemma has_read ev : has ev EVENT_READ = Z.testbit ev 0.
Proof. exact (has_bit ev 0 ltac:(lia)). Qed.
Lemma has_write ev : has ev EVENT_WRITE = Z.testbit ev 1.
Proof. exact (has_bit ev 1 ltac:(lia)). Qed.
Lemma has_in ev : has ev EPOLLIN = Z.testbit ev 0.
Proof. exact (has_bit ev 0 ltac:(lia)). Qed.
Lemma has_out ev : has ev EPOLLOUT = Z.testbit ev 2.
Proof. exact (has_bit ev 2 ltac:(lia)). Qed.

Lemma land_not_bit a b i : 0 <= i → Z.testbit (land_not a b) i = Z.testbit a i && negb (Z.testbit b i).
Proof. intros Hi. unfold land_not. by rewrite Z.land_spec, Z.lnot_spec by done. Qed.

Lemma u8_bit a i : 0 <= i < 8 → Z.testbit (u8 a) i = Z.testbit a i.
Proof. intros Hi. unfold uwrap. by rewrite Z.mod_pow2_bits_low by lia. Qed.

Lemma epoll_events_in ev : has (epoll_events ev) EPOLLIN = has ev EVENT_READ.
Proof. unfold epoll_events. by destruct (has ev EVENT_READ), (has ev EVENT_WRITE). Qed.
Lemma epoll_events_out ev : has (epoll_events ev) EPOLLOUT = has ev EVENT_WRITE.
Proof. unfold epoll_events. by destruct (has ev EVENT_READ), (has ev EVENT_WRITE). Qed.

(** ** The kernel's table agrees with the sockets' flags *)

Section reactor.
Context {H : Type} `{Countable H} {P : Type}.
Abbreviation LS := (LoopState H P).
Implicit Types (s : LS) (A : gset H).

(** The events registered for a socket: writability exactly when the socket wants it,
    readability whenever it does. *)
Definition registered (sk : Socket) (ev : Z) : Prop :=
  has ev EPOLLOUT = has (selevent (m_sock_flags sk)) EVENT_WRITE ∧
  (has (selevent (m_sock_flags sk)) EVENT_READ = true → has ev EPOLLIN = true).

(** [A] are the handlers gone astray: their flags no longer tell what was registered. *)
Record reactor_wf A s : Prop := {
  rw_set h : h ∉ A → h ∈ _sockets s ↔ ∃ sk, lp_socks s !! h = Some sk ∧ selected (m_sock_flags sk) = true;
  rw_table fd h ev : interest s !! fd = Some (h, ev) →
    ∃ sk, lp_socks s !! h = Some sk ∧ m_socket sk = fd ∧ isValid sk = true ∧
      (h ∉ A → selected (m_sock_flags sk) = true ∧ registered sk ev);
  rw_known h sk : h ∉ A → lp_socks s !! h = Some sk → selected (m_sock_flags sk) = true →
    isValid sk = true ∧ ∃ ev, interest s !! m_socket sk = Some (h, ev);
  rw_fds h1 h2 sk1 sk2 : lp_socks s !! h1 = Some sk1 → lp_socks s !! h2 = Some sk2 →
    isValid sk1 = true → m_socket sk1 = m_socket sk2 → h1 = h2;
  rw_events h sk : lp_socks s !! h = Some sk → in_u 8 (selevent (m_sock_flags sk));
}.

(** An entry under the descriptor of a socket is its handler's. *)
Lemma rw_owner A s h sk h' ev :
  reactor_wf A s → lp_socks s !! h = Some sk → interest s !! m_socket sk = Some (h', ev) → h' = h.
Proof.
  intros Hwf Hh Hi. destruct (rw_table _ _ Hwf _ _ _ Hi) as (sk' & Hs & Hfd & Hv & _).
  by apply (rw_fds _ _ Hwf h' h sk' sk).
Qed.

(** What a change of one handler [h] has to respect. *)
Record only_handler (h : H) s s' : Prop := {
  oh_socks h' : h' ≠ h → lp_socks s' !! h' = lp_socks s !! h';
  oh_set h' : h' ≠ h → h' ∈ _sockets s' ↔ h' ∈ _sockets s;
  oh_table fd h' ev : h' ≠ h → interest s' !! fd = Some (h', ev) ↔ interest s !! fd = Some (h', ev);
  oh_entry fd ev : interest s' !! fd = Some (h, ev) → ∃ sk', lp_socks s' !! h = Some sk' ∧ m_socket sk' = fd ∧ isValid sk' = true;
  oh_fresh sk' h' sk0 : lp_socks s' !! h = Some sk' → isValid sk' = true → h' ≠ h → lp_socks s !! h' = Some sk0 →
    m_socket sk0 ≠ m_socket sk';
  oh_events sk' : lp_socks s' !! h = Some sk' → in_u 8 (selevent (m_sock_flags sk'));
}.

(** What it has to respect for a handler that is not astray. *)
Record settled (h : H) s : Prop := {
  st_set : h ∈ _sockets s ↔ ∃ sk, lp_socks s !! h = Some sk ∧ selected (m_sock_flags sk) = true;
  st_entry sk ev : lp_socks s !! h = Some sk → interest s !! m_socket sk = Some (h, ev) →
    selected (m_sock_flags sk) = true ∧ registered sk ev;
  st_known sk : lp_socks s !! h = Some sk → selected (m_sock_flags sk) = true →
    isValid sk = true ∧ ∃ ev, interest s !! m_socket sk = Some (h, ev);
}.

Lemma wf_update A A' h s s' :
  reactor_wf A s → A ⊆ A' → A' ⊆ {[ h ]} ∪ A → only_handler h s s' → (h ∉ A' → settled h s') → reactor_wf A' s'.
Proof.
  intros Hwf HA HA' [Os Oset Ot Oe Of Ou] Hset.
  assert (Hout : ∀ h', h' ∉ A' → h' ∉ A) by set_solver.
  split.
  - intros h' Hn. destruct (decide (h' = h)) as [->|Hne]; [by apply st_set, Hset|].
    rewrite Oset, Os by done. by apply (rw_set _ _ Hwf), Hout.
  - intros fd h' ev Hi. destruct (decide (h' = h)) as [->|Hne].
    + destruct (Oe _ _ Hi) as (sk' & Hs & <- & Hv). exists sk'. split_and!; [done..|]. intros Hn. by eapply st_entry; [apply Hset|..].
    + apply Ot in Hi; [|done]. destruct (rw_table _ _ Hwf _ _ _ Hi) as (sk & Hs & Hfd & Hv & Hr).
      exists sk. rewrite Os by done. split_and!; [done..|]. intros Hn. by apply Hr, Hout.
  - intros h' sk Hn Hs Hsel. destruct (decide (h' = h)) as [->|Hne]; [by apply (st_known _ _ (Hset Hn))|].
    rewrite Os in Hs by done. destruct (rw_known _ _ Hwf h' sk (Hout _ Hn) Hs Hsel) as (Hv & ev & Hi).
    split; [done|]. exists ev. by apply Ot.
  - intros h1 h2 sk1 sk2 H1 H2 Hv E. destruct (decide (h1 = h)) as [->|N1], (decide (h2 = h)) as [->|N2]; try done.
    + rewrite Os in H2 by done. by destruct (Of sk1 h2 sk2 H1 Hv N2 H2).
    + rewrite Os in H1 by done. assert (Hv2 : isValid sk2 = true) by (unfold isValid in *; by rewrite <- E).
      by destruct (Of sk2 h1 sk1 H2 Hv2 N1 H1).
    + rewrite Os in H1, H2 by done. by apply (rw_fds _ _ Hwf h1 h2 sk1 sk2).
  - intros h' sk Hs. destruct (decide (h' = h)) as [->|Hne]; [by apply Ou|]. rewrite Os in Hs by done. by apply (rw_events _ _ Hwf h').
Qed.

Lemma wf_grow A h s : reactor_wf A s → reactor_wf ({[ h ]} ∪ A) s.
Proof.
  intros [W1 W2 W3 W4 W5]. split; try done.
  - intros h' Hn. apply W1. set_solver.
  - intros fd h' ev Hi. destruct (W2 _ _ _ Hi) as (sk & ? & ? & ? & Hr). exists sk. split_and!; [done..|]. intros Hn. apply Hr. set_solver.
  - intros h' sk Hn. apply W3. set_solver.
Qed.

(** The common case: the socket of [h], its place in the set and the entry of its descriptor change. *)
Lemma only_handler_same A h sk sk' S' I' s :
  reactor_wf A s → lp_socks s !! h = Some sk → m_socket sk' = m_socket sk → in_u 8 (selevent (m_sock_flags sk')) →
  (∀ h', h' ≠ h → h' ∈ S' ↔ h' ∈ _sockets s) →
  (∀ fd, fd ≠ m_socket sk → I' !! fd = interest s !! fd) →
  (I' !! m_socket sk = interest s !! m_socket sk ∨ I' !! m_socket sk = None ∨
    isValid sk = true ∧ ∃ ev, I' !! m_socket sk = Some (h, ev)) →
  only_handler h s (with_sockets (<[h := sk']> (lp_socks s)) S' I' s).
Proof.
  intros Hwf Hh Hfd Hu HS HI Hown.
  assert (Hold : ∀ fd ev, interest s !! fd = Some (h, ev) → fd = m_socket sk ∧ isValid sk = true).
  { intros fd ev Hi. destruct (rw_table _ _ Hwf _ _ _ Hi) as (sk0 & Hs & <- & Hv & _). by replace sk0 with sk in * by congruence. }
  split; cbn [lp_socks _sockets interest with_sockets].
  - intros h' Hne. by rewrite lookup_insert_ne.
  - done.
  - intros fd h' ev Hne. destruct (decide (fd = m_socket sk)) as [->|]; [|by rewrite HI].
    assert (Hno : interest s !! m_socket sk ≠ Some (h', ev)) by (intros Hi; by apply Hne, (rw_owner A s h sk h' ev)).
    destruct Hown as [->|[->|[_ [ev' ->]]]]; naive_solver.
  - intros fd ev Hi. exists sk'. rewrite lookup_insert_eq, Hfd. unfold isValid. rewrite Hfd.
    destruct (decide (fd = m_socket sk)) as [->|Hne].
    + split_and!; [done..|]. destruct Hown as [E|[E|[Hv _]]]; [|congruence|done]. rewrite E in Hi. by apply (Hold (m_socket sk) ev).
    + rewrite HI in Hi by done. by apply Hold in Hi as [? _].
  - intros sk1 h' sk0. rewrite lookup_insert_eq. intros [= <-] Hv Hne Hs E. apply Hne.
    assert (isValid sk0 = true) by (unfold isValid in *; by rewrite E).
    apply (rw_fds _ _ Hwf h' h sk0 sk); try done. congruence.
  - intros sk1. rewrite lookup_insert_eq. by intros [= <-].
Qed.

(** The events [addEvent] ends with. *)
Definition wanted (sk : Socket) (remove add : Z) : Z :=
  let f := m_sock_flags sk in
  let add := if shutdown_send f then land_not add EVENT_WRITE else add in
  let add := if shutdown_recv f then land_not add EVENT_READ else add in
  Z.lor (land_not (selevent f) (land_not remove add)) add.

(** What a call of [addEventHandler] does, for any handler. *)
Lemma addEventHandler_shape remove add h sk s :
  lp_socks s !! h = Some sk →
  ∃ I', addEventHandler remove add h s = (Ok 0, with_sockets (lp_socks s) ({[ h ]} ∪ _sockets s) I' s) ∧
    (∀ fd, fd ≠ m_socket sk → I' !! fd = interest s !! fd) ∧
    (I' !! m_socket sk = interest s !! m_socket sk ∨ ∃ ev, I' !! m_socket sk = Some (h, ev)).
Proof.
  intros Hh. unfold addEventHandler. erewrite bind_Ok by reflexivity. erewrite bind_Ok by reflexivity.
  erewrite bind_Ok by (unfold socket_of; cbn; by rewrite Hh).
  unfold epoll_mod, epoll_add, modify, mbind, M_bind, mret, M_ret.
  destruct (bool_decide (h ∈ _sockets s)); cbn [interest with_sockets];
    destruct (interest s !! m_socket sk) as [x|] eqn:Ei; cbn; eexists; (split; [reflexivity|]);
    (split; [intros fd Hne; by rewrite ?lookup_insert_ne|]); rewrite ?lookup_insert_eq, ?Ei; eauto.
Qed.

(** ... and what it puts in the table for one that is not astray. *)
Lemma addEventHandler_run A remove add h sk s :
  reactor_wf A s → h ∉ A → lp_socks s !! h = Some sk → isValid sk = true →
  addEventHandler remove add h s =
    (Ok 0, with_sockets (lp_socks s) ({[ h ]} ∪ _sockets s)
      (<[m_socket sk := (h, if selected (m_sock_flags sk)
                            then epoll_events (Z.lor (land_not (selevent (m_sock_flags sk)) remove) add)
                            else Z.lor EPOLLIN (if has add EVENT_WRITE then EPOLLOUT else 0))]> (interest s)) s).
Proof.
  intros Hwf HA Hh Hv. unfold addEventHandler. erewrite bind_Ok by reflexivity. erewrite bind_Ok by reflexivity.
  erewrite bind_Ok by (unfold socket_of; cbn; by rewrite Hh).
  destruct (selected (m_sock_flags sk)) eqn:Hsel.
  - rewrite bool_decide_true by (apply (rw_set _ _ Hwf); [done|by exists sk]).
    destruct (rw_known _ _ Hwf h sk HA Hh Hsel) as [_ [x Hx]].
    unfold mbind, M_bind, epoll_mod, modify, mret, M_ret. cbn [interest with_sockets]. rewrite Hx. done.
  - rewrite bool_decide_false.
    2: { intros Hin. apply (rw_set _ _ Hwf) in Hin as (sk' & Hs & Hsel'); [congruence|done]. }
    assert (interest s !! m_socket sk = None) as Hx.
    { destruct (interest s !! m_socket sk) as [[h' ev]|] eqn:E; [|done].
      pose proof (rw_owner A s h sk h' ev Hwf Hh E) as ->.
      destruct (rw_table _ _ Hwf _ _ _ E) as (sk' & Hs & Hfd & _ & Hr). destruct (Hr HA). congruence. }
    unfold mbind, M_bind, epoll_add, modify, mret, M_ret. cbn [interest with_sockets]. rewrite Hx. done.
Qed.

Lemma set_socket_flags_run h f sk s :
  lp_socks s !! h = Some sk →
  set_socket_flags h f s =
    (Ok tt, with_sockets (<[h := mkSocket (f (m_sock_flags sk)) (m_lastRcvTime sk) (m_socket sk)]> (lp_socks s))
      (_sockets s) (interest s) s).
Proof.
  intros Hh. unfold set_socket_flags, modify. do 2 f_equal. apply map_eq. intros h'.
  destruct (decide (h' = h)) as [->|Hn]; [by rewrite lookup_alter_eq, Hh, lookup_insert_eq|].
  by rewrite lookup_alter_ne, lookup_insert_ne.
Qed.

Lemma with_sockets_again a b c a' b' c' s : with_sockets a b c (with_sockets a' b' c' s) = with_sockets a b c s.
Proof. done. Qed.

(** The bits [addEvent] leaves in [selevent]. *)
Lemma final_bits sel remove add i :
  0 <= i →
  Z.testbit (Z.lor (land_not sel (Z.land (land_not remove add) sel)) (land_not add sel)) i =
  Z.testbit (Z.lor (land_not sel (land_not remove add)) add) i.
Proof.
  intros Hi. rewrite !Z.lor_spec, !land_not_bit, Z.land_spec, !land_not_bit by done.
  by destruct (Z.testbit sel i), (Z.testbit remove i), (Z.testbit add i).
Qed.

Lemma u8_eq a b : (∀ i, 0 <= i < 8 → Z.testbit a i = Z.testbit b i) → u8 a = u8 b.
Proof.
  intros Hb. unfold uwrap. rewrite <- !Z.land_ones by lia. apply Z.bits_inj'. intros i Hi. rewrite !Z.land_spec.
  destruct (Z.lt_ge_cases i 8); [by rewrite Hb|]. by rewrite Z.ones_spec_high, !andb_false_r by lia.
Qed.

Lemma land_not_nonneg a b : 0 <= a → 0 <= land_not a b.
Proof. intros Ha. unfold land_not. apply Z.land_nonneg. by left. Qed.

(** A state that differs in the flags of one socket and its entry in the table. *)
Definition reselected (h : H) (sk : Socket) (sel : Z) (ev : Z) s : LS :=
  with_sockets (<[h := mkSocket (with_selected true (with_selevent sel (m_sock_flags sk))) (m_lastRcvTime sk) (m_socket sk)]> (lp_socks s))
    ({[ h ]} ∪ _sockets s) (<[m_socket sk := (h, ev)]> (interest s)) s.

Lemma reselected_wf A h sk sel ev s :
  reactor_wf A s → lp_socks s !! h = Some sk → isValid sk = true → in_u 8 sel →
  has ev EPOLLOUT = has sel EVENT_WRITE → (has sel EVENT_READ = true → has ev EPOLLIN = true) →
  reactor_wf A (reselected h sk sel ev s).
Proof.
  intros Hwf Hh Hv Hu Hout Hin. apply (wf_update A A h s); [done..|set_solver| |].
  - apply (only_handler_same A h sk); [done..|set_solver| |].
    + intros fd Hne. by rewrite lookup_insert_ne.
    + right. right. rewrite lookup_insert_eq. eauto.
  - intros _. unfold reselected. split; cbn [lp_socks _sockets interest with_sockets].
    + rewrite lookup_insert_eq. split; [|set_solver]. intros _. eexists. by split.
    + rewrite lookup_insert_eq. intros sk0 ev0 [= <-]. cbn [m_socket m_sock_flags]. rewrite lookup_insert_eq. intros [= <-]. by split.
    + rewrite lookup_insert_eq. intros sk0 [= <-] _. cbn [m_socket]. rewrite lookup_insert_eq. eauto.
Qed.

(** [addEvent] on the valid socket of a handler that is not astray and, if it is not selected, has no
    events left over. *)
Lemma addEvent_spec A h remove add sk s :
  reactor_wf A s → h ∉ A → lp_socks s !! h = Some sk → isValid sk = true → 0 <= add →
  (selected (m_sock_flags sk) = false → selevent (m_sock_flags sk) = 0) →
  ∃ s' sk', addEvent h remove add s = (Ok tt, s') ∧ reactor_wf A s' ∧ lp_socks s' !! h = Some sk' ∧
    m_socket sk' = m_socket sk ∧ selevent (m_sock_flags sk') = u8 (wanted sk remove add).
Proof.
  intros Hwf HA Hh Hv Hadd Hs0. pose proof (rw_events _ _ Hwf h sk Hh) as Hsu. unfold addEvent, wanted.
  erewrite bind_Ok by (unfold socket_of; by rewrite Hh). rewrite Hv. cbn [negb].
  set (f := m_sock_flags sk) in *.
  set (a1 := if shutdown_send f then land_not add EVENT_WRITE else add).
  set (a2 := if shutdown_recv f then land_not a1 EVENT_READ else a1).
  assert (0 <= a2) as Ha2.
  { unfold a2, a1. destruct (shutdown_recv f), (shutdown_send f); repeat apply land_not_nonneg; done. }
  set (rem := Z.land (land_not remove a2) (selevent f)). set (ad := land_not a2 (selevent f)).
  assert (0 <= rem) as Hrem by (apply Z.land_nonneg; right; apply Hsu).
  assert (0 <= ad) as Had by by apply land_not_nonneg.
  set (sel := u8 (Z.lor (land_not (selevent f) rem) ad)).
  assert (u8 (Z.lor (land_not (selevent f) (land_not remove a2)) a2) = sel) as ->.
  { unfold sel. apply u8_eq. intros i Hi. symmetry. apply final_bits. lia. }
  change EVENT_NONE with 0. destruct (Z.eqb_spec (rem + ad) 0) as [E0|E0]; cbn [negb].
  - assert (rem = 0 ∧ ad = 0) as [Er Ea] by lia. exists s, sk. split_and!; try done.
    unfold sel. rewrite Er, Ea. fold f. rewrite <- (uwrap_small 8 (selevent f)) at 1 by done.
    apply u8_eq. intros i Hi. rewrite Z.lor_spec, land_not_bit, Z.bits_0 by lia. by rewrite andb_true_r, orb_false_r.
  - erewrite bind_Ok by (by eapply addEventHandler_run).
    erewrite bind_Ok by (apply set_socket_flags_run; exact Hh).
    rewrite (set_socket_flags_run h (with_selected true)
      (mkSocket (with_selevent sel f) (m_lastRcvTime sk) (m_socket sk)));
      [|cbn [lp_socks with_sockets]; by rewrite lookup_insert_eq].
    cbn [lp_socks _sockets interest with_sockets m_sock_flags m_lastRcvTime m_socket].
    rewrite insert_insert_eq.
    match goal with |- context [<[m_socket sk := (h, ?ev)]> _] => set (ev0 := ev) end.
    exists (reselected h sk sel ev0 s).
    eexists. split; [reflexivity|]. split; [|cbn; rewrite lookup_insert_eq; by split_and!].
    apply reselected_wf; try done; [by apply uwrap_range| |]; unfold ev0; fold f.
    + destruct (selected f) eqn:Esel.
      * rewrite epoll_events_out, !has_write. unfold sel. by rewrite u8_bit by lia.
      * rewrite has_out, !has_write, Z.lor_spec. unfold sel. rewrite u8_bit, Z.lor_spec, land_not_bit by lia.
        rewrite (Hs0 eq_refl), Z.bits_0. cbn [andb orb]. by destruct (Z.testbit ad 1).
    + destruct (selected f) eqn:Esel.
      * rewrite epoll_events_in, !has_read. unfold sel. by rewrite u8_bit by lia.
      * intros _. rewrite has_in, Z.lor_spec. done.
Qed.

(** [addEvent] on any handler: only that one is touched, and it may go astray. *)
Lemma addEvent_astray A h remove add s :
  reactor_wf A s → reactor_wf ({[ h ]} ∪ A) (addEvent h remove add s).2.
Proof.
  intros Hwf. pose proof (wf_grow A h s Hwf) as Hg. unfold addEvent.
  destruct (lp_socks s !! h) as [sk|] eqn:Hh;
    [|by erewrite bind_Throw by (unfold socket_of; by rewrite Hh)].
  erewrite bind_Ok by (unfold socket_of; by rewrite Hh). destruct (isValid sk) eqn:Hv; cbn [negb]; [|done].
  match goal with |- context [if ?b then _ else _] => destruct b end; [|done].
  match goal with |- context [addEventHandler ?r ?a h] => destruct (addEventHandler_shape r a h sk s Hh) as (I' & E & HI & Hown) end.
  erewrite bind_Ok by exact E. erewrite bind_Ok by (apply set_socket_flags_run; exact Hh).
  erewrite set_socket_flags_run by (cbn [lp_socks with_sockets]; apply lookup_insert_eq).
  cbn [snd lp_socks _sockets interest with_sockets m_sock_flags m_lastRcvTime m_socket]. rewrite insert_insert_eq, !with_sockets_again.
  apply (wf_update A ({[ h ]} ∪ A) h s); [done|set_solver|done| |set_solver].
  apply (only_handler_same A h sk); [done..|by apply uwrap_range|set_solver|done|].
  destruct Hown as [?|?]; [by left|by right; right].
Qed.

Lemma removeEventHandler_run h sk s :
  lp_socks s !! h = Some sk →
  removeEventHandler h s =
    (Ok 0, with_sockets (lp_socks s) (_sockets s ∖ {[ h ]}) (delete (m_socket sk) (interest s)) s).
Proof. intros Hh. unfold removeEventHandler. by erewrite bind_Ok by (unfold socket_of; by rewrite Hh). Qed.

(** [removeEvent] takes the handler out of the set and the table. *)
Lemma removeEvent_spec A h sk s :
  reactor_wf A s → lp_socks s !! h = Some sk →
  ∃ s' sk', removeEvent h s = (Ok tt, s') ∧ reactor_wf A s' ∧ lp_socks s' = <[h := sk']> (lp_socks s) ∧
    m_socket sk' = m_socket sk ∧ (h ∉ A → h ∉ _sockets s').
Proof.
  intros Hwf Hh. unfold removeEvent. erewrite bind_Ok by (unfold socket_of; by rewrite Hh).
  destruct (selected (m_sock_flags sk)) eqn:Hsel.
  2: { exists s, sk. split_and!; [done|done|by rewrite insert_id|done|]. intros HA Hin.
       apply (rw_set _ _ Hwf) in Hin as (sk' & Hs & Hsel'); [congruence|done]. }
  erewrite bind_Ok by (by apply removeEventHandler_run).
  erewrite set_socket_flags_run by exact Hh. rewrite with_sockets_again. cbn [lp_socks _sockets interest with_sockets].
  eexists _, _. split; [reflexivity|]. cbn [lp_socks _sockets interest with_sockets].
  split_and!; [|done|done|set_solver]. apply (wf_update A A h s); [done..|set_solver| |].
  - apply (only_handler_same A h sk); [done..|exact (rw_events _ _ Hwf h sk Hh)|set_solver| |].
    + intros fd Hne. by rewrite lookup_delete_ne.
    + right. left. apply lookup_delete_eq.
  - intros HA. split; cbn [lp_socks _sockets interest with_sockets]; rewrite lookup_insert_eq.
    + split; [set_solver|]. by intros (? & [= <-] & E).
    + intros ? ev [= <-]. cbn [m_socket]. by rewrite lookup_delete_eq.
    + by intros ? [= <-].
Qed.

(** A change that takes the descriptor of [h], or [h] itself, away. *)
Lemma only_handler_gone A h sk (o : option Socket) s :
  reactor_wf A s → lp_socks s !! h = Some sk →
  (∀ sk', o = Some sk' → isValid sk' = false ∧ in_u 8 (selevent (m_sock_flags sk'))) →
  only_handler h s (with_sockets (partial_alter (λ _, o) h (lp_socks s)) (_sockets s) (delete (m_socket sk) (interest s)) s).
Proof.
  intros Hwf Hh Ho. split; cbn [lp_socks _sockets interest with_sockets].
  - intros h' Hne. by rewrite lookup_partial_alter_ne.
  - done.
  - intros fd h' ev Hne. destruct (decide (fd = m_socket sk)) as [->|]; [|by rewrite lookup_delete_ne].
    rewrite lookup_delete_eq. split; [done|]. intros Hi. by destruct Hne, (rw_owner A s h sk h' ev).
  - intros fd ev [Hne Hi]%lookup_delete_Some. destruct (rw_table _ _ Hwf _ _ _ Hi) as (sk0 & Hs & Hfd & _). congruence.
  - intros sk' h' sk0. rewrite lookup_partial_alter_eq. intros E Hv. apply Ho in E as [? _]. congruence.
  - intros sk'. rewrite lookup_partial_alter_eq. intros E. by apply Ho in E as [_ ?].
Qed.

(** A handler that is deleted leaves neither a pointer nor an entry behind. *)
Lemma delete_handler_spec A h sk s :
  reactor_wf A s → lp_socks s !! h = Some sk →
  ∃ s', delete_handler h s = (Ok tt, s') ∧ reactor_wf A s' ∧ lp_socks s' = delete h (lp_socks s).
Proof.
  intros Hwf Hh. destruct (removeEvent_spec A h sk s Hwf Hh) as (s1 & sk1 & E & Hwf1 & Hs1 & Hfd & Hset).
  unfold delete_handler. erewrite bind_Ok by (unfold socket_of; by rewrite Hh). erewrite bind_Ok by exact E.
  eexists. split; [reflexivity|]. cbn [lp_socks with_sockets]. split; [|by rewrite Hs1, delete_insert_eq].
  assert (Hh1 : lp_socks s1 !! h = Some sk1) by (by rewrite Hs1, lookup_insert_eq).
  rewrite <- Hfd. apply (wf_update A A h s1); [done..|set_solver| |].
  - by apply (only_handler_gone A h sk1 None).
  - intros HA. split; cbn [lp_socks _sockets interest with_sockets]; rewrite lookup_delete_eq; [|done..].
    split; [by intros ?%Hset|by intros (? & ? & _)].
Qed.
End reactor.

(** ** The reactor as a transition system *)

Section steps.
Context {H : Type} `{Countable H} {P : Type}.
Abbreviation LS := (LoopState H P).
Implicit Types (s : LS) (A : gset H).

(** What the program does to the sockets between two polls, with the handlers that went
    astray so far: a handler is built, on a descriptor no other handler has or without one,
    and is given one later; its other flags change; its events change; they are removed; it is
    deleted.  Astray go a handler whose events change after [removeEvent], which leaves events
    behind in [selevent]; one whose socket is closed under it; and a [SignalHandler], which
    bypasses the flags.  Timers and the program's own state do not matter here. *)
Inductive reactor_step : LS * gset H → LS * gset H → Prop :=
  | step_new h sk s A :
      lp_socks s !! h = None → m_sock_flags sk = flags_reset →
      (isValid sk = true → ∀ h' sk', lp_socks s !! h' = Some sk' → m_socket sk' ≠ m_socket sk) →
      reactor_step (s, A) (with_sockets (<[h := sk]> (lp_socks s)) (_sockets s) (interest s) s, A)
  | step_attach h sk fl fd s A :
      lp_socks s !! h = Some sk → isValid sk = false →
      selevent fl = selevent (m_sock_flags sk) → selected fl = selected (m_sock_flags sk) →
      (∀ h' sk', lp_socks s !! h' = Some sk' → m_socket sk' ≠ fd) →
      reactor_step (s, A) (with_sockets (<[h := mkSocket fl (m_lastRcvTime sk) fd]> (lp_socks s)) (_sockets s) (interest s) s, A)
  | step_flags h f s A :
      (∀ fl, selevent (f fl) = selevent fl ∧ selected (f fl) = selected fl) →
      reactor_step (s, A) ((set_socket_flags h f s).2, A)
  | step_add h remove add s A :
      0 <= add →
      (∀ sk, lp_socks s !! h = Some sk → selected (m_sock_flags sk) = false → selevent (m_sock_flags sk) = 0) →
      reactor_step (s, A) ((addEvent h remove add s).2, A)
  | step_add_again h remove add s A : reactor_step (s, A) ((addEvent h remove add s).2, {[ h ]} ∪ A)
  | step_remove h s A : reactor_step (s, A) ((removeEvent h s).2, A)
  | step_close h s A : reactor_step (s, A) ((close_socket h s).2, {[ h ]} ∪ A)
  | step_delete h s A : reactor_step (s, A) ((delete_handler h s).2, A)
  | step_signal_add h remove add s A : reactor_step (s, A) ((signal_addEvent h remove add s).2, {[ h ]} ∪ A)
  | step_signal_remove h s A : reactor_step (s, A) ((signal_removeEvent h s).2, {[ h ]} ∪ A)
  | step_other s s' A :
      lp_socks s' = lp_socks s → _sockets s' = _sockets s → interest s' = interest s → reactor_step (s, A) (s', A).

Lemma reactor_wf_new (p : P) : reactor_wf ∅ (new_IOLoop p : LS).
Proof.
  split; cbn.
  - intros h _. split; [by intros ?%elem_of_empty|]. intros (sk & E & _). by rewrite lookup_empty in E.
  - intros fd h ev E. by rewrite lookup_empty in E.
  - intros h sk _ E. by rewrite lookup_empty in E.
  - intros h1 h2 sk1 sk2 E. by rewrite lookup_empty in E.
  - intros h sk E. by rewrite lookup_empty in E.
Qed.

Lemma reactor_wf_insert A h sk s :
  reactor_wf A s → lp_socks s !! h = None → m_sock_flags sk = flags_reset →
  (isValid sk = true → ∀ h' sk', lp_socks s !! h' = Some sk' → m_socket sk' ≠ m_socket sk) →
  reactor_wf A (with_sockets (<[h := sk]> (lp_socks s)) (_sockets s) (interest s) s).
Proof.
  intros Hwf Hh Hf Hfd.
  assert (Hno : ∀ fd ev, interest s !! fd ≠ Some (h, ev)).
  { intros fd ev Hi. destruct (rw_table _ _ Hwf _ _ _ Hi) as (sk' & Hs & _). congruence. }
  apply (wf_update A A h s); [done..|set_solver| |].
  - split; cbn [lp_socks _sockets interest with_sockets]; try done.
    + intros h' Hne. by rewrite lookup_insert_ne.
    + intros fd ev Hi. by destruct (Hno _ _ Hi).
    + intros sk' h' sk0. rewrite lookup_insert_eq. intros [= <-] Hv _ Hs. by apply (Hfd Hv h').
    + intros sk'. rewrite lookup_insert_eq. intros [= <-]. by rewrite Hf.
  - intros HA. split; cbn [lp_socks _sockets interest with_sockets]; rewrite lookup_insert_eq.
    + rewrite (rw_set _ _ Hwf) by done. rewrite Hh. split; [naive_solver|]. intros (? & [= <-] & E). by rewrite Hf in E.
    + intros ? ev [= <-] Hi. by destruct (Hno _ _ Hi).
    + intros ? [= <-] E. by rewrite Hf in E.
Qed.

Lemma reactor_wf_attach A h sk fl fd s :
  reactor_wf A s → lp_socks s !! h = Some sk → isValid sk = false →
  selevent fl = selevent (m_sock_flags sk) → selected fl = selected (m_sock_flags sk) →
  (∀ h' sk', lp_socks s !! h' = Some sk' → m_socket sk' ≠ fd) →
  reactor_wf A (with_sockets (<[h := mkSocket fl (m_lastRcvTime sk) fd]> (lp_socks s)) (_sockets s) (interest s) s).
Proof.
  intros Hwf Hh Hv Hse Hsd Hfd.
  assert (Hno : ∀ fd' ev, interest s !! fd' ≠ Some (h, ev)).
  { intros fd' ev Hi. destruct (rw_table _ _ Hwf _ _ _ Hi) as (sk' & Hs & _ & Hv' & _). congruence. }
  apply (wf_update A A h s); [done..|set_solver| |].
  - split; cbn [lp_socks _sockets interest with_sockets]; try done.
    + intros h' Hne. by rewrite lookup_insert_ne.
    + intros fd' ev Hi. by destruct (Hno _ _ Hi).
    + intros sk' h' sk0. rewrite lookup_insert_eq. intros [= <-] _ _ Hs. by apply (Hfd h').
    + intros sk'. rewrite lookup_insert_eq. intros [= <-]. cbn [m_sock_flags]. rewrite Hse. exact (rw_events _ _ Hwf h sk Hh).
  - intros HA.
    assert (Hsel : selected (m_sock_flags sk) = false).
    { destruct (selected (m_sock_flags sk)) eqn:E; [|done]. destruct (rw_known _ _ Hwf h sk HA Hh E). congruence. }
    split; cbn [lp_socks _sockets interest with_sockets]; rewrite lookup_insert_eq.
    + rewrite (rw_set _ _ Hwf) by done. rewrite Hh. split.
      * intros (? & [= <-] & E). congruence.
      * intros (? & [= <-] & E). cbn in E. congruence.
    + intros ? ev [= <-] Hi. by destruct (Hno _ _ Hi).
    + intros ? [= <-] E. cbn in E. congruence.
Qed.

Lemma reactor_wf_flags A h f s :
  (∀ fl, selevent (f fl) = selevent fl ∧ selected (f fl) = selected fl) →
  reactor_wf A s → reactor_wf A (set_socket_flags h f s).2.
Proof.
  intros Hf Hwf. destruct (lp_socks s !! h) as [sk|] eqn:Hh.
  2: { assert ((set_socket_flags h f s).2 = s) as ->; [|done]. unfold set_socket_flags, modify. cbn.
       assert (alter (λ sk, mkSocket (f (m_sock_flags sk)) (m_lastRcvTime sk) (m_socket sk)) h (lp_socks s) = lp_socks s) as ->.
       { apply map_eq. intros h'. destruct (decide (h' = h)) as [->|Hn]; [by rewrite lookup_alter_eq, Hh|by rewrite lookup_alter_ne]. }
       by destruct s. }
  rewrite (set_socket_flags_run h f sk s Hh). cbn [snd]. destruct (Hf (m_sock_flags sk)) as [E1 E2].
  apply (wf_update A A h s); [done..|set_solver| |].
  - apply (only_handler_same A h sk); [done..| |done|done|by left]. cbn [m_sock_flags]. rewrite E1. exact (rw_events _ _ Hwf h sk Hh).
  - intros HA. split; cbn [lp_socks _sockets interest with_sockets]; rewrite lookup_insert_eq.
    + rewrite (rw_set _ _ Hwf), Hh by done. split.
      * intros (? & [= <-] & E). eexists. split; [done|]. cbn. by rewrite E2.
      * intros (? & [= <-] & E). exists sk. cbn in E. by rewrite <- E2.
    + intros ? ev [= <-] Hi. cbn [m_socket] in Hi. unfold registered. cbn [m_sock_flags]. rewrite E1, E2.
      destruct (rw_table _ _ Hwf _ _ _ Hi) as (sk' & Hs & _ & _ & Hr). assert (sk' = sk) as -> by congruence. by apply Hr.
    + intros ? [= <-] E. cbn in E |- *. rewrite E2 in E. by apply (rw_known _ _ Hwf h sk).
Qed.

Lemma close_socket_astray A h s : reactor_wf A s → reactor_wf ({[ h ]} ∪ A) (close_socket h s).2.
Proof.
  intros Hwf. pose proof (wf_grow A h s Hwf) as Hg. unfold close_socket.
  destruct (lp_socks s !! h) as [sk|] eqn:Hh; [|by erewrite bind_Throw by (unfold socket_of; by rewrite Hh)].
  erewrite bind_Ok by (unfold socket_of; by rewrite Hh). destruct (isValid sk); [|done].
  apply (wf_update A ({[ h ]} ∪ A) h s); [done|set_solver|done| |set_solver].
  apply (only_handler_gone A h sk (Some _)); [done..|]. by intros ? [= <-].
Qed.

Lemma signal_addEvent_astray A h remove add s :
  reactor_wf A s → reactor_wf ({[ h ]} ∪ A) (signal_addEvent h remove add s).2.
Proof.
  intros Hwf. pose proof (wf_grow A h s Hwf) as Hg. unfold signal_addEvent.
  destruct (lp_socks s !! h) as [sk|] eqn:Hh; [|by erewrite bind_Throw by (unfold socket_of; by rewrite Hh)].
  erewrite bind_Ok by (unfold socket_of; by rewrite Hh). destruct (isValid sk) eqn:Hv; cbn [negb]; [|done].
  destruct (remove + add =? EVENT_NONE); cbn [negb]; [done|].
  destruct (addEventHandler_shape remove add h sk s Hh) as (I' & E & HI & Hown). erewrite bind_Ok by exact E.
  cbn [snd]. rewrite <- (insert_id (lp_socks s) h sk) by done.
  apply (wf_update A ({[ h ]} ∪ A) h s); [done|set_solver|done| |set_solver].
  apply (only_handler_same A h sk); [done..|exact (rw_events _ _ Hwf h sk Hh)|set_solver|done|].
  destruct Hown as [?|?]; [by left|by right; right].
Qed.

Lemma signal_removeEvent_astray A h s : reactor_wf A s → reactor_wf ({[ h ]} ∪ A) (signal_removeEvent h s).2.
Proof.
  intros Hwf. pose proof (wf_grow A h s Hwf) as Hg. unfold signal_removeEvent.
  destruct (lp_socks s !! h) as [sk|] eqn:Hh; [|by erewrite bind_Throw by (unfold socket_of; by rewrite Hh)].
  erewrite bind_Ok by (unfold socket_of; by rewrite Hh). destruct (isValid sk) eqn:Hv; cbn [negb]; [done|].
  erewrite bind_Ok by (by apply removeEventHandler_run). cbn [snd]. rewrite <- (insert_id (lp_socks s) h sk) by done.
  apply (wf_update A ({[ h ]} ∪ A) h s); [done|set_solver|done| |set_solver].
  apply (only_handler_same A h sk); [done..|exact (rw_events _ _ Hwf h sk Hh)|set_solver| |].
  - intros fd Hne. by rewrite lookup_delete_ne.
  - right. left. apply lookup_delete_eq.
Qed.

Lemma reactor_step_wf x y : reactor_step x y → reactor_wf x.2 x.1 → reactor_wf y.2 y.1.
Proof.
  intros Hst Hwf. destruct Hst as [h sk s A Hh Hf Hfd|h sk fl fd s A Hh Hv He Hsd Hfd|h f s A Hf|h remove add s A Hadd Hz|
    h remove add s A|h s A|h s A|h s A|h remove add s A|h s A|s s' A E1 E2 E3]; cbn [fst snd] in *.
  - by apply reactor_wf_insert.
  - by apply reactor_wf_attach.
  - by apply reactor_wf_flags.
  - destruct (decide (h ∈ A)) as [HA|HA].
    { replace A with ({[ h ]} ∪ A) by set_solver. by apply addEvent_astray. }
    destruct (lp_socks s !! h) as [sk|] eqn:Hh.
    + destruct (isValid sk) eqn:Hv.
      * destruct (addEvent_spec A h remove add sk s Hwf HA Hh Hv Hadd (Hz sk eq_refl)) as (s' & _ & E & Hwf' & _). by rewrite E.
      * unfold addEvent. erewrite bind_Ok by (unfold socket_of; by rewrite Hh). by rewrite Hv.
    + unfold addEvent. erewrite bind_Throw by (unfold socket_of; by rewrite Hh). done.
  - by apply addEvent_astray.
  - destruct (lp_socks s !! h) as [sk|] eqn:Hh.
    + destruct (removeEvent_spec A h sk s Hwf Hh) as (s' & _ & E & Hwf' & _). by rewrite E.
    + unfold removeEvent. by erewrite bind_Throw by (unfold socket_of; by rewrite Hh).
  - by apply close_socket_astray.
  - destruct (lp_socks s !! h) as [sk|] eqn:Hh.
    + destruct (delete_handler_spec A h sk s Hwf Hh) as (s' & E & Hwf' & _). by rewrite E.
    + unfold delete_handler. by erewrite bind_Throw by (unfold socket_of; by rewrite Hh).
  - by apply signal_addEvent_astray.
  - by apply signal_removeEvent_astray.
  - destruct Hwf as [W1 W2 W3 W4 W5]. split; rewrite ?E1, ?E2, ?E3; done.
Qed.

Lemma reactor_reachable_wf (p : P) s A : rtc reactor_step (new_IOLoop p, ∅) (s, A) → reactor_wf A s.
Proof.
  intros Hr. change (reactor_wf (s, A).2 (s, A).1). assert (Hwf : reactor_wf (new_IOLoop p : LS, ∅ : gset H).2 (new_IOLoop p, ∅ : gset H).1) by apply reactor_wf_new.
  revert Hwf. induction Hr as [|x y z Hst Hr IH]; [done|]. intros Hwf. apply IH. by eapply reactor_step_wf.
Qed.

(** C22: in every state the program can bring the loop to, the kernel reports handlers that
    exist, only for their own descriptor; and for every handler that did not go astray, through
    events added after a [removeEvent], a socket closed under it or as a [SignalHandler], the
    set, the table and the flags agree: it is in [_sockets] exactly when it lives and is selected,
    and exactly when its descriptor is in the table; once selected it is watched for writing
    exactly when its flags ask for it, and whenever they ask for reading it is watched for that. *)
Theorem reactor_invariant (p : P) s A :
  rtc reactor_step (new_IOLoop p, ∅) (s, A) →
  (∀ fd h ev, interest s !! fd = Some (h, ev) → ∃ sk, lp_socks s !! h = Some sk ∧ m_socket sk = fd) ∧
  (∀ h, h ∉ A →
    (h ∈ _sockets s ↔ ∃ sk, lp_socks s !! h = Some sk ∧ selected (m_sock_flags sk) = true) ∧
    (h ∈ _sockets s ↔ ∃ fd ev, interest s !! fd = Some (h, ev)) ∧
    ∀ sk ev, lp_socks s !! h = Some sk → interest s !! m_socket sk = Some (h, ev) →
      (has (selevent (m_sock_flags sk)) EVENT_READ = true → has ev EPOLLIN = true) ∧
      (has (selevent (m_sock_flags sk)) EVENT_WRITE = true ↔ has ev EPOLLOUT = true)).
Proof.
  intros Hr. pose proof (reactor_reachable_wf p s A Hr) as Hwf. split.
  { intros fd h ev Hi. destruct (rw_table _ _ Hwf _ _ _ Hi) as (sk & Hs & Hfd & _). by exists sk. }
  intros h HA. split_and!; [by apply (rw_set _ _ Hwf)| |].
  - rewrite (rw_set _ _ Hwf) by done. split.
    + intros (sk & Hs & Hsel). destruct (rw_known _ _ Hwf h sk HA Hs Hsel) as (_ & ev & Hi). eauto.
    + intros (fd & ev & Hi). destruct (rw_table _ _ Hwf _ _ _ Hi) as (sk & Hs & _ & _ & Hreg). exists sk. split; [done|by apply Hreg].
  - intros sk ev Hs Hi. destruct (rw_table _ _ Hwf _ _ _ Hi) as (sk' & Hs' & _ & _ & Hreg).
    assert (sk' = sk) as -> by congruence. destruct (Hreg HA) as (_ & Hw & Hrd). split; [done|]. by rewrite Hw.
Qed.

End steps.

(** ** A timer that sets itself again runs for ever *)

Section liveness.
Context {H : Type} `{Countable H} {P : Type}.
Abbreviation LS := (LoopState H P).
Implicit Types s : LS.
Context (doEvent : H → Z → M LS unit).
(** The handler, its period, how often it has run, the most clicks between two turns of
    the loop. *)
Context (p : H) (d : Z) (fired : P → nat) (B : Z).

(** Timers the other handlers may set: shorter than a click or longer than the period,
    or none; each for itself. *)
Definition allowed (x : Z * H) : Prop := x.2 ≠ p ∧ (x.1 < TIME_CLICK ∨ d < x.1).

(** A call that leaves the loop as it is, but for such timers. *)
Definition keeps_loop (s s' : LS) : Prop :=
  (∃ sets, Forall allowed sets ∧
    lp_timers s' = fold_left (λ t x, Timer.addTimer x.1 x.2 t) sets (lp_timers s)) ∧
  m_elapsed s' = m_elapsed s ∧ _status s' = _status s ∧ fired (prog s') = fired (prog s).

Record periodic : Prop := {
  pd_other h ev s : h ≠ p ∨ ev ≠ EVENT_TIMEOUT → ∃ s', doEvent h ev s = (Ok tt, s') ∧ keeps_loop s s';
  pd_self s : ∃ s', doEvent p EVENT_TIMEOUT s = (Ok tt, s') ∧
    lp_timers s' = Timer.addTimer d p (lp_timers s) ∧
    m_elapsed s' = m_elapsed s ∧ _status s' = _status s ∧ fired (prog s') = S (fired (prog s));
}.

Context (Hper : periodic) (Hd : TIME_CLICK <= d) (HB : 0 <= B) (Hrange : d + B < 2 ^ 31).

(** The other nodes: those with a shorter delay are as old as the last look at the list,
    and none has a delay between a click and the period. *)
Definition other_node (now : Z) (n : TimerNode (H:=H)) : Prop :=
  handler n ≠ p ∧ ((expire n < TIME_CLICK ∧ elapsed n = now) ∨ d < expire n).

(** The list at the time [T], the handler's timer set at [E]; no timer while [E] is [None]. *)
Record sched (T : Z) (E : option Z) (t : TimerList (H:=H)) : Prop := {
  sc_sorted : Timer.sorted (_timers t);
  sc_now : _elapsed t = s32 T;
  sc_self : pending p t = match E with Some e => [mkNode d (s32 e) p] | None => [] end;
  sc_other : Forall (λ n, handler n = p ∨ other_node (s32 T) n) (_timers t);
}.

Lemma addTimer_elem t h (l : TimerList (H:=H)) n :
  n ∈ _timers (Timer.addTimer t h l) → n = mkNode t (_elapsed l) h ∨ n ∈ _timers l.
Proof.
  pose proof (unlink_incl t h (_timers l) n) as Hi. unfold Timer.addTimer.
  destruct (unlink t h (_timers l)) as [l' []]; cbn [_timers fst] in *; [by right; apply Hi|].
  intros [->|Hn]%insert_node_elem; [by left|by right; apply Hi].
Qed.

Lemma addTimer_elapsed t h (l : TimerList (H:=H)) : _elapsed (Timer.addTimer t h l) = _elapsed l.
Proof. unfold Timer.addTimer. by destruct (unlink t h (_timers l)). Qed.

Lemma sched_allowed T E t x : sched T E t → allowed x → sched T E (Timer.addTimer x.1 x.2 t).
Proof.
  intros [H1 H2 H3 H4] [Hx Hb]. split.
  - by apply addTimer_sorted.
  - by rewrite addTimer_elapsed.
  - rewrite addTimer_other; [done|congruence].
  - apply Forall_forall. intros n [->|Hn]%list_elem_of_In%addTimer_elem.
    + right. split; [done|]. cbn. rewrite H2. tauto.
    + rewrite Forall_forall in H4. by apply H4, list_elem_of_In.
Qed.

Lemma sched_sets T E t sets :
  sched T E t → Forall allowed sets → sched T E (fold_left (λ t x, Timer.addTimer x.1 x.2 t) sets t).
Proof. intros Hs Hf. revert t Hs. induction Hf as [|x sets Hx Hf IH]; intros t Hs; [done|]. by apply IH, sched_allowed. Qed.

(** Setting the timer again. *)
Lemma sched_self T t : sched T None t → sched T (Some T) (Timer.addTimer d p t).
Proof.
  intros [H1 H2 H3 H4]. split.
  - by apply addTimer_sorted.
  - by rewrite addTimer_elapsed.
  - pose proof (addTimer_pending d p t) as Hp. rewrite H3, H2 in Hp. exact Hp.
  - apply Forall_forall. intros n [->|Hn]%list_elem_of_In%addTimer_elem; [by left|].
    rewrite Forall_forall in H4. by apply H4, list_elem_of_In.
Qed.

Lemma is_due_at T tick (n : TimerNode (H:=H)) : elapsed n = s32 T → 0 <= tick < 2 ^ 31 → is_due (s32 (T + tick)) n = (expire n <? tick).
Proof.
  intros He Ht. destruct n as [x e q]. cbn in *. subst e.
  pose proof (is_due_new x (s32 T) tick q Ht) as Hn. by rewrite swrap_add_l in Hn by lia.
Qed.

Lemma sorted_app (l1 l2 : list (TimerNode (H:=H))) :
  Timer.sorted (l1 ++ l2) → Timer.sorted l2 ∧ ∀ n m, n ∈ l1 → m ∈ l2 → expire n <= expire m.
Proof.
  induction l1 as [|x l1 IH]; cbn; [intros Hs; split; [done|by intros n m ?%elem_of_nil]|].
  intros [Hx Hs]. destruct (IH Hs) as [H2 H12]. split; [done|]. intros n m Hn Hm.
  apply elem_of_cons in Hn as [->|Hn]; [|by apply H12]. rewrite Forall_forall in Hx.
  apply Hx, list_elem_of_In, elem_of_app. by right.
Qed.

Lemma take_due_app now (l1 l2 : list (TimerNode (H:=H))) :
  Forall (λ n, is_due now n = true) l1 →
  take_due now (l1 ++ l2) = (map handler l1 ++ (take_due now l2).1, (take_due now l2).2).
Proof.
  induction 1 as [|n l Hn Hl IH]; [cbn; by destruct (take_due now l2)|]. cbn [app take_due]. rewrite Hn, IH. done.
Qed.

Lemma not_p_filter (l : list (TimerNode (H:=H))) :
  filter (λ n, handler n = p) l = [] ↔ Forall (λ n, handler n ≠ p) l.
Proof.
  induction l as [|n l IH]; [by split|]. rewrite filter_cons. destruct (decide (handler n = p)).
  - split; [done|]. intros Hf. by apply Forall_cons_1 in Hf as [? _].
  - rewrite IH. split; [by constructor|]. by intros [_ ?]%Forall_cons_1.
Qed.

Lemma not_p_handlers (l : list (TimerNode (H:=H))) : Forall (λ n, handler n ≠ p) l → p ∉ map handler l.
Proof. intros Hf (n & -> & Hn)%list_elem_of_fmap. rewrite Forall_forall in Hf. by destruct (Hf n); [apply list_elem_of_In|]. Qed.

(** The pass stops in front of a node that is not due, or inside the part before it. *)
Lemma take_due_stuck now (pre post : list (TimerNode (H:=H))) n :
  ¬ Forall (λ n, is_due now n = true) pre →
  ∃ l pre', pre = l ++ pre' ∧ take_due now (pre ++ n :: post) = (map handler l, pre' ++ n :: post).
Proof.
  induction pre as [|m pre IH]; intros Hn; [by destruct Hn; constructor|]. cbn [app take_due].
  destruct (is_due now m) eqn:Em.
  - destruct IH as (l & pre' & -> & El); [intros Hf; apply Hn; by constructor|].
    exists (m :: l), pre'. by rewrite El.
  - by exists [], (m :: pre).
Qed.

(** The list around the handler's node: what stands in front of it has a short delay and
    was passed over at this very moment, what stands behind it has a longer one. *)
Lemma sched_view T E t :
  sched T (Some E) t → ∃ pre post, _timers t = pre ++ mkNode d (s32 E) p :: post ∧
    Timer.sorted (pre ++ mkNode d (s32 E) p :: post) ∧ Timer.sorted post ∧
    Forall (λ n, handler n ≠ p ∧ expire n < TIME_CLICK ∧ elapsed n = s32 T) pre ∧
    Forall (λ n, handler n ≠ p ∧ d < expire n) post.
Proof.
  intros [Hs Hnow Hself Hoth].
  assert (mkNode d (s32 E) p ∈ _timers t) as Hin.
  { assert (mkNode d (s32 E) p ∈ pending p t) as Hx by (rewrite Hself; by left).
    unfold pending in Hx. by apply list_elem_of_filter in Hx as [_ ?]. }
  apply list_elem_of_split in Hin as (pre & post & El). unfold pending in Hself. rewrite El in Hself, Hs, Hoth.
  rewrite list.filter_app, filter_cons, decide_True in Hself by done.
  assert (Forall (λ n, handler n ≠ p) pre ∧ Forall (λ n, handler n ≠ p) post) as [Hpre Hpost].
  { rewrite <- !not_p_filter. apply (f_equal length) in Hself. rewrite length_app in Hself. cbn in Hself.
    split; apply nil_length_inv; lia. }
  apply Forall_app in Hoth as [Ho1 Ho2]. apply Forall_cons_1 in Ho2 as [_ Ho2].
  pose proof Hs as Hs'. apply sorted_app in Hs' as [[Hx Hs3] Hle]. cbn [expire] in Hx.
  rewrite Forall_forall in Ho1, Hpre, Ho2, Hpost, Hx.
  exists pre, post. split_and!; [done|done|done|apply Forall_forall..]; intros n Hn.
  - split; [by apply Hpre|]. destruct (Ho1 n Hn) as [?|(_ & [?|?])]; [by destruct (Hpre n Hn)|done|].
    assert (expire n <= d) by (apply (Hle n (mkNode d (s32 E) p)); [by apply list_elem_of_In|by left]). lia.
  - specialize (Hx n Hn). destruct (Ho2 n Hn) as [?|(? & [?|?])]; [by destruct (Hpost n Hn)|lia|done].
Qed.

Lemma apart_not_p (Q : TimerNode (H:=H) → Prop) l : Forall (λ n, handler n ≠ p ∧ Q n) l → p ∉ map handler l.
Proof. intros Hf. apply not_p_handlers. revert Hf. apply Forall_impl. by intros n [? _]. Qed.

(** A list of other nodes, with or without the handler's own in its middle, keeps the
    invariant. *)
Lemma sched_around T E (pre post : list (TimerNode (H:=H))) :
  Timer.sorted (pre ++ mkNode d (s32 E) p :: post) →
  Forall (λ n, handler n ≠ p ∧ expire n < TIME_CLICK ∧ elapsed n = s32 T) pre →
  Forall (λ n, handler n ≠ p ∧ d < expire n) post →
  sched T (Some E) (mkTimers (pre ++ mkNode d (s32 E) p :: post) (s32 T)).
Proof.
  intros Hs Hp Hq. split; cbn [_timers _elapsed]; [done|done| |].
  - unfold pending. cbn [_timers]. rewrite list.filter_app, filter_cons, decide_True by done.
    rewrite (proj2 (not_p_filter pre)), (proj2 (not_p_filter post)); [done|revert Hq|revert Hp];
      apply Forall_impl; by intros n [? _].
  - apply Forall_app. split; [|constructor; [by left|]]; [revert Hp|revert Hq]; apply Forall_impl;
      intros n [? ?]; right; (split; [done|]); [by left|by right].
Qed.

Lemma sched_without T (post : list (TimerNode (H:=H))) :
  Timer.sorted post → Forall (λ n, handler n ≠ p ∧ d < expire n) post →
  sched T None (mkTimers post (s32 T)).
Proof.
  intros Hs Hq. split; cbn [_timers _elapsed]; [done|done| |].
  - unfold pending. cbn [_timers]. apply not_p_filter. revert Hq. apply Forall_impl. by intros n [? _].
  - revert Hq. apply Forall_impl. intros n [? ?]. right. split; [done|by right].
Qed.

(** One look at the list [tick] later: the handler is taken exactly once, when its delay
    has passed, and not before; the nodes in front of it never hold it back. *)
Lemma sched_check T E t tick :
  sched T (Some E) t → E <= T <= E + d → (tick = 0 ∨ TIME_CLICK <= tick <= B) →
  ∃ hs E' t', checkTimer tick t = (hs, t') ∧ sched (T + tick) E' t' ∧
    (((p ∉ hs) ∧ E' = Some E ∧ T + tick <= E + d) ∨ (∃ h1 h2, hs = h1 ++ p :: h2 ∧ (p ∉ h1) ∧ (p ∉ h2) ∧ E' = None)).
Proof.
  intros Hsch HE Ht. pose proof (sched_view T E t Hsch) as (pre & post & El & Hs & Hs3 & Hp1 & Hp2).
  destruct Hsch as [_ Hnow _ _]. unfold checkTimer. rewrite Hnow, swrap_add_l, El by lia.
  destruct (decide (Forall (λ n, is_due (s32 (T + tick)) n = true) pre)) as [Hall|Hnall].
  - assert (is_due (s32 (T + tick)) (mkNode d (s32 E) p) = (d <? T + tick - E)) as Hdue.
    { replace (T + tick) with (E + (T + tick - E)) at 1 by lia. rewrite is_due_at; [done|done|]. unfold TIME_CLICK in *. lia. }
    rewrite take_due_app by done. cbn [take_due]. rewrite Hdue. destruct (Z.ltb_spec d (T + tick - E)) as [Hf|Hf].
    + destruct (take_due_split (s32 (T + tick)) post) as (l & E1 & E2 & _).
      destruct (take_due (s32 (T + tick)) post) as [hs rest]. cbn [fst snd] in *. subst hs post.
      apply sorted_app in Hs3 as [Hs3 _]. apply Forall_app in Hp2 as [Hq Hp2].
      exists (map handler pre ++ p :: map handler l), None, (mkTimers rest (s32 (T + tick))).
      split; [done|]. split; [by apply sched_without|].
      right. exists (map handler pre), (map handler l). split_and!; [done|exact (apart_not_p _ _ Hp1)|exact (apart_not_p _ _ Hq)|done].
    + exists (map handler pre ++ []), (Some E), (mkTimers ([] ++ mkNode d (s32 E) p :: post) (s32 (T + tick))).
      split; [done|]. split; [apply sched_around; [by apply sorted_app in Hs as [? _]|done|done]|].
      left. split_and!; [|done|lia]. rewrite app_nil_r. exact (apart_not_p _ _ Hp1).
  - assert (tick = 0) as ->.
    { destruct Ht as [|Ht]; [done|]. exfalso. apply Hnall. revert Hp1. apply Forall_impl. intros n (_ & He & Hel).
      rewrite is_due_at; [apply Z.ltb_lt; lia|done|unfold TIME_CLICK in *; lia]. }
    rewrite Z.add_0_r in *. destruct (take_due_stuck _ _ post (mkNode d (s32 E) p) Hnall) as (l & pre' & -> & ->).
    apply Forall_app in Hp1 as [Hl Hp1]. rewrite <- app_assoc in Hs. apply sorted_app in Hs as [Hs _].
    exists (map handler l), (Some E), (mkTimers (pre' ++ mkNode d (s32 E) p :: post) (s32 T)).
    split; [done|]. split; [by apply sched_around|]. left. split_and!; [exact (apart_not_p _ _ Hl)|done|lia].
Qed.

(** *** The calls *)

Lemma keeps_loop_sched T E s s' :
  keeps_loop s s' → sched T E (lp_timers s) → sched T E (lp_timers s').
Proof. intros [(sets & Hf & ->) _] Hs. by apply sched_sets. Qed.

Lemma keeps_loop_refl s : keeps_loop s s.
Proof. split; [by exists []|done]. Qed.

Lemma keeps_loop_trans s1 s2 s3 : keeps_loop s1 s2 → keeps_loop s2 s3 → keeps_loop s1 s3.
Proof.
  intros [(x1 & F1 & E1) (A1 & B1 & C1)] [(x2 & F2 & E2) (A2 & B2 & C2)].
  split; [|split_and!; congruence]. exists (x1 ++ x2). split; [by apply Forall_app|].
  by rewrite fold_left_app, E2, E1.
Qed.

Lemma timeout_others hs s : p ∉ hs → ∃ s', timeout_events doEvent hs s = (Ok tt, s') ∧ keeps_loop s s'.
Proof.
  revert s. induction hs as [|h hs IH]; intros s Hn; [exists s; split; [done|apply keeps_loop_refl]|].
  apply not_elem_of_cons in Hn as [Hh Hn].
  destruct (pd_other Hper h EVENT_TIMEOUT s) as (s1 & E1 & K1); [left; congruence|].
  destruct (IH s1 Hn) as (s2 & E2 & K2). exists s2. cbn [timeout_events].
  split; [by erewrite bind_Ok by exact E1|by eapply keeps_loop_trans].
Qed.

Lemma timeout_app h1 h2 s s1 :
  timeout_events doEvent h1 s = (Ok tt, s1) → timeout_events doEvent (h1 ++ h2) s = timeout_events doEvent h2 s1.
Proof.
  revert s. induction h1 as [|h h1 IH]; intros s; cbn [timeout_events app]; [by intros [= <-]|].
  intros E. inv_bind E. destruct a. erewrite bind_Ok by exact Hrun. by apply IH.
Qed.

Lemma events_keep evs s : ∃ s', poll_events doEvent evs s = (Ok tt, s') ∧ keeps_loop s s'.
Proof.
  revert s. induction evs as [|[h ev] evs IH]; intros s; [exists s; split; [done|apply keeps_loop_refl]|].
  cbn [poll_events].
  assert (∀ (b : bool) x s, x ≠ EVENT_TIMEOUT → ∃ s', (if b then doEvent h x else mret tt) s = (Ok tt, s') ∧ keeps_loop s s') as Hstep.
  { intros b x s0 Hx. destruct b; [apply (pd_other Hper); by right|exists s0; split; [done|apply keeps_loop_refl]]. }
  destruct (Hstep (has ev (Z.lor EPOLLIN (Z.lor EPOLLERR EPOLLHUP))) EVENT_READ s) as (s1 & E1 & K1); [done|].
  destruct (Hstep (has ev EPOLLOUT) EVENT_WRITE s1) as (s2 & E2 & K2); [done|].
  destruct (IH s2) as (s3 & E3 & K3). exists s3. split.
  - erewrite bind_Ok by exact E1. by erewrite bind_Ok by exact E2.
  - eapply keeps_loop_trans; [exact K1|]. by eapply keeps_loop_trans.
Qed.

Lemma clicks_run n s :
  0 <= m_elapsed s → m_elapsed s + TIME_CLICK * Z.of_nat n < 2 ^ 31 →
  clicks n s = with_elapsed (m_elapsed s + TIME_CLICK * Z.of_nat n) s.
Proof.
  unfold TIME_CLICK. revert s. induction n as [|n IH]; intros s Hz Hn.
  - replace (m_elapsed s + 500 * Z.of_nat 0) with (m_elapsed s) by lia. by destruct s.
  - cbn [clicks]. unfold increase_elapsed, TIME_CLICK. rewrite swrap_small by (lia || (unfold in_s; lia)).
    rewrite IH by (cbn; lia). cbn. unfold with_elapsed. cbn. f_equal. lia.
Qed.

(** The state between two turns at time [T]: the handler has run often enough. *)
Record live (T0 T f0 : Z) (s : LS) : Prop := {
  lv_sched : ∃ E, sched T (Some E) (lp_timers s) ∧ E <= T <= E + d ∧
    T - T0 <= (Z.of_nat (fired (prog s)) - f0) * (d + B) + (T - E);
  lv_elapsed : m_elapsed s = 0;
  lv_running : _status s = kRunning;
}.

Lemma turn_live T0 T f0 w s :
  live T0 T f0 s → TIME_CLICK * Z.of_nat (w_clicks w) <= B →
  ∃ s', (poll doEvent w ;; checkTimeout doEvent ;; mret tt) s = (Ok tt, s') ∧
    live T0 (T + TIME_CLICK * Z.of_nat (w_clicks w)) f0 s'.
Proof.
  intros [(E & Hs & HE & Hc) He Hr] Hw. set (tick := TIME_CLICK * Z.of_nat (w_clicks w)) in *.
  assert (0 <= tick) as Ht0 by (unfold tick, TIME_CLICK; lia).
  assert (∃ s1, poll doEvent w s = (Ok (match w_ready w with None => -1 | Some l => Z.of_nat (length l) end), s1) ∧
    keeps_loop (with_elapsed tick s) s1) as (s1 & E1 & K1).
  { unfold poll. erewrite bind_Ok by reflexivity.
    rewrite (clicks_run (w_clicks w) s) by (fold tick; unfold TIME_CLICK in *; lia). rewrite He, Z.add_0_l. fold tick.
    destruct (w_ready w) as [evs|]; [|exists (with_elapsed tick s); split; [done|apply keeps_loop_refl]].
    destruct (events_keep evs (with_elapsed tick s)) as (s1 & E1 & K1). exists s1.
    split; [by erewrite bind_Ok by exact E1|done]. }
  pose proof (keeps_loop_sched T (Some E) _ _ K1 Hs) as Hs1. destruct K1 as [_ (Ke & Kr & Kf)]. cbn in Ke, Kr, Kf.
  destruct (sched_check T E (lp_timers s1) tick Hs1 HE) as (hs & E' & t' & Ech & Hs2 & Hcase).
  { unfold tick, TIME_CLICK in *. destruct (w_clicks w); [left; lia|right; lia]. }
  set (s2 := with_elapsed 0 (with_timers t' s1)).
  assert (∀ s3, timeout_events doEvent hs s2 = (Ok tt, s3) →
    (poll doEvent w ;; checkTimeout doEvent ;; mret tt) s = (Ok tt, s3)) as Hrun.
  { intros s3 E3. erewrite bind_Ok by exact E1. unfold checkTimeout. rewrite bind_assoc.
    erewrite bind_Ok by reflexivity. rewrite Ke, Ech.
    assert ((modify (with_timers t') ;; modify (with_elapsed 0) ;; timeout_events doEvent hs ;;
      mret (Z.of_nat (length hs))) s1 = (Ok (Z.of_nat (length hs)), s3)) as Ex.
    { erewrite bind_Ok by reflexivity. erewrite bind_Ok by reflexivity. by erewrite bind_Ok by exact E3. }
    by erewrite bind_Ok by exact Ex. }
  destruct Hcase as [(Hn & -> & Hle)|(h1 & h2 & -> & Hn1 & Hn2 & ->)].
  - destruct (timeout_others hs s2 Hn) as (s3 & E3 & K3). exists s3. split; [by apply Hrun|].
    pose proof (keeps_loop_sched _ _ _ _ K3 Hs2) as Hs3. destruct K3 as [_ (A3 & B3 & C3)]. cbn in A3, B3, C3.
    split; [|by rewrite A3|congruence]. exists E. split; [done|]. split; [lia|]. rewrite C3, Kf. lia.
  - destruct (timeout_others h1 s2 Hn1) as (s3 & E3 & K3).
    pose proof (keeps_loop_sched _ _ _ _ K3 Hs2) as Hs3. destruct K3 as [_ (A3 & B3 & C3)]. cbn in A3, B3, C3.
    destruct (pd_self Hper s3) as (s4 & E4 & T4 & A4 & B4 & C4).
    assert (sched (T + tick) (Some (T + tick)) (lp_timers s4)) as Hs4 by (rewrite T4; by apply sched_self).
    destruct (timeout_others h2 s4 Hn2) as (s5 & E5 & K5).
    pose proof (keeps_loop_sched _ _ _ _ K5 Hs4) as Hs5. destruct K5 as [_ (A5 & B5 & C5)]. cbn in A5, B5, C5.
    exists s5. split.
    + apply Hrun. rewrite (timeout_app _ _ _ _ E3). cbn [timeout_events]. by erewrite bind_Ok by exact E4.
    + split; [|congruence|congruence]. exists (T + tick). split; [done|]. unfold TIME_CLICK in Hd. split; [lia|].
      rewrite C5, C4, C3, Kf. rewrite Nat2Z.inj_succ. nia.
Qed.

Definition total_clicks (ws : list (Wait H)) : Z := TIME_CLICK * Z.of_nat (sum_list_with w_clicks ws).

Lemma run_live T0 T f0 ws s :
  live T0 T f0 s → Forall (λ w, TIME_CLICK * Z.of_nat (w_clicks w) <= B) ws →
  ∃ s', run_loop doEvent ws s = (Throw OutOfFuel, s') ∧ live T0 (T + total_clicks ws) f0 s'.
Proof.
  intros Hl Hws. revert T s Hl. induction Hws as [|w ws Hw Hws IH]; intros T s Hl.
  - exists s. split; [|by rewrite Z.add_0_r]. cbn [run_loop]. erewrite bind_Ok by reflexivity. unfold isRunning.
    by rewrite (lv_running _ _ _ _ Hl).
  - destruct (turn_live T0 T f0 w s Hl Hw) as (s1 & E1 & Hl1). destruct (IH _ s1 Hl1) as (s2 & E2 & Hl2).
    exists s2. split.
    + cbn [run_loop]. erewrite bind_Ok by reflexivity. unfold isRunning. rewrite (lv_running _ _ _ _ Hl).
      rewrite bool_decide_true by done. cbn [negb]. inv_bind E1. inv_bind E1. injection E1 as ->. erewrite bind_Ok by exact Hrun. by erewrite bind_Ok by exact Hrun0.
    + replace (T + total_clicks (w :: ws)) with (T + TIME_CLICK * Z.of_nat (w_clicks w) + total_clicks ws); [done|].
      unfold total_clicks. cbn [sum_list_with]. lia.
Qed.

(** C23: a timer that its handler sets again whenever it runs, as [TimerHandler] does, runs for
    ever, at least once in every [d + B] ms and across every wrap of the 32-bit clock, under
    these conditions, which are [periodic], [allowed] and the last hypothesis: nothing throws or
    stops the loop; the other handlers set timers for themselves alone, each of less than the
    click of 500 ms or of more than the period; no turn of the loop takes longer than [B].  A
    delay between the click and the period may hold it back for ever ([timer_starves]). *)
Theorem periodic_timer_fires T0 ws s :
  _status s = kRunning → m_elapsed s = 0 → sched T0 (Some T0) (lp_timers s) →
  Forall (λ w, TIME_CLICK * Z.of_nat (w_clicks w) <= B) ws →
  ∃ s', run_loop doEvent ws s = (Throw OutOfFuel, s') ∧
    total_clicks ws <= (Z.of_nat (fired (prog s')) - Z.of_nat (fired (prog s))) * (d + B) + d.
Proof.
  intros Hr He Hs Hws. unfold TIME_CLICK in Hd.
  destruct (run_live T0 T0 (Z.of_nat (fired (prog s))) ws s) as (s' & E & [(E0 & _ & Hb & Hc) _ _]); [|done|].
  - split; [|done|done]. exists T0. split; [done|]. lia.
  - exists s'. split; [done|]. lia.
Qed.

End liveness.

(** ** Witnesses *)

(** Handler 1 counts and sets its timer of 500 ms again; any other sets one of 10 ms when
    its own fires, as the connection managers do. *)
Definition wdoEvent (h : nat) (ev : Z) : M (LoopState nat nat) unit := modify (λ s,
  if bool_decide (ev = EVENT_TIMEOUT) then
    (if bool_decide (h = 1%nat) then
       mkLoop (lp_socks s) (_sockets s) (interest s) (Timer.addTimer 500 1%nat (lp_timers s)) (m_elapsed s) (_status s)
         (_substatus s) (S (prog s))
     else with_timers (Timer.addTimer 10 h (lp_timers s)) s)
  else s).

Lemma wdoEvent_periodic : periodic wdoEvent 1%nat 500 (λ n, n).
Proof.
  split.
  - intros h ev s Hh. unfold wdoEvent, modify. eexists. split; [reflexivity|].
    destruct (bool_decide_reflect (ev = EVENT_TIMEOUT)) as [->|]; [|apply keeps_loop_refl].
    destruct (bool_decide_reflect (h = 1%nat)) as [->|Hn]; [by destruct Hh|].
    split; [|done]. exists [(10, h)]. split; [|done]. constructor; [|constructor]. split; [done|by left].
  - intros s. eexists. split; [reflexivity|]. done.
Qed.

Definition wloop_state : LoopState nat nat :=
  with_status kRunning kSubStatusNull
    (with_timers (Timer.addTimer 500 1%nat (Timer.addTimer 10 0%nat new_TimerList)) (new_IOLoop 0%nat)).

Definition wwaits : list (Wait nat) :=
  [mkWait 1 None; mkWait 0 (Some [(7%nat, EPOLLIN)]); mkWait 2 (Some []); mkWait 1 None; mkWait 2 None].

Lemma wsched : sched 1%nat 500 0 (Some 0) (lp_timers wloop_state).
Proof.
  split; [vm_compute; repeat constructor; discriminate|reflexivity|reflexivity|].
  constructor; [|constructor; [by left|constructor]]. right. split; [done|]. left. split; reflexivity.
Qed.

Lemma periodic_timer_fires_witness :
  ∃ s', run_loop wdoEvent wwaits wloop_state = (Throw OutOfFuel, s') ∧
    3000 <= Z.of_nat (prog s') * 1500 + 500.
Proof.
  destruct (periodic_timer_fires wdoEvent 1%nat 500 (λ n, n) 1000 wdoEvent_periodic) with
    (T0 := 0) (ws := wwaits) (s := wloop_state) as (s' & E & Hb).
  - discriminate.
  - lia.
  - lia.
  - reflexivity.
  - reflexivity.
  - exact wsched.
  - repeat constructor; discriminate.
  - exists s'. split; [exact E|]. change (total_clicks wwaits) with 3000 in Hb. change (prog wloop_state) with 0%nat in Hb. lia.
Defined.

(** The condition on delays is needed: a timer of 1000 ms never runs while another handler
    sets one of 600 ms in every turn, as reads on connections do with theirs. *)
Definition wrival (h : nat) (ev : Z) : M (LoopState nat nat) unit := modify (λ s,
  if bool_decide (ev = EVENT_TIMEOUT) then
    (if bool_decide (h = 1%nat) then
       mkLoop (lp_socks s) (_sockets s) (interest s) (Timer.addTimer 1000 1%nat (lp_timers s)) (m_elapsed s) (_status s)
         (_substatus s) (S (prog s))
     else s)
  else with_timers (Timer.addTimer 600 h (lp_timers s)) s).
Example timer_starves :
  prog (run_loop wrival (repeat (mkWait 1 (Some [(2%nat, EPOLLIN)])) 40)
    (with_status kRunning kSubStatusNull (with_timers (Timer.addTimer 1000 1%nat new_TimerList) (new_IOLoop 0%nat)))).2 = 0%nat ∧
  prog (run_loop wrival (repeat (mkWait 1 (Some [])) 40)
    (with_status kRunning kSubStatusNull (with_timers (Timer.addTimer 1000 1%nat new_TimerList) (new_IOLoop 0%nat)))).2 = 13%nat.
Proof. by vm_compute. Qed.

Definition wsocket : Socket := mkSocket flags_reset 0 5.
Definition wreactor : LoopState nat unit :=
  (addEvent 3%nat 0 EVENT_RW (with_sockets {[ 3%nat := wsocket ]} ∅ ∅ (new_IOLoop tt))).2.

Lemma reactor_invariant_witness :
  3%nat ∈ _sockets wreactor ∧ ∃ fd ev, interest wreactor !! fd = Some (3%nat, ev).
Proof.
  destruct (reactor_invariant tt wreactor ∅) as [_ Hs].
  - eapply rtc_l; [apply (step_new 3%nat wsocket)|].
    + reflexivity.
    + reflexivity.
    + intros _ h' sk' E. exact (match lookup_empty_Some h' sk' E with end).
    + apply rtc_once. apply (step_add 3%nat 0 EVENT_RW); [done|].
      intros sk E _. vm_compute in E. injection E as <-. reflexivity.
  - destruct (Hs 3%nat) as (Hset & Htab & _); [apply not_elem_of_empty|].
    assert (Hin : 3%nat ∈ _sockets wreactor).
    { apply Hset. eexists. split; [vm_compute; reflexivity|reflexivity]. }
    split; [exact Hin|]. apply Htab. exact Hin.
Defined.

(** [removeEvent] forgets to clear [selevent]: the events a handler had are not registered
    again when it asks for them. *)
Example removed_events_stay_off :
  let s := (removeEvent 3%nat ;; addEvent 3%nat 0 EVENT_RW) wreactor in
  s.1 = Ok tt ∧ map_to_list (interest s.2) = [] ∧ (selevent ∘ m_sock_flags) <$> lp_socks s.2 !! 3%nat = Some EVENT_RW.
Proof. by vm_compute. Qed.

(** A [SignalHandler] that is deleted stays in [_sockets]; a handler built at its address is
    refused by [epoll_ctl] and never watched. *)
Example signal_handler_dangles :
  let s := (signal_addEvent 3%nat 0 EVENT_READ ;; signal_removeEvent 3%nat ;; delete_handler 3%nat)
             (with_sockets {[ 3%nat := wsocket ]} ∅ ∅ (new_IOLoop tt)) in
  let s' := addEvent 3%nat 0 EVENT_READ (with_sockets {[ 3%nat := wsocket ]} (_sockets s.2) (interest s.2) s.2) in
  s.1 = Ok tt ∧ size (lp_socks s.2) = 0%nat ∧ elements (_sockets s.2) = [3%nat] ∧
  s'.1 = Ok tt ∧ map_to_list (interest s'.2) = [].
Proof. by vm_compute. Qed.
