(* ===== verification/Server.v ===== *)
(** * Server.v: accepting connections

    [TcpAcceptor] ([core/xnet/TcpAcceptor.cpp]), [TcpServer]
    ([core/base/TcpServer.cpp]) and the worker side of the descriptor channel,
    [WorkerTcpServer] ([core/base/WorkerTcpServer.cpp]).  The listening socket is the
    [World] of Socket.v: what the kernel answers is a script, the calls made are a log.
    A worker's channel admits as a listening socket does ([worker_events_admit]).
    What happens to an accepted descriptor is the parameter [onAccept], a step of the
    program's state [S]. *)

From S2P Require Import Prelude ByteStream Socket WhiteList ConnMgr.
From Stdlib Require Import Lia.
Open Scope Z_scope.

Definition SOCKOPT_REUSE : Z := 1.
Definition SOCKOPT_NONBLOCK : Z := 2.
Definition SOCKOPT_NODELAY : Z := 4.
Definition SOCKOPT_LISTEN : Z := 8.
Definition SOCKOPT_DEFAULT : Z := 15.

Definition has_op (ops bit : Z) : bool := negb (Z.land ops bit =? 0).

(** [m] with the socket closed when it throws, as the destructor of a local [Socket] or of
    a base class does. *)
Definition or_close {A} (m : M World A) : M World A := λ w,
  match m w with
  | (Throw e, w') => (Close ;; throw e) w'
  | r => r
  end.

(** ** TcpAcceptor *)

Section acceptor.
Context (inet_addr : string → Z).

Definition acceptor_options (ops : Z) : M World unit :=
  (if has_op ops SOCKOPT_REUSE then setreuse else mret tt) ;;
  (if has_op ops SOCKOPT_NONBLOCK then setblocking false else mret tt) ;;
  (if has_op ops SOCKOPT_NODELAY then setnodelay else mret tt).

(** [TcpAcceptor(ip, port, ops)]: listens whatever [ops] says. *)
Definition TcpAcceptor_addr (ip : string) (port ops : Z) : M World unit := or_close (
  socket_create 1 2 ;; acceptor_options ops ;; bind_cstr inet_addr ip port ;; listen).

(** [TcpAcceptor(binded, ops)] *)
Definition TcpAcceptor_fd (binded ops : Z) : M World unit := or_close (
  attach binded ;; acceptor_options ops ;;
  (if has_op ops SOCKOPT_LISTEN then listen else mret tt)).

(** ** TcpServer *)

(** The listening socket [createAcceptor] makes; [detach] empties the local [Socket], and
    the acceptor is built on the descriptor. *)
Definition bound_socket (ip : string) (port : Z) : M World Z := or_close (
  socket_create 1 2 ;; setreuse ;; setblocking false ;; setnodelay ;; bind_cstr inet_addr ip port ;; detach).

(** [TcpServer::createAcceptor]: whether there is an acceptor; [ip] NULL is [None]. *)
Definition createAcceptor (ip : option string) (port : Z) : M World bool :=
  match ip with
  | None => mret false
  | Some ip =>
      if port =? 0 then mret false
      else
        try_catch (fd ← bound_socket ip port; TcpAcceptor_fd fd SOCKOPT_DEFAULT ;; mret true)
          (λ e, match e with SocketExn _ => Some (mret false) | _ => None end)
  end.

(** [TcpServer(int port)] and [setPort]: the member has 16 bits. *)
Definition TcpServer_port (port : Z) : Z := u16 port.

(** [TcpServer::start]; the acceptor asks for EVENT_READ with [addEvent]. *)
Definition TcpServer_start (listenPort : Z) (addEvent : M World unit) : M World unit :=
  ok ← createAcceptor (Some "0.0.0.0") listenPort;
  if ok : bool then addEvent else mret tt.

(** [TcpServerMaster::createAcceptor]: NULL is any address and the port is not tested. *)
Definition master_createAcceptor (ip : option string) (port : Z) : M World bool :=
  try_catch (fd ← bound_socket (default EmptyString ip) port; TcpAcceptor_fd fd SOCKOPT_DEFAULT ;; mret true)
    (λ e, match e with SocketExn _ => Some (mret false) | _ => None end).

End acceptor.

(** ** Accepting *)

Section accepting.
Context {S : Type} (onAccept : Z → Z → Z → M S unit).
Context (m_hosts_allow : option WhiteLst).

(** The acceptor beside the program. *)
Definition AState : Type := World * S.
Definition on_world {A} (m : M World A) : M AState A := λ s, let (r, w) := m s.1 in (r, (w, s.2)).
Definition on_app {A} (m : M S A) : M AState A := λ s, let (r, a) := m s.2 in (r, (s.1, a)).

Definition allowed_host (ip : Z) : bool :=
  match m_hosts_allow with None => true | Some w => WhiteList.find (u32 ip) w end.

(** The loop of [TcpAcceptor::doEvent] on EVENT_READ, at most [fuel] rounds of it. *)
Fixpoint accept_loop (fuel : nat) (ip port : Z) : M AState unit :=
  match fuel with
  | O => throw OutOfFuel
  | Datatypes.S fuel =>
      a ← on_world (accept ip port);
      let '(s, ip, port) := a in
      if s =? -1 then mret tt
      else
        ((if allowed_host ip then on_app (onAccept s (u32 ip) port)
          else (on_world (syscall (SysClose s)) ;; mret tt)) ;;
         accept_loop fuel ip port)
  end.

(** [TcpAcceptor::doEvent]; every round takes an answer of the kernel, and without one
    [accept] would block. *)
Definition acceptor_doEvent (ev : Z) : M AState unit :=
  try_catch
    (if ev =? EVENT_READ then (s ← get; accept_loop (Datatypes.S (Datatypes.S (length (script s.1)))) 0 0)
     else throw AssertFail)
    (λ e, if std_exception e then Some (mret tt) else None).

End accepting.

(** [StandaloneTcpAcceptor::onAccept] and [TcpServer::onAccept]: the manager of ConnMgr.v
    builds the connection; the port is narrowed on the way. *)
Definition server_onAccept (kernel : positive → list SysRes) (junk_time : Z) (nodelay : bool)
    (fd ip port : Z) : M Mgr unit :=
  createServerSideConn kernel junk_time nodelay fd (u32 ip) (u16 port) ;; mret tt.

(** ** The worker's end of the channel *)

(** What [recvmsg] gives: the result, [errno], and the descriptor passed, -1 for none. *)
Record RecvFd := mkRecvFd { rf_ret : Z; rf_errno : Z; rf_fd : Z }.
Definition ENOMEM : Z := 12.

Section worker_acceptor.
Context {S : Type} (onAccept : Z → Z → Z → M S unit).
(** [getpeername] of a descriptor: address and port as they are in memory. *)
Context (getpeername : Z → Z * Z).

(** [WorkerTcpAcceptor::onRecvFd]: [false] to try again, an exit when the channel broke. *)
Definition onRecvFd (r : RecvFd) : res (bool * Z) :=
  if rf_ret r <? 0 then
    (if (rf_errno r =? EINTR) || (rf_errno r =? EAGAIN) || (rf_errno r =? ENOMEM) then Ok (false, rf_fd r)
     else Throw (ProcessExit (-1)))
  else if rf_ret r =? 0 then Throw (ProcessExit 1)
  else Ok (true, rf_fd r).

(** [WorkerTcpAcceptor::doEvent] *)
Definition worker_doEvent (ev : Z) (r : RecvFd) : M S unit :=
  if ev =? EVENT_READ then
    (x ← lift_res (onRecvFd r);
     if x.1 : bool then let (ip, port) := getpeername x.2 in onAccept x.2 ip port else mret tt)
  else throw AssertFail.

(** The channel is readable once for each answer of [recvmsg]. *)
Fixpoint worker_events (rs : list RecvFd) : M S unit :=
  match rs with [] => mret tt | r :: rs => worker_doEvent EVENT_READ r ;; worker_events rs end.

End worker_acceptor.

(** [WorkerTcpAcceptor::onAccept] and [WorkerTcpServer::onAccept] *)
Definition worker_onAccept (kernel : positive → list SysRes) (junk_time : Z) (nodelay : bool)
    (fd ip port : Z) : M Mgr unit :=
  createServerSideConn kernel junk_time nodelay fd (u32 ip) port ;; mret tt.

(** [WorkerTcpAcceptor(server, fd)] *)
Definition WorkerTcpAcceptor_new (fd : Z) : M World unit := TcpAcceptor_fd fd SOCKOPT_NONBLOCK.

(** [WorkerTcpServer::start] over the channel's end the process was given; the acceptor is
    made and asks for EVENT_READ with [addEvent]. *)
Definition WorkerTcpServer_start (sockPairFd : Z) (addEvent : M World unit) : M World unit :=
  WorkerTcpAcceptor_new sockPairFd ;; addEvent.

(** ** The listening descriptor *)

Definition is_close (c : SysCall) : bool := match c with SysClose _ => true | _ => false end.

(** What [l] adds to the log, without a [close]. *)
Definition no_close (l : list SysCall) : Prop := Forall (λ c, is_close c = false) l.

(** An operation that keeps the descriptor, closes nothing and throws socket errors only. *)
Definition sock_op {A} (m : M World A) : Prop := ∀ w r w', m w = (r, w') →
  m_socket (sock w') = m_socket (sock w) ∧ (∃ l, calls w' = calls w ++ l ∧ no_close l) ∧
  match r with Ok _ => True | Throw e => ∃ en, e = SocketExn en end.

Lemma sock_op_bind {A B} (m : M World A) (f : A → M World B) :
  sock_op m → (∀ a, sock_op (f a)) → sock_op (m ≫= f).
Proof.
  intros Hm Hf w r w'. unfold mbind, M_bind. destruct (m w) as [[a|e] w1] eqn:E.
  - intros E2. destruct (Hm _ _ _ E) as (S1 & (l1 & C1 & N1) & _), (Hf a _ _ _ E2) as (S2 & (l2 & C2 & N2) & R2).
    split_and!; [congruence| |exact R2]. exists (l1 ++ l2). split; [by rewrite C2, C1, app_assoc|by apply Forall_app_2].
  - intros [= <- <-]. exact (Hm _ _ _ E).
Qed.

(** One that leaves the world but for the flags. *)
Lemma sock_op_pure {A} (m : M World A) :
  (∀ w, m_socket (sock (m w).2) = m_socket (sock w) ∧ calls (m w).2 = calls w ∧
        match (m w).1 with Ok _ => True | Throw e => ∃ en, e = SocketExn en end) → sock_op m.
Proof.
  intros H w r w' E. specialize (H w). rewrite E in H. cbn [fst snd] in H. destruct H as (H1 & H2 & H3).
  split_and!; [exact H1| |exact H3]. exists []. split; [by rewrite H2, app_nil_r|constructor].
Qed.
Lemma sock_op_ret {A} (a : A) : sock_op (mret a).
Proof. by apply sock_op_pure. Qed.
Lemma sock_op_throw {A} en : sock_op (throw (A:=A) (SocketExn en)).
Proof. apply sock_op_pure. intros w. split_and!; [done..|by eexists]. Qed.
Lemma sock_op_get : sock_op get_sock.
Proof. by apply sock_op_pure. Qed.
Lemma sock_op_flags f : sock_op (set_flags f).
Proof. by apply sock_op_pure. Qed.
Lemma sock_op_syscall c : is_close c = false → sock_op (syscall c).
Proof. intros Hc w r w' [= <- <-]. split_and!; [done| |done]. exists [c]. split; [done|by repeat constructor]. Qed.
Lemma sock_op_if {A} (b : bool) (m1 m2 : M World A) : sock_op m1 → sock_op m2 → sock_op (if b then m1 else m2).
Proof. by destruct b. Qed.

Create HintDb sock_ops.
#[local] Hint Resolve sock_op_ret sock_op_throw sock_op_get sock_op_flags : sock_ops.
#[local] Hint Extern 1 (sock_op (syscall _)) => apply sock_op_syscall; reflexivity : sock_ops.
Ltac sock_ops :=
  repeat (first [apply sock_op_bind; [|intros] | apply sock_op_if | solve [auto with sock_ops] | progress cbn zeta]).

Lemma sock_op_option opt v : sock_op (set_option opt v).
Proof. unfold set_option. sock_ops. Qed.
Lemma sock_op_blocking b : sock_op (setblocking b).
Proof. unfold setblocking. sock_ops. Qed.
Lemma sock_op_listen : sock_op listen.
Proof. unfold listen. sock_ops. Qed.
Lemma sock_op_bind_cstr inet_addr ip port : sock_op (bind_cstr inet_addr ip port).
Proof.
  unfold bind_cstr, bind_port. apply sock_op_bind; [|intros; sock_ops].
  apply sock_op_pure. intros w. unfold text_addr, lift_res.
  destruct (str_empty ip); [done|]. destruct (inet_addr ip =? Socket.INADDR_NONE); [|done].
  cbn. split_and!; [done|done|by eexists].
Qed.
#[local] Hint Resolve sock_op_option sock_op_blocking sock_op_listen sock_op_bind_cstr : sock_ops.
Lemma sock_op_options ops : sock_op (acceptor_options ops).
Proof. unfold acceptor_options, setreuse, setnodelay. sock_ops. Qed.
#[local] Hint Resolve sock_op_options : sock_ops.

Lemma close_run w :
  isValid (sock w) = true →
  ∃ w', Close w = (Ok tt, w') ∧ isValid (sock w') = false ∧ calls w' = calls w ++ [SysClose (m_socket (sock w))].
Proof. intros Hv. unfold Close. erewrite bind_Ok by reflexivity. rewrite Hv. eexists. split; [reflexivity|]. by split. Qed.

(** A socket operation on a descriptor, under the destructor that closes it: it ends with
    the descriptor held and nothing closed, or thrown with the descriptor closed. *)
Lemma or_close_op {A} (m : M World A) w r w' :
  sock_op m → isValid (sock w) = true → or_close m w = (r, w') →
  ∃ l, calls w' = calls w ++ l ∧
  match r with
  | Ok _ => m_socket (sock w') = m_socket (sock w) ∧ no_close l
  | Throw e => (∃ en, e = SocketExn en) ∧ isValid (sock w') = false ∧ SysClose (m_socket (sock w)) ∈ l
  end.
Proof.
  intros Hm Hv. unfold or_close. destruct (m w) as [[a|e] w1] eqn:E.
  - intros [= <- <-]. destruct (Hm _ _ _ E) as (S1 & (l & C & N) & _). by exists l.
  - destruct (Hm _ _ _ E) as (S1 & (l & C & N) & He). unfold isValid in Hv.
    destruct (close_run w1) as (w2 & E2 & V2 & C2); [unfold isValid; by rewrite S1|].
    erewrite bind_Ok by exact E2. intros [= <- <-]. exists (l ++ [SysClose (m_socket (sock w1))]).
    split; [by rewrite C2, C, app_assoc|]. split_and!; [exact He|exact V2|]. rewrite S1. set_solver.
Qed.

Lemma attach_run fd w :
  isValid (sock w) = false →
  ∃ w', attach fd w = (Ok tt, w') ∧ m_socket (sock w') = fd ∧ calls w' = calls w.
Proof. intros Hv. unfold attach. erewrite bind_Ok by reflexivity. rewrite Hv. eexists. split; [reflexivity|]. by split. Qed.

(** The first answer of the kernel, the descriptor [socket] returns. *)
Definition fd_of (w : World) : Z := sr_ret (hd res_block (script w)).

Lemma socket_create_run type domain w :
  ∃ w1 l, calls w1 = calls w ++ l ∧ no_close l ∧ m_socket (sock w1) = fd_of w ∧
  socket_create type domain w =
    (if fd_of w =? -1 then Throw (SocketExn (sr_errno (hd res_block (script w)))) else Ok tt, w1).
Proof.
  unfold socket_create. erewrite bind_Ok by reflexivity. erewrite bind_Ok by reflexivity. fold (fd_of w).
  destruct (fd_of w =? -1).
  - eexists _, [SysSocket domain type]. split_and!; [|by repeat constructor| |reflexivity]; reflexivity.
  - eexists _, [SysSocket domain type; SysFcntlCloexec (fd_of w)].
    split_and!; [| | |reflexivity]; [|by repeat constructor|reflexivity].
    cbn. by rewrite <- app_assoc.
Qed.

(** A computation that keeps the descriptor until a last [detach]. *)
Definition ends_detached (m : M World Z) : Prop := ∀ w r w',
  m w = (r, w') → ∃ l, calls w' = calls w ++ l ∧ no_close l ∧
  match r with
  | Ok fd => fd = m_socket (sock w) ∧ isValid (sock w') = false
  | Throw e => (∃ en, e = SocketExn en) ∧ m_socket (sock w') = m_socket (sock w)
  end.

Lemma ends_detached_bind {A} (m : M World A) (f : A → M World Z) :
  sock_op m → (∀ a, ends_detached (f a)) → ends_detached (m ≫= f).
Proof.
  intros Hm Hf w r w'. unfold mbind, M_bind. destruct (m w) as [[a|e] w1] eqn:E.
  - intros E2. destruct (Hm _ _ _ E) as (S1 & (l1 & C1 & N1) & _), (Hf a _ _ _ E2) as (l2 & C2 & N2 & R2).
    exists (l1 ++ l2). rewrite <- S1. split_and!; [by rewrite C2, C1, app_assoc|by apply Forall_app_2|exact R2].
  - intros [= <- <-]. destruct (Hm _ _ _ E) as (S1 & (l1 & C1 & N1) & He). exists l1. by split_and!.
Qed.
Lemma ends_detached_detach : ends_detached detach.
Proof. intros w r w' [= <- <-]. exists []. split_and!; [by rewrite app_nil_r|constructor|reflexivity..]. Qed.

(** Every way through the making of the bound socket. *)
Lemma bound_socket_cases inet_addr ip port w r w' :
  fd_of w ≠ -1 → bound_socket inet_addr ip port w = (r, w') →
  isValid (sock w') = false ∧ ∃ l, calls w' = calls w ++ l ∧
  match r with
  | Ok fd => fd = fd_of w ∧ no_close l
  | Throw e => (∃ en, e = SocketExn en) ∧ SysClose (fd_of w) ∈ l
  end.
Proof.
  intros Hf. apply Z.eqb_neq in Hf as Hf'. unfold bound_socket, or_close.
  destruct (socket_create_run 1 2 w) as (w1 & l1 & C1 & N1 & S1 & E1). rewrite Hf' in E1.
  erewrite bind_Ok by exact E1.
  assert (D : ends_detached (setreuse ;; setblocking false ;; setnodelay ;; bind_cstr inet_addr ip port ;; detach)).
  { unfold setreuse, setnodelay.
    repeat (apply ends_detached_bind; [auto with sock_ops|intros _]). exact ends_detached_detach. }
  match type of D with ends_detached ?m => destruct (m w1) as [[fd|e] w2] eqn:E end;
    destruct (D _ _ _ E) as (l2 & C2 & N2 & R).
  - intros [= <- <-]. destruct R as [R1 R2]. split; [exact R2|]. exists (l1 ++ l2).
    split_and!; [by rewrite C2, C1, app_assoc|by rewrite R1|by apply Forall_app_2].
  - destruct R as [R1 R2]. rewrite S1 in R2.
    destruct (close_run w2) as (w3 & E3 & V3 & C3); [unfold isValid, INVALID_SOCK; by rewrite R2, Hf'|].
    erewrite bind_Ok by exact E3. intros [= <- <-]. split; [exact V3|]. exists (l1 ++ l2 ++ [SysClose (fd_of w)]).
    split_and!; [by rewrite C3, C2, C1, R2, <- !app_assoc|exact R1|set_solver].
Qed.

(** The acceptor built on a descriptor closes it when its constructor throws. *)
Lemma TcpAcceptor_fd_cases fd ops w r w' :
  isValid (sock w) = false → fd ≠ -1 → TcpAcceptor_fd fd ops w = (r, w') →
  ∃ l, calls w' = calls w ++ l ∧
  match r with
  | Ok _ => m_socket (sock w') = fd ∧ no_close l
  | Throw e => (∃ en, e = SocketExn en) ∧ isValid (sock w') = false ∧ SysClose fd ∈ l
  end.
Proof.
  intros Hv Hf E. apply Z.eqb_neq in Hf. unfold TcpAcceptor_fd, or_close in E.
  destruct (attach_run fd w Hv) as (w1 & E1 & S1 & C1).
  erewrite bind_Ok in E by exact E1. rewrite <- C1, <- S1.
  eapply or_close_op; [|unfold isValid, INVALID_SOCK; by rewrite S1, Hf|exact E]. sock_ops.
Qed.

(** C31: [createAcceptor] neither loses nor doubles a descriptor: once [socket()] gave one, it
    either ends with a listening socket that holds that descriptor and has closed nothing,
    or answers NULL holding none, with the descriptor closed, whatever the kernel
    refuses on the way (an option, the address, [bind], [listen]). *)
Theorem createAcceptor_keeps_or_closes inet_addr ip port w r w' :
  isValid (sock w) = false → fd_of w ≠ -1 → port ≠ 0 →
  createAcceptor inet_addr (Some ip) port w = (r, w') →
  ∃ l, calls w' = calls w ++ l ∧
  ((r = Ok true ∧ m_socket (sock w') = fd_of w ∧ no_close l) ∨
   (r = Ok false ∧ isValid (sock w') = false ∧ SysClose (fd_of w) ∈ l)).
Proof.
  intros Hv Hf Hp. unfold createAcceptor. apply Z.eqb_neq in Hp as ->. unfold try_catch.
  destruct (bound_socket inet_addr ip port w) as [[fd|e] w1] eqn:E;
    destruct (bound_socket_cases _ _ _ _ _ _ Hf E) as (V1 & l1 & C1 & R1).
  - destruct R1 as [-> N1]. erewrite bind_Ok by exact E.
    destruct (TcpAcceptor_fd (fd_of w) SOCKOPT_DEFAULT w1) as [[u|e] w2] eqn:E2;
      destruct (TcpAcceptor_fd_cases _ _ _ _ _ V1 Hf E2) as (l2 & C2 & R2).
    + erewrite bind_Ok by exact E2. intros [= <- <-]. exists (l1 ++ l2). split; [by rewrite C2, C1, app_assoc|].
      left. destruct R2. split_and!; [done..|by apply Forall_app_2].
    + erewrite bind_Throw by exact E2. destruct R2 as ([en ->] & V2 & N2). intros [= <- <-].
      exists (l1 ++ l2). split; [by rewrite C2, C1, app_assoc|]. right. split_and!; [done..|set_solver].
  - erewrite bind_Throw by exact E. destruct R1 as ([en ->] & N1). intros [= <- <-].
    exists l1. split; [exact C1|]. right. by split_and!.
Qed.

(** [socket], close-on-exec, three options (the flags twice for [setblocking]), then a
    [bind] the kernel refuses. *)
Definition bind_refused : World :=
  mkWorld (Socket_new 0) [] [mkRes 7 0 0 0 []; mkRes 0 0 0 0 []; mkRes 0 0 0 0 []; mkRes 2 0 0 0 []; mkRes 0 0 0 0 [];
         mkRes 0 0 0 0 []; mkRes (-1) 98 0 0 []] [].

Lemma createAcceptor_keeps_or_closes_witness :
  ∃ l, calls (createAcceptor (λ _, 0) (Some "0.0.0.0") 6379 bind_refused).2 = [] ++ l ∧
  SysClose 7 ∈ l.
Proof.
  set (w := bind_refused).
  destruct (createAcceptor (λ _, 0) (Some "0.0.0.0"%string) 6379 w) as [r w'] eqn:E.
  assert (D : isValid (sock w) = false ∧ fd_of w ≠ -1 ∧ 6379 ≠ 0) by (split_and!; [reflexivity|vm_compute; lia|lia]).
  destruct D as (D1 & D2 & D3).
  destruct (createAcceptor_keeps_or_closes (λ _, 0) "0.0.0.0" 6379 w r w' D1 D2 D3 E) as (l & C & [(R & _ & _)|(R & _ & N)]).
  - exfalso. subst r. vm_compute in E. discriminate.
  - exists l. exact (conj C N).
Defined.

(** ** The accept loop *)

(** A peer in the backlog: the descriptor it will get, its address and its port in
    network order. *)
Record Pending := mkPending { p_fd : Z; p_ip : Z; p_port : Z }.

Section backlog.
Context {S : Type} (onAccept : Z → Z → Z → M S unit) (hosts : option WhiteLst).

(** The kernel's answers for a peer: the accept and, if it is denied, the close. *)
Definition answers_of (r : SysRes) (p : Pending) : list SysRes :=
  mkRes (p_fd p) 0 (p_ip p) (p_port p) [] :: if allowed_host hosts (p_ip p) then [] else [r].

(** The calls the acceptor makes for it on the listening descriptor [fd]. *)
Definition calls_of (fd : Z) (p : Pending) : list SysCall :=
  SysAccept fd :: if allowed_host hosts (p_ip p) then [] else [SysClose (p_fd p)].

(** The program's part: the allowed peers, in order. *)
Fixpoint admit_all (ps : list Pending) : M S unit :=
  match ps with
  | [] => mret tt
  | p :: ps => (if allowed_host hosts (p_ip p) then onAccept (p_fd p) (p_ip p) (XHTONS (p_port p)) else mret tt) ;; admit_all ps
  end.

Definition pending_ok (p : Pending) : Prop := p_fd p ≠ -1 ∧ in_u 32 (p_ip p).

(** The acceptor's world after the calls [l] that used up the answers [a]. *)
Definition advance (l : list SysCall) (a : list SysRes) (w : World) : World :=
  mkWorld (sock w) (calls w ++ l) (drop (length a) (script w)) (wire_out w).

Lemma advance_nil w : advance [] [] w = w.
Proof. destruct w. unfold advance. cbn. by rewrite app_nil_r, drop_0. Qed.
Lemma advance_advance l1 a1 l2 a2 w : advance l2 a2 (advance l1 a1 w) = advance (l1 ++ l2) (a1 ++ a2) w.
Proof. unfold advance. cbn. by rewrite <- app_assoc, drop_drop, length_app. Qed.
Lemma advance_script l a w rest : script w = a ++ rest → script (advance l a w) = rest.
Proof. cbn. intros ->. apply drop_app_length. Qed.

Lemma syscall_advance c x rest w : script w = x :: rest → syscall c w = (Ok x, advance [c] [x] w).
Proof. intros E. unfold syscall, advance. by rewrite E. Qed.

(** One round of the loop, on a peer. *)
Lemma accept_loop_peer fuel ip port p r rest w s :
  pending_ok p → script w = answers_of r p ++ rest →
  accept_loop onAccept hosts (Datatypes.S fuel) ip port (w, s) =
  (on_app (if allowed_host hosts (p_ip p) then onAccept (p_fd p) (p_ip p) (XHTONS (p_port p)) else mret tt) ;;
   accept_loop onAccept hosts fuel (p_ip p) (XHTONS (p_port p)))
  (advance (calls_of (m_socket (sock w)) p) (answers_of r p) w, s).
Proof.
  intros [Hfd Hip] Hs. apply Z.eqb_neq in Hfd. cbn [accept_loop].
  assert (E : accept ip port w =
    (Ok (p_fd p, p_ip p, XHTONS (p_port p)), advance [SysAccept (m_socket (sock w))] [hd r (answers_of r p)] w)).
  { unfold accept. erewrite bind_Ok by reflexivity. erewrite bind_Ok by (eapply syscall_advance; exact Hs).
    cbn. by rewrite Hfd. }
  erewrite bind_Ok by (unfold on_world; cbn [fst snd]; by rewrite E). cbn [fst snd]. rewrite Hfd.
  rewrite (uwrap_small 32 (p_ip p)) by exact Hip.
  unfold answers_of, calls_of in *. destruct (allowed_host hosts (p_ip p)); [reflexivity|].
  rewrite bind_assoc. erewrite bind_Ok.
  2:{ unfold on_world. cbn [fst snd]. erewrite (syscall_advance _ r rest); [reflexivity|].
      apply advance_script. exact Hs. }
  cbn [fst snd hd]. rewrite advance_advance. reflexivity.
Qed.

(** The loop over a backlog, when the program takes every peer it is given. *)
Lemma accept_loop_backlog ps : ∀ fuel ip port r x rest w s s',
  Forall pending_ok ps → (length ps < fuel)%nat →
  sr_ret x = -1 → isIgnoreAcceptError (sr_errno x) = true →
  script w = flat_map (answers_of r) ps ++ x :: rest →
  admit_all ps s = (Ok tt, s') →
  accept_loop onAccept hosts fuel ip port (w, s) =
  (Ok tt, (advance (flat_map (calls_of (m_socket (sock w))) ps ++ [SysAccept (m_socket (sock w))])
             (flat_map (answers_of r) ps ++ [x]) w, s')).
Proof.
  induction ps as [|p ps IH]; intros [|fuel] ip port r x rest w s s' Hok Hf Hx1 Hx2 Hs Ha;
    [cbn in Hf; lia| |cbn in Hf; lia|].
  - injection Ha as <-. cbn [accept_loop].
    assert (E : accept ip port w = (Ok (-1, ip, port), advance [SysAccept (m_socket (sock w))] [x] w)).
    { unfold accept. erewrite bind_Ok by reflexivity. erewrite bind_Ok by (eapply syscall_advance; exact Hs).
      rewrite Hx1, Hx2. reflexivity. }
    erewrite bind_Ok by (unfold on_world; cbn [fst snd]; by rewrite E). reflexivity.
  - inversion_clear Hok as [|? ? Hp Hps]. cbn [flat_map] in Hs. rewrite <- app_assoc in Hs.
    rewrite (accept_loop_peer _ _ _ _ _ _ _ _ Hp Hs). cbn [admit_all] in Ha.
    apply bind_inv_Ok in Ha as ([] & s1 & E1 & Ha).
    erewrite bind_Ok by (unfold on_app; cbn [fst snd]; rewrite E1; reflexivity). cbn [fst snd].
    erewrite IH; [|exact Hps|cbn in Hf; lia|exact Hx1|exact Hx2|eapply advance_script; exact Hs|exact Ha].
    rewrite advance_advance. cbn [flat_map]. rewrite <- !app_assoc. reflexivity.
Qed.

Lemma answers_length r ps : (length ps <= length (flat_map (answers_of r) ps))%nat.
Proof. induction ps as [|p ps IH]; [done|]. cbn. rewrite length_app. lia. Qed.

Lemma acceptor_backlog ps r x rest w s s' :
  Forall pending_ok ps → sr_ret x = -1 → isIgnoreAcceptError (sr_errno x) = true →
  script w = flat_map (answers_of r) ps ++ x :: rest → admit_all ps s = (Ok tt, s') →
  acceptor_doEvent onAccept hosts EVENT_READ (w, s) =
    (Ok tt, (advance (flat_map (calls_of (m_socket (sock w))) ps ++ [SysAccept (m_socket (sock w))])
               (flat_map (answers_of r) ps ++ [x]) w, s')).
Proof.
  intros Hok Hx1 Hx2 Hs Ha. unfold acceptor_doEvent, try_catch. rewrite Z.eqb_refl. erewrite bind_Ok by reflexivity. cbn [fst].
  erewrite accept_loop_backlog; [reflexivity|exact Hok| |exact Hx1|exact Hx2|exact Hs|exact Ha].
  rewrite Hs, length_app. pose proof (answers_length r ps). cbn. lia.
Qed.

(** C30: on a readable listening socket with the peers [ps] in its backlog, the acceptor hands
    exactly the peers of the white list to [onAccept], in the order they came and each with
    its descriptor, address and host-order port; it closes the descriptor of every other
    peer, closes no other, and stops at the answer that says the backlog is empty. *)
Theorem acceptor_admits_allowed ps r x rest w s s' :
  Forall pending_ok ps → sr_ret x = -1 → isIgnoreAcceptError (sr_errno x) = true →
  script w = flat_map (answers_of r) ps ++ x :: rest →
  admit_all ps s = (Ok tt, s') →
  ∃ w', acceptor_doEvent onAccept hosts EVENT_READ (w, s) = (Ok tt, (w', s')) ∧
  sock w' = sock w ∧ script w' = rest ∧
  calls w' = calls w ++ flat_map (calls_of (m_socket (sock w))) ps ++ [SysAccept (m_socket (sock w))].
Proof.
  intros Hok Hx1 Hx2 Hs Ha. eexists. split; [by eapply acceptor_backlog|]. split_and!; [done| |done].
  eapply advance_script. rewrite Hs, <- app_assoc. reflexivity.
Qed.
End backlog.


(** ** A worker takes what its channel carries *)

Lemma admit_all_ext {S : Type} (f g : Z → Z → Z → M S unit) hosts ps :
  (∀ fd ip port s, f fd ip port s = g fd ip port s) → ∀ s, admit_all f hosts ps s = admit_all g hosts ps s.
Proof.
  intros Hfg. induction ps as [|p ps IH]; intros s; [done|]. cbn [admit_all]. unfold mbind, M_bind.
  destruct (allowed_host hosts (p_ip p)); [|apply IH]. rewrite Hfg. destruct (g _ _ _ s) as [[[]|e] s']; [apply IH|done].
Qed.

(** A descriptor, or an error after which the worker tries again. *)
Definition channel_ok (r : RecvFd) : Prop :=
  0 < rf_ret r ∨ (rf_ret r < 0 ∧ rf_errno r ∈ [EINTR; EAGAIN; ENOMEM]).

(** The peer behind it; the worker does not turn the port round. *)
Definition handed (getpeername : Z → Z * Z) (r : RecvFd) : Pending :=
  mkPending (rf_fd r) (getpeername (rf_fd r)).1 (XHTONS (getpeername (rf_fd r)).2).

(** A worker admits as an acceptor without a white list does, from peers whose ports are
    the other way round. *)
Lemma worker_events_admit {S : Type} (onAccept : Z → Z → Z → M S unit) getpeername rs :
  Forall channel_ok rs → (∀ fd, in_u 16 (getpeername fd).2) → ∀ s,
  worker_events onAccept getpeername rs s =
    admit_all onAccept None (handed getpeername <$> filter (λ r, 0 < rf_ret r) rs) s.
Proof.
  intros Hrs Hp. induction Hrs as [|r rs Hr _ IH]; intros s; [done|]. cbn [worker_events]. rewrite filter_cons.
  unfold worker_doEvent, onRecvFd. rewrite Z.eqb_refl. destruct Hr as [Hr|[Hr He]].
  - rewrite decide_True by done. destruct (Z.ltb_spec (rf_ret r) 0); [lia|]. destruct (Z.eqb_spec (rf_ret r) 0); [lia|].
    cbn [fmap list_fmap admit_all allowed_host handed p_fd p_ip p_port]. rewrite bind_assoc. erewrite bind_Ok by reflexivity.
    cbn [fst snd]. specialize (Hp (rf_fd r)). destruct (getpeername (rf_fd r)) as [ip port]. cbn [fst snd] in *.
    rewrite XHTONS_involutive by done. unfold mbind, M_bind. destruct (onAccept _ _ _ s) as [[[]|e] s']; [apply IH|done].
  - rewrite decide_False by lia. destruct (Z.ltb_spec (rf_ret r) 0); [|lia].
    assert ((rf_errno r =? EINTR) || (rf_errno r =? EAGAIN) || (rf_errno r =? ENOMEM) = true) as ->.
    { rewrite !elem_of_cons, elem_of_nil in He. destruct He as [->|[->|[->|[]]]]; reflexivity. }
    rewrite bind_assoc. erewrite bind_Ok by reflexivity. exact (IH s).
Qed.

Lemma worker_onAccept_server kernel junk_time nodelay fd ip port :
  worker_onAccept kernel junk_time nodelay fd ip port = server_onAccept kernel junk_time nodelay fd ip port.
Proof. unfold worker_onAccept, server_onAccept, createServerSideConn, new_server. by rewrite !uwrap_idemp. Qed.

(** Two peers on the descriptor 3, the second outside the white list; the program is the
    connection manager. *)
Definition wbacklog : list Pending := [mkPending 9 16777226 36895; mkPending 10 33554442 36895].
Definition wlistening : World :=
  mkWorld (mkSocket flags_reset 0 3) [] (flat_map (answers_of (Some {[16777226]}) (mkRes 0 0 0 0 [])) wbacklog ++ [res_block]) [].

Definition waccept : Z → Z → Z → M Mgr unit := server_onAccept (λ _, repeat (mkRes 0 0 0 0 []) 8) 0 true.

Lemma acceptor_admits_allowed_witness :
  ∃ w' s', acceptor_doEvent waccept (Some {[16777226]}) EVENT_READ (wlistening, new_Mgr) = (Ok tt, (w', s')) ∧
  calls w' = [SysAccept 3; SysAccept 3; SysClose 10; SysAccept 3] ∧ size (connMap s') = 1%nat.
Proof.
  destruct (acceptor_admits_allowed waccept (Some {[16777226]}) wbacklog (mkRes 0 0 0 0 []) res_block []
    wlistening new_Mgr (admit_all waccept (Some {[16777226]}) wbacklog new_Mgr).2) as (w' & E & _ & _ & C).
  - repeat constructor; try discriminate; vm_compute; intuition discriminate.
  - reflexivity.
  - reflexivity.
  - reflexivity.
  - vm_compute. reflexivity.
  - exists w'. eexists. split; [exact E|]. split; [rewrite C; vm_compute; reflexivity|vm_compute; reflexivity].
Defined.
