(* ===== verification/Workers.v ===== *)
(** * Workers.v: the master process and its workers

    [core/dispatcher/]: [Worker], [IWorkerManager] ([Worker.cpp]), [MasterConn] and
    [TcpServerMaster], with the [SignalHandler] of [core/xnet/] that tells the manager a
    child died.  The calls on processes and channels are answered by a script, as the
    socket's are in Socket.v, and logged; a program that leaves by [exit] or [exec] is an
    outcome of the monad.  A [Worker] object is never deleted and is reached by its place in
    [_workers]. *)

From S2P Require Import Prelude Cnum ByteStream Sender Socket Connection ConnMgr Server.
From Stdlib Require Import Lia.
From stdpp Require Import relations.
Open Scope Z_scope.

(** ** Calls on processes *)

Inductive PCall :=
  | PSocketpair
  | PSetCloexec (fd : Z)
  | PSetSndbuf (fd size : Z)
  | PFork
  | PClose (fd : Z)
  | PExecv (path : string) (argv : list string)
  | PKill (pid sig : Z)
  | PWaitpid
  | PSendFd (channel fd : Z)   (** [sendmsg] with the descriptor [fd] as its rights *)
  | PPeek (fd len : Z).        (** [recv] with [MSG_PEEK] *)

#[global] Instance PCall_eq_dec : EqDecision PCall.
Proof. solve_decision. Defined.

(** The result of a call; the two descriptors of [socketpair]; the bytes [recv] puts in its buffer. *)
Record PRes := mkPRes { p_ret : Z; p_pair : Z * Z; p_data : list byte }.

Inductive WorkerStatus := kStatusInit | kStatusOK | kStatusError | kStatusUnknown.

#[global] Instance WorkerStatus_eq_dec : EqDecision WorkerStatus.
Proof. solve_decision. Defined.

Record Worker := mkWorker {
  _id : Z; _channel : Z * Z; _pid : Z; _status : WorkerStatus; _exec : string; _conf : string;
}.

Record Master := mkMaster {
  _workers : list Worker;
  plog : list PCall;           (** oldest first *)
  pscript : list PRes;
}.

Definition p_none : PRes := mkPRes (-1) (-1, -1) [].

Definition pcall (c : PCall) : M Master PRes := λ m,
  (Ok (hd p_none (pscript m)), mkMaster (_workers m) (plog m ++ [c]) (tl (pscript m))).

(** ** Worker *)

(** A pointer to the [i]th worker; outside the vector it is no object. *)
Definition get_worker (i : nat) : M Master Worker := λ m,
  match _workers m !! i with Some w => (Ok w, m) | None => (Throw Undefined, m) end.
Definition set_worker (i : nat) (f : Worker → Worker) : M Master unit := λ m,
  (Ok tt, mkMaster (alter f i (_workers m)) (plog m) (pscript m)).

Definition with_status (s : WorkerStatus) (w : Worker) : Worker :=
  mkWorker (_id w) (_channel w) (_pid w) s (_exec w) (_conf w).
Definition with_pid (p : Z) (w : Worker) : Worker :=
  mkWorker (_id w) (_channel w) p (_status w) (_exec w) (_conf w).
Definition with_channel (c : Z * Z) (w : Worker) : Worker :=
  mkWorker (_id w) c (_pid w) (_status w) (_exec w) (_conf w).
Definition with_channel0 (fd : Z) (w : Worker) : Worker := with_channel (fd, (_channel w).2) w.
Definition with_channel1 (fd : Z) (w : Worker) : Worker := with_channel ((_channel w).1, fd) w.

(** [sprintf] into an array of [cap] bytes. *)
Definition sprintf (cap : Z) (s : string) : res string :=
  if ssize s + 1 <=? cap then Ok s else Throw Undefined.
(** [snprintf] *)
Definition snprintf (cap : nat) (s : string) : string := String.substring 0 (cap - 1) s.

(** [Worker::exec], in the child. *)
Definition exec (i : nat) : M Master Z :=
  w ← get_worker i;
  let param0 := snprintf 256 (_exec w) in
  paramName1 ← lift_res (sprintf 8 "-channel");
  paramValue1 ← lift_res (sprintf 32 (dec_string (_channel w).2));
  paramName2 ← lift_res (sprintf 8 "-id");
  paramValue2 ← lift_res (sprintf 32 (dec_string (_id w)));
  paramName3 ← lift_res (sprintf 128 "-conf");
  paramValue3 ← lift_res (sprintf 32 (_conf w));
  r ← pcall (PExecv param0 [param0; paramName1; paramValue1; paramName2; paramValue2; paramName3; paramValue3]);
  mret (p_ret r).

Definition close_channel0 (i : nat) : M Master unit :=
  w ← get_worker i; pcall (PClose (_channel w).1) ;; set_worker i (with_channel0 (-1)).
Definition close_channel1 (i : nat) : M Master unit :=
  w ← get_worker i; pcall (PClose (_channel w).2) ;; set_worker i (with_channel1 (-1)).

(** The branches of [start] after [fork]. *)
Definition after_fork (i : nat) (pid : Z) : M Master bool :=
  if pid =? 0 then (close_channel0 i ;; exec i ;; throw (ProcessExit (-1)))
  else if 0 <? pid then
    (set_worker i (with_status kStatusOK) ;; set_worker i (with_pid pid) ;; close_channel1 i ;; mret true)
  else
    (w ← get_worker i;
     pcall (PClose (_channel w).1) ;; pcall (PClose (_channel w).2) ;;
     set_worker i (with_channel (-1, -1)) ;;
     set_worker i (with_status kStatusUnknown) ;; mret false).

(** [Worker::start] *)
Definition start (i : nat) : M Master bool :=
  set_worker i (with_status kStatusInit) ;;
  r ← pcall PSocketpair;
  if p_ret r <? 0 then mret false
  else
    (set_worker i (with_channel (p_pair r)) ;;
     r1 ← pcall (PSetCloexec (p_pair r).1);
     if p_ret r1 =? -1 then mret false
     else
       (r2 ← pcall (PSetSndbuf (p_pair r).1 (Z.shiftl 256 10));
        if p_ret r2 =? -1 then mret false
        else (r3 ← pcall PFork; after_fork i (p_ret r3)))).

Definition SIGKILL : Z := 9.

(** [Worker::restart] *)
Definition restart (i : nat) : M Master bool :=
  w ← get_worker i;
  if bool_decide (_status w = kStatusInit) || bool_decide (_status w = kStatusUnknown) then mret false
  else
    (close_channel0 i ;;
     set_worker i (with_status kStatusUnknown) ;;
     set_worker i (with_pid (-1)) ;;
     pcall (PKill (_pid w) SIGKILL) ;;
     ok ← start i;
     if ok : bool then (set_worker i (with_status kStatusOK) ;; mret true) else mret false).

(** ** IWorkerManager *)

(** [Worker(id, exec, conf)]; [_channel] is not initialised. *)
Definition new_Worker (junk : Z * Z) (id : Z) (exec conf : string) : Worker :=
  mkWorker id junk (-1) kStatusInit exec conf.

Fixpoint start_from (junk : Z * Z) (exec conf : string) (i n : nat) : M Master unit :=
  match n with
  | O => mret tt
  | S n =>
      modify (λ m, mkMaster (_workers m ++ [new_Worker junk (Z.of_nat i) exec conf]) (plog m) (pscript m)) ;;
      start i ;;
      start_from junk exec conf (S i) n
  end.

(** [IWorkerManager::startWorker]; the number has 8 bits. *)
Definition startWorker (junk : Z * Z) (numWorker : Z) (exec conf : string) : M Master unit :=
  start_from junk exec conf 0 (Z.to_nat (uwrap 8 numWorker)).

(** [peekData]: byte [i] is shifted by [24 - 8 * i] as an [int]; a negative shift is undefined. *)
Fixpoint peek_sum (i : Z) (buf : list byte) (acc : Z) : res Z :=
  match buf with
  | [] => Ok acc
  | b :: buf =>
      if 24 - 8 * i <? 0 then Throw Undefined
      else peek_sum (i + 1) buf (u64 (acc + s32 (Z.shiftl (byte_val b) (24 - 8 * i))))
  end.

Definition peekData (fd len : Z) : M Master Z :=
  r ← pcall (PPeek fd len);
  if p_ret r =? 0 then mret (u64 (-1))
  else if negb (p_ret r =? len) then mret (u64 (-1))
  else lift_res (peek_sum 0 (p_data r) 0).

Definition peekUint32 (fd : Z) : M Master Z := v ← peekData fd 4; mret (u32 v).
Definition peekUint64 (fd : Z) : M Master Z := peekData fd 8.

(** [IWorkerManager::sendFd] *)
Definition sendFd (channel fd : Z) : M Master Z := r ← pcall (PSendFd channel fd); mret (p_ret r).

(** [IWorkerManager::dispatch]: the request is the connection on [fd]. *)
Definition dispatch (fd : Z) : M Master bool :=
  sessionId ← peekUint32 fd;
  if sessionId <? 0 then mret false
  else
    (m ← get;
     let n := Z.of_nat (length (_workers m)) in
     if n =? 0 then throw Undefined
     else
       (let i := Z.to_nat (s32 (sessionId mod n)) in
        w ← get_worker i;
        if bool_decide (_status w = kStatusOK) then
          (ret ← sendFd (_channel w).1 fd;
           if ret <=? 0 then (restart i ;; mret false) else mret true)
        else mret false)).

(** [IWorkerManager::findWorker] *)
Fixpoint findWorker (pid : Z) (i : nat) (ws : list Worker) : option nat :=
  match ws with
  | [] => None
  | w :: ws => if _pid w =? pid then Some i else findWorker pid (S i) ws
  end.

Fixpoint reap (loop : nat) : M Master unit :=
  match loop with
  | O => mret tt
  | S loop =>
      r ← pcall PWaitpid;
      if p_ret r <=? 0 then mret tt
      else
        (m ← get;
         match findWorker (p_ret r) 0 (_workers m) with
         | None => reap loop
         | Some i => set_worker i (with_status kStatusError) ;; restart i ;; reap loop
         end)
  end.

(** [IWorkerManager::onEmit]: three children at most for one signal, whatever the signal. *)
Definition onEmit (sig : Z) : M Master unit := reap 3.

(** ** MasterConn *)

(** [MasterConn::onRead] for the connection on [fd]: what it tells its event handler. *)
Definition master_onRead (fd : Z) : M Master (list Notice) :=
  try_catch
    (ok ← dispatch fd; mret (if ok : bool then [NClose] else [NInitiativeClose]))
    (λ e, match e with
          | SocketExn en => Some (mret (if (en =? EAGAIN) || (en =? EINTR) then [] else [NError 0]))
          | e => if std_exception e then Some (mret [NError 0]) else None
          end).

(** ** TcpServerMaster *)

(** The daemon: the connection manager beside the worker manager. *)
Definition DState : Type := Mgr * Master.
Definition on_mgr {A} (m : M Mgr A) : M DState A := λ s, let (r, a) := m s.1 in (r, (a, s.2)).
Definition on_master {A} (m : M Master A) : M DState A := λ s, let (r, b) := m s.2 in (r, (s.1, b)).

Record MasterConfig := mkMasterConfig {
  _enableIpFilter : bool; _ipWhiteList : gset Z; _listenPort : Z; _numWorker : Z;
  m_exec : string; m_confPath : string;
}.

(** [TcpServerMaster(port, numWorker, exec, workerConf)] and [setIPWhiteList] *)
Definition new_TcpServerMaster (port numWorker : Z) (exec workerConf : string) : MasterConfig :=
  mkMasterConfig false ∅ (u16 port) (uwrap 8 numWorker) exec workerConf.
Definition setIPWhiteList (ipSet : gset Z) (c : MasterConfig) : MasterConfig :=
  mkMasterConfig (_enableIpFilter c) ipSet (_listenPort c) (_numWorker c) (m_exec c) (m_confPath c).

Section daemon.
Context (kernel : positive → list SysRes) (junk_time : Z).

(** [MasterConn(fd, ip, port, ...)]: [m] with the connection taken down when it throws. *)
Definition new_MasterConn (fd ip port : Z) (nodelay : bool) : M Mgr positive :=
  p ← alloc kernel junk_time (u32 ip) (u16 port);
  or_cleanup (on_conn p (doAccept fd)) (destroy_handler p) ;;
  or_cleanup (on_conn p ((if nodelay then on_net setnodelay else mret tt) ;; on_net setCloseExec)) (delete_conn p) ;;
  mret p.

(** [ServerSideConnFactory<MasterConn>::createConnection]: unlike [ConnFactory] it sets no
    timeout. *)
Definition createMasterConn (fd ip port : Z) : M Mgr positive :=
  p ← new_MasterConn fd ip port true;
  onConnCreate p ;;
  on_conn p (Connection.addEvent 0 EVENT_READ) ;;
  mret p.

(** [TcpServerMaster::onAccept] *)
Definition master_onAccept (c : MasterConfig) (so ip port : Z) : M DState unit :=
  if _enableIpFilter c && (negb (bool_decide (_ipWhiteList c = ∅)) && negb (bool_decide (ip ∈ _ipWhiteList c)))
  then (on_master (pcall (PClose so)) ;; mret tt)
  else (on_mgr (createMasterConn so ip port) ;; mret tt).

(** [MasterConn::setTimeout] and [MasterConn::onTimeout] *)
Definition MasterConn_setTimeout (tm : Z) : M Conn unit := Connection.setTimeout tm.
Definition MasterConn_onTimeout : M Conn unit :=
  tag ← on_net clearRecvTag;
  if tag : bool then (c ← get; Connection.addTimer (_timeout c)) else notify NTimeout.

(** A readable connection of the daemon: [MasterConn::onRead], and the event handler, the
    connection manager. *)
Definition daemon_onRead (is_writer : bool) (p : positive) : M DState unit :=
  o ← on_mgr (deref p);
  ns ← on_master (master_onRead (m_socket (sock (net (co_conn o)))));
  on_mgr (handle_notices is_writer p ns).

(** [TcpServerMaster::start]: [acceptor] creates the acceptor and starts it. *)
Definition master_start (c : MasterConfig) (junk : Z * Z) (acceptor : M DState bool) : M DState unit :=
  if negb (_listenPort c =? 0) then
    (ok ← acceptor;
     if ok : bool then on_master (startWorker junk (_numWorker c) (m_exec c) (m_confPath c)) else mret tt)
  else on_master (startWorker junk (_numWorker c) (m_exec c) (m_confPath c)).
End daemon.

(** ** SignalHandler *)

Definition sizeof_siginfo : Z := 128.

(** [ssi_signo], the first member of the record at [offset] of the buffer. *)
Definition ssi_signo (offset : Z) (buf : list byte) : Z := le_value (take 4 (drop (Z.to_nat offset) buf)).

Section signals.
Context {S : Type} (emit : Z → M S unit).

(** The [do]-[while] loop of [doEvent]. *)
Fixpoint signal_loop (fuel : nat) (buf : list byte) (len offset : Z) : M S unit :=
  match fuel with
  | O => throw OutOfFuel
  | Datatypes.S fuel =>
      emit (s32 (ssi_signo offset buf)) ;;
      let offset := offset + sizeof_siginfo in
      if offset <? len then signal_loop fuel buf len offset else mret tt
  end.

(** [SignalHandler::doEvent]: [read] gives [len] bytes [data], -1 and none when it fails; the
    rest of the 2048 bytes of [buf] is what the stack held. *)
Definition signal_doEvent (stack : list byte) (event len : Z) (data : list byte) : M S unit :=
  try_catch
    (if event =? EVENT_READ then
       signal_loop 17 (data ++ drop (length data) stack) len 0
     else mret tt)
    (λ e, if std_exception e then Some (mret tt) else None).
End signals.

(** The handler itself, with what it asks of the event loop. *)
Inductive LoopCall := LAdd (remove add : Z) | LRemove.
Record SignalHandler := mkSH { _sigFd : Z; _sigMask : gset Z; sh_calls : list LoopCall }.

Definition new_SignalHandler : SignalHandler := mkSH (-1) ∅ [].
Definition addSig (sig : Z) (s : SignalHandler) : SignalHandler := mkSH (_sigFd s) ({[sig]} ∪ _sigMask s) (sh_calls s).
Definition sig_addEvent (remove add : Z) (s : SignalHandler) : SignalHandler :=
  if _sigFd s =? -1 then s
  else if negb (remove + add =? EVENT_NONE) then mkSH (_sigFd s) (_sigMask s) (sh_calls s ++ [LAdd remove add]) else s.

(** [SignalHandler::removeEvent], also the destructor: it asks only when there is no descriptor. *)
Definition sig_removeEvent (s : SignalHandler) : SignalHandler :=
  if _sigFd s =? -1 then mkSH (_sigFd s) (_sigMask s) (sh_calls s ++ [LRemove]) else s.

(** [SignalHandler::start], given what [sigprocmask] and [signalfd] return. *)
Definition sig_start (masked fd : Z) (s : SignalHandler) : bool * SignalHandler :=
  if masked =? -1 then (false, s)
  else
    let s := mkSH fd (_sigMask s) (sh_calls s) in
    if fd =? -1 then (false, s) else (true, sig_addEvent 0 EVENT_READ s).

(** [watch] keeps the watchers in a set; each is told of the signal in turn. *)
Fixpoint emit_all {S} (watchers : list (Z → M S unit)) (sig : Z) : M S unit :=
  match watchers with [] => mret tt | w :: ws => w sig ;; emit_all ws sig end.

(** ** Lemmas on one worker *)

(** The master with [w] as its [i]th worker, and after a call. *)
Definition put (i : nat) (w : Worker) (m : Master) : Master :=
  mkMaster (<[i := w]> (_workers m)) (plog m) (pscript m).
Definition called (c : PCall) (m : Master) : Master := mkMaster (_workers m) (plog m ++ [c]) (tl (pscript m)).
Definition answer_to (m : Master) : PRes := hd p_none (pscript m).

Lemma put_self i w m : _workers m !! i = Some w → put i w m = m.
Proof. intros H. unfold put. rewrite list_insert_id by exact H. by destruct m. Qed.

Section one_worker.
Context (i : nat).

Lemma pcall_put c w m : pcall c (put i w m) = (Ok (answer_to m), put i w (called c m)).
Proof. reflexivity. Qed.
Lemma get_put w m : (i < length (_workers m))%nat → get_worker i (put i w m) = (Ok w, put i w m).
Proof. intros H. unfold get_worker, put. cbn. by rewrite list_lookup_insert_eq. Qed.
Lemma set_put f w m : (i < length (_workers m))%nat → set_worker i f (put i w m) = (Ok tt, put i (f w) m).
Proof.
  intros H. unfold set_worker, put. cbn. do 2 f_equal. apply list_eq. intros j.
  destruct (decide (i = j)) as [<-|Hj].
  - by rewrite list_lookup_alter_eq, !list_lookup_insert_eq.
  - by rewrite list_lookup_alter_ne, !list_lookup_insert_ne.
Qed.

Lemma called_length c m : length (_workers (called c m)) = length (_workers m).
Proof. done. Qed.
End one_worker.

(** Runs the calls of a worker's method on [put i w m]. *)
Ltac run_worker :=
  repeat first
    [ erewrite bind_Ok by (apply get_put; rewrite ?called_length; assumption)
    | erewrite bind_Ok by (apply set_put; rewrite ?called_length; assumption)
    | erewrite bind_Ok by apply pcall_put
    | rewrite bind_assoc ].

(** What holds of a worker between two operations of the manager: it runs a process, or it
    is dead, with the status [start] gave up in. *)
Definition running (w : Worker) : Prop := _status w = kStatusOK ∧ 0 < _pid w ∧ (_channel w).2 = -1.
Definition dead (w : Worker) : Prop := (_status w = kStatusInit ∨ _status w = kStatusUnknown) ∧ _pid w = -1.
Definition worker_wf (w : Worker) : Prop := running w ∨ dead w.

Definition same_worker (w w' : Worker) : Prop := _id w' = _id w ∧ _exec w' = _exec w ∧ _conf w' = _conf w.

(** The child never gets to [execv]: the first option's name and its NUL do not fit. *)
Lemma exec_undefined i w m : (i < length (_workers m))%nat → exec i (put i w m) = (Throw Undefined, put i w m).
Proof. intros Hi. unfold exec. run_worker. reflexivity. Qed.

(** A child of [start]: [exec] is undefined. *)
Lemma after_fork_child i w m :
  (i < length (_workers m))%nat →
  after_fork i 0 (put i w m) = (Throw Undefined, put i (with_channel0 (-1) w) (called (PClose (_channel w).1) m)).
Proof.
  intros Hi. unfold after_fork, close_channel0. cbn [Z.eqb]. run_worker.
  erewrite bind_Throw by (apply exec_undefined; by rewrite called_length). reflexivity.
Qed.

(** What an operation on worker [i] may leave. *)
Definition worker_end (i : nat) (w : Worker) (m : Master) (r : res bool) (m' : Master) : Prop :=
  ∃ w' m1, m' = put i w' m1 ∧ _workers m1 = _workers m ∧ same_worker w w' ∧
  match r with Ok b => if b : bool then running w' else dead w' | Throw e => e = Undefined end.

Lemma worker_end_dead i w w' m m1 :
  _workers m1 = _workers m → same_worker w w' → dead w' → worker_end i w m (Ok false) (put i w' m1).
Proof. intros H1 H2 H3. by exists w', m1. Qed.

Lemma after_fork_cases i w pid m r m' :
  (i < length (_workers m))%nat → _pid w = -1 → after_fork i pid (put i w m) = (r, m') → worker_end i w m r m'.
Proof.
  intros Hi Hp. destruct (Z.eqb_spec pid 0) as [->|H0].
  { rewrite after_fork_child by exact Hi. intros [= <- <-]. eexists _, _. by split_and!. }
  unfold after_fork, close_channel1. apply Z.eqb_neq in H0 as ->.
  destruct (Z.ltb_spec 0 pid); run_worker; intros [= <- <-].
  - eexists _, _. by split_and!.
  - apply worker_end_dead; [done..|]. split; [by right|exact Hp].
Qed.

(** [start] on a worker without a process. *)
Lemma start_cases i w m r m' :
  (i < length (_workers m))%nat → _pid w = -1 → start i (put i w m) = (r, m') → worker_end i w m r m'.
Proof.
  intros Hi Hp. unfold start. run_worker. destruct (p_ret _ <? 0).
  { intros [= <- <-]. apply worker_end_dead; [done..|]. split; [by left|exact Hp]. }
  run_worker. destruct (p_ret _ =? -1).
  { intros [= <- <-]. apply worker_end_dead; [done..|]. split; [by left|exact Hp]. }
  run_worker. destruct (p_ret _ =? -1).
  { intros [= <- <-]. apply worker_end_dead; [done..|]. split; [by left|exact Hp]. }
  run_worker. intros E. apply after_fork_cases in E; [exact E|exact Hi|exact Hp].
Qed.

(** [restart]: a worker that is dead stays as it is, any other is started again. *)
Lemma restart_dead i w m :
  (i < length (_workers m))%nat → dead w → restart i (put i w m) = (Ok false, put i w m).
Proof. intros Hi [[Hs|Hs] _]; unfold restart; run_worker; by rewrite Hs. Qed.

Lemma restart_cases i w m r m' :
  (i < length (_workers m))%nat → _status w = kStatusOK ∨ _status w = kStatusError →
  restart i (put i w m) = (r, m') → worker_end i w m r m'.
Proof.
  intros Hi Hs. unfold restart, close_channel0. run_worker.
  rewrite (bool_decide_eq_false_2 (_status w = kStatusInit)), (bool_decide_eq_false_2 (_status w = kStatusUnknown))
    by (destruct Hs as [->| ->]; discriminate).
  cbn [orb]. run_worker.
  match goal with |- context [start i ≫= ?f] => set (k := f) end.
  match goal with |- (_ ≫= _) ?s = _ → _ => destruct (start i s) as [[b|e] m2] eqn:E end;
    [erewrite bind_Ok by exact E|erewrite bind_Throw by exact E];
    (apply start_cases in E; [|exact Hi|done]); destruct E as (w' & m1 & -> & Hm & Hw & R).
  - assert (Hi1 : (i < length (_workers m1))%nat) by (by rewrite Hm).
    destruct b; unfold k; run_worker; intros [= <- <-]; [|by apply worker_end_dead].
    eexists _, _. split_and!; [reflexivity|done|exact Hw|]. destruct R as (R1 & R2 & R3). by split_and!.
  - intros [= <- <-]. subst e. by exists w', m1.
Qed.

(** ** The manager's workers *)

Definition workers_wf (m : Master) : Prop := Forall worker_wf (_workers m).

Lemma workers_wf_lookup m i w : workers_wf m → _workers m !! i = Some w → worker_wf w.
Proof. intros H. by apply Forall_lookup_1. Qed.

(** The operations of the manager, with whatever the kernel answers. *)
Inductive master_step : Master → Master → Prop :=
  | ms_dispatch fd b m answers m' :
      dispatch fd (mkMaster (_workers m) (plog m) answers) = (Ok b, m') → master_step m m'
  | ms_emit sig m answers m' :
      onEmit sig (mkMaster (_workers m) (plog m) answers) = (Ok tt, m') → master_step m m'.

(** What an operation keeps: well-formed workers, and the dead ones as they are. *)
Definition keeps_workers {A} (op : M Master A) : Prop := ∀ m a m', workers_wf m → op m = (Ok a, m') →
  workers_wf m' ∧ length (_workers m') = length (_workers m) ∧
  ∀ i w, _workers m !! i = Some w → dead w → _workers m' !! i = Some w.

Lemma keeps_workers_bind {A B} (op : M Master A) (f : A → M Master B) :
  keeps_workers op → (∀ a, keeps_workers (f a)) → keeps_workers (op ≫= f).
Proof.
  intros Ho Hf m b m' Hm E. apply bind_inv_Ok in E as (a & m1 & E1 & E2).
  destruct (Ho _ _ _ Hm E1) as (W1 & L1 & D1), (Hf a _ _ _ W1 E2) as (W2 & L2 & D2).
  split_and!; [exact W2|congruence|]. intros i w H Hw. apply D2; [by apply D1|exact Hw].
Qed.
Lemma keeps_workers_id {A} (op : M Master A) : (∀ m, _workers (op m).2 = _workers m) → keeps_workers op.
Proof.
  intros H m a m' Hm E. specialize (H m). rewrite E in H. cbn in H. unfold workers_wf. rewrite H. by split_and!.
Qed.
Lemma keeps_workers_throw {A} e : keeps_workers (throw (A:=A) e).
Proof. by intros m a m' _ [=]. Qed.

(** [f] on worker [i], then its restart, for a worker that has a process. *)
Lemma put_keeps i w w' m m1 :
  _workers m !! i = Some w → running w → _workers m1 = _workers m → worker_wf w' → workers_wf m →
  workers_wf (put i w' m1) ∧ length (_workers (put i w' m1)) = length (_workers m) ∧
  ∀ j v, _workers m !! j = Some v → dead v → _workers (put i w' m1) !! j = Some v.
Proof.
  intros Hi Hr E Hw Hm. unfold workers_wf, put. cbn. rewrite E. split_and!.
  - by apply Forall_insert.
  - apply length_insert.
  - intros j v Hj [Hd _]. rewrite list_lookup_insert_ne; [exact Hj|]. intros ->.
    destruct Hr as [Hr _]. rewrite Hi in Hj. injection Hj as ->. destruct Hd; congruence.
Qed.

Lemma restart_keeps i f w m r m' :
  workers_wf m → _workers m !! i = Some w → running w → _status (f w) = kStatusOK ∨ _status (f w) = kStatusError →
  same_worker w (f w) → (set_worker i f ;; restart i) m = (Ok r, m') →
  workers_wf m' ∧ length (_workers m') = length (_workers m) ∧
  (∀ j v, _workers m !! j = Some v → dead v → _workers m' !! j = Some v).
Proof.
  intros Hm Hi Hr Hf _ E. assert (Hl : (i < length (_workers m))%nat) by (by eapply lookup_lt_Some).
  rewrite <- (put_self i w m Hi) in E. erewrite bind_Ok in E by (apply set_put; exact Hl).
  apply restart_cases in E; [|exact Hl|exact Hf]. destruct E as (w' & m1 & -> & E & _ & R).
  apply (put_keeps i w); [exact Hi|exact Hr|exact E| |exact Hm]. destruct r; [by left|by right].
Qed.

(** A process of the kernel is found at a worker that runs it. *)
Lemma findWorker_spec pid ws : ∀ k,
  match findWorker pid k ws with
  | Some i => ∃ j w, i = (k + j)%nat ∧ ws !! j = Some w ∧ _pid w = pid
  | None => Forall (λ w, _pid w ≠ pid) ws
  end.
Proof.
  induction ws as [|w ws IH]; intros k; cbn; [constructor|].
  destruct (Z.eqb_spec (_pid w) pid) as [E|E].
  - exists 0%nat, w. split_and!; [lia|reflexivity|exact E].
  - specialize (IH (S k)). destruct (findWorker pid (S k) ws).
    + destruct IH as (j & v & -> & H & Hp). exists (S j), v. split_and!; [lia|exact H|exact Hp].
    + by constructor.
Qed.

Lemma findWorker_running pid i m :
  workers_wf m → 0 < pid → findWorker pid 0 (_workers m) = Some i →
  ∃ w, _workers m !! i = Some w ∧ running w ∧ _pid w = pid.
Proof.
  intros Hm Hp E. pose proof (findWorker_spec pid (_workers m) 0) as H. rewrite E in H.
  destruct H as (j & w & -> & Hj & Hw). exists w. split; [exact Hj|]. split; [|exact Hw].
  destruct (workers_wf_lookup _ _ _ Hm Hj) as [|[_ Hd]]; [done|lia].
Qed.

Lemma reap_keeps n : keeps_workers (reap n).
Proof.
  induction n as [|n IH]; [by apply keeps_workers_id|]. intros m [] m' Hm. cbn [reap].
  erewrite bind_Ok by reflexivity. destruct (Z.leb_spec (p_ret (hd p_none (pscript m))) 0) as [|Hp].
  { intros [= <-]. by split_and!. }
  erewrite bind_Ok by reflexivity. cbn [_workers].
  destruct (findWorker _ 0 _) as [i|] eqn:F; [|intros E; exact (IH (called PWaitpid m) _ _ Hm E)].
  apply findWorker_running in F as (w & Hi & Hr & _); [|exact Hm|exact Hp].
  rewrite <- bind_assoc. intros E. apply bind_inv_Ok in E as (b & m1 & E1 & E2).
  apply (restart_keeps i _ w (called PWaitpid m)) in E1; [|exact Hm|exact Hi|exact Hr|by right|done].
  destruct E1 as (W1 & L1 & D1), (IH _ _ _ W1 E2) as (W2 & L2 & D2).
  split_and!; [exact W2|by rewrite L2|]. intros j v Hj Hv. apply D2; [|exact Hv]. by apply D1.
Qed.

(** ** Dispatching by session *)

Lemma u32_u64 a : u32 (u64 a) = u32 a.
Proof.
  unfold uwrap. change (2 ^ 64) with (2 ^ 32 * 2 ^ 32). rewrite Z.rem_mul_r by lia.
  rewrite Z.mul_comm, Z.mod_add by lia. by rewrite Z.mod_mod by lia.
Qed.
Lemma peek_add a x : u32 (u64 (a + s32 x)) = u32 (a + x).
Proof. rewrite u32_u64. unfold uwrap. by rewrite Zplus_mod, swrap_mod, <- Zplus_mod. Qed.
Lemma u32_add_l a b c : u32 a = u32 b → u32 (a + c) = u32 (b + c).
Proof. unfold uwrap. intros E. by rewrite Zplus_mod, E, <- Zplus_mod. Qed.

(** Four bytes are read as the number in network order. *)
Lemma peek_sum_be buf :
  length buf = 4%nat → ∃ v, peek_sum 0 buf 0 = Ok v ∧ u32 v = be_value buf.
Proof.
  intros H. destruct buf as [|b0 [|b1 [|b2 [|b3 [|]]]]]; try discriminate H.
  cbn [peek_sum]. change (24 - 8 * 0 <? 0) with false. change (24 - 8 * (0 + 1) <? 0) with false.
  change (24 - 8 * (0 + 1 + 1) <? 0) with false. change (24 - 8 * (0 + 1 + 1 + 1) <? 0) with false.
  cbn match. eexists. split; [reflexivity|]. rewrite peek_add.
  rewrite (u32_add_l _ (byte_val b0 * 2 ^ 24 + byte_val b1 * 2 ^ 16 + byte_val b2 * 2 ^ 8)).
  - unfold be_value. cbn [reverse rev_append le_value]. rewrite !Z.shiftl_mul_pow2 by lia.
    pose proof (byte_val_range b0). pose proof (byte_val_range b1). pose proof (byte_val_range b2).
    pose proof (byte_val_range b3). rewrite uwrap_small by (unfold in_u; lia). lia.
  - rewrite peek_add. rewrite !Z.shiftl_mul_pow2 by lia. apply u32_add_l. rewrite peek_add.
    apply u32_add_l. rewrite peek_add. reflexivity.
Qed.

(** The worker of a session. *)
Definition worker_of (session : Z) (m : Master) : nat := Z.to_nat (session mod Z.of_nat (length (_workers m))).

(** What [recv] answers when four bytes of the session's number are there to be read. *)
Definition peeks (session : Z) (r : PRes) : Prop := p_ret r = 4 ∧ p_data r = be_bytes 4 session.

Lemma peekUint32_run session fd m :
  in_u 32 session → peeks session (answer_to m) → peekUint32 fd m = (Ok session, called (PPeek fd 4) m).
Proof.
  intros Hs [Hr Hd]. unfold peekUint32, peekData. rewrite bind_assoc. erewrite bind_Ok by reflexivity.
  fold (answer_to m). rewrite Hr, Hd. cbn [Z.eqb Pos.eqb negb].
  destruct (peek_sum_be (be_bytes 4 session)) as (v & E & Hv); [apply length_be_bytes|].
  erewrite bind_Ok by (unfold lift_res; by rewrite E). unfold mret, M_ret. rewrite Hv, be_value_bytes.
  change (256 ^ Z.of_nat 4) with (2 ^ 32). unfold in_u in Hs. by rewrite Z.mod_small.
Qed.

Lemma peekUint32_range fd m v m' : peekUint32 fd m = (Ok v, m') → in_u 32 v ∧ m' = called (PPeek fd 4) m.
Proof.
  unfold peekUint32, peekData. rewrite bind_assoc. erewrite bind_Ok by reflexivity.
  destruct (_ =? 0); [intros [= <- <-]; split; [by apply uwrap_range|done]|].
  destruct (negb _); [intros [= <- <-]; split; [by apply uwrap_range|done]|].
  unfold lift_res. destruct (peek_sum _ _ _); [|intros [=]]. intros [= <- <-]. split; [by apply uwrap_range|done].
Qed.

(** [dispatch] once the session is known; the index fits an [int]. *)
Lemma dispatch_known fd session m :
  in_u 32 session → peeks session (answer_to m) → (0 < length (_workers m) < 256)%nat →
  ∃ w, _workers m !! worker_of session m = Some w ∧
  dispatch fd m =
    (if bool_decide (_status w = kStatusOK) then
       (ret ← sendFd (_channel w).1 fd;
        if ret <=? 0 then (restart (worker_of session m) ;; mret false) else mret true)
     else mret false) (called (PPeek fd 4) m).
Proof.
  intros Hs Hp [Hn1 Hn2]. pose proof (Z.mod_pos_bound session (Z.of_nat (length (_workers m))) ltac:(lia)) as Hb.
  destruct (lookup_lt_is_Some_2 (_workers m) (worker_of session m)) as [w Hw]; [unfold worker_of; lia|].
  exists w. split; [exact Hw|]. unfold dispatch. erewrite bind_Ok by (apply peekUint32_run; eassumption).
  destruct (Z.ltb_spec session 0) as [Hneg|_]; [unfold in_u in Hs; lia|].
  erewrite bind_Ok by reflexivity. cbn zeta. cbn [called _workers].
  destruct (Z.eqb_spec (Z.of_nat (length (_workers m))) 0) as [|_]; [lia|].
  rewrite swrap_small by (unfold in_s; change (2 ^ (32 - 1)) with 2147483648; lia).
  fold (worker_of session m). erewrite bind_Ok by (unfold get_worker; cbn; by rewrite Hw). reflexivity.
Qed.

Lemma dispatch_keeps fd : keeps_workers (dispatch fd).
Proof.
  unfold dispatch. intros m b m' Hm E. apply bind_inv_Ok in E as (v & m1 & E1 & E).
  apply peekUint32_range in E1 as [_ ->].
  assert (Hm1 : workers_wf (called (PPeek fd 4) m)) by exact Hm.
  destruct (v <? 0); [by injection E as <- <-|]. erewrite bind_Ok in E by reflexivity. cbn zeta in E.
  destruct (_ =? 0); [done|]. set (i := Z.to_nat _) in E. clearbody i.
  unfold mbind at 1, M_bind at 1, get_worker in E. cbn [called _workers] in E.
  destruct (_workers m !! i) as [w|] eqn:Hi; [|done].
  destruct (bool_decide_reflect (_status w = kStatusOK)) as [Hok|_]; [|by injection E as <- <-].
  unfold sendFd in E. rewrite bind_assoc in E. erewrite bind_Ok in E by reflexivity.
  unfold mbind at 1, M_bind at 1, mret at 1, M_ret at 1 in E. cbn match in E.
  destruct (_ <=? 0); [|by injection E as <- <-].
  apply bind_inv_Ok in E as (r & m1 & E1 & E). injection E as <- <-.
  set (m2 := called (PSendFd (_channel w).1 fd) (called (PPeek fd 4) m)).
  destruct (workers_wf_lookup _ _ _ Hm Hi) as [Hr|[[Hd|Hd] _]]; [|congruence..].
  apply (restart_keeps i id w m2 r m1); [exact Hm|exact Hi|exact Hr|by left|by split_and!|].
  erewrite bind_Ok; [exact E1|]. unfold set_worker. unfold m2. cbn. do 2 f_equal. by rewrite list_alter_id.
Qed.

Lemma master_step_keeps m m' :
  workers_wf m → master_step m m' →
  workers_wf m' ∧ length (_workers m') = length (_workers m) ∧
  ∀ i w, _workers m !! i = Some w → dead w → _workers m' !! i = Some w.
Proof.
  intros Hm S. destruct S as [fd b m answers m' E|sig m answers m' E].
  - exact (dispatch_keeps fd (mkMaster (_workers m) (plog m) answers) _ _ Hm E).
  - exact (reap_keeps 3 (mkMaster (_workers m) (plog m) answers) _ _ Hm E).
Qed.

Lemma master_steps_keep m m' :
  rtc master_step m m' → workers_wf m →
  workers_wf m' ∧ length (_workers m') = length (_workers m) ∧
  ∀ i w, _workers m !! i = Some w → dead w → _workers m' !! i = Some w.
Proof.
  induction 1 as [m|m1 m2 m3 S1 _ IH]; intros Hm; [by split_and!|].
  destruct (master_step_keeps _ _ Hm S1) as (W & L & D). destruct (IH W) as (W' & L' & D').
  split_and!; [exact W'|congruence|]. intros i w Hi Hw. apply D'; [by apply D|exact Hw].
Qed.

Lemma start_from_wf junk ex cf n : ∀ i m m',
  workers_wf m → length (_workers m) = i → start_from junk ex cf i n m = (Ok tt, m') →
  workers_wf m' ∧ length (_workers m') = (i + n)%nat.
Proof.
  induction n as [|n IH]; intros i m m' Hm Hl; cbn [start_from].
  { intros [= <-]. split; [exact Hm|lia]. }
  erewrite bind_Ok by reflexivity. set (w := new_Worker junk (Z.of_nat i) ex cf).
  set (m1 := mkMaster (_workers m ++ [w]) (plog m) (pscript m)).
  intros E. apply bind_inv_Ok in E as (b & m2 & E1 & E2).
  assert (Hi : _workers m1 !! i = Some w) by (cbn; rewrite lookup_app_r by lia; by rewrite Hl, Nat.sub_diag).
  rewrite <- (put_self i w m1 Hi) in E1.
  apply start_cases in E1; [|cbn; rewrite length_app; cbn; lia|reflexivity].
  destruct E1 as (w' & m3 & -> & E3 & _ & R).
  apply IH in E2; [destruct E2 as [W L]; split; [exact W|lia]| |].
  - unfold workers_wf, put. cbn. rewrite E3. cbn. rewrite insert_app_r_alt by lia.
    rewrite Hl, Nat.sub_diag. apply Forall_app_2; [exact Hm|]. constructor; [|constructor].
    destruct b; [by left|by right].
  - unfold put. cbn. rewrite length_insert, E3. cbn. rewrite length_app. cbn. lia.
Qed.

(** C24: from its start on, whatever requests and signals arrive and whatever the kernel
    answers, the manager keeps the number of workers it was asked for modulo 256, and
    between two operations every worker either runs a process (status OK, a process id,
    the worker's end of the channel closed here) or is dead (status Init or Unknown, no
    process): the status Error is never seen, and a status OK never stands without a process. *)
Theorem workers_invariant junk numWorker ex cf answers m m' :
  startWorker junk numWorker ex cf (mkMaster [] [] answers) = (Ok tt, m) → rtc master_step m m' →
  length (_workers m') = Z.to_nat (numWorker mod 256) ∧
  ∀ i w, _workers m' !! i = Some w → running w ∨ dead w.
Proof.
  intros E S. apply start_from_wf in E as [W L]; [|constructor|reflexivity].
  destruct (master_steps_keep _ _ S W) as (W' & L' & _). split; [by rewrite L', L|].
  intros i w Hi. exact (workers_wf_lookup _ _ _ W' Hi).
Qed.

(** C28: a worker whose start failed once is lost for good: after any further requests and
    signals it is unchanged, and every request of a session that falls to it is refused
    without an attempt to start it again. *)
Theorem dead_worker_refuses_forever m m' i w fd session answers :
  workers_wf m → (0 < length (_workers m) < 256)%nat → _workers m !! i = Some w → dead w →
  rtc master_step m m' → in_u 32 session → worker_of session m = i → peeks session (hd p_none answers) →
  dispatch fd (mkMaster (_workers m') (plog m') answers) =
  (Ok false, mkMaster (_workers m') (plog m' ++ [PPeek fd 4]) (tl answers)).
Proof.
  intros Hm Hn Hi Hd S Hs Hw Hp. destruct (master_steps_keep _ _ S Hm) as (_ & L & D).
  set (m1 := mkMaster (_workers m') (plog m') answers).
  destruct (dispatch_known fd session m1 Hs Hp) as (v & Hv & ->); [cbn; by rewrite L|].
  assert (E : worker_of session m1 = i) by (rewrite <- Hw; unfold worker_of; cbn; by rewrite L).
  rewrite E in Hv. cbn [m1 _workers] in Hv. rewrite (D _ _ Hi Hd) in Hv. injection Hv as <-.
  by destruct Hd as [[->| ->] _].
Qed.

(** The first four bytes of a JSON message are its session. *)
Lemma json_frame_peek session u bd : take 4 (json_frame session u bd) = be_bytes 4 session.
Proof. unfold json_frame. apply take_app_length'. symmetry. apply length_be_bytes. Qed.

(** A request whose worker runs. *)
Lemma dispatch_running m fd session u bd sent answers w :
  (0 < length (_workers m) < 256)%nat → in_u 32 session →
  _workers m !! worker_of session m = Some w → _status w = kStatusOK → 0 < p_ret sent →
  dispatch fd (mkMaster (_workers m) (plog m) (mkPRes 4 (0, 0) (take 4 (json_frame session u bd)) :: sent :: answers)) =
  (Ok true, mkMaster (_workers m) (plog m ++ [PPeek fd 4; PSendFd (_channel w).1 fd]) answers).
Proof.
  intros Hn Hs Hw Hok Hsent. set (m1 := mkMaster _ _ _).
  destruct (dispatch_known fd session m1) as (v & Hv & ->); [exact Hs|split; [done|apply json_frame_peek]|exact Hn|].
  change (worker_of session m1) with (worker_of session m) in *. cbn [m1 _workers] in Hv.
  rewrite Hw in Hv. injection Hv as <-. rewrite bool_decide_eq_true_2 by exact Hok.
  unfold sendFd. rewrite bind_assoc. erewrite bind_Ok by reflexivity.
  erewrite bind_Ok by reflexivity. cbn [called m1 pscript hd tl].
  destruct (Z.leb_spec (p_ret sent) 0); [lia|]. unfold mret, M_ret. cbn. by rewrite <- app_assoc.
Qed.


(** The daemon's connections keep the invariant of the connection manager. *)
Lemma keeps_createMasterConn kernel junk_time is_writer fd ip port :
  keeps is_writer 1 (createMasterConn kernel junk_time fd ip port).
Proof.
  intros s r s' Hs Hc. unfold createMasterConn. unfold mbind at 1, M_bind at 1.
  destruct (new_MasterConn kernel junk_time fd ip port true s) as [[p|e] s1] eqn:E1;
    apply (new_conn_run kernel junk_time is_writer) in E1 as [H1 Hc1]; [|exact Hs| |exact Hs];
    [|intros [= <- <-]; split; [exact H1|lia]].
  destruct (onConnCreate_run is_writer p s1 H1) as (s2 & o & E2 & H2 & Hc2 & _); [lia|].
  unfold mbind at 1, M_bind at 1. rewrite E2. intros E.
  assert (K : keeps is_writer 0 (on_conn p (Connection.addEvent 0 EVENT_READ) ;; mret p))
    by (apply keeps_bind0; [done|apply keeps_on_conn|intros; apply keeps_ret]).
  destruct (K _ _ _ H2 ltac:(lia) E). split; [assumption|lia].
Qed.

(** C25: a readable connection of the daemon is handed over once: its descriptor goes to the
    worker of its session, then the connection manager drops the connection, so that
    neither the map nor the heap holds it and no later event finds it here. *)
Theorem daemon_hands_over is_writer p o s m session u bd sent answers w :
  mgr_wf is_writer s → heap s !! p = Some o →
  (0 < length (_workers m) < 256)%nat → in_u 32 session →
  _workers m !! worker_of session m = Some w → running w → 0 < p_ret sent →
  ∃ s', daemon_onRead is_writer p (s, mkMaster (_workers m) (plog m)
      (mkPRes 4 (0, 0) (take 4 (json_frame session u bd)) :: sent :: answers)) =
    (Ok tt, (s', mkMaster (_workers m)
       (plog m ++ [PPeek (m_socket (sock (net (co_conn o)))) 4;
                   PSendFd (_channel w).1 (m_socket (sock (net (co_conn o))))]) answers)) ∧
    heap s' = delete p (heap s) ∧ connMap s' = delete (co_id o) (connMap s).
Proof.
  intros Hs Ho Hn Hss Hw [Hok _] Hsent. unfold daemon_onRead.
  assert (Ed : deref p s = (Ok o, s)) by (unfold deref; by rewrite Ho).
  erewrite bind_Ok by (unfold on_mgr; cbn [fst snd]; by rewrite Ed). cbn [fst snd].
  set (fd := m_socket _). pose proof (dispatch_running m fd session u bd sent answers w Hn Hss Hw Hok Hsent) as D.
  assert (E : master_onRead fd (mkMaster (_workers m) (plog m)
      (mkPRes 4 (0, 0) (take 4 (json_frame session u bd)) :: sent :: answers)) =
    (Ok [NClose], mkMaster (_workers m) (plog m ++ [PPeek fd 4; PSendFd (_channel w).1 fd]) answers)).
  { unfold master_onRead, try_catch. erewrite bind_Ok by exact D. reflexivity. }
  erewrite bind_Ok by (unfold on_master; cbn [fst snd]; by rewrite E). cbn [fst snd].
  destruct (eraseConnection_run is_writer p o s Hs Ho) as (s' & E' & Hh & _ & Hm & _).
  exists s'. split; [|split; [exact Hh|exact Hm]]. unfold on_mgr. cbn [fst snd handle_notices handle_notice].
  erewrite bind_Ok by exact E'. reflexivity.
Qed.

(** ** Children that end *)

(** The answers to [start] when the kernel grants the channel [(a, b)] and the child [pid]. *)
Definition p_ok : PRes := mkPRes 0 (0, 0) [].
Definition granted (a b pid : Z) : list PRes := [mkPRes 0 (a, b) []; p_ok; p_ok; mkPRes pid (0, 0) []; p_ok].
Definition start_calls (a b : Z) : list PCall := [PSocketpair; PSetCloexec a; PSetSndbuf a 262144; PFork; PClose b].

Ltac answers := unfold answer_to, called; cbn [pscript _workers plog hd tl p_ret p_pair fst snd granted app p_ok].

Lemma start_granted i w ws lg a b pid answers :
  (i < length ws)%nat → 0 < pid →
  start i (put i w (mkMaster ws lg (granted a b pid ++ answers))) =
  (Ok true, put i (mkWorker (_id w) (a, -1) pid kStatusOK (_exec w) (_conf w))
     (mkMaster ws (lg ++ start_calls a b) answers)).
Proof.
  intros Hi Hp. unfold start. run_worker. answers. cbn [Z.ltb Z.compare]. run_worker. answers. cbn [Z.eqb].
  run_worker. answers. cbn [Z.eqb]. run_worker. answers. unfold after_fork, close_channel1.
  destruct (Z.eqb_spec pid 0); [lia|]. destruct (Z.ltb_spec 0 pid); [|lia]. run_worker. answers.
  unfold mret, M_ret. cbn. by rewrite <- !app_assoc.
Qed.

(** A worker restarted: its channel closed, the process killed, another one started. *)
Lemma restart_granted i w ws lg a b pid answers :
  (i < length ws)%nat → 0 < pid → _status w = kStatusOK ∨ _status w = kStatusError →
  restart i (put i w (mkMaster ws lg (p_ok :: p_ok :: granted a b pid ++ answers))) =
  (Ok true, put i (mkWorker (_id w) (a, -1) pid kStatusOK (_exec w) (_conf w))
     (mkMaster ws (lg ++ PClose (_channel w).1 :: PKill (_pid w) SIGKILL :: start_calls a b) answers)).
Proof.
  intros Hi Hp Hs. unfold restart, close_channel0. run_worker.
  rewrite (bool_decide_eq_false_2 (_status w = kStatusInit)), (bool_decide_eq_false_2 (_status w = kStatusUnknown))
    by (destruct Hs as [->| ->]; discriminate).
  cbn [orb]. run_worker. answers. rewrite <- (app_assoc lg). cbn [app].
  erewrite bind_Ok by (apply start_granted; assumption). cbv beta iota. run_worker.
  unfold mret, M_ret. cbn. by rewrite <- app_assoc.
Qed.

(** C27: a worker whose process ended is started again: when [waitpid] names the process of
    the running worker [i] and the kernel grants a new channel and child, one signal ends
    with that worker running the new process on the new channel, under its old number and
    program, the old channel closed, the old process killed, and no other worker touched. *)
Theorem emit_restarts_worker sig i w m pid a b answers :
  workers_wf m → findWorker (_pid w) 0 (_workers m) = Some i → _workers m !! i = Some w → running w → 0 < pid →
  onEmit sig (mkMaster (_workers m) (plog m)
    (mkPRes (_pid w) (0, 0) [] :: p_ok :: p_ok :: granted a b pid ++ p_ok :: answers)) =
  (Ok tt, mkMaster (<[i := mkWorker (_id w) (a, -1) pid kStatusOK (_exec w) (_conf w)]> (_workers m))
     (plog m ++ PWaitpid :: PClose (_channel w).1 :: PKill (_pid w) SIGKILL :: start_calls a b ++ [PWaitpid]) answers).
Proof.
  intros Hm F Hi (Hs & Hp & _) Hpid. assert (Hl : (i < length (_workers m))%nat) by (by eapply lookup_lt_Some).
  unfold onEmit. cbn [reap]. erewrite bind_Ok by reflexivity. cbn [pscript hd tl p_ret].
  destruct (Z.leb_spec (_pid w) 0); [lia|]. erewrite bind_Ok by reflexivity. cbn [_workers plog pscript]. rewrite F.
  rewrite <- (list_insert_id (_workers m) i w Hi) at 1.
  change (mkMaster (<[i:=w]> (_workers m)) ?l ?p) with (put i w (mkMaster (_workers m) l p)).
  erewrite bind_Ok by (apply set_put; exact Hl).
  erewrite bind_Ok by (apply restart_granted; [exact Hl|exact Hpid|by right]).
  unfold mbind, M_bind. cbn. unfold put, mret, M_ret. cbn. by rewrite <- !app_assoc.
Qed.

(** C29: no worker process ever runs its program within defined behaviour: in the child,
    [Worker::exec] writes "-channel" and its NUL into an array of eight before it calls
    [execv], whatever the configuration, so [start] ends there after it closed the
    master's end of the channel. *)
Theorem worker_child_undefined i w ws lg a b answers :
  ws !! i = Some w →
  start i (mkMaster ws lg (granted a b 0 ++ answers)) =
  (Throw Undefined, mkMaster (<[i := mkWorker (_id w) (-1, b) (_pid w) kStatusInit (_exec w) (_conf w)]> ws)
     (lg ++ [PSocketpair; PSetCloexec a; PSetSndbuf a 262144; PFork; PClose a]) answers).
Proof.
  intros Hw. assert (Hi : (i < length ws)%nat) by (by eapply lookup_lt_Some).
  rewrite <- (put_self i w (mkMaster ws lg (granted a b 0 ++ answers)) Hw). unfold start. run_worker. answers. cbn [Z.ltb Z.compare].
  run_worker. answers. cbn [Z.eqb]. run_worker. answers. cbn [Z.eqb]. run_worker. answers.
  rewrite after_fork_child by exact Hi. unfold put, called. cbn. by rewrite <- !app_assoc.
Qed.

(** *** A manager of two workers, the second of which could not be started *)

Definition wconf : string := "../conf/server.conf".
Definition wexec : string := "../server/node_server".
Definition wmaster : Master :=
  (startWorker (0, 0) 2 wexec wconf (mkMaster [] [] (granted 5 6 100 ++ [p_none]))).2.

Example wmaster_workers :
  _workers wmaster = [mkWorker 0 (5, -1) 100 kStatusOK wexec wconf; mkWorker 1 (0, 0) (-1) kStatusInit wexec wconf].
Proof. reflexivity. Qed.

Lemma wmaster_wf : workers_wf wmaster.
Proof.
  unfold workers_wf. rewrite wmaster_workers.
  constructor; [left; split_and!; reflexivity|constructor; [right; split; [by left|reflexivity]|constructor]].
Qed.

(** The master after a request of session 6 and a signal. *)
Definition wmaster2 : Master := (dispatch 9 (mkMaster (_workers wmaster) (plog wmaster)
  [mkPRes 4 (0, 0) (be_bytes 4 6); mkPRes 4 (0, 0) []])).2.

Lemma wmaster_steps : rtc master_step wmaster wmaster2.
Proof.
  apply rtc_once. apply (ms_dispatch 9 true wmaster [mkPRes 4 (0, 0) (be_bytes 4 6); mkPRes 4 (0, 0) []]).
  vm_compute. reflexivity.
Defined.

Lemma workers_invariant_witness :
  length (_workers wmaster2) = 2%nat ∧ ∀ i w, _workers wmaster2 !! i = Some w → running w ∨ dead w.
Proof.
  apply (workers_invariant (0, 0) 2 wexec wconf (granted 5 6 100 ++ [p_none]) wmaster wmaster2);
    [reflexivity|exact wmaster_steps].
Defined.

Lemma dead_worker_refuses_forever_witness :
  dispatch 9 (mkMaster (_workers wmaster2) (plog wmaster2) [mkPRes 4 (0, 0) (be_bytes 4 7)]) =
  (Ok false, mkMaster (_workers wmaster2) (plog wmaster2 ++ [PPeek 9 4]) []).
Proof.
  apply (dead_worker_refuses_forever wmaster wmaster2 1 (mkWorker 1 (0, 0) (-1) kStatusInit wexec wconf) 9 7).
  - exact wmaster_wf.
  - rewrite wmaster_workers. cbn. lia.
  - reflexivity.
  - split; [by left|reflexivity].
  - exact wmaster_steps.
  - unfold in_u. lia.
  - reflexivity.
  - split; reflexivity.
Defined.


(** The daemon with one accepted connection, on the descriptor 9. *)
Definition wdaemon : Mgr := (createMasterConn (λ _, repeat (mkRes 0 0 0 0 []) 8) 0 9 16777226 80 new_Mgr).2.

Lemma wdaemon_wf : mgr_wf false wdaemon.
Proof.
  destruct (createMasterConn (λ _, repeat (mkRes 0 0 0 0 []) 8) 0 9 16777226 80 new_Mgr) as [r s'] eqn:E.
  unfold wdaemon. rewrite E. refine (proj1 (keeps_createMasterConn _ _ _ _ _ _ _ _ _ _ _ E)); [apply new_Mgr_wf|].
  cbn. lia.
Qed.

Lemma daemon_hands_over_witness :
  ∃ s', daemon_onRead false 1 (wdaemon, mkMaster (_workers wmaster) []
    [mkPRes 4 (0, 0) (take 4 (json_frame 8 3 (bytes_of "hello"))); mkPRes 4 (0, 0) []]) =
    (Ok tt, (s', mkMaster (_workers wmaster) [PPeek 9 4; PSendFd 5 9] [])) ∧ heap s' = ∅.
Proof.
  destruct (heap wdaemon !! 1%positive) as [o|] eqn:Ho; [|vm_compute in Ho; discriminate].
  assert (Hfd : m_socket (sock (net (co_conn o))) = 9) by (vm_compute in Ho; injection Ho as <-; reflexivity).
  destruct (daemon_hands_over false 1 o wdaemon (mkMaster (_workers wmaster) [] []) 8 3 (bytes_of "hello")
    (mkPRes 4 (0, 0) []) [] (mkWorker 0 (5, -1) 100 kStatusOK wexec wconf)) as (s' & E & Hh & _).
  - apply wdaemon_wf.
  - exact Ho.
  - cbn [_workers]. rewrite wmaster_workers. cbn. lia.
  - unfold in_u. lia.
  - reflexivity.
  - split_and!; reflexivity.
  - reflexivity.
  - exists s'. split; [|rewrite Hh; vm_compute; reflexivity].
    rewrite Hfd in E. exact E.
Defined.

Lemma emit_restarts_worker_witness :
  _workers (onEmit 17 (mkMaster (_workers wmaster) []
    (mkPRes 100 (0, 0) [] :: p_ok :: p_ok :: granted 7 8 101 ++ [p_ok]))).2 !! 0%nat =
  Some (mkWorker 0 (7, -1) 101 kStatusOK wexec wconf).
Proof.
  pose proof (emit_restarts_worker 17 0 (mkWorker 0 (5, -1) 100 kStatusOK wexec wconf)
    (mkMaster (_workers wmaster) [] []) 101 7 8 []) as H.
  cbn [_pid _workers plog] in H. rewrite H.
  - reflexivity.
  - exact wmaster_wf.
  - reflexivity.
  - reflexivity.
  - split_and!; reflexivity.
  - reflexivity.
Defined.

Lemma worker_child_undefined_witness :
  (start 0 (mkMaster [new_Worker (0, 0) 0 wexec wconf] [] (granted 5 6 0))).1 = Throw Undefined.
Proof.
  pose proof (worker_child_undefined 0 (new_Worker (0, 0) 0 wexec wconf) [new_Worker (0, 0) 0 wexec wconf] [] 5 6 [] eq_refl) as H.
  exact (f_equal fst H).
Defined.

(** A peer that has closed is dispatched all the same: its session reads as [2 ^ 32 - 1],
    which no test for a negative number refuses. *)
Example closed_peer_dispatched :
  plog (dispatch 9 (mkMaster [mkWorker 0 (5, -1) 100 kStatusOK wexec wconf] [] [mkPRes 0 (0, 0) []; mkPRes 4 (0, 0) []])).2 =
  [PPeek 9 4; PSendFd 5 9].
Proof. reflexivity. Qed.

(** [peekUint64] shifts by a negative count. *)
Example peekUint64_undefined :
  (peekUint64 9 (mkMaster [] [] [mkPRes 8 (0, 0) (be_bytes 8 1)])).1 = Throw Undefined.
Proof. reflexivity. Qed.

(** A [read] that fails is taken for one record of what the stack held. *)
Example signal_read_fails :
  signal_doEvent (λ s l, (Ok tt, l ++ [s])) (repeat Byte.x00 2048) EVENT_READ (-1) [] [] = (Ok tt, [0]).
Proof. reflexivity. Qed.

(** A started handler is never taken out of the loop, not even by its destructor. *)
Example started_handler_stays :
  sh_calls (sig_removeEvent (sig_start 0 7 (addSig 17 new_SignalHandler)).2) = [LAdd 0 1].
Proof. reflexivity. Qed.
