(* ===== verification/Cluster.v ===== *)
(** * Cluster.v: root nodes that share one Redis server

    Several processes of a root node run [FPService::generateNewBlock]
    ([server/FPService.cpp]) and queue transactions at the same time.  Service.v gives what
    one of them does alone; here every command to the server is a step of its own, and the
    commands of the processes interleave in any order.  A process is the program of the
    commands it still has to send, each with what it does with the reply; the server is
    the documented one of Redis.v, one for the blocks and the cache, as conf/db.conf and
    conf/cache.conf name the same. *)

From S2P Require Import Prelude Cnum Redis Store RedisCache Service.
From Stdlib Require Import Lia.
From stdpp Require Import relations.
Open Scope Z_scope.

(** ** Programs of commands *)

Inductive prog :=
  | Done
  | Send (c : cmd) (k : reply → prog)
  | Built (txs : list string) (k : prog).   (** the block of [txs] is made and stored *)

(** The operations of [RedisCache] on a connected client, as the commands they send. *)
Definition p_SetNX (key value : string) (k : bool → prog) : prog :=
  Send (set_cmd key value 0 2) (λ r, k (bool_decide (status_of_set 2 r = kStatusOK))).
Definition p_Get (key v : string) (k : string → prog) : prog :=
  Send (CGet key) (λ r, k (match r with RString s => s | _ => v end)).
Definition p_Delete (key : string) (k : bool → prog) : prog := Send (CDel key) (λ _, k true).
Definition p_Set (key value : string) (duration : Z) (k : bool → prog) : prog :=
  Send (set_cmd key value duration 0) (λ r, k (bool_decide (status_of_set 0 r = kStatusOK))).
Definition p_deQueueAll (key : string) (k : bool → list string → prog) : prog :=
  Send (CLRange key) (λ r,
    let (st, members) := array_result [] r in
    if bool_decide (st = kStatusOK) then p_Delete key (λ ok, k ok members) else k false members).
Definition p_GetMembers (key : string) (k : prog) : prog := Send (CSMembers key) (λ _, k).

Lemma lookup_put_list k l tx (m : db) : list_value (put_list k (l ++ [tx]) m !! k) = Some (l ++ [tx]).
Proof. unfold put_list. destruct (l ++ [tx]) as [|y ys] eqn:E; [by destruct l|]. by rewrite lookup_insert_eq. Qed.
Lemma lookup_put_list_ne k k' l (m : db) : k ≠ k' → put_list k l m !! k' = m !! k'.
Proof. intros H. unfold put_list. destruct l; [by rewrite lookup_delete_ne|by rewrite lookup_insert_ne]. Qed.

Section builder.
Context (lastBlockKey txPoolKey childNodesKey : string).
(** The blocks [createBlock] stores, as keys and texts: the new one over the text of the
    last block and the transactions, and the last one with its new [_next].  Service.v
    says what they are; what follows holds for any function. *)
Context (blocks_of : string → list string → list (string * string)).

(** [releaseLock] *)
Definition p_releaseLock (id lock : string) (k : prog) : prog :=
  p_Get lock EmptyString (λ v, if str_empty v || bool_decide (v = id) then p_Delete lock (λ _, k) else k).

(** [storeBlock] of each. *)
Fixpoint p_storeBlocks (kvs : list (string * string)) (k : prog) : prog :=
  match kvs with [] => k | kv :: kvs => p_Set kv.1 kv.2 (u32 (-1)) (λ _, p_storeBlocks kvs k) end.

(** What [createBlock] does once the queue is read, and the rest of [generateNewBlock]. *)
Definition p_build (last : string) (txs : list string) (k : prog) : prog :=
  p_storeBlocks (blocks_of last txs) (Built txs (p_GetMembers childNodesKey k)).

Definition p_createBlock (k : prog) : prog :=
  p_Get lastBlockKey EmptyString (λ last,
    p_deQueueAll txPoolKey (λ ok txs, if ok && negb (bool_decide (txs = [])) then p_build last txs k else k)).

Definition p_generateNewBlock (id : string) : prog :=
  p_SetNX BUILDER_LOCK id (λ locked, if locked then p_createBlock (p_releaseLock id BUILDER_LOCK Done) else Done).

(** ** The cluster *)

Record Proc := mkProc { pr_id : string; pr_prog : prog }.

Record Cluster := mkCluster {
  srv : db;
  procs : list Proc;
  queued : list string;         (** every transaction queued so far *)
  built : list (list string);   (** the blocks made so far *)
}.

Definition with_proc (i : nat) (p : prog) (m : db) (s : Cluster) : Cluster :=
  mkCluster m (alter (λ x, mkProc (pr_id x) p) i (procs s)) (queued s) (built s).

Inductive cluster_step : Cluster → Cluster → Prop :=
  (** the timer of a process fires *)
  | cs_start i id s : procs s !! i = Some (mkProc id Done) →
      cluster_step s (with_proc i (p_generateNewBlock id) (srv s) s)
  (** the server answers a command *)
  | cs_send i id c k r m s : procs s !! i = Some (mkProc id (Send c k)) → documented c (srv s) r m →
      cluster_step s (with_proc i (k r) m s)
  | cs_built i id txs k s : procs s !! i = Some (mkProc id (Built txs k)) →
      cluster_step s (mkCluster (srv s) (procs (with_proc i k (srv s) s)) (queued s) (built s ++ [txs]))
  (** [handleTransaction] queues a transaction *)
  | cs_enqueue tx r m s : documented (CRPush txPoolKey [tx]) (srv s) r m → status_of_integer r = kStatusOK →
      cluster_step s (mkCluster m (procs s) (queued s ++ [tx]) (built s))
  (** any other command: of a balance, a lock of another name, a child node *)
  | cs_other c r m s : cmd_key c ≠ BUILDER_LOCK → cmd_key c ≠ txPoolKey → documented c (srv s) r m →
      cluster_step s (mkCluster m (procs s) (queued s) (built s)).

(** ** The critical section *)

(** The program of a process that has the lock: the transactions it took out of the queue and
    put in no block yet, and those it read and did not delete yet. *)
Inductive stage (id : string) : list string → option (list string) → prog → Prop :=
  | st_last : stage id [] None (p_createBlock (p_releaseLock id BUILDER_LOCK Done))
  | st_range last : stage id [] None
      (p_deQueueAll txPoolKey (λ ok txs, if ok && negb (bool_decide (txs = []))
         then p_build last txs (p_releaseLock id BUILDER_LOCK Done) else p_releaseLock id BUILDER_LOCK Done))
  | st_del last l : stage id [] (Some l)
      (p_Delete txPoolKey (λ ok, if ok && negb (bool_decide (l = []))
         then p_build last l (p_releaseLock id BUILDER_LOCK Done) else p_releaseLock id BUILDER_LOCK Done))
  | st_store l kvs : Forall (λ kv, kv.1 ≠ BUILDER_LOCK ∧ kv.1 ≠ txPoolKey) kvs → stage id l None
      (p_storeBlocks kvs (Built l (p_GetMembers childNodesKey (p_releaseLock id BUILDER_LOCK Done))))
  | st_members : stage id [] None (p_GetMembers childNodesKey (p_releaseLock id BUILDER_LOCK Done))
  | st_release : stage id [] None (p_releaseLock id BUILDER_LOCK Done)
  | st_unlock : stage id [] None (p_Delete BUILDER_LOCK (λ _, Done)).

(** ** The invariant *)

Section invariant.
Context (pool_not_lock : txPoolKey ≠ BUILDER_LOCK).
Context (blocks_elsewhere : ∀ last txs,
  Forall (λ kv, kv.1 ≠ BUILDER_LOCK ∧ kv.1 ≠ txPoolKey) (blocks_of last txs)).

(** Transactions that were queued and are neither in a block nor in the queue any more. *)
Context (lost : list string).

(** What holds while a process has the lock; [pool] is the queue. *)
Record holding (id : string) (l : list string) (rd : option (list string)) (pool : list string) (m : db)
    (q : list string) (b : list (list string)) : Prop := {
  hd_lock : m !! BUILDER_LOCK = Some (VStr id);
  hd_read : ∀ r, rd = Some r → ∃ extra, pool = r ++ extra;
  hd_once : (lost ++ concat b) ++ l ++ pool ⊆+ q;
}.

Definition proc_inv (pool : list string) (s : Cluster) (x : Proc) : Prop :=
  pr_prog x = Done ∨ pr_prog x = p_generateNewBlock (pr_id x) ∨
  ∃ l rd, stage (pr_id x) l rd (pr_prog x) ∧ holding (pr_id x) l rd pool (srv s) (queued s) (built s).

Record cluster_inv (s : Cluster) : Prop := {
  ci_ids : NoDup (pr_id <$> procs s) ∧ "" ∉ pr_id <$> procs s;
  ci_state : ∃ pool, list_value (srv s !! txPoolKey) = Some pool ∧ (lost ++ concat (built s)) ++ pool ⊆+ queued s ∧
    ∀ i x, procs s !! i = Some x → proc_inv pool s x;
}.

Lemma with_proc_ids i p m s : pr_id <$> procs (with_proc i p m s) = pr_id <$> procs s.
Proof.
  cbn. apply list_eq. intros j. rewrite !list_lookup_fmap. destruct (decide (i = j)) as [<-|H].
  - rewrite list_lookup_alter_eq. by destruct (procs s !! i).
  - by rewrite list_lookup_alter_ne.
Qed.

Lemma with_proc_lookup i id p0 p m s j x :
  procs s !! i = Some (mkProc id p0) → procs (with_proc i p m s) !! j = Some x →
  (j = i ∧ x = mkProc id p) ∨ (j ≠ i ∧ procs s !! j = Some x).
Proof.
  intros Hi. cbn. destruct (decide (i = j)) as [<-|H].
  - rewrite list_lookup_alter_eq, Hi. intros [= <-]. by left.
  - rewrite list_lookup_alter_ne by done. intros Hj. right. split; [congruence|done].
Qed.

Lemma once_drop (b l pool q : list string) : b ++ l ++ pool ⊆+ q → b ++ pool ⊆+ q.
Proof. intros H. etrans; [|exact H]. apply submseteq_app; [done|]. by apply submseteq_inserts_l. Qed.

(** Processes of different ids do not hold the lock together. *)
Lemma holding_id id id' l l' rd rd' pool pool' m q q' b b' :
  holding id l rd pool m q b → holding id' l' rd' pool' m q' b' → id = id'.
Proof. intros [H1 _ _] [H2 _ _]. congruence. Qed.

Lemma same_id_same_place s i j x y :
  NoDup (pr_id <$> procs s) → procs s !! i = Some x → procs s !! j = Some y → pr_id x = pr_id y → i = j.
Proof.
  intros Hn Hi Hj E. apply (NoDup_lookup _ _ _ (pr_id x) Hn); rewrite list_lookup_fmap.
  - by rewrite Hi.
  - by rewrite Hj, E.
Qed.

(** A command of the process that has the lock: it keeps what holds, and when it ends the
    program nothing is in flight. *)
Lemma stage_send id l rd c k r pool m m' q b :
  id ≠ "" → stage id l rd (Send c k) → documented c m r m' → holding id l rd pool m q b →
  list_value (m !! txPoolKey) = Some pool →
  ∃ pool', list_value (m' !! txPoolKey) = Some pool' ∧ (lost ++ concat b) ++ pool' ⊆+ q ∧
  (k r = Done ∨ ∃ l' rd', stage id l' rd' (k r) ∧ holding id l' rd' pool' m' q b).
Proof.
  intros Hid St. remember (Send c k) as p eqn:Ep. destruct St as [|last|last rl|l kvs Hkvs| | |];
    intros Hd [Hl Hr Ho] Hp.
  - injection Ep as <- <-. destruct Hd as [-> _]. exists pool. split_and!; [exact Hp|exact (once_drop _ _ _ _ Ho)|].
    right. eexists _, _. split; [apply st_range|by split].
  - injection Ep as <- <-. cbn in Hd. rewrite Hp in Hd. destruct Hd as [-> ->].
    exists pool. split_and!; [exact Hp|exact (once_drop _ _ _ _ Ho)|]. right.
    cbn [array_result]. rewrite push_strings. cbn [app]. rewrite bool_decide_eq_true_2 by reflexivity. eexists _, _. split; [apply (st_del _ last)|].
    split; [exact Hl| |exact Ho]. intros rl [= <-]. exists []. by rewrite app_nil_r.
  - injection Ep as <- <-. destruct Hd as [_ ->]. destruct (Hr rl eq_refl) as [extra Ex]. exists [].
    assert (Ob : lost ++ concat b ⊆+ q) by (etrans; [|exact Ho]; by apply submseteq_inserts_r).
    split_and!; [by rewrite lookup_delete_eq|by rewrite app_nil_r|]. right. cbn.
    assert (Hl' : delete txPoolKey m !! BUILDER_LOCK = Some (VStr id)) by (by rewrite lookup_delete_ne).
    destruct (bool_decide_reflect (rl = [])) as [->|Hne]; cbn.
    + eexists _, _. split; [apply st_release|]. split; [exact Hl'|done|by rewrite !app_nil_r].
    + eexists _, _. split; [apply st_store, blocks_elsewhere|]. split; [exact Hl'|done|].
      rewrite app_nil_r. etrans; [|exact Ho]. apply submseteq_app; [done|]. rewrite Ex. cbn [app]. by apply submseteq_inserts_r.
  - destruct kvs as [|[key v] kvs]; [discriminate|]. injection Ep as <- <-. inversion_clear Hkvs as [|? ? [H1 H2] Hk].
    pose proof (documented_frame _ _ _ _ BUILDER_LOCK Hd (not_eq_sym H1)) as F1.
    pose proof (documented_frame _ _ _ _ txPoolKey Hd (not_eq_sym H2)) as F2.
    exists pool. rewrite F2. split_and!; [exact Hp|exact (once_drop _ _ _ _ Ho)|]. right.
    eexists _, _. split; [apply st_store; exact Hk|]. split; [by rewrite F1|done|exact Ho].
  - injection Ep as <- <-. destruct Hd as [-> _]. exists pool. split_and!; [exact Hp|exact (once_drop _ _ _ _ Ho)|].
    right. eexists _, _. split; [apply st_release|by split].
  - injection Ep as <- <-. cbn in Hd. rewrite Hl in Hd. destruct Hd as [-> ->].
    exists pool. split_and!; [exact Hp|exact (once_drop _ _ _ _ Ho)|]. right. cbn.
    rewrite bool_decide_eq_true_2 by reflexivity. rewrite orb_true_r.
    eexists _, _. split; [apply st_unlock|by split].
  - injection Ep as <- <-. destruct Hd as [_ ->]. exists pool.
    split_and!; [by rewrite lookup_delete_ne|exact (once_drop _ _ _ _ Ho)|by left].
Qed.


(** What a step of another kind leaves of a process: the lock is as it was, the queue has grown
    at its end by [new], all of it queued. *)
Lemma proc_inv_grow pool new s m x :
  m !! BUILDER_LOCK = srv s !! BUILDER_LOCK → proc_inv pool s x →
  proc_inv (pool ++ new) (mkCluster m (procs s) (queued s ++ new) (built s)) x.
Proof.
  intros Hm [H|[H|(l & rd & St & [Hl Hr Ho])]]; [by left|by right; left|]. right. right. exists l, rd. split; [exact St|].
  split; cbn.
  - by rewrite Hm.
  - intros r Hrd. destruct (Hr r Hrd) as [e ->]. exists (e ++ new). by rewrite app_assoc.
  - rewrite !app_assoc. apply submseteq_app; [by rewrite <- app_assoc|done].
Qed.

(** A process that does not hold the lock does not care for the server. *)
Lemma proc_inv_free pool pool' s s' x :
  (∀ l rd, stage (pr_id x) l rd (pr_prog x) → holding (pr_id x) l rd pool (srv s) (queued s) (built s) → False) →
  proc_inv pool s x → proc_inv pool' s' x.
Proof. intros Hn [H|[H|(l & rd & St & Hh)]]; [by left|by right; left|]. destruct (Hn l rd St Hh). Qed.

(** [inv] of the cluster after process [i] went on, when it is the only one with the lock. *)
Lemma step_of_holder i id p0 p l rd pool pool' m s :
  cluster_inv s → procs s !! i = Some (mkProc id p0) →
  (∀ j x, procs s !! j = Some x → proc_inv pool s x) →
  stage id l rd p0 → holding id l rd pool (srv s) (queued s) (built s) →
  ∀ b', list_value (m !! txPoolKey) = Some pool' → (lost ++ concat b') ++ pool' ⊆+ queued s →
  proc_inv pool' (mkCluster m (procs s) (queued s) b') (mkProc id p) →
  cluster_inv (mkCluster m (procs (with_proc i p m s)) (queued s) b').
Proof.
  intros [[Hn Hne] _] Hi Hall St Hh b' Hp Ho Hx. split.
  - cbn [procs]. by rewrite with_proc_ids.
  - exists pool'. split_and!; [exact Hp|exact Ho|]. cbn [procs]. intros j x Hj.
    destruct (with_proc_lookup _ _ _ _ _ _ _ _ Hi Hj) as [[-> ->]|[Hji Hj']].
    { exact Hx. }
    apply (proc_inv_free pool _ s); [|exact (Hall j x Hj')]. intros l' rd' St' Hh'.
    apply Hji. symmetry. apply (same_id_same_place s i j (mkProc id p0) x Hn Hi Hj'). cbn.
    exact (holding_id _ _ _ _ _ _ _ _ _ _ _ _ _ Hh Hh').
Qed.

(** A step that changes nothing but the program of a process that does not get the lock. *)
Lemma step_outside i id p0 p s :
  cluster_inv s → procs s !! i = Some (mkProc id p0) →
  p = Done ∨ p = p_generateNewBlock id → cluster_inv (with_proc i p (srv s) s).
Proof.
  intros [[Hn Hne] (pool & Hp & Ho & Hall)] Hi Hx. split; [by rewrite with_proc_ids|].
  exists pool. split_and!; [exact Hp|exact Ho|]. intros j x Hj.
  destruct (with_proc_lookup _ _ _ _ _ _ _ _ Hi Hj) as [[-> ->]|[_ Hj']].
  - destruct Hx as [->| ->]; [by left|by right; left].
  - destruct (Hall j x Hj') as [H|[H|(l & rd & St & Hh)]]; [by left|by right; left|].
    right. right. exists l, rd. split; [exact St|exact Hh].
Qed.

(** The server takes the lock for process [i]: no other process has it. *)
Lemma step_locks i id p0 s :
  cluster_inv s → procs s !! i = Some (mkProc id p0) → srv s !! BUILDER_LOCK = None →
  cluster_inv (with_proc i (p_createBlock (p_releaseLock id BUILDER_LOCK Done)) (<[BUILDER_LOCK := VStr id]> (srv s)) s).
Proof.
  intros [[Hn Hne] (pool & Hp & Ho & Hall)] Hi Hl. split; [by rewrite with_proc_ids|].
  exists pool. split_and!; [cbn; by rewrite lookup_insert_ne|exact Ho|]. intros j x Hj.
  destruct (with_proc_lookup _ _ _ _ _ _ _ _ Hi Hj) as [[-> ->]|[_ Hj']].
  - right. right. exists [], None. split; [apply st_last|]. split; [apply lookup_insert_eq|done|exact Ho].
  - apply (proc_inv_free pool _ s); [|exact (Hall j x Hj')]. intros l rd _ [Hl' _ _]. congruence.
Qed.

Lemma stage_built id l rd txs k :
  stage id l rd (Built txs k) →
  l = txs ∧ rd = None ∧ k = p_GetMembers childNodesKey (p_releaseLock id BUILDER_LOCK Done).
Proof.
  intros St. remember (Built txs k) as p eqn:Ep. destruct St as [| | |l kvs _| | |]; try discriminate Ep.
  destruct kvs as [|kv kvs]; [|discriminate Ep]. by injection Ep as <- <-.
Qed.

Lemma cluster_step_inv s s' : cluster_step s s' → cluster_inv s → cluster_inv s'.
Proof.
  intros S Hinv. pose proof Hinv as [[Hn Hne] (pool & Hp & Ho & Hall)].
  destruct S as [i id s Hi|i id c k r m s Hi Hd|i id txs k s Hi|tx r m s Hd Hr|c r m s H1 H2 Hd].
  - apply (step_outside i id Done); [exact Hinv|exact Hi|by right].
  - destruct (Hall i _ Hi) as [H|[H|(l & rd & St & Hh)]]; cbn [pr_prog pr_id] in *; [discriminate H| |].
    + injection H as -> ->. cbn in Hd. destruct (srv s !! BUILDER_LOCK) as [v|] eqn:El.
      * destruct Hd as [-> ->]. apply (step_outside i id _ _ s Hinv Hi). by left.
      * destruct Hd as [-> ->]. apply (step_locks i id _ s Hinv Hi El).
    + assert (Hid : id ≠ "").
      { intros ->. apply Hne. apply list_elem_of_fmap. exists (mkProc "" (Send c k)). split; [done|]. by eapply list_elem_of_lookup_2. }
      destruct (stage_send id l rd c k r pool _ m _ _ Hid St Hd Hh Hp) as (pool' & Hp' & Ho' & Hx).
      apply (step_of_holder i id (Send c k) (k r) l rd pool pool' m s Hinv Hi Hall St Hh (built s) Hp' Ho').
      destruct Hx as [Hx|(l' & rd' & St' & Hh')]; [by left|]. right. right. by exists l', rd'.
  - destruct (Hall i _ Hi) as [H|[H|(l & rd & St & Hh)]]; cbn [pr_prog pr_id] in *; [discriminate H|discriminate H|].
    destruct (stage_built _ _ _ _ _ St) as (-> & -> & ->).
    assert (Ho2 : (lost ++ concat (built s ++ [txs])) ++ pool ⊆+ queued s).
    { rewrite concat_app. cbn [concat]. rewrite app_nil_r, (app_assoc lost), <- (app_assoc (lost ++ _)). exact (hd_once _ _ _ _ _ _ _ Hh). }
    apply (step_of_holder i id _ _ txs None pool pool (srv s) s Hinv Hi Hall St Hh (built s ++ [txs]) Hp Ho2).
    right. right. exists [], None. split; [apply st_members|]. split; [exact (hd_lock _ _ _ _ _ _ _ Hh)|done|exact Ho2].
  - cbn in Hd. rewrite Hp in Hd. destruct Hd as [-> ->]. split; [done|]. exists (pool ++ [tx]). cbn [srv built queued procs].
    split_and!; [..|intros j x Hj; apply proc_inv_grow; [by rewrite lookup_put_list_ne|exact (Hall j x Hj)]].
    + by rewrite lookup_put_list.
    + rewrite app_assoc. by apply submseteq_app.
  - pose proof (documented_frame _ _ _ _ BUILDER_LOCK Hd (not_eq_sym H1)) as F1.
    pose proof (documented_frame _ _ _ _ txPoolKey Hd (not_eq_sym H2)) as F2.
    split; [done|]. exists pool. cbn [srv built queued procs]. rewrite F2. split_and!; [exact Hp|exact Ho|].
    intros j x Hj. pose proof (proc_inv_grow pool [] s m x F1 (Hall j x Hj)) as G. by rewrite !app_nil_r in G.
Qed.

Lemma cluster_steps_inv s s' : rtc cluster_step s s' → cluster_inv s → cluster_inv s'.
Proof. induction 1 as [|s1 s2 s3 S _ IH]; intros H; [exact H|]. apply IH. by apply (cluster_step_inv s1). Qed.
End invariant.

(** ** What the cluster keeps *)

(** Processes of different names, none of them at work yet, and a queue of whatever was queued
    before; the lock may be left over from an earlier run. *)
Definition cluster_start (s : Cluster) : Prop :=
  NoDup (pr_id <$> procs s) ∧ ("" ∉ pr_id <$> procs s) ∧ Forall (λ x, pr_prog x = Done) (procs s) ∧
  built s = [] ∧ list_value (srv s !! txPoolKey) = Some (queued s).

(** A process between the lock it took and the end of its release. *)
Definition in_section (x : Proc) : Prop := pr_prog x ≠ Done ∧ pr_prog x ≠ p_generateNewBlock (pr_id x).

Lemma cluster_start_inv s : cluster_start s → cluster_inv [] s.
Proof.
  intros (Hn & Hne & Hd & Hb & Hp). split; [done|]. exists (queued s). rewrite Hb. split_and!; [exact Hp|done|].
  intros i x Hx. left. exact (Forall_lookup_1 _ _ _ _ Hd Hx).
Qed.

(** C18: at most one process of the root node builds a block at a time, however the commands of
    any number of processes interleave, with each other and with anything else that is
    sent to the server but for another use of the lock's key: the processes past
    [tryLock] and not yet through [releaseLock] are one and the same. *)
Theorem one_builder s s' i j x y :
  txPoolKey ≠ BUILDER_LOCK →
  (∀ last txs, Forall (λ kv, kv.1 ≠ BUILDER_LOCK ∧ kv.1 ≠ txPoolKey) (blocks_of last txs)) →
  cluster_start s → rtc cluster_step s s' →
  procs s' !! i = Some x → procs s' !! j = Some y → in_section x → in_section y → i = j.
Proof.
  intros H1 H2 Hs S Hi Hj [Hx1 Hx2] [Hy1 Hy2].
  destruct (cluster_steps_inv H1 H2 [] s s' S (cluster_start_inv s Hs)) as [[Hn _] (pool & _ & _ & Hall)].
  destruct (Hall i x Hi) as [|[|(l & rd & _ & Hh)]]; [contradiction..|].
  destruct (Hall j y Hj) as [|[|(l' & rd' & _ & Hh')]]; [contradiction..|].
  apply (same_id_same_place s' i j x y Hn Hi Hj). exact (holding_id _ _ _ _ _ _ _ _ _ _ _ _ _ _ Hh Hh').
Qed.

(** C19: no transaction is put into two blocks, or into a block while it stays queued, unless it
    was queued twice: in every reachable state the blocks and the queue together hold no
    transaction more often than it was queued. *)
Theorem queued_once_built_once s s' :
  txPoolKey ≠ BUILDER_LOCK →
  (∀ last txs, Forall (λ kv, kv.1 ≠ BUILDER_LOCK ∧ kv.1 ≠ txPoolKey) (blocks_of last txs)) →
  cluster_start s → rtc cluster_step s s' →
  ∃ pool, list_value (srv s' !! txPoolKey) = Some pool ∧ concat (built s') ++ pool ⊆+ queued s'.
Proof.
  intros H1 H2 Hs S.
  destruct (cluster_steps_inv H1 H2 [] s s' S (cluster_start_inv s Hs)) as [_ (pool & Hp & Ho & _)].
  by exists pool.
Qed.

(** Only a process with the lock reads the queue. *)
Lemma range_stage id l rd k :
  stage id l rd (Send (CLRange txPoolKey) k) →
  l = [] ∧ ∃ last, k = λ r, let (st, ms) := array_result [] r in
    if bool_decide (st = kStatusOK) then p_Delete txPoolKey (λ ok, if ok && negb (bool_decide (ms = []))
      then p_build last ms (p_releaseLock id BUILDER_LOCK Done) else p_releaseLock id BUILDER_LOCK Done)
    else p_releaseLock id BUILDER_LOCK Done.
Proof.
  intros St. remember (Send _ k) as p eqn:Ep. destruct St as [|last|last rl|l kvs Hkvs| | |]; try discriminate Ep.
  - injection Ep as <-. split; [done|]. by exists last.
  - destruct kvs as [|[key v] kvs]; discriminate Ep.
Qed.

(** The queue is deleted after [l] was read from it and [tx] queued behind: [tx] is lost. *)
Lemma deleted_unread i id p l tx last m s :
  cluster_inv [] s → list_value (srv s !! txPoolKey) = Some (l ++ [tx]) → txPoolKey ≠ BUILDER_LOCK →
  (∀ last txs, Forall (λ kv, kv.1 ≠ BUILDER_LOCK ∧ kv.1 ≠ txPoolKey) (blocks_of last txs)) →
  procs s !! i = Some (mkProc id p) → srv s !! BUILDER_LOCK = Some (VStr id) → m = delete txPoolKey (srv s) →
  cluster_inv [tx] (with_proc i (if negb (bool_decide (l = []))
    then p_build last l (p_releaseLock id BUILDER_LOCK Done) else p_releaseLock id BUILDER_LOCK Done) m s).
Proof.
  intros [[Hn Hne] (pool & Hp & Ho & Hall)] Hl H1 H2 Hi Hk ->. rewrite Hl in Hp. injection Hp as <-.
  assert (Hk' : delete txPoolKey (srv s) !! BUILDER_LOCK = Some (VStr id)) by (by rewrite lookup_delete_ne).
  assert (Ho1 : ([tx] ++ concat (built s)) ++ l ++ [] ⊆+ queued s).
  { etrans; [|exact Ho]. rewrite app_nil_r. apply Permutation_submseteq. solve_Permutation. }
  split; [by rewrite with_proc_ids|]. exists []. split_and!; [cbn; by rewrite lookup_delete_eq|exact (once_drop _ _ _ _ Ho1)|].
  intros j x Hj. destruct (with_proc_lookup _ _ _ _ _ _ _ _ Hi Hj) as [[-> ->]|[Hji Hj']].
  - right. right. destruct (bool_decide_reflect (l = [])) as [->|Hne']; cbn [negb].
    + exists [], None. split; [apply st_release|]. by split.
    + exists l, None. split; [apply st_store, H2|]. by split.
  - destruct (Hall j x Hj') as [H|[H|(l' & rd' & _ & [Hk2 _ _])]]; [by left|by right; left|].
    destruct Hji. apply (same_id_same_place s j i x _ Hn Hj' Hi). cbn. congruence.
Qed.

(** C20: [deQueueAll] loses what is queued while it works: a transaction that is queued after a
    builder has read the queue and before it has deleted it is gone for good.  Whatever the
    cluster does later, the blocks and the queue hold one transaction less than was queued. *)
Theorem queued_meanwhile_lost s0 s1 s2 s3 s4 s5 i id k k' r1 m1 tx r2 m2 r3 m3 :
  txPoolKey ≠ BUILDER_LOCK →
  (∀ last txs, Forall (λ kv, kv.1 ≠ BUILDER_LOCK ∧ kv.1 ≠ txPoolKey) (blocks_of last txs)) →
  cluster_start s0 → rtc cluster_step s0 s1 →
  procs s1 !! i = Some (mkProc id (Send (CLRange txPoolKey) k)) →
  documented (CLRange txPoolKey) (srv s1) r1 m1 → s2 = with_proc i (k r1) m1 s1 →
  documented (CRPush txPoolKey [tx]) (srv s2) r2 m2 → status_of_integer r2 = kStatusOK →
  s3 = mkCluster m2 (procs s2) (queued s2 ++ [tx]) (built s2) →
  k r1 = Send (CDel txPoolKey) k' → documented (CDel txPoolKey) (srv s3) r3 m3 → s4 = with_proc i (k' r3) m3 s3 →
  rtc cluster_step s4 s5 →
  ∃ pool, list_value (srv s5 !! txPoolKey) = Some pool ∧ tx :: concat (built s5) ++ pool ⊆+ queued s5.
Proof.
  intros H1 H2 Hs S1 Hi D1 E2 D2 Hr2 E3 Ek D3 E4 S5.
  pose proof (cluster_steps_inv H1 H2 [] _ _ S1 (cluster_start_inv _ Hs)) as I1.
  assert (I2 : cluster_inv [] s2)
    by (rewrite E2; exact (cluster_step_inv H1 H2 [] _ _ (cs_send _ _ _ _ _ _ _ Hi D1) I1)).
  pose proof I1 as [_ (pool & Hp & _ & Hall)].
  destruct (Hall i _ Hi) as [H|[H|(l & rd & St & [Hk _ _])]]; [discriminate H..|].
  cbn [pr_id pr_prog] in *. destruct (range_stage _ _ _ _ St) as (-> & last & ->). pose proof D1 as D1'. cbn in D1'. rewrite Hp in D1'.
  destruct D1' as [-> ->].
  assert (I3 : cluster_inv [] s3).
  { subst s3. apply (cluster_step_inv H1 H2 [] s2); [|exact I2]. exact (cs_enqueue _ _ _ _ D2 Hr2). }
  assert (Hi2 : procs s2 !! i = Some (mkProc id (Send (CDel txPoolKey) k'))).
  { subst s2. cbn. rewrite list_lookup_alter_eq, Hi. cbn [fmap option_fmap option_map pr_id]. by rewrite <- Ek. }
  assert (Hk' : k' = λ r, if negb (bool_decide (pool = [])) then p_build last pool (p_releaseLock id BUILDER_LOCK Done)
    else p_releaseLock id BUILDER_LOCK Done).
  { cbn [array_result] in Ek. rewrite push_strings in Ek. cbn [app] in Ek.
    rewrite bool_decide_eq_true_2 in Ek by reflexivity. by injection Ek as <-. }
  subst k'. cbn in D2. subst s2. cbn [srv with_proc] in D2. rewrite Hp in D2. destruct D2 as [_ ->].
  destruct D3 as [_ ->]. subst s4.
  assert (I4 : cluster_inv [tx] (with_proc i ((λ r, if negb (bool_decide (pool = []))
     then p_build last pool (p_releaseLock id BUILDER_LOCK Done) else p_releaseLock id BUILDER_LOCK Done) r3)
     (delete txPoolKey (srv s3)) s3)).
  { eapply (deleted_unread i id _ pool tx last _ s3 I3); [|exact H1|exact H2| | |done]; subst s3; cbn [srv procs].
    - by rewrite lookup_put_list.
    - exact Hi2.
    - by rewrite lookup_put_list_ne. }
  destruct (cluster_steps_inv H1 H2 [tx] _ _ S5 I4) as [_ (pool5 & Hp5 & Ho5 & _)].
  by exists pool5.
Qed.

End builder.

(** ** Schedules: the server in memory answers, in the order given *)

Inductive event := ERun (i : nat) | EEnqueue (tx : string).

Section schedules.
Context (lastBlockKey txPoolKey childNodesKey : string).
Context (blocks_of : string → list string → list (string * string)).

Definition do_event (e : event) (s : Cluster) : Cluster :=
  match e with
  | ERun i =>
      match procs s !! i with
      | Some (mkProc id Done) =>
          with_proc i (p_generateNewBlock lastBlockKey txPoolKey childNodesKey blocks_of id) (srv s) s
      | Some (mkProc id (Send c k)) => let (r, m) := exec c (srv s) in with_proc i (k r) m s
      | Some (mkProc id (Built txs k)) =>
          mkCluster (srv s) (procs (with_proc i k (srv s) s)) (queued s) (built s ++ [txs])
      | None => s
      end
  | EEnqueue tx =>
      let (r, m) := exec (CRPush txPoolKey [tx]) (srv s) in
      if bool_decide (status_of_integer r = kStatusOK) then mkCluster m (procs s) (queued s ++ [tx]) (built s) else s
  end.

Definition run_schedule (es : list event) (s : Cluster) : Cluster := foldl (λ s e, do_event e s) s es.

(** Every schedule is a run of the cluster. *)
Lemma run_schedule_steps es s :
  rtc (cluster_step lastBlockKey txPoolKey childNodesKey blocks_of) s (run_schedule es s).
Proof.
  revert s. induction es as [|e es IH]; intros s; [constructor|]. cbn [run_schedule foldl].
  etrans; [|apply IH]. destruct e as [i|tx]; cbn [do_event].
  - destruct (procs s !! i) as [[id [|c k|txs k]]|] eqn:Hi; [| | |constructor].
    + apply rtc_once. by apply cs_start.
    + destruct (exec c (srv s)) as [r m] eqn:E. apply rtc_once. apply (cs_send _ _ _ _ i id c); [exact Hi|].
      pose proof (exec_documented c (srv s)) as D. by rewrite E in D.
    + apply rtc_once. by apply (cs_built _ _ _ _ i id).
  - destruct (exec (CRPush txPoolKey [tx]) (srv s)) as [r m] eqn:E.
    destruct (bool_decide_reflect (status_of_integer r = kStatusOK)) as [Hr|_]; [|constructor].
    apply rtc_once. apply (cs_enqueue _ _ _ _ tx r); [|exact Hr].
    pose proof (exec_documented (CRPush txPoolKey [tx]) (srv s)) as D. by rewrite E in D.
Qed.
End schedules.

(** *** Two processes; one transaction is queued before they start *)

Definition wlast : string := "LAST_BLOCK".
Definition wtxpool : string := "TX_POOL".
Definition wchildren : string := "CHILD_NODES".
Definition wblocks (last : string) (txs : list string) : list (string * string) := [("b1", "block")]%string.

Definition wcluster : Cluster :=
  mkCluster {[ wtxpool := VList ["t1"%string] ]} [mkProc "1" Done; mkProc "2" Done] ["t1"%string] [].

Definition wrun : list event → Cluster → Cluster := run_schedule wlast wtxpool wchildren wblocks.

Lemma wcluster_start : cluster_start wtxpool wcluster.
Proof.
  split_and!; [decide_by_compute|decide_by_compute|by repeat constructor|reflexivity|reflexivity].
Qed.
Lemma wblocks_elsewhere last txs :
  Forall (λ kv : string * string, kv.1 ≠ BUILDER_LOCK ∧ kv.1 ≠ wtxpool) (wblocks last txs).
Proof. repeat constructor; discriminate. Qed.

(** The first process has the lock, the second was refused. *)
Example second_refused :
  pr_prog <$> procs (wrun [ERun 0; ERun 1; ERun 0; ERun 1] wcluster) !! 1%nat = Some Done.
Proof. vm_compute. reflexivity. Qed.

(** A run to the end, alone: the block holds what was queued. *)
Example alone_builds :
  built (wrun (replicate 12 (ERun 0)) wcluster) = [["t1"%string]].
Proof. vm_compute. reflexivity. Qed.

Lemma one_builder_witness :
  ∃ x, procs (wrun [ERun 0; ERun 1; ERun 0; ERun 1] wcluster) !! 0%nat = Some x ∧ 0%nat = 0%nat.
Proof.
  destruct (procs (wrun [ERun 0; ERun 1; ERun 0; ERun 1] wcluster) !! 0%nat) as [x|] eqn:Hx;
    [|vm_compute in Hx; discriminate].
  assert (Hin : in_section wlast wtxpool wchildren wblocks x).
  { vm_compute in Hx. injection Hx as <-. split; discriminate. }
  exists x. split; [reflexivity|].
  apply (one_builder wlast wtxpool wchildren wblocks wcluster (wrun [ERun 0; ERun 1; ERun 0; ERun 1] wcluster) 0 0 x x).
  - discriminate.
  - exact wblocks_elsewhere.
  - exact wcluster_start.
  - apply run_schedule_steps.
  - exact Hx.
  - exact Hx.
  - exact Hin.
  - exact Hin.
Defined.

Lemma queued_once_built_once_witness :
  ∃ pool, list_value (srv (wrun (replicate 12 (ERun 0)) wcluster) !! wtxpool) = Some pool ∧
    concat [["t1"%string]] ++ pool ⊆+ ["t1"%string].
Proof.
  apply (queued_once_built_once wlast wtxpool wchildren wblocks wcluster (wrun (replicate 12 (ERun 0)) wcluster)).
  - discriminate.
  - exact wblocks_elsewhere.
  - exact wcluster_start.
  - apply run_schedule_steps.
Defined.

(** The first process has read the queue; "t2" is queued; the queue is deleted. *)
Definition wread : Cluster := wrun [ERun 0; ERun 0; ERun 0] wcluster.
Definition wdeleted : Cluster := wrun [ERun 0; EEnqueue "t2"; ERun 0] wread.

Lemma queued_meanwhile_lost_witness :
  ∃ pool, list_value (srv (wrun (replicate 8 (ERun 0)) wdeleted) !! wtxpool) = Some pool ∧
    "t2"%string :: concat (built (wrun (replicate 8 (ERun 0)) wdeleted)) ++ pool ⊆+ ["t1"; "t2"]%string.
Proof.
  eapply (queued_meanwhile_lost wlast wtxpool wchildren wblocks wcluster wread (wrun [ERun 0] wread)
    (wrun [ERun 0; EEnqueue "t2"] wread) wdeleted (wrun (replicate 8 (ERun 0)) wdeleted) 0 "1" _ _
    (RArray [RString "t1"]) (srv wread) "t2" (RInteger 2) (srv (wrun [ERun 0; EEnqueue "t2"] wread))
    (RInteger 1) (srv wdeleted)).
  - discriminate.
  - exact wblocks_elsewhere.
  - exact wcluster_start.
  - apply run_schedule_steps.
  - reflexivity.
  - split; reflexivity.
  - reflexivity.
  - vm_compute. split; reflexivity.
  - reflexivity.
  - reflexivity.
  - reflexivity.
  - split; [by eexists|]. reflexivity.
  - reflexivity.
  - apply run_schedule_steps.
Defined.
