(* ===== verification/Reactor.v ===== *)
(** * Reactor.v: the connections of a process in its event loop

    The loop of Events.v over the connection manager of ConnMgr.v: a ready handler is a
    connection, a timer is one or the manager's own.  What [EventEpoll::poll] does with the
    pointer of a connection that its own read event has deleted. *)

From S2P Require Import Prelude BlockBuffer ByteStream Sender Socket Connection Timer ConnMgr Events.
From Stdlib Require Import Lia.
Open Scope Z_scope.

#[global] Instance Handler_countable : Countable Handler.
Proof.
  refine (inj_countable' (λ x, match x with HMgr => None | HConn p => Some p end)
    (λ y, match y with None => HMgr | Some p => HConn p end) _). by intros [].
Defined.

Section reactor.
Context (h : Heap) (is_writer : bool) (onData : list byte → M Conn Z).

(** A step of the manager inside the loop. *)
Definition on_prog {A} (m : M Mgr A) : M (LoopState Handler Mgr) A := λ s,
  let (r, p) := m (prog s) in
  (r, mkLoop (lp_socks s) (_sockets s) (interest s) (lp_timers s) (m_elapsed s) (Events._status s) (_substatus s) p).

(** The virtual [doEvent]: [TcpSock::doEvent] of a connection, [LazyDelConnManager::doEvent]. *)
Definition handler_doEvent (x : Handler) (ev : Z) : M (LoopState Handler Mgr) unit :=
  match x with
  | HConn p => on_prog (conn_event is_writer p (tcp_doEvent h onData ev))
  | HMgr => on_prog (lazy_doEvent is_writer)
  end.

(** A read event that finds the end of the stream deletes the connection. *)
Lemma eof_deletes p o r rest s :
  mgr_wf is_writer s → heap s !! p = Some o → isConnected (sock (net (co_conn o))) = true →
  script (net (co_conn o)) = r :: rest → sr_ret r ≠ -1 → sr_data r = [] →
  ∃ s', conn_event is_writer p (tcp_doEvent h onData EVENT_READ) s = (Ok tt, s') ∧ heap s' = delete p (heap s).
Proof.
  intros Hs Ho Hc Hsc Hr Hd.
  destruct (onRead_eof h onData (load_conn s (co_conn o)) r rest) as (c & E & _ & Hn); [exact Hsc|exact Hr|exact Hd|].
  assert (E' : tcp_doEvent h onData EVENT_READ (load_conn s (co_conn o)) = (Ok tt, c)).
  { unfold tcp_doEvent, tcp_doEvent_in. erewrite bind_Ok by reflexivity. cbn [net load_conn]. by rewrite Hc. }
  set (s1 := store_conn p o c s). set (o1 := mkCO (co_id o) (co_serialId o) (co_peerIp o) (co_peerPort o) c).
  assert (Hs1 : mgr_wf is_writer s1).
  { destruct Hs as [W1 W2 W3 W4 W5 W6 W7]. split; cbn; intros *.
    - intros Hi. destruct (W1 _ _ Hi) as (oq & Hq & Hid). destruct (decide (p0 = p)) as [->|Hqp].
      + exists o1. rewrite lookup_insert_eq. split; [done|]. rewrite Ho in Hq. by injection Hq as <-.
      + exists oq. by rewrite lookup_insert_ne.
    - rewrite lookup_insert_Some. intros [[<- <-]|[_ Hq]]; [exact (W2 _ _ Ho)|exact (W2 _ _ Hq)].
    - apply W3.
    - rewrite lookup_insert_Some. intros [[<- _]|[_ Hq]]; [exact (W4 _ _ Ho)|exact (W4 _ _ Hq)].
    - apply W5.
    - apply W6.
    - exact W7. }
  destruct (eraseConnection_run is_writer p o1 s1 Hs1) as (s2 & E2 & Hh & _); [apply lookup_insert_eq|].
  exists s2. split.
  - erewrite conn_event_run by (exact Ho || exact E'). rewrite Hn. cbn [notices load_conn].
    rewrite drop_app_length. cbn [handle_notices handle_notice]. fold s1. by erewrite bind_Ok by exact E2.
  - rewrite Hh. unfold s1. cbn. by rewrite delete_insert_eq.
Qed.

(** C35: one entry of [epoll_wait] may report a connection both readable and writable; when its
    read event finds the end of the stream the manager deletes the connection, and [poll]
    goes on to call the write event on the deleted object. *)
Theorem poll_calls_deleted p o r rest n s :
  mgr_wf is_writer (prog s) → heap (prog s) !! p = Some o → isConnected (sock (net (co_conn o))) = true →
  script (net (co_conn o)) = r :: rest → sr_ret r ≠ -1 → sr_data r = [] →
  ∃ s', poll handler_doEvent (mkWait n (Some [(HConn p, Z.lor EPOLLIN EPOLLOUT)])) s = (Throw Undefined, s').
Proof.
  intros Hs Ho Hc Hsc Hr Hd.
  assert (Hp : ∀ k (t : LoopState Handler Mgr), prog (clicks k t) = prog t).
  { induction k as [|k IH]; intros t; [done|]. cbn [clicks]. by rewrite IH. }
  unfold poll. erewrite bind_Ok by reflexivity. cbn [w_ready w_clicks poll_events].
  set (t := clicks n s). pose proof (Hp n s) as Ht. fold t in Ht.
  change (has (Z.lor EPOLLIN EPOLLOUT) _) with true. change (has (Z.lor EPOLLIN EPOLLOUT) EPOLLOUT) with true. cbn match.
  rewrite <- Ht in *. destruct (eof_deletes p o r rest (prog t) Hs Ho Hc Hsc Hr Hd) as (m & E & Hm).
  rewrite bind_assoc. erewrite bind_Ok by (unfold handler_doEvent, on_prog; rewrite E; reflexivity).
  eexists. erewrite bind_Throw; [reflexivity|]. erewrite bind_Throw; [reflexivity|].
  unfold handler_doEvent, on_prog, conn_event. cbn [prog]. erewrite bind_Throw; [reflexivity|].
  unfold deref. by rewrite Hm, lookup_delete_eq.
Qed.
End reactor.

(** *** A connection just accepted, whose peer has closed *)

Definition waccepted : M Mgr positive := createServerSideConn (λ _, repeat (mkRes 0 0 0 0 []) 8) 0 true 9 16777226 80.
Definition wmanager : Mgr := (waccepted new_Mgr).2.

Lemma wmanager_wf : mgr_wf false wmanager.
Proof.
  destruct (waccepted new_Mgr) as [r s'] eqn:E. unfold wmanager. rewrite E.
  refine (proj1 (keeps_createServer _ _ _ _ _ _ _ _ _ _ _ _ E)); [apply new_Mgr_wf|]. cbn. lia.
Qed.

Lemma poll_calls_deleted_witness :
  ∃ s', poll (handler_doEvent wheap false (λ _, mret 0))
    (mkWait 1 (Some [(HConn 1, Z.lor EPOLLIN EPOLLOUT)])) (new_IOLoop wmanager) = (Throw Undefined, s').
Proof.
  destruct (heap wmanager !! 1%positive) as [o|] eqn:Ho; [|vm_compute in Ho; discriminate].
  apply (poll_calls_deleted wheap false (λ _, mret 0) 1 o (mkRes 0 0 0 0 [])
    (tail (script (net (co_conn o))))).
  - exact wmanager_wf.
  - exact Ho.
  - vm_compute in Ho. injection Ho as <-. reflexivity.
  - vm_compute in Ho. injection Ho as <-. reflexivity.
  - discriminate.
  - reflexivity.
Defined.
