(* ===== verification/Boot.v ===== *)
(** * Boot.v: exceptions of the network layer, the state of the loop, and how it is made

    [core/xnet/Exception.h], [core/xnet/Exception.cpp], [core/xnet/ServerStatus.h], the
    constructors and destructors of [core/xnet/IOLoop.cpp], and the pointers of
    [core/xnet/env.h].  The calls of the system are a log with a script of answers, as in
    Socket.v; here an answer is the value returned and the [errno] it leaves. *)

From S2P Require Import Prelude Cnum Timer Events.
From Stdlib Require Import Lia.
Open Scope Z_scope.

(** ** Exception *)

Record Exception := mkExn { m_errno : Z; m_what : string; m_bstrerror : bool }.

(** [Exception(e, str)] *)
Definition Exception_new (e : Z) (str : string) : Exception := mkExn e str false.
(** [Exception(str)] keeps the [errno] of the moment. *)
Definition Exception_last (errno : Z) (str : string) : Exception := Exception_new errno str.

Definition what_errno (x : Exception) : Z := m_errno x.

Section what.
(** The C library's [strerror]. *)
Context (strerror : Z → string).

(** [snprintf] into [str], which has 128 bytes and is given 127. *)
Definition what_text (errno : Z) : string := String.substring 0 126 (dec_string errno +:+ " " +:+ c_string (strerror errno)).

(** [what_str]; [errno] is the variable at the time of the call. *)
Definition what_str (errno : Z) : M Exception string := λ x,
  if m_bstrerror x then (Ok (m_what x), x)
  else
    let x := mkExn (m_errno x) (m_what x) true in
    if what_errno x =? 0 then (Ok (m_what x), x)
    else
      let x := mkExn (m_errno x) (m_what x +:+ " - " +:+ what_text errno) true in
      (Ok (m_what x), x).
Definition what (errno : Z) : M Exception string := w ← what_str errno; mret (c_string w).

(** The text is made once: later calls give it again, whatever [errno] has become. *)
Lemma what_str_once errno errno' x : (what_str errno ;; what_str errno') x = what_str errno x.
Proof. unfold mbind, M_bind, what_str. destruct (m_bstrerror x) eqn:E; [by rewrite E|]. by destruct (what_errno _ =? 0). Qed.

(** The number in the text is the [errno] of the first call of [what_str], and not the
    one the exception was made with. *)
Lemma what_names_later_errno e errno str :
  e ≠ 0 → (what_str errno (Exception_new e str)).1 = Ok (str +:+ " - " +:+ what_text errno).
Proof. intros He. unfold what_str. cbn. by destruct (Z.eqb_spec e 0). Qed.

(** Without an error number the text is the one given. *)
Lemma what_plain errno str : (what_str errno (Exception_new 0 str)).1 = Ok str.
Proof. done. Qed.
End what.

(** A connection reset, reported after the descriptor was closed with [errno] EBADF. *)
Example what_wrong_number :
  (what_str (λ e, if e =? 104 then "Connection reset by peer"%string else "Bad file descriptor"%string) 9
    (Exception_new 104 "recv")).1 = Ok "recv - 9 Bad file descriptor"%string.
Proof. vm_compute. reflexivity. Qed.

(** ** ServerStatus *)

(** The names follow the cases of the switch: two states have none. *)
Definition StatusToString (s : Status) : string :=
  match s with
  | kNull => "kNull" | kInitialized => "kInitialized" | kRunning => "kRunning"
  | kStopping => "kStopping" | kStopped => "kStopped"
  | _ => "Unknown"
  end.

Section status.
Context {H P : Type} `{Countable H}.
Definition isStopped (s : LoopState H P) : bool := bool_decide (_status s = kStopped).
Definition isStopping (s : LoopState H P) : bool := bool_decide (_status s = kStopping).
End status.

(** ** The event engine *)

Inductive BCall :=
  | BSignal (sig : Z)
  | BSetitimer (sec usec value_sec value_usec : Z)
  | BEpollCreate (size : Z)
  | BClose (fd : Z).
Definition SIGALRM : Z := 14.
Definition SIG_ERR : Z := -1.
Record Boot := mkBoot { blog : list BCall; bscript : list (Z * Z) }.
Definition bcall (c : BCall) : M Boot (Z * Z) := λ b,
  (Ok (hd (0, 0) (bscript b)), mkBoot (blog b ++ [c]) (tl (bscript b))).

(** What is made, or the exception thrown. *)
Definition made (A : Type) : Type := Exception + A.

(** [EventEpoll(size)]: the descriptor. *)
Definition EventEpoll_new (size : Z) : M Boot (made Z) :=
  let sec := TIME_CLICK / 1000 in
  let usec := (TIME_CLICK mod 1000) * 1000 in
  r ← bcall (BSignal 13);
  if r.1 =? SIG_ERR then mret (inl (Exception_last r.2 "signal"))
  else
    r ← bcall (BSignal SIGALRM);
    if r.1 =? SIG_ERR then mret (inl (Exception_last r.2 "signal"))
    else
      r ← bcall (BSetitimer sec usec sec usec);
      if r.1 =? -1 then mret (inl (Exception_last r.2 "setitimer"))
      else
        r ← bcall (BEpollCreate size);
        if r.1 =? -1 then mret (inl (Exception_last r.2 "epoll"))
        else mret (inr r.1).
Definition EventEpoll_destroy (epollFd : Z) : M Boot unit :=
  if negb (epollFd =? -1) then bcall (BClose epollFd) ;; mret tt else mret tt.

Definition ENOENT : Z := 2.
Definition EBADF : Z := 9.
Definition ENOMEM : Z := 12.
Definition EEXIST : Z := 17.
Definition EPERM : Z := 1.
Definition EINVAL : Z := 22.

(** [setupEpoll], given what [epoll_ctl] returns and its [errno]: it only logs, and goes on
    as after a success. *)
Definition setupEpoll (ret errno : Z) : option string :=
  if ret =? 0 then None
  else if errno =? EBADF then Some "epfd or fd is not a valid file descriptor."%string
  else if errno =? EEXIST then
    Some "was EPOLL_CTL_ADD, and the supplied file descriptor fd is already in epfd."%string
  else if errno =? EINVAL then
    Some "epfd is not an epoll file descriptor, or fd is the same as epfd, or the requested operation op is not supported by this interface."%string
  else if errno =? ENOENT then Some "op was EPOLL_CTL_MOD or EPOLL_CTL_DEL, and fd is not in epfd. "%string
  else if errno =? ENOMEM then Some "There was insufficient memory to handle the requested op control operation."%string
  else if errno =? EPERM then Some "The target file fd does not support epoll."%string
  else None.

(** ** IOLoop *)

(** The two objects of a loop: the engine, by its descriptor, and whether there are timers. *)
Record Engines := mkEngines { _eventEngine : option Z; _timerMgmt : bool }.

(** [IOLoop::start] *)
Definition IOLoop_start : M Boot (made Engines) :=
  r ← EventEpoll_new 65535;
  mret (match r with inl e => inl e | inr fd => inr (mkEngines (Some fd) true) end).

Section loop.
Context {H P : Type} `{Countable H}.

(** [IOLoop()]: the loop of Events.v beside its engines. *)
Definition IOLoop_new (p : P) : M Boot (made (LoopState H P * Engines)) :=
  r ← IOLoop_start;
  mret (match r with inl e => inl e | inr g => inr (new_IOLoop p, g) end).
Definition IOLoop_destroy (g : Engines) : M Boot Engines :=
  (match _eventEngine g with Some fd => EventEpoll_destroy fd | None => mret tt end) ;;
  mret (mkEngines None false).

(** The pointers of [env]: a loop replaces the one before, a signal handler is set once. *)
Record Env (L : Type) := mkEnv { env_loop : option L; env_signal : option Z }.
End loop.
Arguments mkEnv {L}.
Arguments env_loop {L}.
Arguments env_signal {L}.

Definition env_ioLoop {L} (l : option L) : M (Env L) unit := modify (λ e, mkEnv l (env_signal e)).
Definition env_signalHandler {L} (handler : option Z) : M (Env L) (option Z) := λ e,
  let h := match env_signal e with Some p => Some p | None => handler end in
  (Ok h, mkEnv (env_loop e) h).

(** [epoll_timer_click], the handler of SIGALRM *)
Definition epoll_timer_click {H P} `{Countable H} : M (Env (LoopState H P)) unit := modify (λ e,
  mkEnv (increase_elapsed TIME_CLICK <$> env_loop e) (env_signal e)).
(** [EventHandler::addTimer]: without a loop nothing happens. *)
Definition EventHandler_addTimer {H P} `{Countable H} (h : H) (timeout : Z) : M (Env (LoopState H P)) unit := λ e,
  match env_loop e with
  | Some l => let (r, l') := loop_addTimer timeout h l in (r, mkEnv (Some l') (env_signal e))
  | None => (Ok tt, e)
  end.
(** [epoll_pipe_handler], the handler of SIGPIPE, counts. *)
Definition epoll_pipe_handler (pipe_err : Z) : Z := pipe_err + 1.

(** The call that just failed is the one reported. *)
Local Ltac loop_call_fails E sc := eexists _, _; split; [reflexivity|]; cbn; split; [done|]; split; [set_solver|];
  eexists _, _; split; [|split; [exact E|reflexivity]]; rewrite <- surjective_pairing;
  repeat (destruct sc as [|? sc]; [by cbn in E|]; cbn; try (by left); right).

(** A loop is made exactly when the four calls succeed; an exception names the call that
    failed and carries its [errno], and leaves no descriptor behind. *)
Lemma IOLoop_new_cases {H P} `{Countable H} (p : P) b :
  ∃ r b', IOLoop_new (H:=H) p b = (Ok r, b') ∧
    match r with
    | inr (l, g) => _status l = kInitialized ∧
        blog b' = blog b ++ [BSignal 13; BSignal SIGALRM; BSetitimer 0 500000 0 500000; BEpollCreate 65535] ∧
        ∃ fd, fd ≠ -1 ∧ _eventEngine g = Some fd ∧ IOLoop_destroy g b' =
          (Ok (mkEngines None false), mkBoot (blog b' ++ [BClose fd]) (tl (bscript b')))
    | inl e => m_bstrerror e = false ∧ m_what e ∈ ["signal"; "setitimer"; "epoll"]%string ∧
        ∃ ret errno, (ret, errno) ∈ bscript b ∧ ret = -1 ∧ m_errno e = errno
    end.
Proof.
  destruct b as [lg sc]. cbn [bscript blog]. unfold IOLoop_new, IOLoop_start, EventEpoll_new, SIG_ERR.
  erewrite !bind_assoc, bind_Ok by reflexivity. cbn beta iota. cbn [bscript blog].
  destruct (Z.eqb_spec (hd (0, 0) sc).1 (-1)) as [E|_]; [loop_call_fails E sc|].
  erewrite !bind_assoc, bind_Ok by reflexivity. cbn beta iota. cbn [bscript blog].
  destruct (Z.eqb_spec (hd (0, 0) (tl sc)).1 (-1)) as [E|_]; [loop_call_fails E sc|].
  erewrite !bind_assoc, bind_Ok by reflexivity. cbn beta iota. cbn [bscript blog].
  destruct (Z.eqb_spec (hd (0, 0) (tl (tl sc))).1 (-1)) as [E|_]; [loop_call_fails E sc|].
  erewrite !bind_assoc, bind_Ok by reflexivity. cbn beta iota. cbn [bscript blog].
  destruct (Z.eqb_spec (hd (0, 0) (tl (tl (tl sc)))).1 (-1)) as [E|Hfd]; [loop_call_fails E sc|].
  eexists _, _. split; [reflexivity|]. cbn. split; [done|]. split; [by rewrite <- !app_assoc|].
  eexists. split; [exact Hfd|]. split; [done|]. unfold IOLoop_destroy, EventEpoll_destroy. cbn.
  destruct (Z.eqb_spec (hd (0, 0) (tl (tl (tl sc)))).1 (-1)); [done|]. done.
Qed.
