(* ===== verification/Wire.v ===== *)
(** * Wire.v: a node on its connections, from socket to socket

    The parts of a node's answer joined as the program joins them: [TcpSock::doEvent],
    [Connection::onRead], [SockBuffer::pump], [Socket::recv], [JsonProtoConsumer::onData],
    [ServerContext::requestDispatch], [FPReqHandler], [FPService], [DirectWriter::answer],
    [Connection::sendBin], [SockBuffer::write] and [Socket::send]; between the events of the
    connections the node's own timer may fire.  The connections are
    behind class [Conns]: the theorems hold for whatever finds a connection under its pointer
    and leaves the others alone.  One connection by itself is an instance here, the
    connection manager is one in Peers.v. *)

From S2P Require Import Prelude Cnum BlockBuffer ByteStream Sender Framing Socket Connection Redis RedisCache Store Proto Config Helper Service Dispatch Handler.
From Stdlib Require Import Lia.
Open Scope Z_scope.

(** The connection's socket; [net] alone is the net change of an account. *)
Abbreviation net := Connection.net.

(** The kernel takes some bytes, or asks to come back later. *)
Definition kernel_ok (r : SysRes) : Prop := sr_ret r ≠ -1 ∨ isIgnoreError (sr_errno r) = true.

(** A connection that is up and may send. *)
Record open_conn (c : Conn) : Prop := {
  oc_sending : sending c;
  oc_connected : isConnected (sock (net c)) = true;
  oc_kernel : Forall kernel_ok (script (net c));
}.

Definition buffered (c : Conn) : Z := zlen (content (output c)).

Lemma open_conn_addEvent r a c : open_conn c → open_conn (addEvent r a c).2.
Proof. intros [[[] ? ?] ? ?]. split; [split; [by split|done|done]|done|done]. Qed.

Section sending.
Context (h : Heap).

Lemma send_ok data w :
  Forall kernel_ok (script w) → ∃ n w', send data w = (Ok n, w') ∧ 0 <= n <= zlen data ∧ Forall kernel_ok (script w').
Proof.
  intros Hk. assert (kernel_ok (hd res_block (script w)) ∧ Forall kernel_ok (tl (script w))) as [Hr Hk'].
  { destruct Hk as [|r l Hr Hl]; [|by split]. split; [by right|constructor]. }
  pose proof (zlen_nonneg data). unfold send. run_sys.
  destruct (Z.eqb_spec (sr_ret (hd res_block (script w))) (-1)) as [E|_].
  - destruct Hr as [Hr|Hr]; [done|]. rewrite Hr. eexists _, _. split; [reflexivity|]. split; [lia|exact Hk'].
  - eexists _, _. split; [reflexivity|]. cbn. split; [lia|exact Hk'].
Qed.

Lemma out_append_ok l c :
  conn_wf c → heap_avail h → buffered c + zlen l <= maxsize →
  ∃ c', out_append h l c = (Ok true, c') ∧ net c' = net c ∧ notices c' = notices c ∧ input c' = input c ∧
    buffered c' = buffered c + zlen l.
Proof.
  intros [Hin Hout] Hh Hm. unfold buffered in *. rewrite length_content in Hm by done.
  pose proof (append_ok h l (output c) (bstats c) Hout Hh Hm) as Ha. unfold out_append.
  destruct (append h l (output c, bstats c)) as [ok [b s]] eqn:E. cbn [fst] in Ha. subst ok.
  apply append_spec in E as [_ Hc]; [|done]. eexists. split; [reflexivity|]. cbn. rewrite Hc, zlen_app. done.
Qed.

(** [sendBin] keeps the connection open, queues what the kernel does not take, and tells the
    handler nothing. *)
Lemma sendBin_ok data c :
  open_conn c → heap_avail h → buffered c + zlen data <= maxsize →
  ∃ c', sendBin h data c = (Ok tt, c') ∧ open_conn c' ∧ out_stream c' = out_stream c ++ data ∧
    input c' = input c ∧ notices c' = notices c ∧ buffered c' <= buffered c + zlen data.
Proof.
  intros [Hs Hc Hk] Hh Hm. pose proof (zlen_nonneg data) as Hd.
  assert (∃ c', write_socket h data c = (Ok tt, c') ∧ Forall kernel_ok (script (net c')) ∧ notices c' = notices c ∧
    buffered c' <= buffered c + zlen data) as (c1 & E & Hk1 & Hn1 & Hb1).
  { unfold write_socket. destruct (Z.eqb_spec (zlen data) 0); [exists c; split_and!; [done|done|done|lia]|].
    assert (filterWrite h data c = (Ok data, c)) as Ef by (unfold filterWrite; by rewrite (snd_plain _ Hs)).
    erewrite bind_Ok by exact Ef. erewrite bind_Ok by reflexivity.
    assert (∃ n w, (if bb_empty (output c) then on_net (send data) else mret 0) c = (Ok n, upd_net w c) ∧
      0 <= n <= zlen data ∧ Forall kernel_ok (script w)) as (n' & w & E1 & Hn & Hkw).
    { destruct (bb_empty (output c)).
      - destruct (send_ok data (net c) Hk) as (n' & w & E & Hn & Hkw). exists n', w. unfold on_net. by rewrite E.
      - exists 0, (net c). split; [by destruct c|]. split; [lia|done]. }
    erewrite bind_Ok by exact E1.
    destruct (out_append_ok (zdrop n' data) (upd_net w c)) as (c2 & E2 & Hw2 & Hn2 & _ & Hb2).
    - destruct (snd_wf _ Hs). by split.
    - done.
    - rewrite zlen_zdrop by lia. change (buffered (upd_net w c)) with (buffered c). lia.
    - erewrite bind_Ok by exact E2. exists c2. split; [done|]. rewrite Hw2, Hn2, Hb2. split_and!; [done|done|].
      rewrite zlen_zdrop by lia. change (buffered (upd_net w c)) with (buffered c). lia. }
  pose proof (write_socket_stream h data c c1 (snd_wf _ Hs) (snd_plain _ Hs) E) as (Hwf & He & Hi & Hen & Hcn & Hst).
  unfold sendBin. erewrite bind_Ok by reflexivity. rewrite (snd_enable _ Hs), Hc. cbn [negb].
  erewrite bind_Ok by exact E. erewrite bind_Ok by reflexivity.
  assert (open_conn c1) as Ho1.
  { split; [split; [done|done|by rewrite Hen, (snd_enable _ Hs)]|by rewrite Hcn|done]. }
  destruct (negb (bb_empty (output c1))).
  - eexists. split; [reflexivity|]. split; [by apply (open_conn_addEvent _ _ c1)|done].
  - exists c1. by split_and!.
Qed.

(** [flush] moves bytes to the kernel and loses none. *)
Lemma onWrite_ok c :
  open_conn c →
  ∃ c', onWrite c = (Ok tt, c') ∧ open_conn c' ∧ out_stream c' = out_stream c ∧ input c' = input c ∧
    notices c' = notices c ∧ buffered c' <= buffered c.
Proof.
  intros [Hs Hc Hk]. pose proof (snd_wf _ Hs) as [Hin Hout].
  set (data := ztake (Z.min npos (m_size (output c))) (content (output c))).
  destruct (send_ok data (net c) Hk) as (n' & w & E & Hn & Hkw).
  assert (zlen data <= m_size (output c)) as Hd.
  { rewrite <- (length_content (output c)) by done. unfold data, zlen, ztake. rewrite length_take. lia. }
  pose proof (erase_spec 0 n' false (output c) (bstats c) Hout ltac:(lia) ltac:(lia)) as He.
  destruct (erase 0 n' false (output c, bstats c)) as [[b s]|] eqn:Ee.
  2: { pose proof (wf_size _ Hout). lia. }
  destruct He as (_ & _ & Hcb).
  assert (flush npos c = (Ok n', upd_output b s (upd_net w c))) as Ef.
  { unfold flush. erewrite bind_Ok by reflexivity. unfold on_net. erewrite bind_Ok by (fold data; rewrite E; reflexivity).
    erewrite bind_Ok by reflexivity. cbn [output bstats upd_net]. rewrite Ee. by erewrite bind_Ok by reflexivity. }
  pose proof (flush_stream npos c n' _ (snd_wf _ Hs) ltac:(done) Ef) as (Hwf & Henc & Hi & Hen & Hcn & Hst).
  unfold onWrite, try_catch. erewrite bind_Ok by exact Ef. erewrite bind_Ok by reflexivity.
  set (c1 := upd_output b s (upd_net w c)) in *.
  assert (open_conn c1) as Ho1.
  { split; [split; [done|by rewrite Henc, (snd_plain _ Hs)|by rewrite Hen, (snd_enable _ Hs)]|by rewrite Hcn|done]. }
  assert (buffered c1 <= buffered c) as Hb.
  { unfold buffered. cbn [c1 output upd_output]. rewrite Hcb, ztake_0. cbn [app].
    pose proof (wf_size _ Hout). rewrite <- (length_content (output c)) in Hd by done.
    rewrite zlen_zdrop; lia. }
  destruct (bb_empty (output c1)).
  - eexists. split; [reflexivity|]. split; [by apply (open_conn_addEvent _ _ c1)|done].
  - exists c1. by split_and!.
Qed.

End sending.

(** ** Reading *)

Section reading.
Context (h : Heap).

Lemma block_pos : 0 <= @requested_size SockBlock.
Proof. cbn. lia. Qed.

(** The answer to a read from a peer that has closed, or reset the connection. *)
Definition event_gone (r : SysRes) : Prop :=
  if sr_ret r =? -1 then sr_errno r ≠ EAGAIN ∧ sr_errno r ≠ EINTR else sr_data r = [].

(** A read of at most half a block finds room, and all of it ends up behind the input. *)
Lemma pump_ok c r sends :
  conn_wf c → heap_avail h → m_size (input c) + 8192 <= maxsize → 0 < zlen (sr_data r) <= 4096 → sr_ret r ≠ -1 →
  script (net c) = r :: sends →
  ∃ b s w, pump h npos c = (Ok (zlen (sr_data r)), upd_input b s (upd_net w c)) ∧ bb_wf b ∧
    content b = content (input c) ++ sr_data r ∧ script w = sends ∧ wire_out w = wire_out (net c) ∧
    isConnected (sock w) = isConnected (sock (net c)).
Proof.
  intros [Hin Hout] Hh Hm Hd Hr Hsc. unfold pump.
  destruct (if (freespace (input c) <? Z.shiftr requested_size 1) && (m_block (input c) <? max_blocks)
            then snd (increase_capacity h requested_size (input c, bstats c)) else (input c, bstats c)) as [b s] eqn:Eb.
  assert (bb_wf b ∧ m_size b = m_size (input c) ∧ content b = content (input c) ∧ 4096 <= freespace b) as (Hb & Hsz & Hct & Hf).
  { destruct (Z.ltb_spec (freespace (input c)) (Z.shiftr requested_size 1)) as [Hlt|Hge]; cbn [andb] in Eb.
    - change (Z.shiftr requested_size 1) with 4096 in Hlt.
      destruct (Z.ltb_spec (m_block (input c)) max_blocks) as [Hb|Hb].
      + pose proof (increase_capacity_ok h requested_size (input c) (bstats c) Hin block_pos Hh Hm) as Hok.
        destruct (increase_capacity h requested_size (input c, bstats c)) as [ok [b1 s1]] eqn:Ei. cbn in Hok, Eb. subst ok.
        injection Eb as -> ->. apply increase_capacity_spec in Ei as (? & ? & ? & Hfree); [|exact Hin|exact block_pos].
        change requested_size with 8192 in Hfree. split_and!; [done..|lia].
      + exfalso. unfold freespace, capacity in Hlt. change requested_size with 8192 in Hlt.
        change max_blocks with 1024 in Hb. change maxsize with (1024 * 8192) in Hm. lia.
    - injection Eb as <- <-. change (Z.shiftr requested_size 1) with 4096 in Hge. by split_and!. }
  cbv zeta. destruct (Z.eqb_spec (freespace b) 0); [lia|].
  assert (4096 <= Z.min npos (freespace b)) as Hmin.
  { change npos with (2 ^ 64 - 1). lia. }
  unfold on_net, recv. cbn [net upd_input]. run_sys. rewrite Hsc. cbn [hd tl].
  destruct (Z.eqb_spec (sr_ret r) (-1)); [done|].
  rewrite (ztake_all _ (sr_data r)) by lia. unfold filterRead. destruct (Z.ltb_spec 0 (zlen (sr_data r))); [|lia].
  eexists _, _, _. split; [reflexivity|]. destruct Hb as [Hmem Hblk Hbs]. unfold freespace, capacity in Hf.
  split; [split; unfold capacity in *; cbn [m_data m_block m_size]; [rewrite zlen_overwrite by lia; exact Hmem|exact Hblk|lia]|].
  split_and!; [|done|done|done]. rewrite <- Hct. unfold content; cbn [m_data m_size]. unfold capacity in *. by rewrite ztake_overwrite_end by lia.
Qed.

(** A peer that is gone: the read ends with nothing, or with the error. *)
Lemma pump_gone c r :
  script (net c) = [r] → event_gone r → ∃ c', notices c' = notices c ∧
    ((∃ k, k <= 0 ∧ pump h npos c = (Ok k, c')) ∨
     (∃ en, en ≠ EAGAIN ∧ en ≠ EINTR ∧ pump h npos c = (Throw (SocketExn en), c'))).
Proof.
  intros Hsc Hr. unfold pump. destruct (if _ : bool then _ else _) as [b s]. cbv zeta.
  destruct (Z.eqb_spec (freespace b) 0).
  { eexists. split; [|left; exists (-1); split; [lia|reflexivity]]. done. }
  unfold on_net, recv. cbn [net upd_input]. run_sys. rewrite Hsc. cbn [hd tl]. unfold event_gone in Hr.
  destruct (Z.eqb_spec (sr_ret r) (-1)) as [E|E].
  - eexists. split; [|right; exists (sr_errno r); destruct Hr; split_and!; [done..|reflexivity]]. done.
  - rewrite Hr. replace (ztake _ []) with (@nil byte) by (unfold ztake; by rewrite take_nil).
    eexists. split; [|left; exists 0; split; [lia|reflexivity]]. done.
Qed.

End reading.

Lemma open_conn_input b s c : open_conn c → bb_wf b → open_conn (upd_input b s c).
Proof. intros [[[] ? ?] ? ?] Hb. split; [split; [by split|done|done]|done|done]. Qed.

Lemma erase_input_ok ret c :
  conn_wf c → 0 <= ret <= m_size (input c) →
  ∃ b s, erase_input ret c = (Ok tt, upd_input b s c) ∧ bb_wf b ∧ content b = zdrop ret (content (input c)).
Proof.
  intros [Hin _] Hr. unfold erase_input. erewrite bind_Ok by reflexivity.
  pose proof (erase_spec 0 ret false (input c) (bstats c) Hin ltac:(lia) ltac:(lia)) as He.
  destruct (erase 0 ret false (input c, bstats c)) as [[b s]|]; [|pose proof (wf_size _ Hin); lia].
  destruct He as (_ & Hb & Hc). exists b, s. split; [done|]. split; [done|]. by rewrite Hc, ztake_0.
Qed.

(** ** The connections of a process

    What the node needs of whatever keeps the connections of its process: a connection is
    found under its pointer, a call of one of its methods changes that connection and, of
    the others, at most the members that are static in the code; its event handler is told
    what the call wants to tell. *)

(** Equal but for the static members: the counters of the buffers and the cipher's buffer. *)
Definition same_conn (c c' : Conn) : Prop :=
  c' = mkConn (net c) (input c) (output c) (bstats c') (input_encrypted c) (output_encrypted c) (writeBuf c')
    (bEnable c) (Connection._timeout c) (timers c) (events c) (notices c).

Class Conns (K C : Type) := {
  conns_ok : C → Prop;            (** the invariant of their keeper *)
  conn_at : K → C → option Conn;
  conn_gone : K → C → Prop;       (** what is left of a connection that has ended *)
  conn_do : ∀ {A}, K → M Conn A → M C A;
  conn_tell : K → list Notice → M C unit;
  node_addTimer : Z → M C unit;
}.

(** Whatever was done to [p], the other connections are still there, or still gone. *)
Definition others {K C} `{Conns K C} (p : K) (s s' : C) : Prop := (conns_ok s → conns_ok s') ∧
  (∀ q, q ≠ p → conn_gone q s → conn_gone q s') ∧
  ∀ q c, q ≠ p → conn_at q s = Some c → ∃ c', conn_at q s' = Some c' ∧ same_conn c c'.

Class ConnsLaw (K C : Type) `{Conns K C} : Prop := {
  conn_do_ok : ∀ {A} p (m : M Conn A) s c r c', conn_at p s = Some c → m c = (r, c') →
    ∃ s', conn_do p m s = (r, s') ∧ conn_at p s' = Some c' ∧ others p s s';
  conn_tell_nil : ∀ p s, conn_tell p [] s = (Ok tt, s);
  conn_tell_end : ∀ p s c x, conns_ok s → conn_at p s = Some c → x ≠ NConnected →
    ∃ s', conn_tell p [x] s = (Ok tt, s') ∧ others p s s' ∧ conn_gone p s';
  node_addTimer_ok : ∀ t s, ∃ s', node_addTimer t s = (Ok tt, s') ∧ (conns_ok s → conns_ok s') ∧
    (∀ p, conn_gone p s → conn_gone p s') ∧ ∀ p, conn_at p s' = conn_at p s;
}.

Lemma same_conn_refl c : same_conn c c.
Proof. by destruct c. Qed.
Lemma same_conn_trans c1 c2 c3 : same_conn c1 c2 → same_conn c2 c3 → same_conn c1 c3.
Proof. unfold same_conn. intros E1 E2. rewrite E2. by rewrite E1. Qed.

Lemma others_refl `{Conns K C} (p : K) (s : C) : others p s s.
Proof. split; [done|]. split; [done|]. intros q c _ E. exists c. split; [done|apply same_conn_refl]. Qed.
Lemma others_trans `{Conns K C} (p : K) (s1 s2 s3 : C) : others p s1 s2 → others p s2 s3 → others p s1 s3.
Proof.
  intros (O1 & G1 & H1) (O2 & G2 & H2). split; [by intros ?%O1%O2|]. split; [by intros q Hq ?%G1%G2|]. intros q c Hq Hc.
  destruct (H1 q c Hq Hc) as (c' & Hc' & E1). destruct (H2 q c' Hq Hc') as (c2 & Hc2 & E2).
  exists c2. split; [done|by eapply same_conn_trans].
Qed.

(** *** One connection, beside the timer the node set itself *)

Definition on_fst {A B X} (m : M A X) : M (A * B) X := λ s, let (r, a) := m s.1 in (r, (a, s.2)).
#[global] Instance one_conn : Conns unit (Conn * list Z) := {|
  conns_ok _ := True;
  conn_at _ s := Some s.1;
  conn_gone _ _ := True;
  conn_do _ _ m := on_fst m;
  conn_tell _ _ := mret tt;
  node_addTimer t := modify (λ s, (s.1, s.2 ++ [t]));
|}.
#[global] Instance one_conn_law : ConnsLaw unit (Conn * list Z).
Proof.
  assert (∀ p s s', others (C:=Conn * list Z) p s s') as Hoth by (intros [] s s'; split; [done|split; [done|by intros [] ? Hq]]).
  split; [|done| |by intros t s; eexists].
  - intros A p m s c r c' [= <-] E. exists (c', s.2). cbn. unfold on_fst. by rewrite E.
  - intros p s c x _ _ _. by exists s.
Qed.

(** ** The node on its connections *)

(** [IConn::send] of a packed message, and the loop's [addTimer]. *)
Definition ConnsPeer {K C} `{Conns K C} (h : Heap) : Peer K C := {|
  peer_send p bs := conn_do p (sendBin h bs);
  peer_addTimer := node_addTimer;
|}.

(** One event of the loop on a connection, with the kernel's answers to come. *)
Inductive wire_event :=
  | WRead (r : SysRes) (answers : list SysRes)
  | WWrite (answers : list SysRes)
  | WGone (r : SysRes).            (** readable, because the peer has closed or reset it *)

Definition event_answers (e : wire_event) : list SysRes :=
  match e with WRead r answers => r :: answers | WWrite answers => answers | WGone r => [r] end.
Definition event_kind (e : wire_event) : Z :=
  match e with WRead _ _ | WGone _ => EVENT_READ | WWrite _ => EVENT_WRITE end.

Definition set_script (l : list SysRes) : M Conn unit := modify (λ c,
  upd_net (mkWorld (sock (net c)) (calls (net c)) l (wire_out (net c))) c).

Section node.
Context {S K C : Type} `{Store S, Cereal, Indeterminate, Rand, Clock, Conns K C}.
Context (h : Heap) (un : Uninit) (gConfig : Config) (ctx : ServerContext (Node S C) K).

(** A method of the connection [p] of a node. *)
Definition at_conn (p : K) {A} (m : M Conn A) : M (Node S C) A := on_peer (conn_do p m).

(** [TcpSock::doEvent] of the connection [p], and what its event handler is told by it. *)
Definition node_doEvent (p : K) (ev : Z) : M (Node S C) unit :=
  c ← at_conn p get;
  tcp_doEvent_in h (λ _ m, at_conn p m) (json_onData un (doRequest ctx p)) ev ;;
  c' ← at_conn p get;
  on_peer (conn_tell p (drop (length (notices c)) (notices c'))).

Definition run_event (pe : K * wire_event) : M (Node S C) unit :=
  at_conn pe.1 (set_script (event_answers pe.2)) ;; node_doEvent pe.1 (event_kind pe.2).

(** The events of the process: those of its connections, and [None] when the node's own timer
    has expired, which is another handler of the same loop. *)
#[local] Instance event_peer : Peer K C := ConnsPeer h.
Fixpoint run_events (es : list (option (K * wire_event))) : M (Node S C) unit :=
  match es with
  | [] => mret tt
  | Some e :: es => run_event e ;; run_events es
  | None :: es => timer_doEvent gConfig ;; run_events es
  end.
End node.

(** What an event brings from the peer; the kernel gives at most half a block at once and
    fails only for a peer that is gone. *)
Definition event_data (e : wire_event) : list byte := match e with WRead r _ => sr_data r | WWrite _ | WGone _ => [] end.
Definition event_ok (e : wire_event) : Prop :=
  match e with
  | WRead r answers => sr_ret r ≠ -1 ∧ 0 < zlen (sr_data r) <= 4096 ∧ Forall kernel_ok answers
  | WWrite answers => Forall kernel_ok answers
  | WGone r => event_gone r
  end.
Definition is_gone (e : wire_event) : bool := match e with WGone _ => true | _ => false end.

(** A peer that is gone has no more events; and who leaves, and who stays. *)
Fixpoint gone_quiet {K} (es : list (option (K * wire_event))) : Prop :=
  match es with
  | [] => True
  | Some (p, e) :: es => (is_gone e = true → Forall (λ e', e'.1 ≠ p) (omap id es)) ∧ gone_quiet es
  | None :: es => gone_quiet es
  end.
Definition leaves {K} (p : K) (es : list (option (K * wire_event))) : Prop :=
  Exists (λ e, e.1 = p ∧ is_gone e.2 = true) (omap id es).
Definition stays {K} (p : K) (es : list (option (K * wire_event))) : Prop :=
  Forall (λ e, e.1 = p → is_gone e.2 = false) (omap id es).

(** ** The order in which the messages of several clients are handled

    A client's messages wait in a queue; a read that brings it to the end of the next one
    hands that one over.  [k] bytes of the messages [ms] have come. *)

Abbreviation frame_of p := (msg_frame p.1 p.2).
Abbreviation frames_of ms := ((λ p, frame_of p) <$> ms).
Lemma list_fmap_snd_pair {K A} (p : K) (l : list A) : (pair p <$> l).*2 = l.
Proof. induction l as [|x l IH]; [done|]. cbn. by rewrite <- IH at 2. Qed.

Section arrivals.
Context `{Cereal, Indeterminate}.

Fixpoint arrived (k : Z) (ms : list (Z * NodeMsg)) : list (Z * NodeMsg) * (Z * list (Z * NodeMsg)) :=
  match ms with
  | [] => ([], (k, []))
  | m :: ms' =>
      let n := zlen (frame_bytes (frame_of m)) in
      if n <=? k then let r := arrived (k - n) ms' in (m :: r.1, r.2) else ([], (k, ms))
  end.

Context {K : Type} `{EqDecision K}.
Definition upd {A} (f : K → A) (p : K) (a : A) : K → A := λ q, if decide (q = p) then a else f q.

Fixpoint arrivals (es : list (option (K * wire_event))) (w : K → Z * list (Z * NodeMsg)) : list (option (K * NodeMsg)) :=
  match es with
  | [] => []
  | None :: es => None :: arrivals es w
  | Some (p, e) :: es =>
      let r := arrived ((w p).1 + zlen (event_data e)) (w p).2 in
      (Some <$> (pair p <$> r.1.*2)) ++ arrivals es (upd w p r.2)
  end.

(** What a list says of one client, and what a client sends. *)
Definition part {A} (p : K) (l : list (K * A)) : list A := (filter (λ x, x.1 = p) l).*2.
Definition of_client {A} (p : K) (l : list (option (K * A))) : list A := part p (omap id l).
Definition data_of (p : K) (es : list (option (K * wire_event))) : list byte := of_client p es ≫= event_data.

Lemma part_app {A} p (l1 l2 : list (K * A)) : part p (l1 ++ l2) = part p l1 ++ part p l2.
Proof. unfold part. by rewrite list.filter_app, fmap_app. Qed.
Lemma part_cons {A} p q (x : A) l : part q ((p, x) :: l) = (if decide (q = p) then [x] else []) ++ part q l.
Proof.
  unfold part. rewrite filter_cons. cbn [fst]. destruct (decide (q = p)) as [->|Hq].
  - by rewrite decide_True.
  - by rewrite decide_False.
Qed.
Lemma part_same {A} p (l : list A) : part p (pair p <$> l) = l.
Proof. induction l as [|x l IH]; [done|]. cbn [fmap list_fmap]. by rewrite part_cons, decide_True, IH. Qed.
Lemma part_other {A} p q (l : list A) : q ≠ p → part q (pair p <$> l) = [].
Proof. intros Hq. induction l as [|x l IH]; [done|]. cbn [fmap list_fmap]. by rewrite part_cons, decide_False, IH. Qed.
Lemma of_client_app {A} p (l1 l2 : list (option (K * A))) : of_client p (l1 ++ l2) = of_client p l1 ++ of_client p l2.
Proof. unfold of_client. by rewrite omap_app, part_app. Qed.
Lemma of_client_some {A} p (l : list (K * A)) : of_client p (Some <$> l) = part p l.
Proof. unfold of_client. f_equal. induction l as [|x l IH]; [done|]. cbn. by rewrite IH. Qed.

Lemma data_of_cons p q e es : data_of q (Some (p, e) :: es) = (if decide (q = p) then event_data e else []) ++ data_of q es.
Proof.
  unfold data_of, of_client. change (omap id (Some (p, e) :: es)) with ((p, e) :: omap id es). rewrite part_cons, bind_app. f_equal.
  destruct (decide _); [apply app_nil_r|done].
Qed.

Lemma zlen_frames_cons (m : Z * NodeMsg) ms :
  zlen (stream (frames_of (m :: ms))) = zlen (frame_bytes (frame_of m)) + zlen (stream (frames_of ms)).
Proof. cbn [fmap list_fmap]. by rewrite stream_cons, zlen_app. Qed.
Lemma frame_pos (m : Z * NodeMsg) : 0 < zlen (frame_bytes (frame_of m)).
Proof. rewrite zlen_frame_bytes. pose proof (zlen_nonneg (fr_body (frame_of m))). lia. Qed.

(** Not enough bytes for the next message. *)
Definition waiting_for (w : Z * list (Z * NodeMsg)) : Prop :=
  0 <= w.1 ∧ match w.2 with [] => True | m :: _ => w.1 < zlen (frame_bytes (frame_of m)) end.

Lemma arrived_spec ms : ∀ k, 0 <= k → let r := arrived k ms in
  ms = r.1 ++ r.2.2 ∧ r.2.1 - zlen (stream (frames_of r.2.2)) = k - zlen (stream (frames_of ms)) ∧ waiting_for r.2.
Proof.
  induction ms as [|m ms IH]; intros k Hk; cbn [arrived]; [done|]. pose proof (frame_pos m).
  destruct (Z.leb_spec (zlen (frame_bytes (frame_of m))) k) as [Hle|Hgt]; [|done].
  destruct (IH (k - zlen (frame_bytes (frame_of m)))) as (Hms & Hd & Hw); [lia|]. cbn [fst snd].
  split; [by rewrite Hms at 1|]. split; [|done]. rewrite zlen_frames_cons. lia.
Qed.

(** A client's messages are handled in its order, all of them when all its bytes have come. *)
Lemma arrivals_part q es : ∀ w, waiting_for (w q) →
  (w q).1 + zlen (data_of q es) = zlen (stream (frames_of (w q).2)) → of_client q (arrivals es w) = (w q).2.*2.
Proof.
  induction es as [|[[p e]|] es IH]; intros w [Hk0 Hw] Hd; cbn [arrivals]; [| |exact (IH w (conj Hk0 Hw) Hd)].
  - cbn in Hd. destruct (w q) as [k [|m ms]]; [done|exfalso]. cbn [fst snd] in *.
    rewrite zlen_frames_cons, zlen_nil in Hd. pose proof (zlen_nonneg (stream (frames_of ms))). lia.
  - rewrite of_client_app, of_client_some, data_of_cons, zlen_app in *. set (r := arrived _ _).
    destruct (decide (q = p)) as [->|Hq].
    + destruct (arrived_spec (w p).2 ((w p).1 + zlen (event_data e))) as (Hms & Hk & Hwr);
        [pose proof (zlen_nonneg (event_data e)); lia|]. fold r in Hms, Hk, Hwr.
      rewrite part_same, IH; unfold upd; rewrite decide_True by done; [by rewrite Hms, fmap_app|done|].
      lia.
    + rewrite part_other by done. cbn [app]. rewrite zlen_nil in Hd.
      rewrite IH; unfold upd; rewrite decide_False by done; done.
Qed.
End arrivals.

(** The replies to messages of several clients, in the order they are handled, with the
    blocks the timer makes in between. *)
Fixpoint replies_to {St K} `{Store St, Cereal, Indeterminate, Rand, Clock} (gConfig : Config) (fuel : nat)
    (ms : list (option (K * NodeMsg))) : M (Service (S:=St)) (list (K * (Z * string))) :=
  match ms with
  | [] => mret []
  | None :: ms => generateNewBlock gConfig ;; replies_to gConfig fuel ms
  | Some (p, m) :: ms =>
      r ← node_reply gConfig fuel m; rs ← replies_to gConfig fuel ms;
      mret ((pair p <$> option_list r) ++ rs)
  end.

Section wire.
Context {S K C : Type} `{Store S, CerealLaw, Indeterminate, Rand, Clock, EqDecision K, ConnsLaw K C}.
Context (h : Heap) (junk : Header) (stats : BlockStats) (gConfig : Config) (fuel : nat).
(** Whether the node's timer handler was set up. *)
Context (timed : bool).
#[local] Instance wire_peer : Peer K C := ConnsPeer h.
Abbreviation Nd := (Node S C).
Abbreviation context := (node_context (K:=K) (C:=C) h junk stats gConfig fuel).
Abbreviation reply_bytes rs := (rs ≫= reply_frame).

Lemma at_conn_res {A} p (m : M Conn A) (n : Nd) c r c' :
  conn_at p (nd_peer n) = Some c → m c = (r, c') →
  ∃ s', at_conn p m n = (r, mkNode (_service n) (nd_writer n) (tm_x n) (tm_to n) s') ∧
    conn_at p s' = Some c' ∧ others p (nd_peer n) s'.
Proof.
  intros Hc E. destruct (conn_do_ok p m _ _ _ _ Hc E) as (s' & E' & Hc' & Ho).
  exists s'. unfold at_conn, on_peer. by rewrite E'.
Qed.
Lemma at_conn_run {A} p (m : M Conn A) (n : Nd) c a c' :
  conn_at p (nd_peer n) = Some c → m c = (Ok a, c') →
  ∃ s', at_conn p m n = (Ok a, mkNode (_service n) (nd_writer n) (tm_x n) (tm_to n) s') ∧
    conn_at p s' = Some c' ∧ others p (nd_peer n) s'.
Proof. apply at_conn_res. Qed.

(** The state of the node between events: a service, the writer, the connection [p] open with
    room for [room] more bytes and the start of a message in its input. *)
Record on_wire (p : K) (sv : Service) (room : Z) (buf : list byte) (c : Conn) (n : Nd) : Prop := {
  ow_writer : nd_writer n = true;
  ow_service : _service n = Some sv;
  ow_timer : tm_x n = timed;
  ow_at : conn_at p (nd_peer n) = Some c;
  ow_open : open_conn c;
  ow_room : buffered c + room <= maxsize;
  ow_input : content (input c) = buf;
}.

(** What is different after the node sent [bs]. *)
Definition sent (bs : list byte) (c c' : Conn) : Prop :=
  out_stream c' = out_stream c ++ bs ∧ notices c' = notices c ∧ input c' = input c.

Lemma reply_bytes_one r : reply_bytes [r] = reply_frame r.
Proof. apply app_nil_r. Qed.

Lemma zlen_reply_bytes_app (rs rs' : list (Z * string)) :
  zlen (reply_bytes (rs ++ rs')) = zlen (reply_bytes rs) + zlen (reply_bytes rs').
Proof. by rewrite bind_app, zlen_app. Qed.

(** One message: its reply is appended to the stream of the connection it came from, and no
    other connection changes. *)
Lemma handle_on_wire p m (n : Nd) c sv r sv' room buf :
  heap_avail h → on_wire p sv (zlen (reply_bytes (option_list r)) + room) buf c n →
  node_reply gConfig fuel m sv = (Ok r, sv') → Forall fits (option_list r) → 0 <= room →
  ∃ n' c', handle h junk stats gConfig fuel m p n = (Ok tt, n') ∧ on_wire p sv' room buf c' n' ∧
    sent (reply_bytes (option_list r)) c c' ∧ others p (nd_peer n) (nd_peer n').
Proof.
  intros Hh [Hw Hs Ht Hc Ho Hr Hi] Hrep Hfit Hroom.
  rewrite (handle_reply h junk stats gConfig fuel m p n sv r sv') by
    (try done; intros x ->; by apply Forall_cons_1 in Hfit as [? _]).
  destruct r as [r|]; cbn [send_reply].
  - change (option_list (Some r)) with [r] in *. rewrite reply_bytes_one in *. pose proof (zlen_nonneg (reply_frame r)).
    destruct (sendBin_ok h (reply_frame r) c Ho Hh) as (c' & E & Ho' & Hst & Hin & Hn & Hb); [lia|].
    destruct (at_conn_run p (sendBin h (reply_frame r)) (with_service sv' n) c tt c' Hc E) as (s' & E' & Hc' & Hoth).
    eexists _, c'. split; [exact E'|]. split; [split; [exact Hw|done|exact Ht|exact Hc'|exact Ho'|lia|by rewrite Hin]|].
    by split_and!.
  - change (reply_bytes (option_list None)) with (@nil byte) in *. exists (with_service sv' n), c.
    rewrite zlen_nil in Hr. split; [done|]. split; [by split|].
    split; [unfold sent; by rewrite app_nil_r|apply others_refl].
Qed.

Lemma sent_trans bs1 bs2 c1 c2 c3 : sent bs1 c1 c2 → sent bs2 c2 c3 → sent (bs1 ++ bs2) c1 c3.
Proof.
  intros (So1 & Sn1 & Si1) (So2 & Sn2 & Si2). unfold sent. by rewrite So2, So1, Sn2, Sn1, Si2, Si1, app_assoc.
Qed.

Lemma serve_on_wire p ms (n : Nd) c sv rs sv' room buf :
  heap_avail h → on_wire p sv (zlen (reply_bytes rs) + room) buf c n →
  node_replies gConfig fuel ms sv = (Ok rs, sv') → Forall fits rs → 0 <= room →
  ∃ n' c', serve h junk stats gConfig fuel ms p n = (Ok tt, n') ∧ on_wire p sv' room buf c' n' ∧
    sent (reply_bytes rs) c c' ∧ others p (nd_peer n) (nd_peer n').
Proof.
  intros Hh. revert n c sv rs. induction ms as [|m ms IH]; intros n c sv rs Hn Hr Hf Hroom; cbn [serve node_replies] in *.
  - injection Hr as <- <-. exists n, c. split; [done|]. change (zlen (reply_bytes [])) with 0 in Hn. rewrite Z.add_0_l in Hn. split; [done|].
    split; [unfold sent; by rewrite app_nil_r|apply others_refl].
  - inv_bind Hr. inv_bind Hr. injection Hr as <- <-. apply Forall_app in Hf as [Hf1 Hf2].
    rewrite zlen_reply_bytes_app, <- Z.add_assoc in Hn. pose proof (zlen_nonneg (reply_bytes a0)).
    destruct (handle_on_wire p m n c sv a s _ buf Hh Hn Hrun Hf1) as (n1 & c1 & E1 & Hn1 & Hs1 & Ho1); [lia|].
    destruct (IH n1 c1 s a0 Hn1 Hrun0 Hf2 Hroom) as (n2 & c2 & E2 & Hn2 & Hs2 & Ho2).
    exists n2, c2. erewrite bind_Ok by (apply try_catch_Ok; exact E1). split; [exact E2|]. split; [exact Hn2|].
    rewrite bind_app. split; [by eapply sent_trans|by eapply others_trans].
Qed.

(** *** The events of one connection *)

(** The script of an event is in place. *)
Definition scripted (e : wire_event) (c : Conn) : Conn := (set_script (event_answers e) c).2.

(** What an event of connection [p] leads to. *)
Definition event_end (p : K) (sv' : Service) (room : Z) (buf bs : list byte) (c : Conn) (n n' : Nd) : Prop :=
  ∃ c', on_wire p sv' room buf c' n' ∧ out_stream c' = out_stream c ++ bs ∧ notices c' = notices c ∧
    others p (nd_peer n) (nd_peer n').

(** The method of the connection an event runs. *)
Definition event_method ctx un (p : K) (e : wire_event) : M Nd unit :=
  match e with
  | WWrite _ => at_conn p onWrite
  | _ => onRead_in h (λ _ m, at_conn p m) (json_onData un (doRequest ctx p))
  end.

(** An event of a connected socket runs the method, and then its handler is told the notices
    [ns] the method has for it; [Q] is what the method leaves beside the connections. *)
Lemma run_event_told (Q : bool → option Service → bool → Conn → Prop) ns ctx un p e (n : Nd) c :
  conn_at p (nd_peer n) = Some c → isConnected (sock (net c)) = true →
  (∀ n1, nd_writer n1 = nd_writer n → _service n1 = _service n → tm_x n1 = tm_x n → conn_at p (nd_peer n1) = Some (scripted e c) →
     ∃ n2 c2, event_method ctx un p e n1 = (Ok tt, n2) ∧ conn_at p (nd_peer n2) = Some c2 ∧
       notices c2 = notices c ++ ns ∧ others p (nd_peer n1) (nd_peer n2) ∧ Q (nd_writer n2) (_service n2) (tm_x n2) c2) →
  ∃ n' c', run_event h un ctx (p, e) n = on_peer (conn_tell p ns) n' ∧ conn_at p (nd_peer n') = Some c' ∧
    notices c' = notices c ++ ns ∧ others p (nd_peer n) (nd_peer n') ∧ Q (nd_writer n') (_service n') (tm_x n') c'.
Proof.
  intros Hc Hcn Hm. unfold run_event, node_doEvent; cbn [fst snd].
  destruct (at_conn_run p (set_script (event_answers e)) n c tt (scripted e c) Hc eq_refl) as (s1 & E1 & Hc1 & Ho1).
  erewrite bind_Ok by exact E1. set (n1 := mkNode _ _ _ _ s1) in *.
  destruct (at_conn_run p get n1 (scripted e c) _ _ Hc1 eq_refl) as (s2 & E2 & Hc2 & Ho2).
  erewrite bind_Ok by exact E2. set (n2 := mkNode _ _ _ _ s2) in *.
  destruct (at_conn_run p get n2 (scripted e c) _ _ Hc2 eq_refl) as (s3 & E3 & Hc3 & Ho3).
  set (n3 := mkNode _ _ _ _ s3) in *.
  destruct (Hm n3 eq_refl eq_refl eq_refl Hc3) as (n4 & c4 & E4 & Hc4 & Hno & Ho4 & HQ).
  erewrite (bind_Ok _ _ _ tt n4).
  2: { unfold tcp_doEvent_in. erewrite bind_Ok by exact E3. change (sock (net (scripted e c))) with (sock (net c)).
       rewrite Hcn. destruct e; exact E4. }
  destruct (at_conn_run p get n4 c4 _ _ Hc4 eq_refl) as (s5 & E5 & Hc5 & Ho5).
  erewrite bind_Ok by exact E5. rewrite Hno. change (notices (scripted e c)) with (notices c). rewrite drop_app_length.
  eexists _, c4. split; [reflexivity|]. cbn [nd_peer nd_writer _service tm_x]. split; [done|]. split; [done|]. split; [|done].
  eapply others_trans; [exact Ho1|]. eapply others_trans; [exact Ho2|]. eapply others_trans; [exact Ho3|].
  by eapply others_trans; [exact Ho4|].
Qed.

(** Its handler is told nothing when the method has nothing to tell. *)
Lemma run_event_method ctx un p e (n : Nd) c sv' room buf bs :
  conn_at p (nd_peer n) = Some c → isConnected (sock (net c)) = true →
  (∀ n1, nd_writer n1 = nd_writer n → _service n1 = _service n → tm_x n1 = tm_x n → conn_at p (nd_peer n1) = Some (scripted e c) →
     ∃ n2, event_method ctx un p e n1 = (Ok tt, n2) ∧ event_end p sv' room buf bs (scripted e c) n1 n2) →
  ∃ n', run_event h un ctx (p, e) n = (Ok tt, n') ∧ event_end p sv' room buf bs c n n'.
Proof.
  intros Hc Hcn Hm.
  destruct (run_event_told (λ w s t c', w = true ∧ s = Some sv' ∧ t = timed ∧ open_conn c' ∧ buffered c' + room <= maxsize ∧
    content (input c') = buf ∧ out_stream c' = out_stream c ++ bs) [] ctx un p e n c Hc Hcn)
    as (n' & c' & E & Hc' & Hno & Ho & Hw & Hs & Ht & Hop & Hr & Hi & Hst).
  { intros n1 Hw1 Hs1 Ht1 Hc1. destruct (Hm n1 Hw1 Hs1 Ht1 Hc1) as (n2 & E2 & c2 & [? ? ? ? ? ? ?] & Hst & Hno & Ho).
    exists n2, c2. rewrite app_nil_r. by split_and!. }
  rewrite app_nil_r in Hno. exists n'. split; [|exists c'; by split_and!].
  rewrite E. unfold on_peer. rewrite conn_tell_nil. by destruct n'.
Qed.

(** The peer is gone: the handler is told so and gives the connection up; the others stay as
    they are. *)
Lemma gone_on_wire ctx un p r (n : Nd) c :
  conns_ok (nd_peer n) → conn_at p (nd_peer n) = Some c → isConnected (sock (net c)) = true → event_ok (WGone r) →
  ∃ n', run_event h un ctx (p, WGone r) n = (Ok tt, n') ∧ others p (nd_peer n) (nd_peer n') ∧
    conn_gone p (nd_peer n') ∧ nd_writer n' = nd_writer n ∧ _service n' = _service n ∧ tm_x n' = tm_x n.
Proof.
  intros Hok Hc Hcn He. set (c0 := scripted (WGone r) c).
  destruct (pump_gone h c0 r eq_refl He) as (c1 & Hn1 & Hp).
  assert (∃ x, x ≠ NConnected ∧ ∀ n1 : Nd, conn_at p (nd_peer n1) = Some c0 → ∃ s' c2,
    event_method ctx un p (WGone r) n1 = (Ok tt, mkNode (_service n1) (nd_writer n1) (tm_x n1) (tm_to n1) s') ∧
    conn_at p s' = Some c2 ∧ notices c2 = notices c ++ [x] ∧ others p (nd_peer n1) s') as (x & Hx & Hm).
  { assert (∀ x s1, conn_at p s1 = Some c1 → ∀ n1 : Nd, others p (nd_peer n1) s1 → ∃ s' c2,
      at_conn p (notify x) (mkNode (_service n1) (nd_writer n1) (tm_x n1) (tm_to n1) s1) =
        (Ok tt, mkNode (_service n1) (nd_writer n1) (tm_x n1) (tm_to n1) s') ∧
      conn_at p s' = Some c2 ∧ notices c2 = notices c ++ [x] ∧ others p (nd_peer n1) s') as Htold.
    { intros x s1 Hc1 n1 Ho1. set (n2 := mkNode _ _ _ _ s1).
      destruct (at_conn_run p (notify x) n2 c1 _ _ Hc1 eq_refl) as (s2 & E2 & Hc2 & Ho2).
      exists s2. eexists. split; [exact E2|]. split; [exact Hc2|]. cbn. rewrite Hn1. split; [done|by eapply others_trans]. }
    cbn [event_method]. unfold onRead_in, try_catch. destruct Hp as [(k & Hk & Ep)|(en & Hen1 & Hen2 & Ep)].
    - exists NClose. split; [done|]. intros n1 Hc1.
      destruct (at_conn_run p (pump h npos) n1 c0 _ _ Hc1 Ep) as (s1 & E1 & Hc1' & Ho1). erewrite bind_Ok by exact E1.
      destruct (Z.ltb_spec 0 k); [lia|]. destruct (Htold NClose s1 Hc1' n1 Ho1) as (s' & c2 & E2 & Ht).
      exists s', c2. by rewrite E2.
    - exists (NError 0). split; [done|]. intros n1 Hc1.
      destruct (at_conn_res p (pump h npos) n1 c0 _ _ Hc1 Ep) as (s1 & E1 & Hc1' & Ho1). erewrite bind_Throw by exact E1.
      cbn [conn_handler fmap option_fmap option_map]. destruct (Z.eqb_spec en EAGAIN); [done|]. destruct (Z.eqb_spec en EINTR); [done|].
      by apply Htold. }
  destruct (run_event_told (λ w s t c', w = nd_writer n ∧ s = _service n ∧ t = tm_x n) [x] ctx un p (WGone r) n c Hc Hcn)
    as (n' & c' & E & Hc' & Hno & Ho & Hw & Hs & Ht).
  { intros n1 Hw1 Hs1 Ht1 Hc1. destruct (Hm n1 Hc1) as (s' & c2 & E2 & Hc2 & Hno2 & Ho2). eexists _, c2. by split_and!. }
  destruct (conn_tell_end p (nd_peer n') c' x) as (s' & Et & Ho' & Hg); [by apply Ho|done|done|].
  eexists. split; [rewrite E; unfold on_peer; by rewrite Et|]. cbn. split; [by eapply others_trans|]. by split_and!.
Qed.

(** One read: the messages that are complete are answered, in order, and the start of the next
    one stays in the input. *)
Lemma read_on_wire ctx un p ms tail r answers (n : Nd) c sv rs sv' room buf :
  heap_avail h → context = Ok ctx → on_wire p sv (zlen (reply_bytes rs) + room) buf c n → event_ok (WRead r answers) →
  Forall sized ms → Forall msg_valid (ms.*2) → incomplete tail = true →
  buf ++ sr_data r = stream (frames_of ms) ++ tail → zlen buf + 8192 <= maxsize →
  node_replies gConfig fuel (ms.*2) sv = (Ok rs, sv') → Forall fits rs → 0 <= room →
  ∃ n', run_event h un ctx (p, WRead r answers) n = (Ok tt, n') ∧ event_end p sv' room tail (reply_bytes rs) c n n'.
Proof.
  intros Hh Hctx [Hw Hs Htm Hc [Ho Hcn _] Hr Hi] (Hr1 & Hd & Hk) Hsz Hv Ht Hcut Hbuf Hrep Hfit Hroom.
  apply run_event_method; [done|done|]. set (c0 := scripted (WRead r answers) c). intros n0 Hw0 Hs0 Ht0 Hc0.
  assert (Hwf0 : conn_wf c0) by (destruct Ho as [[] ? ?]; by split).
  destruct (pump_ok h c0 r answers Hwf0 Hh) as (b & s & w & Ep & Hb & Hbc & Hws & Hww & Hwc); [|done|done|done|].
  { rewrite <- (length_content (input c0)) by apply Hwf0. change (content (input c0)) with (content (input c)). by rewrite Hi. }
  change (content (input c0)) with (content (input c)) in Hbc. rewrite Hi, Hcut in Hbc.
  set (c1 := upd_input b s (upd_net w c0)) in *.
  destruct (at_conn_run p (pump h npos) n0 c0 _ _ Hc0 Ep) as (s1 & E1 & Hc1 & Ho1).
  set (n1 := mkNode _ _ _ _ s1) in *.
  destruct (at_conn_run p get n1 c1 _ _ Hc1 eq_refl) as (s2 & E2 & Hc2 & Ho2). set (n2 := mkNode _ _ _ _ s2) in *.
  assert (Hn2 : on_wire p sv (zlen (reply_bytes rs) + room) (content b) c1 n2).
  { split; [by rewrite <- Hw0 in Hw|by rewrite <- Hs0 in Hs|by rewrite <- Ht0 in Htm|done| |exact Hr|done].
    split; [|by cbn; rewrite Hwc|by cbn; rewrite Hws]. destruct Ho as [[] ? ?], Hwf0. by split; [split|..]. }
  destruct (serve_on_wire p (ms.*2) n2 c1 sv rs sv' room (content b) Hh Hn2 Hrep Hfit Hroom)
    as (n3 & c3 & E3 & Hn3 & (So & Sn & Si) & Ho3).
  set (fs := frames_of ms) in *.
  assert (Hfs : Forall frame_wf fs) by by apply msg_frames_wf.
  assert (Hlen : zlen (stream fs) + zlen tail < 2 ^ 31 - 1).
  { apply (f_equal zlen) in Hcut. rewrite !zlen_app in Hcut. change maxsize with (1024 * 8192) in Hbuf. lia. }
  pose proof (zlen_nonneg tail). pose proof (zlen_nonneg (stream fs)).
  assert (Ed : json_onData un (doRequest ctx p) (content b) n2 = (Ok (zlen (stream fs)), n3)).
  { rewrite Hbc, json_onData_frames by done.
    pose proof (run_frames_serve h junk stats gConfig fuel ctx un p ms n2 Hctx Hv) as Ef. fold fs in Ef.
    erewrite bind_Ok in Ef by exact E3. erewrite bind_Ok by exact Ef.
    rewrite swrap_small by (unfold in_s; lia). done. }
  destruct Hn3 as [Hw3 Hs3 Htm3 Hc3 Hop3 Hr3 Hi3].
  destruct (erase_input_ok (zlen (stream fs)) c3) as (b' & s' & Ee & Hb' & Hbc').
  { apply Hop3. }
  { rewrite <- (length_content (input c3)) by apply Hop3. rewrite Hi3, Hbc, zlen_app. lia. }
  destruct (at_conn_run p _ n3 c3 _ _ Hc3 Ee) as (s4 & E4 & Hc4 & Ho4).
  eexists. split; [|eexists; split; [|split; [|split]]].
  - unfold onRead_in. apply try_catch_Ok. erewrite bind_Ok by exact E1.
    destruct (Z.ltb_spec 0 (zlen (sr_data r))); [|lia].
    erewrite bind_Ok by exact E2. erewrite bind_Ok by exact Ed.
    destruct (Z.eqb_spec (zlen (stream fs)) (-1)); [lia|]. cbn [negb]. exact E4.
  - split; [exact Hw3|exact Hs3|exact Htm3|exact Hc4|by apply open_conn_input|exact Hr3|].
    change (content b' = tail). rewrite Hbc', Hi3, Hbc. by apply zdrop_app_length.
  - change (out_stream c3 = out_stream c0 ++ reply_bytes rs). rewrite So. f_equal.
    unfold out_stream. cbn. by rewrite Hww.
  - exact Sn.
  - cbn [nd_peer]. eapply others_trans; [exact Ho1|]. eapply others_trans; [exact Ho2|].
    eapply others_trans; [exact Ho3|exact Ho4].
Qed.

Lemma write_on_wire ctx un p answers (n : Nd) c sv room buf :
  on_wire p sv room buf c n → event_ok (WWrite answers) →
  ∃ n', run_event h un ctx (p, WWrite answers) n = (Ok tt, n') ∧ event_end p sv room buf [] c n n'.
Proof.
  intros [Hw Hs Htm Hc [Ho Hcn _] Hr Hi] Hk. apply run_event_method; [done|done|].
  set (c0 := scripted (WWrite answers) c). intros n0 Hw0 Hs0 Ht0 Hc0.
  assert (Ho0 : open_conn c0) by (destruct Ho as [[] ? ?]; by split; [split; [split|..]|..]).
  destruct (onWrite_ok c0 Ho0) as (c' & E & Ho' & Hst & Hin & Hn & Hb).
  destruct (at_conn_run p onWrite n0 c0 _ _ Hc0 E) as (s' & E' & Hc' & Hoth).
  eexists. split; [exact E'|]. exists c'. split; [|by rewrite app_nil_r].
  split; [by rewrite <- Hw0 in Hw|by rewrite <- Hs0 in Hs|by rewrite <- Ht0 in Htm|exact Hc'|exact Ho'| |by rewrite Hin].
  change (buffered c0) with (buffered c) in Hb. lia.
Qed.

(** *** The events of several connections *)

(** A message the input buffer has room for. *)
Definition buffer_sized (p : Z * NodeMsg) : Prop := zlen (frame_bytes (frame_of p)) + 8192 <= maxsize.

Definition sendable (ms : list (Z * NodeMsg)) : Prop :=
  Forall sized ms ∧ Forall buffer_sized ms ∧ Forall msg_valid (ms.*2).

Lemma sendable_frames ms : sendable ms → Forall frame_wf (frames_of ms).
Proof. intros (Hs & _ & Hv). by apply msg_frames_wf. Qed.

Lemma sendable_app ms1 ms2 : sendable (ms1 ++ ms2) → sendable ms1 ∧ sendable ms2.
Proof.
  unfold sendable. rewrite fmap_app, !Forall_app. tauto.
Qed.

(** What is not a complete message is shorter than the message it starts. *)
Lemma tail_short buf q f fs :
  frame_wf f → incomplete buf = true → buf ++ q = stream (f :: fs) → zlen buf < zlen (frame_bytes f).
Proof.
  intros Hf Hi E. destruct (Z.lt_ge_cases (zlen buf) (zlen (frame_bytes f))) as [|Hge]; [done|].
  rewrite stream_cons in E.
  assert (buf = frame_bytes f ++ zdrop (zlen (frame_bytes f)) buf) as Hb.
  { rewrite <- (ztake_zdrop (zlen (frame_bytes f)) buf) at 1. f_equal.
    rewrite <- (ztake_app_le _ buf q), E by lia. by rewrite ztake_app_length. }
  rewrite Hb, complete_frame in Hi by done. done.
Qed.

Lemma tail_small buf q ms :
  sendable ms → incomplete buf = true → buf ++ q = stream (frames_of ms) → zlen buf + 8192 <= maxsize.
Proof.
  intros Hms Hi E. pose proof (sendable_frames ms Hms) as Hf. destruct Hms as (_ & Hb & _). destruct ms as [|p ms].
  - apply app_eq_nil in E as [-> _]. by apply (bool_decide_unpack _).
  - cbn [fmap list_fmap] in *. apply Forall_cons_1 in Hf as [Hf _], Hb as [Hb _].
    pose proof (tail_short _ _ _ _ Hf Hi E). unfold buffer_sized in Hb. lia.
Qed.

(** The bytes that have come decide which messages are handed over. *)
Lemma arrived_cut ms1 ms2 tail q :
  sendable ms2 → incomplete tail = true → tail ++ q = stream (frames_of ms2) →
  arrived (zlen (stream (frames_of ms1) ++ tail)) (ms1 ++ ms2) = (ms1, (zlen tail, ms2)).
Proof.
  intros Hms Hi E. induction ms1 as [|m ms1 IH]; cbn [app fmap list_fmap].
  - change (stream [] ++ tail) with tail. destruct ms2 as [|m ms2]; [done|].
    pose proof (sendable_frames _ Hms) as Hf. cbn [fmap list_fmap] in *. apply Forall_cons_1 in Hf as [Hf _]. pose proof (tail_short _ _ _ _ Hf Hi E) as Hlt.
    cbn [arrived]. by rewrite (proj2 (Z.leb_gt _ _) Hlt).
  - rewrite stream_cons, <- app_assoc, zlen_app. cbn [arrived].
    rewrite (proj2 (Z.leb_le _ _)) by (pose proof (zlen_nonneg (stream (frames_of ms1) ++ tail)); lia).
    rewrite Z.add_simpl_l. cbv zeta. by rewrite IH.
Qed.

Lemma replies_to_app p (ms : list NodeMsg) rest sv rs sv' :
  replies_to gConfig fuel ((Some <$> (pair p <$> ms)) ++ rest) sv = (Ok rs, sv') →
  ∃ rs1 rs2 sv1, rs = (pair p <$> rs1) ++ rs2 ∧ node_replies gConfig fuel ms sv = (Ok rs1, sv1) ∧
    replies_to (K:=K) gConfig fuel rest sv1 = (Ok rs2, sv').
Proof.
  revert sv rs. induction ms as [|m ms IH]; intros sv rs E; [by exists [], rs, sv|].
  cbn [app fmap list_fmap replies_to node_replies] in *. inv_bind E. inv_bind E. injection E as <- <-.
  destruct (IH _ _ Hrun0) as (rs1 & rs2 & sv1 & -> & E1 & E2).
  exists (option_list a ++ rs1), rs2, sv1. rewrite fmap_app, <- app_assoc. split; [done|]. split; [|done].
  erewrite bind_Ok by exact Hrun. by erewrite bind_Ok by exact E1.
Qed.

Lemma replies_to_same p (ms : list NodeMsg) sv rs sv' :
  node_replies gConfig fuel ms sv = (Ok rs, sv') →
  replies_to (K:=K) gConfig fuel (Some <$> (pair p <$> ms)) sv = (Ok (pair p <$> rs), sv').
Proof.
  revert sv rs. induction ms as [|m ms IH]; intros sv rs E; cbn [fmap list_fmap replies_to node_replies] in *;
    [by injection E as <- <-|].
  inv_bind E. inv_bind E. injection E as <- <-. erewrite bind_Ok by exact Hrun.
  erewrite bind_Ok by (by apply IH). by rewrite fmap_app.
Qed.

(** The connection [p] between events: [buf] is in its input, its peer has still to send [q],
    and both are the rest of its messages; there is room for what it will be answered. *)
Record serving (n : Nd) (rs : list (K * (Z * string))) (q : list byte) (w : Z * list (Z * NodeMsg)) (p : K) (c : Conn) : Prop := {
  sg_at : conn_at p (nd_peer n) = Some c;
  sg_open : open_conn c;
  sg_room : buffered c + zlen (reply_bytes (part p rs)) <= maxsize;
  sg_cut : incomplete (content (input c)) = true;
  sg_stream : content (input c) ++ q = stream (frames_of w.2);
  sg_bytes : w.1 = zlen (content (input c));
  sg_sendable : sendable w.2;
}.

Lemma same_open c c' : same_conn c c' → open_conn c → open_conn c'.
Proof. intros E [[[] ? ?] ? ?]. rewrite E. by split; [split; [split|..]|..]. Qed.

(** An event of another connection leaves it as it was. *)
Lemma serving_other (n n' : Nd) p q e es l rs1 rs2 w x c :
  q ≠ p → others p (nd_peer n) (nd_peer n') →
  serving n ((pair p <$> rs1) ++ rs2) (data_of q (Some (p, e) :: es) ++ l) (w q) q c →
  ∃ c', serving n' rs2 (data_of q es ++ l) (upd w p x q) q c' ∧
    input c' = input c ∧ out_stream c' = out_stream c ∧ notices c' = notices c.
Proof.
  intros Hq (_ & _ & Hoth) [Hc Ho Hr Hcut Hst Hb Hse]. destruct (Hoth q c Hq Hc) as (c' & Hc' & Hsame).
  pose proof (same_open _ _ Hsame Ho) as Ho'. unfold same_conn in Hsame.
  rewrite data_of_cons, decide_False in Hst by done.
  rewrite part_app, (part_other p q) in Hr by done.
  exists c'. unfold upd. rewrite decide_False by done. split; [|by rewrite Hsame].
  split; [exact Hc'|done|unfold buffered; rewrite Hsame; exact Hr|rewrite Hsame; exact Hcut|rewrite Hsame; exact Hst|rewrite Hsame; exact Hb|done].
Qed.

(** An event of a connection: the messages it completes are handled, and the connection is
    as it has to be for the events still to come. *)
Lemma event_on_wire ctx un p e es l w (n : Nd) c sv rs sv' :
  heap_avail h → context = Ok ctx → event_ok e → is_gone e = false → nd_writer n = true → _service n = Some sv → tm_x n = timed →
  serving n rs (data_of p (Some (p, e) :: es) ++ l) (w p) p c →
  replies_to gConfig fuel (arrivals (Some (p, e) :: es) w) sv = (Ok rs, sv') → Forall fits (rs.*2) →
  let r := arrived ((w p).1 + zlen (event_data e)) (w p).2 in
  ∃ n1 c1 rs1 rs2 sv1, run_event h un ctx (p, e) n = (Ok tt, n1) ∧ rs = (pair p <$> rs1) ++ rs2 ∧
    replies_to gConfig fuel (arrivals es (upd w p r.2)) sv1 = (Ok rs2, sv') ∧ (w p).2 = r.1 ++ r.2.2 ∧
    serving n1 rs2 (data_of p es ++ l) r.2 p c1 ∧
    content (input c) ++ event_data e = stream (frames_of r.1) ++ content (input c1) ∧ out_stream c1 = out_stream c ++ reply_bytes rs1 ∧
    notices c1 = notices c ∧ others p (nd_peer n) (nd_peer n1) ∧ nd_writer n1 = true ∧ _service n1 = Some sv1 ∧ tm_x n1 = timed.
Proof.
  intros Hh Hctx He Hng Hw Hs Htm [Hc Ho Hr Hcut Hst Hb Hse] Hrep Hfit r.
  pose proof (tail_small _ _ _ Hse Hcut Hst) as Hbuf. rewrite data_of_cons, decide_True, <- app_assoc, app_assoc in Hst by done.
  destruct (stream_cut _ _ _ (sendable_frames _ Hse) Hst) as (fs1 & fs2 & tail & Efs & Hp & Htail & Hq).
  apply fmap_app_inv in Efs as (ms1 & ms2 & -> & -> & Ems). rewrite Ems in Hse.
  destruct (sendable_app _ _ Hse) as [(Hs1 & _ & Hv1) Hse2].
  assert (r = (ms1, (zlen tail, ms2))) as Er.
  { unfold r. rewrite Hb, <- zlen_app, Hp, Ems. by apply (arrived_cut ms1 ms2 tail (data_of p es ++ l)). }
  cbn [arrivals] in Hrep. fold r in Hrep. rewrite Er in *. cbn [fst snd] in *.
  apply replies_to_app in Hrep as (rs1 & rs2 & sv1 & -> & Hr1 & Hr2).
  rewrite fmap_app in Hfit. apply Forall_app in Hfit as [Hf1 _].
  rewrite part_app, part_same, zlen_reply_bytes_app in Hr.
  assert (on_wire p sv (zlen (reply_bytes rs1) + zlen (reply_bytes (part p rs2))) (content (input c)) c n) as Hn
    by (split; (done || lia)).
  assert (∃ n1, run_event h un ctx (p, e) n = (Ok tt, n1) ∧
    event_end p sv1 (zlen (reply_bytes (part p rs2))) tail (reply_bytes rs1) c n n1) as (n1 & E1 & c1 & Hn1 & Hst1 & Hno1 & Hoth).
  { pose proof (zlen_nonneg (reply_bytes (part p rs2))). destruct e as [d answers|answers|?]; [| |done].
    - apply (read_on_wire ctx un p ms1 tail d answers n c sv rs1 sv1 _ (content (input c))); try done.
      by rewrite list_fmap_snd_pair in Hf1.
    - assert (ms1 = [] ∧ tail = content (input c)) as [-> ->].
      { cbn [event_data] in Hp. rewrite app_nil_r in Hp. destruct ms1 as [|m ms1]; [by cbn in Hp|exfalso].
        pose proof (sendable_frames _ Hse) as Hf. cbn [app fmap list_fmap] in Hf, Hp. apply Forall_cons_1 in Hf as [Hf _].
        rewrite Hp, stream_cons, <- app_assoc, complete_frame in Hcut by done. done. }
      cbn [fmap list_fmap node_replies] in Hr1. injection Hr1 as <- <-. by apply write_on_wire. }
  destruct Hn1 as [Hw1 Hsv1 Ht1 Hc1 Ho1 Hr1' Hi1].
  exists n1, c1, rs1, rs2, sv1. rewrite Hi1. split_and!; try done. split; try done; by rewrite ?Hi1.
Qed.

(** The node's timer makes its block and is set again; no connection notices. *)
Lemma tick_on_wire ctx un es w (n : Nd) sv rs sv' :
  _service n = Some sv → tm_x n = true →
  replies_to gConfig fuel (arrivals (None :: es) w) sv = (Ok rs, sv') →
  ∃ n1 sv1, replies_to gConfig fuel (arrivals es w) sv1 = (Ok rs, sv') ∧
    nd_writer n1 = nd_writer n ∧ _service n1 = Some sv1 ∧ tm_x n1 = tm_x n ∧
    (∀ p, conn_at p (nd_peer n1) = conn_at p (nd_peer n)) ∧ (conns_ok (nd_peer n) → conns_ok (nd_peer n1)) ∧
    (∀ p, conn_gone p (nd_peer n) → conn_gone p (nd_peer n1)) ∧ run_events h un gConfig ctx (None :: es) n = run_events h un gConfig ctx es n1.
Proof.
  intros Hs Htm Hrep. cbn [arrivals replies_to] in Hrep. inv_bind Hrep. destruct a.
  destruct (node_addTimer_ok (s32 (tm_to n)) (nd_peer n)) as (s' & Ea & Hok & Hg & Hat).
  assert (timer_doEvent gConfig n = (Ok tt, mkNode (Some s) (nd_writer n) (tm_x n) (tm_to n) s')) as Et.
  { rewrite (timer_fires gConfig n sv s Hs Htm Hrun). unfold on_peer, wire_peer, ConnsPeer. cbn. by rewrite Ea. }
  exists (mkNode (Some s) (nd_writer n) (tm_x n) (tm_to n) s'), s. split; [done|]. do 3 (split; [reflexivity|]). split; [exact Hat|]. split; [exact Hok|]. split; [exact Hg|].
  cbn [run_events]. by erewrite bind_Ok by exact Et.
Qed.

(** What becomes of the client [p] of connection [c], whose events are those of [es]: the
    messages [ms1] it got through are handled, [tail] is the start of the next one; if it
    stays, its connection is open and answered, and if it leaves its connection is gone. *)
Definition served_upto (p : K) es w rs (c : Conn) (s' : C) : Prop := ∃ ms1 ms2 tail,
  (w p).2 = ms1 ++ ms2 ∧ of_client p (arrivals es w) = ms1.*2 ∧
  content (input c) ++ data_of p es = stream (frames_of ms1) ++ tail ∧ incomplete tail = true ∧
  (stays p es → ∃ c', conn_at p s' = Some c' ∧ open_conn c' ∧ out_stream c' = out_stream c ++ reply_bytes (part p rs) ∧
     notices c' = notices c ∧ content (input c') = tail) ∧ (leaves p es → conn_gone p s').

Lemma stays_cons (p : K) e es : stays p (e :: es) → stays p es.
Proof. destruct e as [e|]; [|done]. by intros [_ H']%Forall_cons_1. Qed.

Lemma served_end p w rs c s' :
  conn_at p s' = Some c → open_conn c → incomplete (content (input c)) = true → part p rs = [] →
  served_upto p [] w rs c s'.
Proof.
  intros Hc Ho Hi Hp. exists [], (w p).2, (content (input c)). rewrite Hp, app_nil_r. split_and!; try done.
  - intros _. exists c. by rewrite app_nil_r.
  - by intros ?%Exists_nil.
Qed.

(** The event is its own, and not the last. *)
Lemma served_here p e es w c c1 rs1 rs2 s' :
  let r := arrived ((w p).1 + zlen (event_data e)) (w p).2 in is_gone e = false →
  (w p).2 = r.1 ++ r.2.2 → content (input c) ++ event_data e = stream (frames_of r.1) ++ content (input c1) →
  out_stream c1 = out_stream c ++ reply_bytes rs1 → notices c1 = notices c →
  served_upto p es (upd w p r.2) rs2 c1 s' → served_upto p (Some (p, e) :: es) w ((pair p <$> rs1) ++ rs2) c s'.
Proof.
  intros r Hg Hms Hd Ho Hn (ms1 & ms2 & tail & Hw & Hh & Hst & Hi & Hend & Hgone). unfold upd in Hw. rewrite decide_True in Hw by done.
  exists (r.1 ++ ms1), ms2, tail. split; [by rewrite Hms, Hw, app_assoc|]. split.
  { cbn [arrivals]. fold r. by rewrite of_client_app, of_client_some, part_same, Hh, fmap_app. }
  split; [by rewrite data_of_cons, decide_True, app_assoc, Hd, <- app_assoc, Hst, fmap_app, stream_app, app_assoc|].
  split; [done|]. split; [|intros [[_ Hg']|Hl]%Exists_cons; [cbn in Hg'; congruence|by apply Hgone]].
  intros Hs%stays_cons. destruct (Hend Hs) as (c' & Hc' & Ho' & Hst' & Hn' & Hi').
  exists c'. rewrite Hst', Hn', Ho, Hn, part_app, part_same, bind_app, app_assoc. by split_and!.
Qed.

(** The event is another's. *)
Lemma served_there p q e es w c c1 rs1 rs2 s' :
  q ≠ p → input c1 = input c → out_stream c1 = out_stream c → notices c1 = notices c →
  served_upto q es (upd w p (arrived ((w p).1 + zlen (event_data e)) (w p).2).2) rs2 c1 s' →
  served_upto q (Some (p, e) :: es) w ((pair p <$> rs1) ++ rs2) c s'.
Proof.
  intros Hq Hin Ho Hn (ms1 & ms2 & tail & Hw & Hh & Hst & Hi & Hend & Hgone). unfold upd in Hw. rewrite decide_False in Hw by done.
  exists ms1, ms2, tail. split; [done|]. split.
  { cbn [arrivals]. by rewrite of_client_app, of_client_some, part_other. }
  split; [by rewrite data_of_cons, decide_False, <- Hin|]. split; [done|].
  split; [|intros [[? _]|Hl]%Exists_cons; [by destruct Hq|by apply Hgone]]. intros Hs%stays_cons.
  destruct (Hend Hs) as (c' & ?). exists c'. by rewrite part_app, part_other, <- Ho, <- Hn.
Qed.

(** It has left: nothing more of it comes. *)
Lemma quiet_arrivals p es : ∀ w, Forall (λ e : K * wire_event, e.1 ≠ p) (omap id es) →
  data_of p es = [] ∧ of_client p (arrivals es w) = [].
Proof.
  induction es as [|[[q e]|] es IH]; intros w Hq; [done| |exact (IH w Hq)].
  apply Forall_cons_1 in Hq as [Hqp Hq]. cbn [fst] in Hqp. cbn [arrivals].
  destruct (IH (upd w q (arrived ((w q).1 + zlen (event_data e)) (w q).2).2) Hq) as [Hd Ha].
  rewrite data_of_cons, decide_False by done. split; [exact Hd|].
  by rewrite of_client_app, of_client_some, part_other.
Qed.

(** Between events no message is complete. *)
Lemma serving_waits (n : Nd) rs q wp p c : serving n rs q wp p c → arrived (wp.1 + zlen (@nil byte)) wp.2 = ([], wp).
Proof.
  intros [_ _ _ Hcut Hst Hb Hse]. rewrite zlen_nil, Z.add_0_r, Hb.
  pose proof (arrived_cut [] wp.2 (content (input c)) q Hse Hcut Hst) as E. cbn [app fmap list_fmap] in E.
  change (stream [] ++ content (input c)) with (content (input c)) in E. rewrite E, <- Hb. by destruct wp.
Qed.

Lemma served_gone p r es w n rs q c s' :
  Forall (λ e : K * wire_event, e.1 ≠ p) (omap id es) → serving n rs q (w p) p c → conn_gone p s' →
  served_upto p (Some (p, WGone r) :: es) w rs c s'.
Proof.
  intros Hq Hsg Hg. exists [], (w p).2, (content (input c)). split; [done|].
  destruct (quiet_arrivals p es (upd w p (w p)) Hq) as [Hd Ha].
  split; [|split; [|split; [apply Hsg|split; [|done]]]].
  - cbn [arrivals event_data]. rewrite (serving_waits _ _ _ _ _ _ Hsg). by rewrite of_client_app, of_client_some.
  - by rewrite data_of_cons, decide_True, Hd, app_nil_r.
  - intros Hs%Forall_cons_1. destruct Hs as [Hs _]. by specialize (Hs eq_refl).
Qed.

(** What an event of [p] leaves for its own connection. *)
Definition own_end p e es l w (c : Conn) n1 rs1 rs2 : Prop :=
  let r := arrived ((w p).1 + zlen (event_data e)) (w p).2 in
  ∃ c1, (w p).2 = r.1 ++ r.2.2 ∧ serving n1 rs2 (data_of p es ++ l) r.2 p c1 ∧
    content (input c) ++ event_data e = stream (frames_of r.1) ++ content (input c1) ∧
    out_stream c1 = out_stream c ++ reply_bytes rs1 ∧ notices c1 = notices c.

(** An event of whatever kind. *)
Lemma event_step ctx un p e es l w (n : Nd) c sv rs sv' :
  heap_avail h → context = Ok ctx → event_ok e → conns_ok (nd_peer n) → nd_writer n = true → _service n = Some sv → tm_x n = timed →
  serving n rs (data_of p (Some (p, e) :: es) ++ l) (w p) p c →
  replies_to gConfig fuel (arrivals (Some (p, e) :: es) w) sv = (Ok rs, sv') → Forall fits (rs.*2) →
  ∃ n1 rs1 rs2 sv1, run_event h un ctx (p, e) n = (Ok tt, n1) ∧ rs = (pair p <$> rs1) ++ rs2 ∧
    replies_to gConfig fuel (arrivals es (upd w p (arrived ((w p).1 + zlen (event_data e)) (w p).2).2)) sv1 = (Ok rs2, sv') ∧
    others p (nd_peer n) (nd_peer n1) ∧ nd_writer n1 = true ∧ _service n1 = Some sv1 ∧ tm_x n1 = timed ∧
    (is_gone e = true → conn_gone p (nd_peer n1)) ∧ (is_gone e = false → own_end p e es l w c n1 rs1 rs2).
Proof.
  intros Hh Hctx He Hok Hw Hs Htm Hsg Hrep Hfit. destruct (is_gone e) eqn:Hg.
  - destruct e as [| |r]; [done|done|].
    destruct (gone_on_wire ctx un p r n c Hok (sg_at _ _ _ _ _ _ Hsg) (oc_connected _ (sg_open _ _ _ _ _ _ Hsg)) He)
      as (n1 & E1 & Hoth & Hend & Hw1 & Hs1 & Htm1).
    exists n1, [], rs, sv. cbn [arrivals event_data] in *. rewrite (serving_waits _ _ _ _ _ _ Hsg) in *. cbn [fst snd] in *.
    split_and!; try done; congruence.
  - destruct (event_on_wire ctx un p e es l w n c sv rs sv' Hh Hctx He Hg Hw Hs Htm Hsg Hrep Hfit)
      as (n1 & c1 & rs1 & rs2 & sv1 & E1 & Hrs & Hrep2 & Hms & Hsg1 & Hcut1 & Hst1 & Hno1 & Hoth & Hw1 & Hs1 & Htm1).
    exists n1, rs1, rs2, sv1. split_and!; try done. intros _. by exists c1.
Qed.

(** The clients that have events left. *)
Definition left_with (p : K) (e : wire_event) (ps : list K) : list K := if is_gone e then filter (λ q, q ≠ p) ps else ps.
Lemma elem_of_left q p e ps : q ∈ left_with p e ps ↔ q ∈ ps ∧ (is_gone e = true → q ≠ p).
Proof. unfold left_with. destruct (is_gone e); [rewrite list_elem_of_filter|]; naive_solver. Qed.

(** What becomes of a client over an event, from what becomes of it over the rest. *)
Lemma served_step q p e es l l' w (n n1 : Nd) c cq rs1 rs2 s' :
  (is_gone e = true → Forall (λ e', e'.1 ≠ p) (omap id es) ∧ conn_gone p s') → others p (nd_peer n) (nd_peer n1) →
  serving n ((pair p <$> rs1) ++ rs2) (data_of p (Some (p, e) :: es) ++ l) (w p) p c →
  serving n ((pair p <$> rs1) ++ rs2) (data_of q (Some (p, e) :: es) ++ l') (w q) q cq →
  (is_gone e = false → own_end p e es l w c n1 rs1 rs2) →
  (∀ c1 l1, (is_gone e = true → q ≠ p) → let w' := upd w p (arrived ((w p).1 + zlen (event_data e)) (w p).2).2 in
     serving n1 rs2 (data_of q es ++ l1) (w' q) q c1 → served_upto q es w' rs2 c1 s') →
  served_upto q (Some (p, e) :: es) w ((pair p <$> rs1) ++ rs2) cq s'.
Proof.
  intros Hgone Hoth Hp Hcq Hown Hall. destruct (decide (q = p)) as [->|Hqp].
  - assert (cq = c) as -> by (pose proof (sg_at _ _ _ _ _ _ Hp); pose proof (sg_at _ _ _ _ _ _ Hcq); congruence).
    destruct (is_gone e) eqn:Hg.
    + destruct e; [done|done|]. by eapply served_gone; [apply Hgone|..|apply Hgone].
    + destruct (Hown eq_refl) as (c1 & Hms & Hsg1 & Hcut & Hst & Hno). apply (served_here p e es w c c1); try done.
      apply (Hall c1 l); [done|]. unfold upd. by rewrite decide_True.
  - destruct (serving_other n n1 p q e es l' rs1 rs2 w (arrived ((w p).1 + zlen (event_data e)) (w p).2).2 cq Hqp Hoth Hcq)
      as (c' & Hsg' & Si & So & Sn).
    apply (served_there p q e es w cq c'); try done. by apply (Hall c' l').
Qed.

(** Any number of connections, and their events in any order. *)
Lemma events_on_wire ctx un es : ∀ (ps : list K) w (n : Nd) sv rs sv',
  heap_avail h → context = Ok ctx → Forall (λ e, event_ok e.2) (omap id es) → Forall (λ e, e.1 ∈ ps) (omap id es) →
  gone_quiet es → (None ∈ es → timed = true) → conns_ok (nd_peer n) →
  nd_writer n = true → _service n = Some sv → tm_x n = timed →
  (∀ p, p ∈ ps → ∃ c l, serving n rs (data_of p es ++ l) (w p) p c) →
  replies_to gConfig fuel (arrivals es w) sv = (Ok rs, sv') → Forall fits (rs.*2) →
  ∃ n', run_events h un gConfig ctx es n = (Ok tt, n') ∧ _service n' = Some sv' ∧
    (∀ p, Forall (λ e, e.1 ≠ p) (omap id es) → conn_gone p (nd_peer n) → conn_gone p (nd_peer n')) ∧
    ∀ p, p ∈ ps → ∀ c, conn_at p (nd_peer n) = Some c → served_upto p es w rs c (nd_peer n').
Proof.
  induction es as [|[[p e]|] es IH]; intros ps w n sv rs sv' Hh Hctx He Hps Hq Htk Hok Hw Hs Htm Hn Hrep Hfit.
  - injection Hrep as <- <-. exists n. split; [done|]. split; [done|]. split; [done|]. intros p Hp c2 Hc2.
    destruct (Hn p Hp) as (c & l & [Hc Ho _ Hcut _ _ _]). assert (c2 = c) as -> by congruence. by apply served_end.
  - apply Forall_cons_1 in He as [He1 He], Hps as [Hp Hps]. destruct Hq as [Hgone Hq]. cbn [fst snd] in *.
    destruct (Hn p Hp) as (c & l & Hsg).
    destruct (event_step ctx un p e es l w n c sv rs sv' Hh Hctx He1 Hok Hw Hs Htm Hsg Hrep Hfit)
      as (n1 & rs1 & rs2 & sv1 & E1 & -> & Hrep2 & Hoth & Hw1 & Hs1 & Htm1 & Hlast & Hown).
    rewrite fmap_app in Hfit. apply Forall_app in Hfit as [_ Hfit].
    set (w' := upd w p _) in *.
    destruct (IH (left_with p e ps) w' n1 sv1 rs2 sv') as (n2 & E2 & Hs2 & Hstill & Hall); try done.
    { apply Forall_forall. intros e' He'. apply elem_of_left. rewrite Forall_forall in Hps. split; [by apply Hps|].
      intros Hg. specialize (Hgone Hg). rewrite Forall_forall in Hgone. by apply Hgone. }
    { intros Hin. apply Htk. by right. }
    { by apply Hoth. }
    { intros q [Hqs Hqg]%elem_of_left. destruct (decide (q = p)) as [->|Hqp].
      - destruct (is_gone e); [by destruct (Hqg eq_refl)|]. destruct (Hown eq_refl) as (c1 & _ & Hsg1 & _).
        exists c1, l. unfold w', upd. by rewrite decide_True.
      - destruct (Hn q Hqs) as (cq & lq & Hcq).
        destruct (serving_other n n1 p q e es lq rs1 rs2 w (arrived ((w p).1 + zlen (event_data e)) (w p).2).2 cq Hqp Hoth Hcq)
          as (c' & Hc' & _). by exists c', lq. }
    exists n2. split; [cbn [run_events]; by erewrite bind_Ok by exact E1|]. split; [done|].
    split; [intros q [Hqp Hq']%Forall_cons_1 Hg; apply Hstill; [done|]; by apply Hoth|]. intros q Hqs c2 Hc2.
    destruct (Hn q Hqs) as (cq & lq & Hcq). assert (c2 = cq) as -> by (pose proof (sg_at _ _ _ _ _ _ Hcq); congruence).
    apply (served_step q p e es l lq w n n1 c cq rs1 rs2); try done.
    { intros Hg. split; [by apply Hgone|]. apply Hstill; [by apply Hgone|by apply Hlast]. }
    intros c1 l1 Hqg w2 Hsg1. apply Hall; [by apply elem_of_left|].
    apply (sg_at _ _ _ _ _ _ Hsg1).
  - assert (timed = true) as Htrue by (apply Htk; by left).
    destruct (tick_on_wire ctx un es w n sv rs sv' Hs ltac:(congruence) Hrep) as (n1 & sv1 & Hrep1 & Hw1 & Hs1 & Htm1 & Hat & Hok1 & Hg1 & ->).
    destruct (IH ps w n1 sv1 rs sv' Hh Hctx He Hps) as (n2 & E2 & Hs2 & Hstill & Hall); try done; try congruence.
    { by apply Hok1. }
    { intros q Hqs. destruct (Hn q Hqs) as (cq & lq & [Hc Ho Hr Hcut Hst Hb Hse]). exists cq, lq. split; try done. by rewrite Hat. }
    exists n2. split; [done|]. split; [done|]. split; [intros q Hq' Hg; by apply Hstill, Hg1|].
    intros q Hqs c2 Hc2. apply (Hall q Hqs). by rewrite Hat.
Qed.

(** A client: its connection is open and empty, what its events bring is its messages or the
    start of them, and there is room for the answers. *)
Record client (n : Nd) (es : list (option (K * wire_event))) (rs : list (K * (Z * string))) (ms : list (Z * NodeMsg)) (p : K) (c : Conn) : Prop := {
  cl_at : conn_at p (nd_peer n) = Some c;
  cl_open : open_conn c;
  cl_empty : content (input c) = [];
  cl_room : buffered c + zlen (reply_bytes (part p rs)) <= maxsize;
  cl_stream : data_of p es `prefix_of` stream (frames_of ms);
  cl_sendable : sendable ms;
}.

(** The messages in the order the node handles them. *)
Definition handled (es : list (option (K * wire_event))) (ms : K → list (Z * NodeMsg)) : list (option (K * NodeMsg)) :=
  arrivals es (λ p, (0, ms p)).

(** What the events leave of a client: those of its messages that came whole are handled, and
    unless it left, its connection is open and has the answers to them, behind what was there
    before, and the start of the message that did not; if it left, its connection is gone. *)
Definition answered (p : K) es (ms : list (Z * NodeMsg)) hs (rs : list (K * (Z * string))) (c : Conn) (s' : C) : Prop :=
  ∃ ms1 ms2 tail, ms = ms1 ++ ms2 ∧ data_of p es = stream (frames_of ms1) ++ tail ∧ incomplete tail = true ∧
  of_client p hs = ms1.*2 ∧
  (stays p es → ∃ c', conn_at p s' = Some c' ∧ open_conn c' ∧ out_stream c' = out_stream c ++ reply_bytes (part p rs) ∧
     notices c' = notices c ∧ content (input c') = tail) ∧ (leaves p es → conn_gone p s').

(** All of them, when all came. *)
Lemma answered_all p es ms hs rs c s' :
  sendable ms → data_of p es = stream (frames_of ms) → answered p es ms hs rs c s' →
  of_client p hs = ms.*2 ∧ (stays p es → ∃ c', conn_at p s' = Some c' ∧ open_conn c' ∧
    out_stream c' = out_stream c ++ reply_bytes (part p rs) ∧ notices c' = notices c ∧ content (input c') = []).
Proof.
  intros Hse Hd (ms1 & ms2 & tail & -> & Hd' & Hi & Hh & Hend & _). rewrite Hd, fmap_app, stream_app in Hd'.
  apply app_inv_head in Hd'. apply sendable_app in Hse as [_ Hse]. apply sendable_frames in Hse.
  destruct ms2 as [|m ms2].
  - rewrite app_nil_r. cbn in Hd'. subst tail. by split.
  - exfalso. cbn [fmap list_fmap] in *. apply Forall_cons_1 in Hse as [Hf _].
    by rewrite <- Hd', stream_cons, complete_frame in Hi.
Qed.

(** Each client is answered its own messages, in its own order, whatever the others send,
    however the events of all of them follow each other and whoever of them leaves. *)
Lemma clients_on_the_wire ctx un (ps : list K) es (ms : K → list (Z * NodeMsg)) (n : Nd) sv rs sv' :
  heap_avail h → context = Ok ctx → Forall (λ e, event_ok e.2) (omap id es) → Forall (λ e, e.1 ∈ ps) (omap id es) →
  gone_quiet es → (None ∈ es → timed = true) → conns_ok (nd_peer n) →
  nd_writer n = true → _service n = Some sv → tm_x n = timed →
  (∀ p, p ∈ ps → ∃ c, client n es rs (ms p) p c) →
  replies_to gConfig fuel (handled es ms) sv = (Ok rs, sv') → Forall fits (rs.*2) →
  ∃ n', run_events h un gConfig ctx es n = (Ok tt, n') ∧ _service n' = Some sv' ∧ ∀ p, p ∈ ps →
    ∀ c, conn_at p (nd_peer n) = Some c → answered p es (ms p) (handled es ms) rs c (nd_peer n').
Proof.
  intros Hh Hctx He Hps Hq Htk Hok Hw Hs Htm Hc Hrep Hfit. unfold handled in *.
  destruct (events_on_wire ctx un es ps (λ p, (0, ms p)) n sv rs sv') as (n' & E & Hs' & _ & Hall); try done.
  { intros p Hp. destruct (Hc p Hp) as (c & [Hat Ho Hi Hr [l Hst] Hse]). exists c, l. by split; rewrite ?Hi. }
  exists n'. split; [done|]. split; [done|]. intros p Hp c Hc0.
  destruct (Hc p Hp) as (c1 & [Hat Ho Hi Hr Hst Hse]). assert (c1 = c) as -> by congruence.
  destruct (Hall p Hp c Hc0) as (ms1 & ms2 & tail & ? & ? & Hd & ? & ? & ?). rewrite Hi in Hd.
  exists ms1, ms2, tail. by split_and!.
Qed.

End wire.

(** ** One connection *)

Section one.
Context {S : Type} `{Store S, CerealLaw, Indeterminate, Rand, Clock}.
Context (h : Heap) (junk : Header) (stats : BlockStats) (gConfig : Config) (fuel : nat).
#[local] Instance one_peer : Peer unit (Conn * list Z) := ConnsPeer h.
Abbreviation context := (node_context (K:=unit) (C:=Conn * list Z) h junk stats gConfig fuel).

Lemma part_unit {A} (l : list A) : part tt (pair tt <$> l) = l.
Proof. apply part_same. Qed.
Lemma unit_pairs {A} (l : list (unit * A)) : l = pair tt <$> l.*2.
Proof. induction l as [|[[] x] l IH]; [done|]. cbn. by rewrite <- IH. Qed.

Lemma arrivals_some {K} `{EqDecision K} (l : list (K * wire_event)) : ∀ w, ∃ l', arrivals (Some <$> l) w = Some <$> l'.
Proof.
  induction l as [|[p e] l IH]; intros w; [by exists []|]. cbn [fmap list_fmap arrivals].
  destruct (IH (upd w p (arrived ((w p).1 + zlen (event_data e)) (w p).2).2)) as (l' & ->).
  exists ((pair p <$> (arrived ((w p).1 + zlen (event_data e)) (w p).2).1.*2) ++ l'). by rewrite fmap_app.
Qed.

(** One client, whatever way the kernel cuts its bytes into reads and takes the answers. *)
Lemma node_on_the_wire ctx un es (ms : list (Z * NodeMsg)) (n : Node S (Conn * list Z)) sv rs sv' :
  heap_avail h → context = Ok ctx → sendable ms → Forall event_ok es → Forall (λ e, is_gone e = false) es →
  es ≫= event_data = stream (frames_of ms) →
  nd_writer n = true → _service n = Some sv → open_conn (nd_peer n).1 → content (input (nd_peer n).1) = [] →
  node_replies gConfig fuel (ms.*2) sv = (Ok rs, sv') → Forall fits rs →
  buffered (nd_peer n).1 + zlen (rs ≫= reply_frame) <= maxsize →
  ∃ n', run_events h un gConfig ctx (Some <$> (pair tt <$> es)) n = (Ok tt, n') ∧ _service n' = Some sv' ∧
    out_stream (nd_peer n').1 = out_stream (nd_peer n).1 ++ (rs ≫= reply_frame) ∧
    notices (nd_peer n').1 = notices (nd_peer n).1 ∧ content (input (nd_peer n').1) = [].
Proof.
  intros Hh Hctx Hse He Hng Hst Hw Hs Ho Hi Hrep Hf Hroom.
  assert (data_of tt (Some <$> (pair tt <$> es)) = stream (frames_of ms)) as Hd
    by (unfold data_of; by rewrite of_client_some, part_unit).
  assert (handled (Some <$> (pair tt <$> es)) (λ _, ms) = Some <$> (pair tt <$> ms.*2)) as Hhd.
  { unfold handled. destruct (arrivals_some (pair tt <$> es) (λ _, (0, ms))) as (l & El). rewrite El. f_equal.
    rewrite (unit_pairs l). f_equal. rewrite <- (part_unit l.*2), <- unit_pairs, <- of_client_some, <- El.
    apply (arrivals_part tt); cbn [fst snd]; [split; [done|by destruct ms; [|apply frame_pos]]|by rewrite Hd]. }
  assert (omap id (Some <$> (pair tt <$> es)) = pair tt <$> es) as Ho1 by (clear; induction es; cbn; congruence).
  destruct (clients_on_the_wire h junk stats gConfig fuel (tm_x n) ctx un [tt] (Some <$> (pair tt <$> es)) (λ _, ms)
    n sv (pair tt <$> rs) sv') as (n' & E & Hs' & Hall); try done.
  - rewrite Ho1, Forall_fmap. done.
  - apply Forall_forall. intros [[] ?] _. by left.
  - clear -Hng. induction Hng as [|e es Hg _ IH]; [done|]. split; [by rewrite Hg|done].
  - intros (x & Hx & _)%list_elem_of_fmap. done.
  - intros [] _. exists (nd_peer n).1. split; rewrite ?part_unit; try done. by rewrite Hd.
  - rewrite Hhd. by apply replies_to_same.
  - by rewrite list_fmap_snd_pair.
  - destruct (answered_all _ _ _ _ _ _ _ Hse Hd (Hall tt ltac:(by left) _ eq_refl)) as (_ & Hend).
    destruct Hend as (c' & [= <-] & _ & Hst' & Hno & Hi'); [unfold stays; rewrite Ho1, Forall_fmap; apply (list.Forall_impl _ _ _ Hng); intros e Hg _; exact Hg|].
    rewrite part_unit in Hst'. by exists n'.
Qed.
End one.

(** ** Witness: the stream of Handler.v in two reads; the kernel takes three bytes of the first
    answer, none of the second, and the rest when the socket is writable *)

Definition wwire : Node (Storage (H:=MemHiredis)) (Conn * list Z) :=
  mkNode (Some (wsvc 1 wbalances)) true false 0 (wconn [], []).
Definition wread (data : list byte) (answers : list SysRes) : wire_event := WRead (mkRes (zlen data) 0 0 0 data) answers.
Definition wevents : list wire_event :=
  [wread (ztake 5 wbytes) []; wread (zdrop 5 wbytes) [mkRes 3 0 0 0 []; mkRes (-1) EAGAIN 0 0 []]; WWrite [mkRes 4096 0 0 0 []]].
Abbreviation wire_context :=
  (node_context (H4:=ConnsPeer wheap) (S:=Storage (H:=MemHiredis)) (K:=unit) (C:=Conn * list Z) wheap wjunk (mkStats 0 0) (wcfg 1) 5).

Lemma wevents_ok : Forall event_ok wevents.
Proof.
  assert (kernel_ok (mkRes 3 0 0 0 []) ∧ kernel_ok (mkRes (-1) EAGAIN 0 0 []) ∧ kernel_ok (mkRes 4096 0 0 0 [])) as (? & ? & ?).
  { split; [by left|]. split; [by right|by left]. }
  apply Forall_cons_2; [|apply Forall_cons_2; [|apply Forall_cons_2; [|constructor]]].
  - split; [vm_compute; discriminate|]. split; [decide_by_compute|constructor].
  - split; [vm_compute; discriminate|]. split; [decide_by_compute|].
    apply Forall_cons_2; [done|]. by apply Forall_cons_2; [|constructor].
  - by apply Forall_cons_2; [|constructor].
Qed.

Lemma wmsgs_buffer_sized : Forall buffer_sized wmsgs.
Proof. repeat (apply Forall_cons_2; [unfold buffer_sized; decide_by_compute|]). constructor. Qed.

Lemma wmsgs_sendable : sendable wmsgs.
Proof. exact (conj wmsgs_sized (conj wmsgs_buffer_sized wmsgs_valid)). Qed.

Lemma node_on_the_wire_witness :
  ∃ ctx n', wire_context = Ok ctx ∧ run_events wheap wuninit (wcfg 1) ctx (Some <$> (pair tt <$> wevents)) wwire = (Ok tt, n') ∧
    out_stream (nd_peer n').1 = wanswers ≫= reply_frame ∧ notices (nd_peer n').1 = [].
Proof.
  destruct (node_context_entries (H5:=ConnsPeer wheap) (S:=Storage (H:=MemHiredis)) (K:=unit) (C:=Conn * list Z)
    wheap wjunk (mkStats 0 0) (wcfg 1) 5) as (ctx & E & _).
  exists ctx.
  destruct (node_on_the_wire wheap wjunk (mkStats 0 0) (wcfg 1) 5 ctx wuninit wevents wmsgs wwire (wsvc 1 wbalances)
    wanswers wreplies.2) as (n' & Er & _ & Ho & Hn & _).
  - done.
  - exact E.
  - exact wmsgs_sendable.
  - exact wevents_ok.
  - by repeat constructor.
  - vm_compute. reflexivity.
  - done.
  - done.
  - split; [apply wconn_sending|done|constructor].
  - done.
  - exact (run_eta _ _ wreplies_ok).
  - exact wanswers_fit.
  - decide_by_compute.
  - exists n'. split; [exact E|]. split; [exact Er|]. split; [exact Ho|exact Hn].
Defined.
