(* ===== verification/Peers.v ===== *)
(** * Peers.v: a node and its clients

    The node of Wire.v on the connections of its [DirectWriter] (ConnMgr.v): every client of
    the process has a connection of its own in the manager's heap, an event of one of them
    runs [Connection] and then what the manager does with the notices.  Two clients never
    see each other's answers, and one that leaves takes only its own connection with it.
    The clients come over a listening socket or, in a worker, over the daemon's channel. *)

From S2P Require Import Prelude Cnum BlockBuffer ByteStream Sender Framing Socket Connection Timer ConnMgr Redis RedisCache Store Proto Config Helper Service Dispatch Handler WhiteList Server Wire.
From Stdlib Require Import Lia.
Open Scope Z_scope.

(** ** The manager as the keeper of the connections

    Beside it the timers the node set for itself. *)
Definition client_of (p : positive) (s : Mgr) : option Conn := (λ o, load_conn s (co_conn o)) <$> heap s !! p.
Definition apart (p : positive) (s s' : Mgr) : Prop := ∀ q c, q ≠ p → client_of q s = Some c →
  ∃ c', client_of q s' = Some c' ∧ same_conn c c'.

Lemma mgr_do {A} p (m : M Conn A) s c r c' :
  client_of p s = Some c → m c = (r, c') →
  ∃ s', ConnMgr.on_conn p m s = (r, s') ∧ client_of p s' = Some c' ∧ apart p s s' ∧ next s' = next s ∧ cid s' = cid s.
Proof.
  intros (o & Ho & ->)%fmap_Some E. exists (store_conn p o c' s). unfold ConnMgr.on_conn. rewrite Ho, E.
  split; [done|]. split; [|split; [|done]].
  - unfold client_of. cbn. rewrite lookup_insert_eq. by destruct c'.
  - intros q cq Hq (oq & Hoq & ->)%fmap_Some. unfold client_of. cbn. rewrite lookup_insert_ne by done. rewrite Hoq.
    eexists. by split.
Qed.

(** It makes no connection. *)
Lemma mgr_do_gone {A} p q (m : M Conn A) s r s' :
  ConnMgr.on_conn p m s = (r, s') → q ≠ p → client_of q s = None → client_of q s' = None.
Proof.
  intros E Hq Hg. unfold ConnMgr.on_conn in E. unfold client_of in *. apply fmap_None in Hg. apply fmap_None.
  destruct (heap s !! p); [destruct (m _)|]; injection E as _ <-; [|done]. cbn. by rewrite lookup_insert_ne.
Qed.

Section keeper.
Context (is_writer : bool).

(** A connection that ends is deleted, and no other. *)
Lemma mgr_end p s c x :
  mgr_wf is_writer s → client_of p s = Some c → x ≠ NConnected →
  ∃ s', handle_notices is_writer p [x] s = (Ok tt, s') ∧ mgr_wf is_writer s' ∧ apart p s s' ∧ cid s' = cid s ∧
    heap s' = delete p (heap s).
Proof.
  intros Hs (o & Ho & _)%fmap_Some Hx.
  destruct (eraseConnection_run is_writer p o s Hs Ho) as (s' & E & Eh & En & Em & Ec & Es & _).
  exists s'. split; [|split; [by eapply erased_wf|split; [|split; [done|]]]].
  - cbn [handle_notices]. erewrite bind_Ok; [reflexivity|]. by destruct x.
  - intros q cq Hq (oq & Hoq & ->)%fmap_Some. exists (load_conn s' (co_conn oq)). split; [|done].
    unfold client_of. by rewrite Eh, lookup_delete_ne, Hoq.
  - done.
Qed.

#[global] Instance mgr_conns : Conns positive (Mgr * list Z) := {|
  conns_ok s := mgr_wf is_writer s.1 ∧ cid s.1 < 2 ^ 32;
  conn_at p s := client_of p s.1;
  conn_gone p s := client_of p s.1 = None;
  conn_do _ p m := on_fst (ConnMgr.on_conn p m);
  conn_tell p ns := on_fst (handle_notices is_writer p ns);
  node_addTimer t := modify (λ s, (s.1, s.2 ++ [t]));
|}.

#[global] Instance mgr_conns_law : ConnsLaw positive (Mgr * list Z).
Proof.
  split; [|by intros p [s ts]| |by intros t [s ts]; eexists].
  - intros A p m [s ts] c r c' Hc E. destruct (mgr_do p m s c r c' Hc E) as (s' & Es & Hc' & Ho & _).
    exists (s', ts). unfold conn_do, mgr_conns, on_fst. cbn [fst snd]. rewrite Es. split; [done|]. split; [done|].
    split; [|split; [intros q Hq; by eapply mgr_do_gone|done]].
    intros [Hs Hcid]. destruct (keeps_on_conn is_writer p m s r s' Hs ltac:(cbn in Hcid; lia) Es). split; [done|cbn in *; lia].
  - intros p [s ts] c x [Hs Hcid] Hc Hx. destruct (mgr_end p s c x Hs Hc Hx) as (s' & E & Hs' & Ha & Hcid' & Eh).
    exists (s', ts). unfold conn_tell, mgr_conns, on_fst. cbn [fst snd] in *. rewrite E.
    split; [done|]. split; [split; [intros _; split; [done|cbn; lia]|split; [|done]]|].
    + intros q Hq Hg. cbn in *. unfold client_of in *. apply fmap_None in Hg. apply fmap_None. by rewrite Eh, lookup_delete_ne.
    + cbn. unfold client_of. by rewrite Eh, lookup_delete_eq.
Qed.
End keeper.

(** ** A client that is accepted

    The kernel lets the new descriptor be made non-blocking; the connection is then open,
    with nothing read and nothing to send, and the clients there already stay as they are. *)
Section accepting.
Context (kernel : positive → list SysRes) (junk_time : Z) (is_writer : bool).

Definition granted_conn (l : list SysRes) : Prop := ∃ r1 r2 r3 rest, l = r1 :: r2 :: r3 :: rest ∧
  sr_ret r1 ≠ -1 ∧ sr_ret r2 ≠ -1 ∧ sr_ret r3 ≠ -1 ∧ Forall kernel_ok rest.

Definition idle (c : Conn) : Prop :=
  open_conn c ∧ content (input c) = [] ∧ out_stream c = [] ∧ buffered c = 0 ∧ notices c = [].

Lemma apart_trans p s1 s2 s3 : apart p s1 s2 → apart p s2 s3 → apart p s1 s3.
Proof.
  intros H1 H2 q c Hq Hc. destruct (H1 q c Hq Hc) as (c' & Hc' & E1). destruct (H2 q c' Hq Hc') as (c2 & Hc2 & E2).
  exists c2. split; [done|by eapply same_conn_trans].
Qed.

(** The constructor's calls and [setTimeout]. *)
Lemma accepted_calls p s :
  granted_conn (kernel p) → ∀ fd, ∃ c1, doAccept fd (fresh_conn kernel junk_time p s) = (Ok tt, c1) ∧
    ∃ c2, on_net setnodelay c1 = (Ok tt, c2) ∧
    ∀ nodelay : bool, idle (setTimeout CONN_TIMEOUT (if nodelay then c2 else c1)).2.
Proof.
  intros (r1 & r2 & r3 & rest & E & H1 & H2 & H3 & Hk) fd. unfold doAccept, fresh_conn, on_net, attach, setblocking, setnodelay, set_option.
  run_sys. rewrite E. cbn. destruct (Z.eqb_spec (sr_ret r1) (-1)); [done|]. cbn.
  destruct (Z.eqb_spec (sr_ret r2) (-1)); [done|]. eexists. split; [reflexivity|]. cbn.
  destruct (Z.eqb_spec (sr_ret r3) (-1)); [done|]. eexists. split; [reflexivity|].
  intros nodelay. assert (Hnew : bb_wf (BP:=SockBlock) new_BlockBuffer) by apply new_BlockBuffer_wf.
  destruct nodelay; cbn; (split; [|done]); (split; [by split; [split|..]|done|cbn]); [exact Hk|].
  constructor; [by left|exact Hk].
Qed.

Lemma idle_same c c' : same_conn c c' → idle c → idle c'.
Proof.
  intros E (Ho & Hi & Hs & Hb & Hn). unfold idle. split; [by eapply same_open|]. unfold same_conn in E.
  rewrite E. by split_and!.
Qed.

Lemma alloc_client ip port s :
  mgr_wf is_writer s → ∃ s', alloc kernel junk_time ip port s = (Ok (next s), s') ∧ mgr_wf_but is_writer (next s) s' ∧
    cid s' = cid s ∧ next s' = Pos.succ (next s) ∧ client_of (next s) s' = Some (fresh_conn kernel junk_time (next s) s) ∧ apart (next s) s s'.
Proof.
  intros Hs. destruct (alloc_run kernel junk_time is_writer ip port s Hs) as (s' & E & Hb & Hc).
  exists s'. injection E as <-. split_and!; [done|done|done|done|unfold client_of; cbn; by rewrite lookup_insert_eq|].
  intros q c Hq (o & Ho & ->)%fmap_Some. unfold client_of. cbn. rewrite lookup_insert_ne, Ho by done. eexists. by split.
Qed.

Lemma onConnCreate_client p s c :
  mgr_wf_but is_writer p s → cid s + 1 < 2 ^ 32 → client_of p s = Some c →
  ∃ s' c', onConnCreate p s = (Ok tt, s') ∧ mgr_wf is_writer s' ∧ cid s' = cid s + 1 ∧ next s' = next s ∧ client_of p s' = Some c' ∧ same_conn c c' ∧ apart p s s'.
Proof.
  intros Hb Hc Hcl. destruct (onConnCreate_run is_writer p s Hb Hc)
    as (s' & o & E & Hs' & Hcid & _ & Ho & _ & _ & _ & _ & Hnx & (o0 & Ho0 & Hco) & Hdel).
  unfold client_of in Hcl. rewrite Ho0 in Hcl. injection Hcl as <-.
  exists s', (load_conn s' (co_conn o)). split; [done|]. split; [done|]. split; [done|]. split; [done|].
  split; [unfold client_of; by rewrite Ho|]. split; [by rewrite Hco|].
  intros q cq Hq (oq & Hoq & ->)%fmap_Some. exists (load_conn s' (co_conn oq)). split; [|done].
  unfold client_of. by rewrite <- (lookup_delete_ne _ p), Hdel, lookup_delete_ne, Hoq by done.
Qed.

Lemma accepted_client nodelay fd ip port s :
  mgr_wf is_writer s → cid s + 1 < 2 ^ 32 → granted_conn (kernel (next s)) →
  ∃ s' c, createServerSideConn kernel junk_time nodelay fd ip port s = (Ok (next s), s') ∧ mgr_wf is_writer s' ∧
    client_of (next s) s' = Some c ∧ idle c ∧ apart (next s) s s' ∧ next s' = Pos.succ (next s) ∧ cid s' = cid s + 1.
Proof.
  intros Hs Hcid Hk. set (p := next s) in *.
  destruct (alloc_client (u32 ip) (u16 port) s Hs) as (s1 & E1 & Hb1 & Hc1 & Hn1 & Hcl1 & Ha1).
  destruct (accepted_calls p s Hk fd) as (c1 & Ec1 & c2 & Ec2 & Hidle).
  destruct (mgr_do p _ s1 _ _ _ Hcl1 Ec1) as (s2 & E2 & Hcl2 & Ha2 & Hn2 & Hc2).
  destruct (on_conn_but _ p _ _ _ _ Hb1 E2) as [Hb2 _].
  assert (∃ s3, ConnMgr.on_conn p (if nodelay then on_net setnodelay else mret tt) s2 = (Ok tt, s3) ∧
    client_of p s3 = Some (if nodelay then c2 else c1) ∧ apart p s2 s3 ∧ next s3 = next s2 ∧ cid s3 = cid s2)
    as (s3 & E3 & Hcl3 & Ha3 & Hn3 & Hc3).
  { destruct nodelay; [by apply (mgr_do p _ s2 c1)|by apply (mgr_do p (mret tt) s2 c1)]. }
  destruct (on_conn_but _ p _ _ _ _ Hb2 E3) as [Hb3 _].
  destruct (mgr_do p (setTimeout CONN_TIMEOUT) s3 _ (Ok tt) _ Hcl3 eq_refl) as (s4 & E4 & Hcl4 & Ha4 & Hn4 & Hc4).
  destruct (on_conn_but _ p _ _ _ _ Hb3 E4) as [Hb4 _].
  destruct (onConnCreate_client p s4 _ Hb4 ltac:(lia) Hcl4) as (s5 & c5 & E5 & Hs5 & Hc5 & Hn5 & Hcl5 & Hsame & Ha5).
  destruct (mgr_do p (Connection.addEvent 0 EVENT_READ) s5 c5 (Ok tt) _ Hcl5 eq_refl) as (s6 & E6 & Hcl6 & Ha6 & Hn6 & Hc6).
  pose proof (idle_same _ _ Hsame (Hidle nodelay)) as (Hop & Hi). exists s6, (Connection.addEvent 0 EVENT_READ c5).2.
  split; [|split; [|split; [exact Hcl6|split; [|split; [|split; [by rewrite Hn6, Hn5, Hn4, Hn3, Hn2|lia]]]]]].
  - unfold createServerSideConn, new_server, or_cleanup, mbind, M_bind. rewrite E1. fold p.
    rewrite E2, E3. unfold mret at 1, M_ret at 1. by rewrite E4, E5, E6.
  - by destruct (keeps_on_conn is_writer p _ s5 _ s6 Hs5 ltac:(lia) E6).
  - split; [by apply open_conn_addEvent|done].
  - do 5 (eapply apart_trans; [eassumption|]). exact Ha6.
Qed.

(** *** All that wait *)

(** The pointers of the next [n] connections. *)
Fixpoint pointers (p : positive) (n : nat) : list positive :=
  match n with O => [] | Datatypes.S n => p :: pointers (Pos.succ p) n end.

Definition admitted (hosts : option WhiteLst) (ps : list Pending) : nat :=
  length (filter (λ p, allowed_host hosts (p_ip p) = true) ps).

Lemma admitted_anyone ps : admitted None ps = length ps.
Proof. induction ps as [|p ps IH]; [done|]. unfold admitted in *. rewrite filter_cons_True by done. cbn [length]. by rewrite IH. Qed.

Lemma pointers_ge p q n : q ∈ pointers p n → (p <= q)%positive.
Proof.
  revert p. induction n as [|n IH]; intros p; [by intros ?%elem_of_nil|]. intros [->|Hq]%elem_of_cons; [lia|].
  apply IH in Hq. lia.
Qed.

Lemma apart_idle p q s s' : q ≠ p → apart p s s' → (∃ c, client_of q s = Some c ∧ idle c) → ∃ c, client_of q s' = Some c ∧ idle c.
Proof.
  intros Hq Ha (c & Hc & Hi). destruct (Ha q c Hq Hc) as (c' & Hc' & Hsame). exists c'. split; [done|by eapply idle_same].
Qed.

Lemma admit_clients nodelay hosts ps : ∀ s,
  mgr_wf is_writer s → cid s + Z.of_nat (length ps) < 2 ^ 32 → (∀ p, granted_conn (kernel p)) →
  ∃ s', admit_all (server_onAccept kernel junk_time nodelay) hosts ps s = (Ok tt, s') ∧ mgr_wf is_writer s' ∧ cid s' <= cid s + Z.of_nat (length ps) ∧
    (∀ p, p ∈ pointers (next s) (admitted hosts ps) → ∃ c, client_of p s' = Some c ∧ idle c) ∧
    (∀ p, (p < next s)%positive → (∃ c, client_of p s = Some c ∧ idle c) → ∃ c, client_of p s' = Some c ∧ idle c).
Proof.
  induction ps as [|x ps IH]; intros s Hs Hcid Hk; cbn [admit_all length] in *.
  - exists s. split; [done|]. split; [done|]. split; [lia|]. split; [by intros p ?%elem_of_nil|done].
  - unfold admitted. rewrite filter_cons. destruct (allowed_host hosts (p_ip x)); cbn [decide bool_eq_dec].
    + destruct (accepted_client nodelay (p_fd x) (u32 (p_ip x)) (u16 (XHTONS (p_port x))) s Hs ltac:(lia) (Hk _))
        as (s1 & c & E1 & Hs1 & Hcl & Hi & Ha & Hn & Hc).
      destruct (IH s1 Hs1 ltac:(lia) Hk) as (s2 & E2 & Hs2 & Hc2 & Hnew & Hold). exists s2.
      erewrite bind_Ok by (unfold server_onAccept; erewrite bind_Ok by exact E1; reflexivity).
      split; [exact E2|]. split; [done|]. split; [lia|]. rewrite Hn in Hnew, Hold. split.
      * intros q [->|Hq]%elem_of_cons; [apply Hold; [lia|by exists c]|by apply Hnew].
      * intros q Hq Hx. apply Hold; [lia|]. apply (apart_idle (next s) q s); [lia|done|done].
    + destruct (IH s Hs ltac:(lia) Hk) as (s2 & E2 & Hs2 & Hc2 & Hnew & Hold). exists s2.
      split; [exact E2|]. split; [done|]. split; [lia|done].
Qed.
End accepting.

(** ** From the listening socket to the answers *)

Definition mgr_of {S} (n : Node S (Mgr * list Z)) : Mgr := (nd_peer n).1.

Section node.
Context {S : Type} `{Store S, CerealLaw, Indeterminate, Rand, Clock}.
Context (h : Heap) (junk : Header) (stats : BlockStats) (gConfig : Config) (fuel : nat).
Context (kernel : positive → list SysRes) (junk_time : Z) (nodelay is_writer : bool).
#[local] Instance node_conns : Conns positive (Mgr * list Z) := mgr_conns is_writer.
#[local] Instance node_peer : Peer positive (Mgr * list Z) := ConnsPeer h.
Abbreviation Nd := (Node S (Mgr * list Z)).
Abbreviation context := (node_context (K:=positive) (C:=Mgr * list Z) h junk stats gConfig fuel).

(** The acceptor's [onAccept] of a node. *)
Definition node_onAccept (fd ip port : Z) : M Nd unit :=
  on_peer (on_fst (server_onAccept kernel junk_time nodelay fd ip port)).

(** That of a worker. *)
Definition node_onRecv (fd ip port : Z) : M Nd unit :=
  on_peer (on_fst (worker_onAccept kernel junk_time nodelay fd ip port)).

Lemma node_admits hosts ps s' : ∀ n : Nd,
  admit_all (server_onAccept kernel junk_time nodelay) hosts ps (mgr_of n) = (Ok tt, s') →
  admit_all node_onAccept hosts ps n =
    (Ok tt, mkNode (_service n) (nd_writer n) (tm_x n) (tm_to n) (s', (nd_peer n).2)).
Proof.
  induction ps as [|x ps IH]; intros n E; cbn [admit_all] in *.
  - injection E as <-. by destruct n as [? ? ? ? []].
  - destruct (allowed_host hosts (p_ip x)).
    + inv_bind E. erewrite bind_Ok; [by apply (IH (mkNode _ _ _ _ (s, (nd_peer n).2)))|].
      unfold node_onAccept, on_peer, on_fst. unfold mgr_of in Hrun. rewrite Hrun. by destruct a.
    + exact (IH n E).
Qed.

(** What the events [es] of the clients [ps] bring when the node starts from [n1] with the
    service [sv]: replies [rs] in all, and each client its own.  The messages [ms1] of a
    client came whole and are handled; unless it left, its connection is there, nothing
    else was sent on it, and the start of a message that did not come whole waits in its
    input; the connection of one that left is deleted. *)
Record answers_each ctx un (ps : list positive) es (ms : positive → list (Z * NodeMsg)) (n1 : Nd) rs sv' n' : Prop := {
  ae_run : run_events h un gConfig ctx es n1 = (Ok tt, n');
  ae_service : _service n' = Some sv';
  ae_client : ∀ p, p ∈ ps → ∃ ms1 ms2 tail, ms p = ms1 ++ ms2 ∧
    data_of p es = stream (frames_of ms1) ++ tail ∧ incomplete tail = true ∧ of_client p (handled es ms) = ms1.*2 ∧
    (stays p es → ∃ c, client_of p (mgr_of n') = Some c ∧ out_stream c = part p rs ≫= reply_frame ∧
      notices c = [] ∧ content (input c) = tail) ∧
    (leaves p es → client_of p (mgr_of n') = None) }.

(** The events and what the clients send with them: their messages, or the start of them. *)
Record sent_by (ps : list positive) (es : list (option (positive * wire_event))) (ms : positive → list (Z * NodeMsg)) (rs : list (positive * (Z * string))) : Prop := {
  sb_events : Forall (λ e, event_ok e.2) (omap id es);
  sb_clients : Forall (λ e, e.1 ∈ ps) (omap id es);
  sb_gone : gone_quiet es;
  sb_data : ∀ p, p ∈ ps → data_of p es `prefix_of` stream (frames_of (ms p)) ∧ sendable (ms p) ∧
     zlen (part p rs ≫= reply_frame) <= maxsize;
  sb_fits : Forall fits (rs.*2) }.

(** The node has taken the peers [ps], by whatever way they came. *)
Lemma admitted_clients_served ctx un hosts peers es ms (n : Nd) sv rs sv' :
  let ps := pointers (next (mgr_of n)) (admitted hosts peers) in
  heap_avail h → context = Ok ctx →
  mgr_wf is_writer (mgr_of n) → cid (mgr_of n) + Z.of_nat (length peers) < 2 ^ 32 → (∀ p, granted_conn (kernel p)) →
  nd_writer n = true → _service n = Some sv → (None ∈ es → tm_x n = true) → sent_by ps es ms rs →
  replies_to gConfig fuel (handled es ms) sv = (Ok rs, sv') →
  ∃ n1 n', admit_all node_onAccept hosts peers n = (Ok tt, n1) ∧ answers_each ctx un ps es ms n1 rs sv' n'.
Proof.
  intros ps Hh Hctx Hm Hcid Hk Hw Hs Htk [He Hps Hq Hc Hfit] Hrep.
  destruct (admit_clients kernel junk_time is_writer nodelay hosts peers (mgr_of n) Hm Hcid Hk) as (s' & E & Hs' & Hcid' & Hidle & _).
  pose proof (node_admits hosts peers s' n E) as Ea. set (n1 := mkNode _ _ _ _ (s', _)) in Ea.
  destruct (clients_on_the_wire h junk stats gConfig fuel (tm_x n) ctx un ps es ms n1 sv rs sv') as (n' & Er & Hsv & Hall); try done.
  { split; [exact Hs'|cbn; lia]. }
  { intros p Hp. destruct (Hidle p Hp) as (c & Hcl & Hop & Hi & Hst & Hb & Hn). destruct (Hc p Hp) as (Hd & Hse & Hr).
    exists c. split; [exact Hcl|done..|lia|done|done]. }
  exists n1, n'. split; [exact Ea|]. split; [done|done|]. intros p Hp.
  destruct (Hidle p Hp) as (c & Hcl & Hop & Hi & Hst & Hb & Hn).
  destruct (Hall p Hp c Hcl) as (ms1 & ms2 & tail & ? & ? & ? & ? & Hend & ?). exists ms1, ms2, tail. split_and!; try done.
  intros Hs1. destruct (Hend Hs1) as (c' & Hcl' & _ & Hst' & Hno & Hin). exists c'. rewrite Hst', Hno, Hst. by split_and!.
Qed.

(** C4: from the listening socket to the answers of several clients.  The acceptor finds
    [backlog] waiting and admits the peers of the white list; then the events of their
    connections follow in any order, each read with any part of what that client sends, each
    write and each answer taken by the kernel as far as it likes, and between them the
    node's timer makes its blocks; a client may leave at any time, in the middle of a message
    or with a reset ([sent_by]).  The node ends with every admitted client that stayed
    answered: the bytes for it, handed to the kernel or still buffered, are the frames of the
    replies to its own messages, in its own order, and of nobody else's, and its
    connection was not given up; of those who left every message that came whole was
    handled, and their connections are deleted ([answers_each]).  [handled] is the one order in which the service saw the
    messages of all of them and the ticks of the timer. *)
Theorem clients_served_apart ctx un hosts backlog r x rest w es (ms : positive → list (Z * NodeMsg)) (n : Nd) sv rs sv' :
  let ps := pointers (next (mgr_of n)) (admitted hosts backlog) in
  heap_avail h → context = Ok ctx →
  Forall pending_ok backlog → sr_ret x = -1 → isIgnoreAcceptError (sr_errno x) = true →
  script w = flat_map (answers_of hosts r) backlog ++ x :: rest →
  mgr_wf is_writer (mgr_of n) → cid (mgr_of n) + Z.of_nat (length backlog) < 2 ^ 32 → (∀ p, granted_conn (kernel p)) →
  nd_writer n = true → _service n = Some sv → (None ∈ es → tm_x n = true) → sent_by ps es ms rs →
  replies_to gConfig fuel (handled es ms) sv = (Ok rs, sv') →
  ∃ w' n1 n', acceptor_doEvent node_onAccept hosts EVENT_READ (w, n) = (Ok tt, (w', n1)) ∧
    answers_each ctx un ps es ms n1 rs sv' n'.
Proof.
  intros ps Hh Hctx Hbl Hx1 Hx2 Hsc Hm Hcid Hk Hw Hs Htk Hsent Hrep.
  destruct (admitted_clients_served ctx un hosts backlog es ms n sv rs sv') as (n1 & n' & Ea & Hend); try done.
  eexists _, n1, n'. split; [by eapply acceptor_backlog|done].
Qed.

(** The same node as a worker: the peers come as descriptors over the channel of the
    daemon, between interruptions that are tried again. *)
Lemma worker_clients_served ctx un getpeername channel es (ms : positive → list (Z * NodeMsg)) (n : Nd) sv rs sv' :
  let ps := pointers (next (mgr_of n)) (length (filter (λ r, 0 < rf_ret r) channel)) in
  heap_avail h → context = Ok ctx → Forall channel_ok channel → (∀ fd, in_u 16 (getpeername fd).2) →
  mgr_wf is_writer (mgr_of n) → cid (mgr_of n) + Z.of_nat (length channel) < 2 ^ 32 → (∀ p, granted_conn (kernel p)) →
  nd_writer n = true → _service n = Some sv → (None ∈ es → tm_x n = true) → sent_by ps es ms rs →
  replies_to gConfig fuel (handled es ms) sv = (Ok rs, sv') →
  ∃ n1 n', worker_events node_onRecv getpeername channel n = (Ok tt, n1) ∧ answers_each ctx un ps es ms n1 rs sv' n'.
Proof.
  intros ps Hh Hctx Hch Hgp Hm Hcid Hk Hw Hs Htk Hsent Hrep.
  set (peers := handed getpeername <$> filter (λ r, 0 < rf_ret r) channel).
  assert (admitted None peers = length (filter (λ r, 0 < rf_ret r) channel)) as Hn.
  { unfold peers. by rewrite admitted_anyone, length_fmap. }
  pose proof (length_filter (λ r, 0 < rf_ret r) channel).
  destruct (admitted_clients_served ctx un None peers es ms n sv rs sv') as (n1 & n' & Ea & Hend); rewrite ?Hn; try done.
  { unfold peers. rewrite length_fmap. lia. }
  exists n1, n'. rewrite Hn in Hend. split; [|done]. rewrite worker_events_admit by done. fold peers. rewrite <- Ea.
  apply admit_all_ext. intros. unfold node_onRecv, node_onAccept, on_peer, on_fst. by rewrite worker_onAccept_server.
Qed.
End node.

(** ** Witness: three of four waiting peers are on the list; one sends its transaction in two
    pieces, another asks for a balance in between, the third resets its connection in the
    middle of a message, then the timer makes a block *)

(** [stays], decided. *)
Definition stays_b (p : positive) (es : list (option (positive * wire_event))) : bool :=
  forallb (λ e, negb (bool_decide (e.1 = p) && is_gone e.2)) (omap id es).
Lemma stays_by p es : stays_b p es = true → stays p es.
Proof.
  unfold stays_b, stays. rewrite forallb_forall, list.Forall_forall. intros Hb e He Hp.
  apply list_elem_of_In, Hb, negb_true_iff, andb_false_iff in He as [He|He]; [|done].
  by apply bool_decide_eq_false in He.
Qed.

Definition wcrowd : list Pending := [mkPending 9 16777226 36895; mkPending 10 33554442 36895; mkPending 11 16777226 36896;
  mkPending 12 16777226 36897].
Definition whosts : option WhiteLst := Some {[16777226]}.
Definition wdoor : World :=
  mkWorld (mkSocket flags_reset 0 3) [] (flat_map (answers_of whosts (mkRes 0 0 0 0 [])) wcrowd ++ [res_block]) [].
Definition wkernel : positive → list SysRes := λ _, repeat (mkRes 0 0 0 0 []) 3.
Definition wasker : list (Z * NodeMsg) := [(7, MQuery (mkQB "alice"))].
Definition wpayer : list (Z * NodeMsg) := [(9, MTx wtx)].
Definition wturns (p : positive) : list (Z * NodeMsg) := if decide (p = 1%positive) then wasker else wpayer.
Definition wtx_bytes : list byte := stream (frames_of wpayer).
Definition wcrowd_events : list (option (positive * wire_event)) := [
  Some (2%positive, wread (ztake 5 wtx_bytes) []);
  Some (1%positive, wread (stream (frames_of wasker)) [mkRes (-1) EAGAIN 0 0 []]);
  Some (3%positive, wread (ztake 7 wtx_bytes) []);
  Some (2%positive, wread (zdrop 5 wtx_bytes) [mkRes 3 0 0 0 []]);
  Some (3%positive, WGone (mkRes (-1) 104 0 0 []));
  None;
  Some (1%positive, WWrite [mkRes 4096 0 0 0 []]);
  Some (2%positive, WWrite [mkRes 4096 0 0 0 []])].
Definition wcrowd_node : Node (Storage (H:=MemHiredis)) (Mgr * list Z) :=
  mkNode (Some (wsvc 1 wbalances)) true true 5000 (new_Mgr, []).
Abbreviation wcrowd_replies := (replies_to (wcfg 1) 5 (handled wcrowd_events wturns) (wsvc 1 wbalances)).
Definition wcrowd_answers : list (positive * (Z * string)) :=
  [(1%positive, (6, archive_out (mkRsp 0 "" "balance = 100"))); (2%positive, (6, archive_out new_Response))].

Lemma wcrowd_replies_ok : wcrowd_replies.1 = Ok wcrowd_answers.
Proof. vm_compute. reflexivity. Qed.

Lemma wcrowd_parts :
  part 1%positive wcrowd_answers = [(6, archive_out (mkRsp 0 "" "balance = 100"))] ∧
  part 2%positive wcrowd_answers = [(6, archive_out new_Response)].
Proof. unfold wcrowd_answers. by rewrite !part_cons. Qed.

Lemma wcrowd_events_ok : Forall (λ e, event_ok e.2) (omap id wcrowd_events).
Proof.
  assert (kernel_ok (mkRes 3 0 0 0 []) ∧ kernel_ok (mkRes (-1) EAGAIN 0 0 []) ∧ kernel_ok (mkRes 4096 0 0 0 [])) as (? & ? & ?).
  { split; [by left|]. split; [by right|by left]. }
  assert (∀ d answers, (0 <? zlen d) && (zlen d <=? 4096) = true → Forall kernel_ok answers → event_ok (wread d answers)) as Hread.
  { intros d answers [Hd1%Z.ltb_lt Hd2%Z.leb_le]%andb_prop Hk. pose proof (zlen_nonneg d). split; [cbn; lia|done]. }
  repeat (apply Forall_cons_2; [first [by apply Hread; [vm_compute; reflexivity|repeat (apply Forall_cons_2; [done|]); constructor]
    | by split | by apply Forall_cons_2]|]). constructor.
Qed.

Lemma wturns_sendable p : sendable (wturns p).
Proof.
  unfold wturns. destruct (decide (p = 1%positive)); (split; [|split]);
    (apply Forall_cons_2; [|constructor]); try (unfold buffer_sized; decide_by_compute); try (split; decide_by_compute);
    cbn [msg_valid snd wasker wpayer]; valid_by_compute.
Qed.

Lemma wcrowd_clients : pointers (next (mgr_of wcrowd_node)) (admitted whosts wcrowd) = [1; 2; 3]%positive.
Proof. vm_compute. reflexivity. Qed.

Lemma wcrowd_ready p : p ∈ [1; 2; 3]%positive →
  data_of p wcrowd_events `prefix_of` stream (frames_of (wturns p)) ∧ sendable (wturns p) ∧
  zlen (part p wcrowd_answers ≫= reply_frame) <= maxsize.
Proof.
  intros Hp. split; [|split; [apply wturns_sendable|]];
    (apply elem_of_cons in Hp as [->|Hp]; [|apply elem_of_cons in Hp as [->|Hp]; [|apply list_elem_of_singleton in Hp as ->]]);
    decide_by_compute.
Qed.

Lemma wcrowd_stays1 : stays 1%positive wcrowd_events.
Proof. apply stays_by. vm_compute. reflexivity. Qed.
Lemma wcrowd_stays2 : stays 2%positive wcrowd_events.
Proof. apply stays_by. vm_compute. reflexivity. Qed.

Lemma wcrowd_leaves3 : leaves 3%positive wcrowd_events.
Proof. do 4 (apply Exists_cons; right). by apply Exists_cons; left. Qed.

Lemma wcrowd_sent :
  sent_by (pointers (next (mgr_of wcrowd_node)) (admitted whosts wcrowd)) wcrowd_events wturns wcrowd_answers.
Proof.
  rewrite wcrowd_clients. split; [exact wcrowd_events_ok|by apply (bool_decide_unpack _)| |exact wcrowd_ready|].
  { cbn. split_and!; try done. intros _. by apply (bool_decide_unpack _). }
  repeat (apply Forall_cons_2; [decide_by_compute|]). constructor.
Qed.

Lemma clients_served_apart_witness :
  ∃ ctx w' n1 n' c1 c2,
    acceptor_doEvent (node_onAccept wkernel 0 false) whosts EVENT_READ (wdoor, wcrowd_node) = (Ok tt, (w', n1)) ∧
    run_events (H4:=mgr_conns true) wheap wuninit (wcfg 1) ctx wcrowd_events n1 = (Ok tt, n') ∧
    client_of 1 (mgr_of n') = Some c1 ∧ out_stream c1 = reply_frame (6, archive_out (mkRsp 0 "" "balance = 100")) ∧
    client_of 2 (mgr_of n') = Some c2 ∧ out_stream c2 = reply_frame (6, archive_out new_Response) ∧
    client_of 3 (mgr_of n') = None.
Proof.
  destruct (node_context_entries (H5:=@ConnsPeer _ _ (mgr_conns true) wheap) (S:=Storage (H:=MemHiredis)) (K:=positive) (C:=Mgr * list Z)
    wheap wjunk (mkStats 0 0) (wcfg 1) 5) as (ctx & E & _).
  destruct (clients_served_apart wheap wjunk (mkStats 0 0) (wcfg 1) 5 wkernel 0 false true ctx wuninit whosts wcrowd
    (mkRes 0 0 0 0 []) res_block [] wdoor wcrowd_events wturns wcrowd_node (wsvc 1 wbalances) wcrowd_answers wcrowd_replies.2)
    as (w' & n1 & n' & Ea & [Er _ Hall]).
  - done.
  - exact E.
  - repeat (apply Forall_cons_2; [split; [done|decide_by_compute]|]). constructor.
  - done.
  - done.
  - done.
  - apply new_Mgr_wf.
  - decide_by_compute.
  - intros p. exists (mkRes 0 0 0 0 []), (mkRes 0 0 0 0 []), (mkRes 0 0 0 0 []), []. by split_and!.
  - done.
  - done.
  - done.
  - exact wcrowd_sent.
  - exact (run_eta _ _ wcrowd_replies_ok).
  - rewrite wcrowd_clients in Hall. destruct wcrowd_parts as [P1 P2].
    destruct (Hall 1%positive) as (? & ? & ? & _ & _ & _ & _ & E1 & _); [by left|].
    destruct (E1 wcrowd_stays1) as (c1 & Hc1 & H1 & _).
    destruct (Hall 2%positive) as (? & ? & ? & _ & _ & _ & _ & E2 & _); [by right; left|].
    destruct (E2 wcrowd_stays2) as (c2 & Hc2 & H2 & _).
    destruct (Hall 3%positive) as (? & ? & ? & _ & _ & _ & _ & _ & E3); [by right; right; left|].
    specialize (E3 wcrowd_leaves3).
    rewrite P1, reply_bytes_one in H1. rewrite P2, reply_bytes_one in H2.
    exists ctx, w', n1, n', c1, c2. by split_and!.
Defined.

(** The same events in a worker, whose channel carries two descriptors and is interrupted
    in between. *)
Definition wchannel : list RecvFd := [mkRecvFd 4 0 9; mkRecvFd (-1) EINTR (-1); mkRecvFd 4 0 11; mkRecvFd 4 0 12].
Example worker_serves : ∃ n1 (n' : Node (Storage (H:=MemHiredis)) (Mgr * list Z)),
  worker_events (node_onRecv wkernel 0 false) (λ _, (16777226, 8080)) wchannel wcrowd_node = (Ok tt, n1) ∧
  (∃ c, client_of 1 (mgr_of n') = Some c ∧ out_stream c = part 1%positive wcrowd_answers ≫= reply_frame) ∧
  (∃ c, client_of 2 (mgr_of n') = Some c ∧ out_stream c = part 2%positive wcrowd_answers ≫= reply_frame).
Proof.
  destruct (node_context_entries (H5:=@ConnsPeer _ _ (mgr_conns true) wheap) (S:=Storage (H:=MemHiredis)) (K:=positive) (C:=Mgr * list Z)
    wheap wjunk (mkStats 0 0) (wcfg 1) 5) as (ctx & E & _).
  destruct (worker_clients_served wheap wjunk (mkStats 0 0) (wcfg 1) 5 wkernel 0 false true ctx wuninit
    (λ _, (16777226, 8080)) wchannel wcrowd_events wturns wcrowd_node (wsvc 1 wbalances) wcrowd_answers wcrowd_replies.2)
    as (n1 & n' & Ea & [_ _ Hall]).
  - done.
  - exact E.
  - apply Forall_cons_2; [by left|]. apply Forall_cons_2; [right; split; [done|by left]|]. apply Forall_cons_2; [by left|].
    apply Forall_cons_2; [by left|constructor].
  - intros _. decide_by_compute.
  - apply new_Mgr_wf.
  - decide_by_compute.
  - intros p. exists (mkRes 0 0 0 0 []), (mkRes 0 0 0 0 []), (mkRes 0 0 0 0 []), []. by split_and!.
  - done.
  - done.
  - done.
  - exact wcrowd_sent.
  - exact (run_eta _ _ wcrowd_replies_ok).
  - change (pointers _ _) with [1; 2; 3]%positive in Hall.
    destruct (Hall 1%positive) as (? & ? & ? & _ & _ & _ & _ & E1 & _); [by left|].
    destruct (E1 wcrowd_stays1) as (c1 & Hc1 & H1 & _).
    destruct (Hall 2%positive) as (? & ? & ? & _ & _ & _ & _ & E2 & _); [by right; left|].
    destruct (E2 wcrowd_stays2) as (c2 & Hc2 & H2 & _).
    exists n1, n'. split; [exact Ea|]. split.
    + exists c1. exact (conj Hc1 H1).
    + exists c2. exact (conj Hc2 H2).
Qed.
