(* ===== verification/Teardown.v ===== *)
(** * Teardown.v: what the destructors give back

    [MultiConnManager::~MultiConnManager] ([core/conn/MultiConnManager.cpp]),
    [RedisCache::~RedisCache] ([cache/RedisCache.cpp]) and [FPReqHandler::~FPReqHandler]
    ([server/FPReqHandler.h]). *)

From S2P Require Import Prelude Cnum BlockBuffer ByteStream Sender Socket Connection Timer ConnMgr Redis Store RedisCache Proto Config Helper Service Dispatch Handler.
From Stdlib Require Import Lia.
Open Scope Z_scope.

(** ** The connection manager *)

(** The loop of [~MultiConnManager] over the map; [delete] of a NULL does nothing. *)
Fixpoint delete_conns (ids : list Z) : M Mgr unit :=
  match ids with
  | [] => mret tt
  | id :: ids =>
      c ← getConnById id;
      (match c with Some p => delete_conn p | None => mret tt end) ;;
      delete_conns ids
  end.
Definition Multi_destroy : M Mgr unit := s ← get; delete_conns (key_order (dom (connMap s))).

(** The connections that are still to be deleted are those of the ids still to come. *)
Lemma delete_conns_run is_writer (s0 : Mgr) : mgr_wf is_writer s0 → ∀ ids s,
  NoDup ids → connMap s = connMap s0 → (∀ i, i ∈ ids → is_Some (connMap s0 !! i)) →
  (∀ p, is_Some (heap s !! p) ↔ ∃ i, i ∈ ids ∧ connMap s0 !! i = Some (Some p)) →
  ∃ s', delete_conns ids s = (Ok tt, s') ∧ heap s' = ∅.
Proof.
  intros Hs0. induction ids as [|i ids IH]; intros s Hnd Hm Hids Hh.
  - exists s. split; [done|]. apply map_empty. intros p. apply eq_None_not_Some. rewrite Hh.
    by intros (i & Hi%elem_of_nil & _).
  - apply list.NoDup_cons in Hnd as [Hni Hnd]. destruct (Hids i) as (c & Hc); [by left|].
    cbn [delete_conns]. erewrite bind_Ok by reflexivity. rewrite Hm, Hc. destruct c as [p|].
    2: { erewrite bind_Ok by reflexivity. apply IH; [done..|intros j Hj; apply Hids; by right|].
         intros q. rewrite Hh. split.
         - intros (j & [->|Hj]%elem_of_cons & Hjq); [congruence|by exists j].
         - intros (j & Hj & Hjq). exists j. split; [by right|done]. }
    destruct (proj2 (Hh p)) as (o' & Ho'); [exists i; split; [by left|done]|].
    destruct (delete_conn_run p o' s Ho') as (s1 & E1 & Hh1 & _ & Hm1 & _). erewrite bind_Ok by exact E1.
    apply IH; [done|congruence|intros j Hj; apply Hids; by right|].
    intros q. rewrite Hh1, lookup_delete_is_Some, Hh. split.
    + intros (Hq & j & [->|Hj]%elem_of_cons & Hjq); [congruence|by exists j].
    + intros (j & Hj & Hjq). split; [intros <-|exists j; split; [by right|done]].
      destruct (wf_map _ _ Hs0 i _ Hc) as (o1 & Ho1 & <-).
      destruct (wf_map _ _ Hs0 j _ Hjq) as (o2 & Ho2 & <-). congruence.
Qed.

(** The destructor of a manager deletes every connection, each of them once. *)
Lemma Multi_destroy_frees is_writer s :
  mgr_wf is_writer s → ∃ s', Multi_destroy s = (Ok tt, s') ∧ heap s' = ∅.
Proof.
  intros Hs. unfold Multi_destroy. erewrite bind_Ok by reflexivity.
  apply (delete_conns_run is_writer s Hs); [apply NoDup_key_order|done| |].
  - intros i Hi%elem_of_key_order. by apply elem_of_dom.
  - intros p. split.
    + intros (o & Ho). exists (co_id o). pose proof (wf_heap _ _ Hs p o Ho) as Hc. split; [|done].
      apply elem_of_key_order, elem_of_dom. by exists (Some p).
    + intros (i & _ & Hi). destruct (wf_map _ _ Hs i _ Hi) as (o & Ho & _). by exists o.
Qed.

(** ** The pool of clients *)

Section pool.
Context `{Hiredis}.

(** The loop of [~RedisCache]; a client that [Init] has deleted is deleted again. *)
Fixpoint delete_clients (cs : list (option RedisClient)) : M CS unit :=
  match cs with
  | [] => mret tt
  | Some c :: cs => delete_client c ;; delete_clients cs
  | None :: _ => throw Undefined
  end.
Definition Cache_destroy : M CS unit := s ← get; delete_clients (_clientPool s.1).

(** The connections a pool holds. *)
Definition pool_held (cs : list (option RedisClient)) : Z := foldr (λ c n, from_option held 0 c + n) 0 cs.

Lemma delete_clients_run cs : Forall is_Some cs → ∀ s, ∃ s', delete_clients cs s = (Ok tt, s') ∧
  rw_contexts s'.2 = rw_contexts s.2 - pool_held cs ∧ rw_replies s'.2 = rw_replies s.2.
Proof.
  induction 1 as [|c cs [c' ->] _ IH]; intros [p w]; cbn [delete_clients pool_held foldr from_option].
  - exists (p, w). split; [done|]. cbn. lia.
  - destruct (Disconnect (c', w)) as [r [c2 w2]] eqn:E. pose proof (balanced_Disconnect _ _ _ E) as [Hr Hc].
    assert (r = Ok tt ∧ held c2 = 0) as [-> Hh].
    { destruct c' as [conf [cx|]]; cbn in E; injection E as <- <- <-; done. }
    erewrite bind_Ok by (unfold delete_client; cbn [snd]; by rewrite E). destruct (IH (p, w2)) as (s' & E' & Hs' & Hr').
    exists s'. split; [done|]. cbn [fst snd] in *. rewrite Hs', Hr'. unfold pool_held. cbn. lia.
Qed.

(** Every connection of the pool is closed, and no more than those. *)
Lemma Cache_destroy_frees s : Forall is_Some (_clientPool s.1) → ∃ s', Cache_destroy s = (Ok tt, s') ∧
  rw_contexts s'.2 = rw_contexts s.2 - pool_held (_clientPool s.1) ∧ rw_replies s'.2 = rw_replies s.2.
Proof. intros Hs. unfold Cache_destroy. erewrite bind_Ok by reflexivity. by apply delete_clients_run. Qed.

(** A pool that kept a client [Init] had deleted cannot be deleted: the pointer is freed a
    second time. *)
Lemma Cache_destroy_twice s : None ∈ _clientPool s.1 → (Cache_destroy s).1 = Throw Undefined.
Proof.
  intros (l1 & l2 & E)%list_elem_of_split. unfold Cache_destroy. erewrite bind_Ok by reflexivity. rewrite E.
  clear E. revert s. induction l1 as [|[c|] l1 IH]; intros [p w]; [done| |done]. cbn [app delete_clients].
  assert (∃ w', delete_client c (p, w) = (Ok tt, (p, w'))) as (w' & E).
  { unfold delete_client. cbn [snd]. destruct c as [conf [cx|]]; eexists; reflexivity. }
  erewrite bind_Ok by exact E. apply IH.
Qed.
End pool.

(** What becomes of a pool whose only server is down. *)
Example down_pool_deleted_twice :
  ∃ w', @Cache_Init DownHiredis wfile "cache.conf" (@mkCache DownHiredis [], @mkRW DownHiredis tt 0 0) =
    (Ok true, (@mkCache DownHiredis [None], w')) ∧
  (@Cache_destroy DownHiredis (@mkCache DownHiredis [None], w')).1 = Throw Undefined.
Proof. eexists. split; [reflexivity|]. apply Cache_destroy_twice. by left. Qed.

(** ** The handler *)

(** [~FPReqHandler]; [~FPService] is empty, so the two pools of the service stay. *)
Definition FPReqHandler_destroy {S C} `{Store S} : M (Node S C) unit := set_service None.
