(* ===== verification/Trace.v ===== *)
(** * Trace.v: what the components print of themselves

    The [trace] functions of [EventHandler], [SocketHandler] ([core/xnet/EventHandler.cpp]),
    [Connection] ([core/conn/Connection.cpp]), [MasterConn] ([core/dispatcher/MasterConn.cpp]),
    [SignalHandler] ([core/xnet/SignalHandler.cpp]) and [Config] ([server/Config.cpp]), and
    [Dump] of [core/xnet/TimerList.cpp].  A stream is the text written to it so far; that of
    [WhiteLst] is in WhiteList.v. *)

From S2P Require Import Prelude Cnum Socket Timer Connection ConnMgr Workers Config Boot.
From Stdlib Require Import Lia.
Open Scope Z_scope.

Section trace.
(** The C library's texts for an address and for an error. *)
Context (inet_ntoa : Z → string) (strerror : Z → string).

(** [EventHandler::trace], and [toString] of a handler with the given [trace]. *)
Definition EventHandler_trace (os : string) : string := os.
Definition EventHandler_toString (trace : string → string) : string := trace EmptyString.

(** [Connection::trace] and [MasterConn::trace] *)
Definition Connection_trace (o : ConnObj) (os : string) : string :=
  os +:+ " " +:+ addr_ntoa inet_ntoa (co_peerIp o) +:+ ":" +:+ dec_string (co_peerPort o).
Definition MasterConn_trace (o : ConnObj) (os : string) : string :=
  os +:+ " " +:+ addr_ntoa inet_ntoa (co_peerIp o) +:+ ":" +:+ dec_string (co_peerPort o).

(** [SignalHandler::trace] *)
Definition SignalHandler_trace (h : SignalHandler) (os : string) : string := os +:+ "signalFd=" +:+ dec_string (_sigFd h).

(** [SocketHandler::trace]: the peer is asked for before anything is written; of an
    exception its text is written, with the [errno] it was thrown for still set. *)
Definition SocketHandler_trace (os : string) : M World string :=
  try_catch
    (s ← get_sock;
     p ← (if isConnected s then getpeerip inet_ntoa else mret (EmptyString, 0));
     mret (os +:+ "-" +:+ dec_string (u32 (m_socket s)) +:+ " " +:+ p.1 +:+ ":" +:+ dec_string p.2))
    (λ e, match e with
          | SocketExn en => Some (w ← lift_res (what strerror en (Exception_new en "getpeer")).1; mret (os +:+ w))
          | _ => None
          end).

(** No handler is too broken to be printed: the text names the descriptor, or the error. *)
Lemma SocketHandler_trace_total os w : ∃ t w', SocketHandler_trace os w = (Ok (os +:+ t), w') ∧ sock w' = sock w ∧
  (isConnected (sock w) = false → t = "-" +:+ dec_string (u32 (m_socket (sock w))) +:+ " :0" ∧ w' = w).
Proof.
  unfold SocketHandler_trace, try_catch. erewrite bind_Ok by reflexivity.
  destruct (isConnected (sock w)) eqn:Hc.
  - unfold getpeerip, getpeer. unfold mbind, M_bind, get_sock, gets, syscall. cbn -[dec_string String.append what].
    destruct (_ =? -1); cbn -[dec_string String.append what].
    + unfold what, mbind, M_bind, mret, M_ret, lift_res. unfold what_str. cbn.
      destruct (_ =? 0); cbn; eexists _, _; (split; [reflexivity|]; by split).
    + eexists _, _. split; [reflexivity|]. by split.
  - cbn -[dec_string String.append]. eexists _, _. split; [reflexivity|]. by split.
Qed.

(** [TimerList::Dump]: a line of the log for each timer, and one for their number. *)
Definition Dump {H : Type} (ptr : H → string) (line : Z) (t : TimerList (H := H)) : list string :=
  map (λ n, " timeout=" +:+ dec_string (expire n) +:+ " handler=" +:+ ptr (handler n)) (_timers t) ++
  ["line=" +:+ dec_string line +:+ " ***** timer size=" +:+ dec_string (Z.of_nat (length (_timers t)))].

(** [Config::trace] *)
Definition Config_trace (c : Config) (os : string) : string :=
  os +:+ " config: "
     +:+ "`blockSyncInterval=" +:+ dec_string (blockSyncInterval c)
     +:+ "`nodeRole=" +:+ dec_string (nodeRole c)
     +:+ "`host=" +:+ host c
     +:+ "`initBlockId=" +:+ initBlockId c
     +:+ "`lastBlockKey=" +:+ lastBlockKey c
     +:+ "`dbService=" +:+ dbService c
     +:+ "`cacheService=" +:+ cacheService c
     +:+ "`txPoolKey=" +:+ txPoolKey c
     +:+ "`BCLock=" +:+ BCLock c
     +:+ "`childNodesKey=" +:+ childNodesKey c
     +:+ "`parentNode=" +:+ parentNode c
     +:+ "`logLevel=" +:+ dec_string (logLevel c)
     +:+ "`logPath=" +:+ logPath c.
End trace.

(** A connection is printed as the address and port it came from. *)
Example connection_line :
  EventHandler_toString (Connection_trace (λ _, "10.0.0.7"%string) (mkCO 1 1 117440522 4711 (wconn []))) = " 10.0.0.7:4711"%string.
Proof. vm_compute. reflexivity. Qed.
