(* ===== verification/Client.v ===== *)
(** * Client.v: the test client, [test/test.cpp]

    The program that pays and queries: how it builds the bytes of a request, its
    [request] over the calls of the kernel, the three commands of its [main].  The
    theorems join it to the other side of the wire: the node of Handler.v understands
    what it sends, and the daemon of Workers.v gives one address to one worker. *)

From S2P Require Import Prelude Cnum BlockBuffer ByteStream Sender Framing Redis RedisCache Store Proto Config Helper Service Dispatch Handler Console Workers.
From Stdlib Require Import Lia Ascii.
Open Scope Z_scope.

(** ** Numbers in network order *)

(** [htonl] swaps the four bytes on the little-endian target. *)
Definition netItoa (paraIn : Z) : list byte := le_bytes 4 (XHTONL (u32 paraIn)).
Definition netAtoi (paraIn : list byte) : Z := s32 (XHTONL (le_value (ztake 4 paraIn))).

Lemma netItoa_be z : netItoa z = be_bytes 4 z.
Proof.
  unfold netItoa. rewrite le_bytes_XHTONL by by apply uwrap_range. apply (be_bytes_small 4).
Qed.

Lemma netAtoi_netItoa z : in_s 32 z → netAtoi (netItoa z) = z.
Proof.
  intros Hz. unfold netAtoi. rewrite netItoa_be.
  rewrite ztake_all by by rewrite zlen_be_bytes. rewrite XHTONL_load by apply length_be_bytes.
  rewrite be_value_bytes. change (256 ^ Z.of_nat 4) with (2 ^ 32).
  rewrite (swrap_cong 32 _ z) by (by rewrite Zmod_mod). by apply swrap_small.
Qed.

(** [JShash]: the loop starts at the eighth character, like the one of [RedisCache::Dispatch]. *)
Definition JShash (key : string) : Z :=
  let hash := 1315423911 in
  let hash := if str_empty key then hash else fold_left hash_step (zdrop 7 (bytes_of key)) hash in
  Z.land hash 0x7FFFFFFF.

Lemma JShash_js_hash key : JShash key = js_hash key.
Proof. unfold JShash, js_hash. by destruct key. Qed.

Lemma JShash_range key : 0 <= JShash key < 2 ^ 31.
Proof. unfold JShash. change 0x7FFFFFFF with (Z.ones 31). rewrite Z.land_ones by lia. by apply Z.mod_pos_bound. Qed.

(** ** Requests *)

Definition COMMAND_NONE : Z := 0.
Definition COMMAND_QUERY : Z := 1.
Definition COMMAND_CONNECT : Z := 2.
Definition COMMAND_CONFIRMATION : Z := 3.
Definition COMMAND_PAY : Z := 4.
Definition COMMAND_BROADCAST : Z := 5.

Definition init_address : string := "0000000000000000000000000000000000000000000000000000000000000000".

Section client.
Context `{Cereal, Indeterminate}.

(** The state is [reqData]. *)
Definition buildQueryRequest (address : string) : M (list byte) bool :=
  let query := mkQB address in
  let (ok, json) := toString query in
  if negb ok then mret false
  else
    let cmd := COMMAND_QUERY in
    let userHash := JShash address in
    Prelude.put (netItoa (s32 userHash)) ;;
    modify (λ reqData, reqData ++ netItoa (s32 (zlen (bytes_of json) + 1))) ;;
    modify (λ reqData, reqData ++ [byte_of cmd]) ;;
    modify (λ reqData, reqData ++ bytes_of json) ;;
    mret true.

(** [r] is the value of [rand()]; [clock_t()] is the zero of its type. *)
Definition new_payment (r : Z) (from to : string) (value : Z) : Transaction :=
  mkTx (dec_string r) from to value 0.

Definition buildTxRequest (r : Z) (from to : string) (value : Z) : M (list byte) bool :=
  let tx := new_payment r from to value in
  let (ok, json) := toString tx in
  if negb ok then mret false
  else
    let cmd := COMMAND_PAY in
    let userHash := JShash from in
    Prelude.put (netItoa (s32 userHash)) ;;
    modify (λ reqData, reqData ++ netItoa (s32 (zlen (bytes_of json) + 1))) ;;
    modify (λ reqData, reqData ++ [byte_of cmd]) ;;
    modify (λ reqData, reqData ++ bytes_of json) ;;
    mret true.

(** What a user asks for, the message it stands for, and the bytes. *)
Inductive Ask := AskBalance (address : string) | Pay (r : Z) (from to : string) (value : Z).

Definition ask_msg (a : Ask) : NodeMsg :=
  match a with
  | AskBalance address => MQuery (mkQB address)
  | Pay r from to value => MTx (new_payment r from to value)
  end.
Definition ask_address (a : Ask) : string :=
  match a with AskBalance address => address | Pay _ from _ _ => from end.
Definition build (a : Ask) : M (list byte) bool :=
  match a with
  | AskBalance address => buildQueryRequest address
  | Pay r from to value => buildTxRequest r from to value
  end.
Definition ask_sized (a : Ask) : Prop := sized (JShash (ask_address a), ask_msg a).

Lemma request_frame userHash cmd json :
  in_s 32 userHash → 0 <= userHash →
  netItoa (s32 userHash) ++ netItoa (s32 (zlen (bytes_of json) + 1)) ++ [byte_of cmd] ++ bytes_of json =
  json_frame userHash cmd (bytes_of json).
Proof.
  intros Hh Hp. unfold json_frame. rewrite swrap_small by (lia || done). rewrite !netItoa_be.
  do 2 f_equal.
  rewrite <- (be_bytes_small 4 (s32 _)), <- (be_bytes_small 4 (1 + _)).
  change (256 ^ Z.of_nat 4) with (2 ^ 32). by rewrite swrap_mod, Z.add_comm by lia.
Qed.

(** A request is the frame of its message, under the hash of the address as session. *)
Lemma build_frame `{!CerealLaw} a old :
  build a old = (Ok true, frame_bytes (msg_frame (JShash (ask_address a)) (ask_msg a))).
Proof.
  pose proof (JShash_range (ask_address a)) as Hr.
  assert (in_s 32 (JShash (ask_address a))) as Hs by (unfold in_s; lia).
  destruct a as [address|r from to value]; cbn [build ask_address ask_msg] in *.
  - unfold buildQueryRequest. rewrite toString_ok. cbn [negb].
    erewrite !bind_Ok by reflexivity. unfold mret, M_ret. do 2 f_equal. rewrite <- !app_assoc.
    by apply (request_frame (JShash address) COMMAND_QUERY); [|lia].
  - unfold buildTxRequest. rewrite toString_ok. cbn [negb].
    erewrite !bind_Ok by reflexivity. unfold mret, M_ret. do 2 f_equal. rewrite <- !app_assoc.
    by apply (request_frame (JShash from) COMMAND_PAY); [|lia].
Qed.

(** The bytes of a sequence of requests, one after the other on one connection. *)
Fixpoint build_all (asks : list Ask) : res (list byte) :=
  match asks with
  | [] => Ok []
  | a :: asks =>
      match build a [] with
      | (Ok true, reqData) => rest ← build_all asks; Ok (reqData ++ rest)
      | (Ok false, _) => build_all asks
      | (Throw e, _) => Throw e
      end
  end.

Lemma build_all_stream `{!CerealLaw} asks :
  build_all asks = Ok (stream ((λ p, msg_frame p.1 p.2) <$> map (λ a, (JShash (ask_address a), ask_msg a)) asks)).
Proof. induction asks as [|a asks IH]; [done|]. cbn [build_all]. by rewrite build_frame, IH. Qed.

End client.

(** ** The program *)

(** The calls of the kernel it makes; a time is in microseconds. *)
Inductive CCall :=
  | CSocket
  | CConnect (fd addr port : Z)
  | CIoctl (fd : Z)
  | CSelectW (fd tv : Z)
  | CWrite (fd : Z) (data : list byte)
  | CSelectR (fd tv : Z)
  | CRead (fd n : Z)
  | CClose (fd : Z).

(** The value a call returns; of [select] also whether the descriptor is in the set
    it returns and the time that is left. *)
Record CRes := mkCRes { c_ret : Z; c_isset : bool; c_left : Z }.
Definition c_none : CRes := mkCRes (-1) false 0.

(** The calls made, oldest first, the kernel's answers to come, the descriptors in use
    and the number of calls of [rand]. *)
Record CW := mkCW { clog : list CCall; cscript : list CRes; cfds : list Z; crand : nat }.

Fixpoint remove_fd (fd : Z) (l : list Z) : list Z :=
  match l with [] => [] | a :: l => if a =? fd then l else a :: remove_fd fd l end.

Definition table (c : CCall) (r : CRes) (fds : list Z) : list Z :=
  match c with
  | CSocket => if c_ret r <? 0 then fds else c_ret r :: fds
  | CClose fd => remove_fd fd fds
  | _ => fds
  end.

Definition ccall (c : CCall) : M CW CRes := λ w,
  let r := hd c_none (cscript w) in
  (Ok r, mkCW (clog w ++ [c]) (tl (cscript w)) (table c r (cfds w)) (crand w)).

(** [sscanf (s, "%d", &v)]: without a number [v] keeps its value. *)
Definition sscanf_d (s : string) (v : Z) : Z :=
  match strtoll_value s with Some _ => atoi s | None => v end.

Definition is_space_byte (b : byte) : bool := is_space (Ascii.ascii_of_byte b).

(** What [fin >> s] reads from a file, one after the other; none from a file
    that does not open. *)
Definition words (file : option string) : list string :=
  match file with Some text => map string_of (runs is_space_byte [] (bytes_of text)) | None => [] end.

Record Args := mkArgs {
  a_host : option string; a_port : Z; a_reqs : Z; a_conns : Z; a_addr : option string; a_cmd : string }.
Definition new_Args : Args := mkArgs None (-1) 1 1 None "".

(** The options of [main].  Past the last argument [argv] holds a null pointer; [None] is
    the usage message. *)
Fixpoint parse (argv : list string) (a : Args) : res (option Args) :=
  let '(mkArgs host port reqs conns addr cmd) := a in
  match argv with
  | [] => Ok (Some a)
  | opt :: argv =>
      if bool_decide (opt = "--host"%string) then
        match argv with
        | [] => Ok (Some (mkArgs None port reqs conns addr cmd))
        | v :: argv => parse argv (mkArgs (Some v) port reqs conns addr cmd)
        end
      else if bool_decide (opt = "--port"%string) then
        match argv with [] => Throw Undefined | v :: argv => parse argv (mkArgs host (sscanf_d v port) reqs conns addr cmd) end
      else if bool_decide (opt = "--reqs"%string) then
        match argv with [] => Throw Undefined | v :: argv => parse argv (mkArgs host port (sscanf_d v reqs) conns addr cmd) end
      else if bool_decide (opt = "--conns"%string) then
        match argv with [] => Throw Undefined | v :: argv => parse argv (mkArgs host port reqs (sscanf_d v conns) addr cmd) end
      else if bool_decide (opt = "--addr"%string) then
        match argv with
        | [] => Ok (Some (mkArgs host port reqs conns None cmd))
        | v :: argv => parse argv (mkArgs host port reqs conns (Some v) cmd)
        end
      else if bool_decide (opt = "--cmd"%string) then
        match argv with [] => Throw Undefined | v :: argv => parse argv (mkArgs host port reqs conns addr v) end
      else Ok None
  end.

(** What [main] then does: its exit status at once, or the work and the exit status after
    it; a thread of ["tx"] runs [testRandomTx] with its number of requests. *)
Inductive Job :=
  | JNone
  | JInit (host : string) (port value : Z)
  | JQuery (host : string) (port : Z) (address : option string)
  | JTx (host : string) (port : Z) (threads : list Z).

Definition main (argv : list string) : res (Z * Job) :=
  r ← parse argv new_Args;
  match r with
  | None => Ok (0, JNone)
  | Some (mkArgs None _ _ _ _ _) => Ok (-1, JNone)
  | Some (mkArgs (Some host) port reqs conns address cmd) =>
      if (port <=? 0) || (reqs <=? 0) then Ok (-1, JNone)
      else if bool_decide (cmd = "init"%string) then Ok (0, JInit host port 100)
      else if bool_decide (cmd = "query"%string) then Ok (0, JQuery host port address)
      else if bool_decide (cmd = "tx"%string) then
        if 0 <? conns then
          let thread_reqs := Z.quot reqs conns in
          Ok (0, JTx host port (repeat thread_reqs (Z.to_nat conns)))
        else Ok (0, JNone)
      else Ok (0, JNone)
  end.

Section program.
Context `{Cereal, Indeterminate, Rand}.
(** The C library's [inet_aton]. *)
Context (inet_aton : string → option Z).

(** No [srand]: the sequence of seed 1. *)
Definition c_rand : M CW Z := λ w,
  (Ok (rand_after 1 (crand w)), mkCW (clog w) (cscript w) (cfds w) (crand w + 1)).

Definition request (host : string) (port : Z) (reqData : list byte) : M CW Z :=
  r ← ccall CSocket;
  let fd := c_ret r in
  if fd <? 0 then mret (-1)
  else match inet_aton host with
  | None => mret (-1)
  | Some addr =>
      r ← ccall (CConnect fd addr (XHTONS (u16 port)));
      if c_ret r <? 0 then mret 2
      else
        r ← ccall (CIoctl fd);
        if c_ret r <? 0 then mret 1
        else
          w ← ccall (CSelectW fd 3000000);
          if (c_ret w <=? 0) || negb (c_isset w) then mret (-1)
          else
            sendCount ← ccall (CWrite fd reqData);
            if c_ret sendCount <? 0 then mret (-1)
            else
              retval ← ccall (CSelectR fd (c_left w));
              if (c_ret retval <=? 0) || negb (c_isset retval) then mret (-1)
              else
                count ← ccall (CRead fd 1024);
                if c_ret count =? 0 then mret (-1)
                else ccall (CClose fd) ;; mret 0
  end.

(** One payment: [rand] is drawn inside [buildTxRequest]. *)
Definition pay (host : string) (port : Z) (from to : string) (value : Z) (reqData : list byte) :
    M CW (bool * list byte) :=
  r ← c_rand;
  match buildTxRequest r from to value reqData with
  | (Ok true, reqData) => request host port reqData ;; mret (true, reqData)
  | (Ok false, reqData) => mret (false, reqData)
  | (Throw e, _) => throw e
  end.

Fixpoint init_loop (host : string) (port value : Z) (accounts : list string) (reqData : list byte) : M CW unit :=
  match accounts with
  | [] => mret tt
  | s :: accounts =>
      r ← pay host port init_address s value reqData;
      init_loop host port value accounts (snd r)
  end.
Definition initAccountBalance (file : option string) (host : string) (port value : Z) : M CW unit :=
  init_loop host port value (words file) [].

Definition account (l : list string) (i : Z) : M CW string :=
  if i <? 0 then throw Undefined
  else match l !! Z.to_nat i with Some s => mret s | None => throw Undefined end.

(** With no account [rand () % count] divides by zero. *)
Fixpoint random_loop (host : string) (port : Z) (addressList : list string) (n : nat) (reqCnt : Z) : M CW Z :=
  match n with
  | O => mret reqCnt
  | S n =>
      let count := s32 (zlen addressList) in
      a ← c_rand;
      b ← c_rand;
      if count =? 0 then throw Undefined
      else
        from ← account addressList (Z.rem a count);
        to ← account addressList (Z.rem b count);
        r ← pay host port from to 100 [];
        random_loop host port addressList n (reqCnt + Z.b2z (fst r))
  end.
Definition testRandomTx (file : option string) (host : string) (port reqs : Z) : M CW Z :=
  random_loop host port (words file) (Z.to_nat reqs) 0.

(** A null pointer makes no string. *)
Definition testQuery (host : string) (port : Z) (address : option string) : M CW unit :=
  match address with
  | None => throw Undefined
  | Some address =>
      match buildQueryRequest address [] with
      | (Ok true, reqData) => request host port reqData ;; mret tt
      | (Ok false, _) => mret tt
      | (Throw e, _) => throw e
      end
  end.

End program.

(** ** What a request does *)

Section request_theorems.
Context `{CerealLaw, Indeterminate, Rand}.
Context (inet_aton : string → option Z).

Lemma remove_fd_head fd l : remove_fd fd (fd :: l) = l.
Proof. cbn. by rewrite Z.eqb_refl. Qed.

(** A failure after the descriptor was created. *)
Local Ltac request_fails fd := eexists _, _; split; [reflexivity|]; cbn; fold fd;
  destruct (Z.ltb_spec fd 0); [lia|]; split_and!; [done|lia|lia].

(** C40: a request reports success only after exactly this: one connection to the host,
    one [write] of the whole request, never continued when the kernel takes a part, one
    [read], and the descriptor closed; and whenever it reports a failure after the socket was
    created, the descriptor stays open. *)
Theorem request_outcome host port reqData w :
  let fd := c_ret (hd c_none (cscript w)) in
  ∃ v w', request inet_aton host port reqData w = (Ok v, w') ∧
    (0 <= fd → v ≠ 0 → cfds w' = fd :: cfds w) ∧
    (fd < 0 → v = -1 ∧ clog w' = clog w ++ [CSocket] ∧ cfds w' = cfds w) ∧
    (v = 0 → cfds w' = cfds w ∧ ∃ addr left, inet_aton host = Some addr ∧
      clog w' = clog w ++ [CSocket; CConnect fd addr (XHTONS (u16 port)); CIoctl fd; CSelectW fd 3000000;
                           CWrite fd reqData; CSelectR fd left; CRead fd 1024; CClose fd]).
Proof.
  intros fd. unfold request. erewrite bind_Ok by reflexivity. cbv beta zeta. fold fd.
  destruct (Z.ltb_spec fd 0).
  { eexists _, _. split; [reflexivity|]. cbn. split_and!; [lia| |lia]. intros _. fold fd.
    destruct (Z.ltb_spec fd 0); [done|lia]. }
  destruct (inet_aton host) as [addr|].
  2: { eexists _, _. split; [reflexivity|]. cbn. fold fd. destruct (Z.ltb_spec fd 0); [lia|]. split_and!; [done|lia|lia]. }
  erewrite bind_Ok by reflexivity. cbv beta. destruct (_ <? 0); [request_fails fd|].
  erewrite bind_Ok by reflexivity. cbv beta. destruct (_ <? 0); [request_fails fd|].
  erewrite bind_Ok by reflexivity. cbv beta. destruct (_ || _); [request_fails fd|].
  erewrite bind_Ok by reflexivity. cbv beta. destruct (_ <? 0); [request_fails fd|].
  erewrite bind_Ok by reflexivity. cbv beta. destruct (_ || _); [request_fails fd|].
  erewrite bind_Ok by reflexivity. cbv beta. destruct (_ =? 0); [request_fails fd|].
  erewrite bind_Ok by reflexivity. eexists _, _. split; [reflexivity|]. cbn. fold fd.
  destruct (Z.ltb_spec fd 0); [lia|]. rewrite remove_fd_head. split_and!; [done|lia|].
  intros _. split; [done|]. eexists addr, _. split; [done|]. by rewrite <- !app_assoc.
Qed.

(** The requests a log wrote. *)
Definition writes (log : list CCall) : list (list byte) :=
  omap (λ c, match c with CWrite _ data => Some data | _ => None end) log.

(** A run only appends to the log, and what it wrote satisfies [P]. *)
Definition sends_only {A} (P : list byte → Prop) (run : M CW A) : Prop := ∀ w r w',
  run w = (r, w') → ∃ log, clog w' = clog w ++ log ∧ Forall P (writes log).

Lemma sends_only_bind {A B} P (m : M CW A) (k : A → M CW B) :
  sends_only P m → (∀ a, sends_only P (k a)) → sends_only P (m ≫= k).
Proof.
  intros Hm Hk w r w' E. unfold mbind, M_bind in E. destruct (m w) as [[a|e] w1] eqn:E1.
  - destruct (Hm _ _ _ E1) as (l1 & E1' & ?). destruct (Hk a _ _ _ E) as (l2 & E2 & ?).
    exists (l1 ++ l2). rewrite E2, E1', <- app_assoc. split; [done|].
    unfold writes. rewrite omap_app. by apply Forall_app.
  - injection E as <- <-. by eapply Hm.
Qed.

Lemma sends_only_ret {A} P (a : A) : sends_only P (mret a).
Proof. intros w r w' [= <- <-]. exists []. by rewrite app_nil_r. Qed.
Lemma sends_only_throw {A} P e : sends_only P (throw e : M CW A).
Proof. intros w r w' [= <- <-]. exists []. by rewrite app_nil_r. Qed.
Lemma sends_only_rand P : sends_only P c_rand.
Proof. intros w r w' [= <- <-]. exists []. by rewrite app_nil_r. Qed.
Lemma sends_only_call P c : (∀ fd d, c = CWrite fd d → P d) → sends_only P (ccall c).
Proof.
  intros Hc w r w' [= <- <-]. exists [c]. split; [done|]. destruct c; cbn; try constructor; eauto.
Qed.
Lemma sends_only_if {A} P (b : bool) (m m' : M CW A) :
  sends_only P m → sends_only P m' → sends_only P (if b then m else m').
Proof. by destruct b. Qed.

Lemma request_sends P host port d : P d → sends_only P (request inet_aton host port d).
Proof.
  intros Hd. unfold request.
  repeat first
    [ apply sends_only_if | apply sends_only_ret
    | apply sends_only_call; congruence
    | apply sends_only_call; intros ? ? [= _ <-]; exact Hd
    | apply sends_only_bind; [|intros ?]
    | destruct (inet_aton host) ].
Qed.

Lemma request_ok host port d w : ∃ v w', request inet_aton host port d w = (Ok v, w').
Proof. destruct (request_outcome host port d w) as (v & w' & E & _). eauto. Qed.

End request_theorems.

Section payments.
Context `{CerealLaw, Indeterminate, RandLaw}.
Context (inet_aton : string → option Z).

(** The bytes of a payment between accounts of [l]. *)
Definition payment_of (l : list string) (value : Z) (d : list byte) : Prop :=
  ∃ r from to, from ∈ l ∧ to ∈ l ∧ build (Pay r from to value) [] = (Ok true, d).

Lemma pay_sends P host port from to value old :
  (∀ r d, build (Pay r from to value) [] = (Ok true, d) → P d) →
  sends_only P (pay inet_aton host port from to value old).
Proof.
  intros HP. unfold pay. apply sends_only_bind; [apply sends_only_rand|]. intros r.
  pose proof (build_frame (Pay r from to value) old) as E. cbn [build] in E. rewrite E.
  apply sends_only_bind; [|intros ?; apply sends_only_ret]. apply request_sends, (HP r).
  exact (build_frame (Pay r from to value) []).
Qed.

Lemma pay_ok host port from to value old w :
  ∃ d w', pay inet_aton host port from to value old w = (Ok (true, d), w').
Proof.
  unfold pay. erewrite bind_Ok by reflexivity.
  pose proof (build_frame (Pay (rand_after 1 (crand w)) from to value) old) as E. cbn [build] in E. rewrite E.
  edestruct (request_ok inet_aton) as (v & w' & E'). erewrite bind_Ok by exact E'. eauto.
Qed.

Lemma account_at l a :
  0 <= a → 0 < zlen l → ∃ s, s ∈ l ∧ ∀ w, account l (Z.rem a (zlen l)) w = (Ok s, w).
Proof.
  intros Ha Hl. pose proof (Z.rem_bound_pos a (zlen l) Ha Hl) as Hb. unfold account.
  destruct (Z.ltb_spec (Z.rem a (zlen l)) 0); [lia|].
  destruct (lookup_lt_is_Some_2 l (Z.to_nat (Z.rem a (zlen l)))) as [s Hs]; [unfold zlen in *; lia|].
  exists s. rewrite Hs. split; [by eapply list_elem_of_lookup_2|done].
Qed.

(** Every payment goes from a listed account to a listed account, and all are counted. *)
Lemma random_loop_pays host port l n cnt w :
  0 < zlen l < 2 ^ 31 →
  ∃ w' log, random_loop inet_aton host port l n cnt w = (Ok (cnt + Z.of_nat n), w') ∧
    clog w' = clog w ++ log ∧ Forall (payment_of l 100) (writes log).
Proof.
  intros Hl. revert cnt w. induction n as [|n IH]; intros cnt w.
  { exists w, []. rewrite app_nil_r, Z.add_0_r. split_and!; [done|done|constructor]. }
  cbn [random_loop]. erewrite !bind_Ok by reflexivity. cbv beta zeta.
  rewrite swrap_small by (unfold in_s; lia).
  destruct (Z.eqb_spec (zlen l) 0); [lia|].
  destruct (account_at l (rand_after 1 (crand w))) as (from & Hf & Ef); [apply rand_nonneg|lia|].
  destruct (account_at l (rand_after 1 (crand w + 1))) as (to & Ht & Et); [apply rand_nonneg|lia|].
  erewrite bind_Ok by apply Ef. erewrite bind_Ok by apply Et.
  edestruct (pay_ok host port from to 100 []) as (d & w1 & E1).
  erewrite bind_Ok by exact E1. destruct (IH (cnt + Z.b2z (fst (true, d))) w1) as (w' & log & E & El & Hlog).
  destruct (pay_sends (payment_of l 100) host port from to 100 [] (λ r d Hd, ex_intro _ r (ex_intro _ from (ex_intro _ to (conj Hf (conj Ht Hd))))) _ _ _ E1)
    as (log1 & El1 & Hlog1).
  exists w', (log1 ++ log). rewrite E. split_and!.
  - do 2 f_equal. cbn. lia.
  - rewrite El, El1. cbn [clog]. by rewrite <- app_assoc.
  - unfold writes. rewrite omap_app. by apply Forall_app.
Qed.

(** The load test makes [reqs] payments of 100, each from a listed account to a listed
    account and each counted, whether or not the server took it; with no account listed
    it has undefined behaviour instead, a division by zero. *)
Lemma testRandomTx_pays file host port reqs w :
  zlen (words file) < 2 ^ 31 → 0 < reqs →
  if bool_decide (words file = []) then (testRandomTx inet_aton file host port reqs w).1 = Throw Undefined
  else ∃ w' log, testRandomTx inet_aton file host port reqs w = (Ok reqs, w') ∧
    clog w' = clog w ++ log ∧ Forall (payment_of (words file) 100) (writes log).
Proof.
  intros Hl Hr. unfold testRandomTx. case_bool_decide as Hw.
  - rewrite Hw. destruct (Z.to_nat reqs) as [|n] eqn:En; [lia|]. cbn [random_loop]. by erewrite !bind_Ok by reflexivity.
  - destruct (random_loop_pays host port (words file) (Z.to_nat reqs) 0 w) as (w' & log & E & Hlog).
    { split; [by apply zlen_pos|done]. }
    exists w', log. rewrite E. split; [|done]. do 2 f_equal. lia.
Qed.

(** The start-up payments: one from the genesis address to every listed account. *)
Lemma initAccountBalance_pays file host port value w :
  ∃ w' log, initAccountBalance inet_aton file host port value w = (Ok tt, w') ∧ clog w' = clog w ++ log ∧
    Forall (λ d, ∃ r s, s ∈ words file ∧ build (Pay r init_address s value) [] = (Ok true, d)) (writes log).
Proof.
  unfold initAccountBalance.
  assert (∀ l old w, l ⊆ words file → ∃ w' log, init_loop inet_aton host port value l old w = (Ok tt, w') ∧
    clog w' = clog w ++ log ∧
    Forall (λ d, ∃ r s, s ∈ words file ∧ build (Pay r init_address s value) [] = (Ok true, d)) (writes log)) as Hl;
    [|by apply Hl].
  clear w. intros l. induction l as [|s l IH]; intros old w Hsub.
  { exists w, []. rewrite app_nil_r. split_and!; [done|done|constructor]. }
  cbn [init_loop]. edestruct (pay_ok host port init_address s value old) as (d & w1 & E1).
  erewrite bind_Ok by exact E1. cbn [snd].
  destruct (IH d w1) as (w' & log & E & El & Hlog); [set_solver|].
  eapply pay_sends in E1 as (log1 & El1 & Hlog1).
  - exists w', (log1 ++ log). rewrite E. split; [done|]. rewrite El, El1, <- app_assoc. split; [done|].
    unfold writes. rewrite omap_app. apply Forall_app. split; [exact Hlog1|done].
  - intros r d' Hd. exists r, s. split; [set_solver|done].
Qed.

End payments.

(** ** The arguments *)

(** The load test asks for [reqs] requests over [conns] threads and makes
    [conns * (reqs / conns)]: none at all when there are more threads than requests. *)
Lemma main_tx_threads argv host port threads :
  main argv = Ok (0, JTx host port threads) →
  ∃ a, parse argv new_Args = Ok (Some a) ∧ 0 < a_conns a ∧ 0 < a_reqs a ∧
    sum_list_with id (Z.to_nat <$> threads) = Z.to_nat (a_conns a * (a_reqs a / a_conns a)) ∧
    (a_reqs a < a_conns a → Forall (λ n, n = 0) threads).
Proof.
  unfold main, mbind, res_bind. destruct (parse argv new_Args) as [[[[h|] p reqs conns addr cmd]|]|]; try done.
  destruct (Z.leb_spec p 0); [done|]. destruct (Z.leb_spec reqs 0); [done|]. cbn [orb].
  case_bool_decide; [done|]. case_bool_decide; [done|]. case_bool_decide; [|done].
  destruct (Z.ltb_spec 0 conns); [|done]. intros [= -> -> <-]. eexists. split; [done|]. cbn [a_conns a_reqs].
  rewrite Z.quot_div_nonneg by lia. split_and!; [lia|lia| |].
  - pose proof (Z.div_pos reqs conns). rewrite Z2Nat.inj_mul by lia.
    induction (Z.to_nat conns) as [|n IH]; [done|]. cbn. cbn in IH. unfold id in *. rewrite IH. lia.
  - intros Hlt. rewrite Z.div_small by lia. apply list.Forall_forall. intros x Hx.
    by eapply list_elem_of_In, repeat_spec in Hx.
Qed.


(** ** The client and the node *)

Section client_node.
Context {S K C : Type} `{Store S, CerealLaw, Indeterminate, Rand, Clock, Peer K C}.
Context (h : Heap) (junk : Header) (stats : BlockStats) (gConfig : Config) (fuel : nat).

(** C13: client and node speak one protocol: fed with the bytes the client builds for any
    requests, in any chunks, the node does what its handlers for the balance query and
    the payment do, one after the other and nothing else. *)
Theorem client_served c un (conn : K) asks bytes chunks s :
  node_context (S:=S) (C:=C) h junk stats gConfig fuel = Ok c →
  Forall ask_sized asks → Forall (λ a, msg_valid (ask_msg a)) asks →
  build_all asks = Ok bytes → concat chunks = bytes → Forall (λ c, zlen c <= 2 ^ 30) chunks →
  feed un (doRequest c conn) [] chunks s =
    (serve h junk stats gConfig fuel (map ask_msg asks) conn ;; mret (Some [])) s.
Proof.
  intros Hc Hs Hv Hb Hcat Hch. rewrite build_all_stream in Hb. injection Hb as Hb.
  set (ms := map (λ a, (JShash (ask_address a), ask_msg a)) asks) in *.
  assert (Hms : ms.*2 = map ask_msg asks) by (unfold ms; rewrite <- list_fmap_compose; done).
  rewrite <- Hms. apply feed_serve; [done| | |done|congruence].
  - unfold ms. clear -Hs. induction Hs; constructor; done.
  - rewrite Hms. clear -Hv. induction Hv; constructor; done.
Qed.
End client_node.

(** ** The client and the daemon *)

(** Requests that concern one address carry one session, so on a daemon whose workers run
    they are handed, each with its connection, to the one worker that session selects,
    whatever they ask and in whatever order they come. *)
Lemma address_to_worker `{CerealLaw} m fd a bytes answers sent w :
  (0 < length (_workers m) < 256)%nat →
  _workers m !! worker_of (JShash (ask_address a)) m = Some w → _status w = kStatusOK → 0 < p_ret sent →
  build a [] = (Ok true, bytes) →
  Workers.dispatch fd (mkMaster (_workers m) (plog m) (mkPRes 4 (0, 0) (take 4 bytes) :: sent :: answers)) =
  (Ok true, mkMaster (_workers m) (plog m ++ [PPeek fd 4; PSendFd (_channel w).1 fd]) answers).
Proof.
  intros Hn Hw Hok Hsent Hb. rewrite build_frame in Hb. injection Hb as <-.
  pose proof (JShash_range (ask_address a)) as Hr.
  apply (dispatch_running m fd (JShash (ask_address a)) _ _ sent answers w); [done| |done|done|done].
  clear -Hr. unfold in_u. lia.
Qed.

(** ** Witnesses *)

Definition wasks : list Ask := [AskBalance "alice"; Pay 5 "alice" "bob" 30].
Definition wasked : list byte := stream ((λ a, msg_frame (JShash (ask_address a)) (ask_msg a)) <$> wasks).

#[export] Instance wrand_law : RandLaw.
Proof. constructor. intros seed n. by apply Z.mod_pos_bound. Qed.

Lemma client_served_witness :
  ∃ c, wcontext = Ok c ∧ build_all wasks = Ok wasked ∧
    feed wuninit (doRequest c 3) [] [ztake 5 wasked; zdrop 5 wasked] (wnode 1 wbalances) =
      (serve wheap wjunk (mkStats 0 0) (wcfg 1) 5 (map ask_msg wasks) 3 ;; mret (Some [])) (wnode 1 wbalances).
Proof.
  destruct (node_context_entries (K:=Z) (C:=Log Z) wheap wjunk (mkStats 0 0) (wcfg 1) 5) as (c & E & _).
  exists c. split; [exact E|]. split; [vm_compute; reflexivity|].
  apply (client_served wheap wjunk (mkStats 0 0) (wcfg 1) 5 c wuninit 3 wasks wasked
    [ztake 5 wasked; zdrop 5 wasked] (wnode 1 wbalances) E).
  - repeat (apply Forall_cons_2; [split; decide_by_compute|]). constructor.
  - repeat (apply Forall_cons_2; [cbn [ask_msg msg_valid]; valid_by_compute|]). constructor.
  - vm_compute. reflexivity.
  - cbn. rewrite app_nil_r. apply ztake_zdrop.
  - constructor; [decide_by_compute|]. constructor; [decide_by_compute|constructor].
Defined.

Lemma address_to_worker_witness :
  Workers.dispatch 9 (mkMaster (_workers wmaster) (plog wmaster)
    [mkPRes 4 (0, 0) (take 4 (build (AskBalance init_address) []).2); mkPRes 4 (0, 0) []]) =
  (Ok true, mkMaster (_workers wmaster) (plog wmaster ++ [PPeek 9 4; PSendFd 5 9]) []).
Proof.
  apply (address_to_worker wmaster 9 (AskBalance init_address) (build (AskBalance init_address) []).2 []
    (mkPRes 4 (0, 0) []) (mkWorker 0 (5, -1) 100 kStatusOK wexec wconf)).
  - rewrite wmaster_workers. cbn. lia.
  - vm_compute. reflexivity.
  - reflexivity.
  - reflexivity.
  - vm_compute. reflexivity.
Defined.

(** A kernel that grants the first request, of descriptor 4, and refuses the connection
    of the second one. *)
Definition wkernel : list CRes :=
  [mkCRes 4 false 0; mkCRes 0 false 0; mkCRes 0 false 0; mkCRes 1 true 2000000; mkCRes 60 false 0;
   mkCRes 1 true 1000000; mkCRes 34 false 0; mkCRes 0 false 0; mkCRes 5 false 0; mkCRes (-1) false 0].
Definition wlocal (host : string) : option Z := if bool_decide (host = "127.0.0.1"%string) then Some 16777343 else None.
Definition wfile : option string := Some "alice bob".

Lemma testRandomTx_pays_witness :
  words wfile = ["alice"; "bob"] ∧
  ∃ w' log, testRandomTx wlocal wfile "127.0.0.1" 9090 2 (mkCW [] wkernel [] 0) = (Ok 2, w') ∧
    clog w' = [] ++ log ∧ Forall (payment_of (words wfile) 100) (writes log).
Proof.
  split; [vm_compute; reflexivity|].
  apply (testRandomTx_pays wlocal wfile "127.0.0.1" 9090 2 (mkCW [] wkernel [] 0)); [vm_compute; reflexivity|lia].
Defined.

(** The second of the two payments is never written, but counted; its descriptor stays open. *)
Example testRandomTx_leaks :
  let w' := (testRandomTx wlocal wfile "127.0.0.1" 9090 2 (mkCW [] wkernel [] 0)).2 in
  length (writes (clog w')) = 1%nat ∧ cfds w' = [5].
Proof. vm_compute. split; reflexivity. Qed.

Example main_query_without_address :
  ∃ job, main ["--host"; "127.0.0.1"; "--port"; "9090"; "--cmd"; "query"] = Ok (0, job) ∧
    job = JQuery "127.0.0.1" 9090 None ∧
    (testQuery wlocal "127.0.0.1" 9090 None (mkCW [] [] [] 0)).1 = Throw Undefined.
Proof. eexists. split; [vm_compute; reflexivity|]. split; reflexivity. Qed.

(** Ten requests over twenty connections: none. *)
Example main_more_threads :
  main ["--host"; "127.0.0.1"; "--port"; "9090"; "--cmd"; "tx"; "--reqs"; "10"; "--conns"; "20"] =
    Ok (0, JTx "127.0.0.1" 9090 (repeat 0 20)).
Proof. vm_compute. reflexivity. Qed.
