(* ===== verification/Genesis.v ===== *)
(** * Genesis.v: the program that fills the first wallet, [test/initSuperWallet.cpp]

    It stores the genesis block, one transaction from the account without a name to the
    genesis address, under the id conf/root_server.conf and conf/miner_server.conf give as
    [initBlockId].  The program and the node are two clients of one server: here the
    program meets [FPService::init] of Service.v, which replays that block. *)

From S2P Require Import Prelude Cnum Redis Store RedisCache Proto Config Helper Service.
From Stdlib Require Import Lia.
Open Scope Z_scope.

Definition init_address : string := "0000000000000000000000000000000000000000000000000000000000000000".
Definition init_block_id : string := "block00000000000000000000000000000000000000000000000000000000000".
Definition init_tx_id : string := "tx00000000000000000000000000000000000000000000000000000000000000".

(** [sscanf (s, "%lu", &v)] into an [int64_t]: [strtoul] negates in [unsigned long] and
    saturates at its upper bound; without a number [v] keeps its value. *)
Definition sscanf_lu (s : string) (v : Z) : Z :=
  match strtoll_value s with
  | None => v
  | Some z => if 2 ^ 64 <=? Z.abs z then s64 (2 ^ 64 - 1) else s64 (u64 z)
  end.

(** The arguments: the configuration file and the value.  Past the last argument [argv] holds
    a null pointer; [None] is the usage message. *)
Fixpoint parse (argv : list string) (conf : option string) (init_value : Z) : res (option (option string * Z)) :=
  match argv with
  | [] => Ok (Some (conf, init_value))
  | opt :: argv =>
      if bool_decide (opt = "--dbConfig"%string) then
        match argv with
        | [] => Ok (Some (None, init_value))
        | v :: argv => parse argv (Some v) init_value
        end
      else if bool_decide (opt = "--initValue"%string) then
        match argv with
        | [] => Throw Undefined
        | v :: argv => parse argv conf (sscanf_lu v init_value)
        end
      else Ok None
  end.

Section genesis.
Context {S : Type} `{Store S, Cereal, Indeterminate}.

Definition genesis_tx (init_value : Z) : Transaction :=
  mkTx init_tx_id (tx_from new_Transaction) init_address init_value (tx_timestamp new_Transaction).
Definition genesis_block (init_value : Z) : Block :=
  mkBlock init_block_id (bk_prev new_Block) (bk_next new_Block) (bk_timestamp new_Block) [genesis_tx init_value].

(** The exit status.  The program has one connection to the server, the handle of the
    block database. *)
Definition main (argv : list string) : M S Z :=
  a ← lift_res (parse argv None 10000000000);
  match a with
  | None => mret 0
  | Some (None, _) => mret (-1)
  | Some (Some conf, init_value) =>
      dbService ← sOpen BlockDB conf;
      if negb dbService then mret (-1)
      else
        let block := genesis_block init_value in
        let (ok, json) := toString block in
        if negb ok then mret (-1)
        else
          ok ← sSet BlockDB (bk_id block) json (u32 (-1));
          mret (if ok : bool then 0 else -1)
  end.

End genesis.

(** ** The value *)

Lemma sscanf_lu_range s v : in_s 64 v → in_s 64 (sscanf_lu s v).
Proof. intros Hv. unfold sscanf_lu. destruct (strtoll_value s); [|done]. by destruct (_ <=? _); apply swrap_range. Qed.

Lemma parse_range argv conf v conf' v' :
  in_s 64 v → parse argv conf v = Ok (Some (conf', v')) → in_s 64 v'.
Proof.
  revert conf v. induction argv as [argv IH] using (induction_ltof1 _ (@length _)). unfold ltof in IH.
  intros conf v Hv. destruct argv as [|opt [|x argv]]; cbn [parse].
  - by intros [= _ <-].
  - repeat case_bool_decide; try done. by intros [= _ <-].
  - repeat case_bool_decide; try done; apply IH; cbn; try lia; [done|by apply sscanf_lu_range].
Qed.

Lemma default_range : in_s 64 10000000000.
Proof. unfold in_s. lia. Qed.

(** A value within range is taken as it is written. *)
Lemma sscanf_lu_dec z v : in_s 64 z → sscanf_lu (dec_string z) v = z.
Proof.
  intros Hz. unfold sscanf_lu. rewrite strtoll_value_dec. unfold in_s in Hz.
  destruct (Z.leb_spec (2 ^ 64) (Z.abs z)); [lia|].
  rewrite <- (swrap_small 64 z) at 2 by (lia || done). apply swrap_cong. unfold uwrap. by rewrite Zmod_mod.
Qed.

(** ** The program and the node *)

Section genesis_node.
Context {S : Type} `{StoreLaws S, CerealLaw, Indeterminate, Rand, Clock}.
Context (gConfig : Config).

Lemma genesis_valid v : in_s 64 v → in_u 64 ind_timestamp → valid (genesis_block v).
Proof.
  intros Hv Ht. assert (valid (genesis_tx v)) by (split_and!; [done|done|done|exact Hv|exact Ht]).
  split_and!; [done|done|done|exact Ht|]. apply Forall_cons_2; [done|constructor].
Qed.

(** The program's run: the block's text is stored under its id and nothing else changes. *)
Lemma main_stores argv conf v st0 st1 :
  parse argv None 10000000000 = Ok (Some (Some conf, v)) →
  sOpen BlockDB conf st0 = (Ok true, st1) → ready st1 → in_u 64 ind_timestamp →
  ∃ st2, main argv st0 = (Ok 0, st2) ∧ ready st2 ∧ holds_block st2 init_block_id (genesis_block v) ∧
    ∀ h k, k ≠ init_block_id → view h st2 k = view h st1 k.
Proof.
  intros Hp Ho Hr Ht. pose proof (parse_range argv None 10000000000 _ _ default_range Hp) as Hv.
  destruct (law_set BlockDB init_block_id (archive_out (genesis_block v)) (u32 (-1)) st1 Hr)
    as (st2 & E & Hr2 & Hb & Hf); [done|done|].
  exists st2. split_and!; [|done|split; [by apply genesis_valid|done]|done].
  unfold main. rewrite Hp. erewrite bind_Ok by reflexivity. cbv beta iota. erewrite bind_Ok by exact Ho. cbn [negb].
  cbv zeta. rewrite toString_ok. cbn [negb]. by erewrite bind_Ok by exact E.
Qed.

Lemma named_genesis v k : named (bk_txList (genesis_block v)) k ↔ k = EmptyString ∨ k = init_address.
Proof.
  split.
  - intros (tx & Hin & Hk). apply list_elem_of_singleton in Hin as ->. exact Hk.
  - intros Hk. exists (genesis_tx v). split; [by apply list_elem_of_singleton|exact Hk].
Qed.

Lemma net_genesis v k : k ≠ EmptyString → net (bk_txList (genesis_block v)) k = if decide (k = init_address) then v else 0.
Proof.
  intros Hk. cbn. unfold tx_delta. cbn [tx_from tx_to tx_value genesis_tx new_Transaction].
  destruct (decide (k = init_address)), (decide (k = EmptyString)); try done; lia.
Qed.

(** Minting: after the program ran with a value, the first start of a root node on the same
    server credits the genesis address with exactly that value and leaves every other
    account as it was; the payer, the account without a name, is never charged. *)
Lemma genesis_credits argv conf v st0 st1 fuel hostPort s st3 st4 z :
  parse argv None 10000000000 = Ok (Some (Some conf, v)) →
  sOpen BlockDB conf st0 = (Ok true, st1) → ready st1 → in_u 64 ind_timestamp →
  nodeRole gConfig = kNodeRoleRoot → initBlockId gConfig = init_block_id →
  BCLock gConfig ∉ [EmptyString; INIT_LOCK; init_block_id; init_address] →
  ∃ st2, main argv st0 = (Ok 0, st2) ∧
    (sOpen BlockDB (dbService gConfig) (sv_store s) = (Ok true, st3) →
     sOpen CacheDB (cacheService gConfig) st3 = (Ok true, st4) → ready st4 →
     view BlockDB st4 init_block_id = view BlockDB st2 init_block_id →
     view CacheDB st4 INIT_LOCK = None → balance st4 init_address = Some z → in_s 64 (z + v) → (1 < fuel)%nat →
     ∃ s', init gConfig fuel hostPort true s = (Ok true, s') ∧ ready (sv_store s') ∧ sv_role s' = kNodeRoleRoot ∧
       balance (sv_store s') init_address = Some (z + v) ∧
       ∀ k, k ∉ [BCLock gConfig; INIT_LOCK; init_address] → balance (sv_store s') k = balance st4 k).
Proof.
  intros Hp Ho Hr Ht Hrole Hid HL. pose proof (parse_range argv None 10000000000 _ _ default_range Hp) as Hv.
  destruct (main_stores argv conf v st0 st1 Hp Ho Hr Ht) as (st2 & E & _ & [Hval Hst] & _).
  exists st2. split; [exact E|]. intros Hdb Hcache Hr4 Hblock Hlock Hz Hzv Hfuel.
  rewrite !not_elem_of_cons in HL. destruct HL as (HL1 & HL2 & HL3 & HL4 & _).
  assert (startable gConfig [genesis_block v] s st3 st4) as Hs.
  { split; try done.
    - rewrite Hid. constructor; [done|split; [done|by rewrite Hblock]|constructor].
    - rewrite Hid. split.
      + intros p b q k Hbs Hk. destruct p as [|b' p]; [|by destruct p]. injection Hbs as <- <-.
        apply named_genesis in Hk as [->| ->]; [by left|right]. rewrite net_genesis by done.
        destruct (decide (init_address = init_address)); [|done]. split; [done|]. exists z. split; [done|]. cbn [mbind list_bind].
        change (posted [] init_address) with 0. by rewrite Z.add_0_r.
      + intros b k Hin Hne Hk. apply list_elem_of_singleton in Hin as ->.
        apply named_genesis in Hk as [->| ->]; [done|]. by apply (bool_decide_unpack _).
    - intros k Hk. rewrite Hid. cbn [mbind list_bind]. rewrite app_nil_r, named_genesis.
      assert (k ≠ EmptyString ∧ k ≠ init_block_id ∧ k ≠ init_address) as (? & ? & ?) by by destruct Hk as [->| ->].
      split; [|tauto]. unfold chain_keys. cbn [map]. intros [->|[->|Hin%elem_of_nil]%elem_of_cons]%elem_of_cons; done. }
  destruct (init_replays gConfig fuel hostPort _ s st3 st4 Hs) as (s' & Ei & Hr' & _ & Hro & Hb); [cbn; lia|].
  exists s'. split; [exact Ei|]. split; [exact Hr'|]. split; [exact Hro|]. rewrite bool_decide_true in Hb by done. cbn [mbind list_bind] in Hb. rewrite app_nil_r in Hb.
  split.
  - assert (posted (bk_txList (genesis_block v)) init_address = v) as Hpv.
    { rewrite posted_account, net_genesis by done. by destruct (decide (init_address = init_address)). }
    rewrite Hb, Hz, Hpv by (done || congruence). done.
  - intros k Hk. rewrite !not_elem_of_cons in Hk. destruct Hk as (Hk1 & Hk2 & Hk3 & _). rewrite Hb by done.
    assert (posted (bk_txList (genesis_block v)) k = 0) as ->.
    { unfold posted. destruct (decide (k = EmptyString)); [done|]. rewrite net_genesis by done. by destruct (decide (k = init_address)). }
    destruct (balance st4 k); cbn; [by rewrite Z.add_0_r|done].
Qed.

End genesis_node.

(** ** Witnesses *)

(** The root's configuration with the id of the program's block. *)
Definition wroot : Config :=
  mkConfig 500 1 "127.0.0.1" init_block_id "LAST_BLOCK" "db.conf" "cache.conf" "TX_POOL" "BCLOCK" "CHILD_NODE"
    "10.0.0.1:9090" 2 "logs".
Definition wargv : list string := ["--dbConfig"; "db.conf"; "--initValue"; "5000"].

(** The server after the program's run, as the node finds it. *)
Definition wminted : db := {[ init_block_id := VStr (archive_out (genesis_block 5000)) ]}.

Lemma wopened_ready h m n :
  ready (set_handle h (Some wcache) (@mkRW MemHiredis {[ ("h", 1)%string := m ]} 0 n) (wst m)).
Proof. intros []; destruct h; exists wcache; (split; [done|]); (split; [done|]); repeat constructor; eexists _, _; done. Qed.

(** The program and then the node, run in memory. *)
Lemma genesis_credits_example :
  ∃ st2 s', main wargv (wst ∅) = (Ok 0, st2) ∧
    init wroot 2 "10.0.0.2:9090" true (wsvc 1 wminted) = (Ok true, s') ∧
    balance (sv_store s') init_address = Some 5000.
Proof.
  destruct (genesis_credits wroot wargv "db.conf" 5000 (wst ∅)
    (set_handle BlockDB (Some wcache) (@mkRW MemHiredis {[ ("h", 1)%string := ∅ ]} 0 2) (wst ∅))
    2 "10.0.0.2:9090" (wsvc 1 wminted)
    (set_handle BlockDB (Some wcache) (@mkRW MemHiredis {[ ("h", 1)%string := wminted ]} 0 2) (wst wminted))
    (set_handle CacheDB (Some wcache) (@mkRW MemHiredis {[ ("h", 1)%string := wminted ]} 0 3) (wst wminted)) 0)
    as (st2 & E & G).
  - vm_compute. reflexivity.
  - reflexivity.
  - apply (wopened_ready BlockDB).
  - decide_by_compute.
  - done.
  - done.
  - apply (bool_decide_unpack _). vm_compute. exact I.
  - assert (st2 = (main wargv (wst ∅)).2) as Est by (rewrite E; reflexivity).
    destruct G as (s' & Ei & _ & _ & Hb & _).
    + reflexivity.
    + reflexivity.
    + apply (wopened_ready CacheDB).
    + rewrite Est. vm_compute. reflexivity.
    + vm_compute. reflexivity.
    + vm_compute. reflexivity.
    + decide_by_compute.
    + lia.
    + exists st2, s'. split; [exact E|]. split; [exact Ei|exact Hb].
Qed.

(** The value is read with [%lu] into a signed number: above its range it turns negative, and a
    minus sign is accepted; either way the genesis address starts in debt. *)
Example negative_values :
  sscanf_lu "9223372036854775808" 0 = -9223372036854775808 ∧ sscanf_lu "-5" 0 = -5 ∧
  sscanf_lu "99999999999999999999" 0 = -1.
Proof. vm_compute. split_and!; reflexivity. Qed.
