(* ===== verification/Startup.v ===== *)
(** * Startup.v: the two programs of the system, from [main] to the event loop

    [server/FPNodeServer.cpp] puts the parts of a node together: configuration, acceptor,
    table of forms, handler.  [daemon/main.cpp] keeps a master process alive that starts
    the workers.  The last theorem follows a value through three programs: the genesis
    program stores it, the node starts, the client asks for it. *)

From S2P Require Import Prelude Cnum Redis Store RedisCache BlockBuffer ByteStream Sender Framing Socket Proto Config Helper Service Dispatch Handler Server Workers Client Genesis.
From Stdlib Require Import Lia.
Open Scope Z_scope.

Definition SIGPIPE : Z := 13.
Definition SIGCHLD : Z := 17.

(** ** The node *)

(** The flags of the program, as the flag library leaves them. *)
Record NodeFlags := mkNodeFlags { FLAGS_channel : Z; FLAGS_port : Z; FLAGS_id : string; FLAGS_conf : string }.
Definition default_flags : NodeFlags := mkNodeFlags (-1) 9090 "9090" "../conf/server.conf".

(** How [main] ends: it returns, or it enters the event loop. *)
Inductive Exit := Returned (code : Z) | Running.

Section node_main.
Context {S K C : Type} `{Store S, Cereal, Indeterminate, Rand, Clock, Peer K C, ConfigFiles}.
Context (h : Heap) (junk : Header) (stats : BlockStats) (fuel : nat).
(** The C library's [inet_addr], and the event loop's answer to the acceptor. *)
Context (inet_addr : string → Z) (addEvent : M World unit).

(** The process: its configuration with the files it has open, the acceptor, the handler,
    the signals and the table of forms. *)
Record NodeProc := mkProc {
  np_config : Config * Z;
  np_world : World;
  np_node : Node S C;
  np_signal : SignalHandler;
  np_context : option (ServerContext (Node S C) K);
}.

Definition on_load {A} (m : M (Config * Z) A) : M NodeProc A := λ p,
  let (r, c) := m (np_config p) in (r, mkProc c (np_world p) (np_node p) (np_signal p) (np_context p)).
Definition on_acceptor {A} (m : M World A) : M NodeProc A := λ p,
  let (r, w) := m (np_world p) in (r, mkProc (np_config p) w (np_node p) (np_signal p) (np_context p)).
Definition on_handler {A} (m : M (Node S C) A) : M NodeProc A := λ p,
  let (r, n) := m (np_node p) in (r, mkProc (np_config p) (np_world p) n (np_signal p) (np_context p)).
Definition on_signal (f : SignalHandler → SignalHandler) : M NodeProc unit := modify (λ p,
  mkProc (np_config p) (np_world p) (np_node p) (f (np_signal p)) (np_context p)).
Definition set_context (c : ServerContext (Node S C) K) : M NodeProc unit := modify (λ p,
  mkProc (np_config p) (np_world p) (np_node p) (np_signal p) (Some c)).

(** The server [main] chooses and starts; [false] when neither flag names one. *)
Definition start_server (flags : NodeFlags) : M World bool :=
  if 0 <? FLAGS_channel flags then (WorkerTcpServer_start (FLAGS_channel flags) addEvent ;; mret true)
  else if 0 <? FLAGS_port flags then (TcpServer_start inet_addr (TcpServer_port (FLAGS_port flags)) addEvent ;; mret true)
  else mret false.

(** From the table of forms on; [store] is the storage of the new service, [masked] and
    [fd] what [sigprocmask] and [signalfd] return. *)
Definition start_handler (flags : NodeFlags) (store : S) (masked fd : Z) : M NodeProc Exit :=
  config ← gets (λ p, (np_config p).1);
  context ← lift_res (node_context (K:=K) (C:=C) h junk stats config fuel);
  set_context context ;;
  on_handler (set_writer (ctx_writer context)) ;;
  ok ← on_handler (init_handler config fuel (FLAGS_id flags) store (u16 (FLAGS_port flags)));
  if negb ok then mret (Returned (-1))
  else on_signal (λ s, (sig_start masked fd s).2) ;; mret Running.

(** [path] is what [realpath] gives for [argv[0]], [chdir] whether the change to its
    directory succeeds. *)
Definition node_main (path : option string) (chdir : bool) (flags : NodeFlags) (store : S) (masked fd : Z) :
    M NodeProc Exit :=
  match path with
  | None => mret (Returned (-1))
  | Some _ =>
      if negb chdir then mret (Returned (-1))
      else if str_empty (FLAGS_id flags) then mret (Returned (-1))
      else
        loaded ← on_load (Load (c_string (FLAGS_conf flags)));
        if negb loaded then mret (Returned (-1))
        else
          on_signal (addSig SIGPIPE) ;;
          server ← on_acceptor (start_server flags);
          if negb server then mret (Returned (-1)) else start_handler flags store masked fd
  end.

End node_main.
Arguments NodeProc : clear implicits.
Arguments np_config {S K C}.
Arguments np_world {S K C}.
Arguments np_node {S K C}.
Arguments np_signal {S K C}.
Arguments np_context {S K C}.
Arguments mkProc {S K C}.

(** ** The daemon *)

(** The flags; the workers' number and the port are 32 bits wide here. *)
Record DaemonFlags := mkDaemonFlags {
  FLAGS_listen : Z; FLAGS_workers : Z; FLAGS_exec : string; FLAGS_workerConf : string }.
Definition default_daemon_flags : DaemonFlags :=
  mkDaemonFlags 9090 1 "../server/node_server" "../conf/server.conf".

(** The calls of the parent and the numbers they return, oldest first. *)
Inductive TCall := TFork | TWait.
Record Parent := mkParent { tlog : list TCall; tscript : list Z }.
Definition tcall (c : TCall) : M Parent Z := λ p,
  (Ok (hd (-1) (tscript p)), mkParent (tlog p ++ [c]) (tl (tscript p))).

(** The [while (1)] of [main]: [None] in the child, which leaves the loop. *)
Fixpoint spawn_loop (fuel : nat) : M Parent (option Z) :=
  match fuel with
  | O => throw OutOfFuel
  | Datatypes.S fuel =>
      pid ← tcall TFork;
      if pid =? 0 then mret None
      else if 0 <? pid then (tcall TWait ;; spawn_loop fuel)
      else mret (Some (-1))
  end.

(** The child: the signals it watches, the server and its workers. *)
Definition daemon_child (flags : DaemonFlags) (chan_junk : Z * Z) (acceptor : M DState bool)
    (masked fd : Z) : M DState SignalHandler :=
  let s := addSig SIGPIPE (addSig SIGCHLD new_SignalHandler) in
  let server := new_TcpServerMaster (u16 (FLAGS_listen flags)) (uwrap 8 (FLAGS_workers flags))
                  (c_string (FLAGS_exec flags)) (c_string (FLAGS_workerConf flags)) in
  master_start server chan_junk acceptor ;;
  mret (sig_start masked fd s).2.

(** ** Starting a node *)

Section node_start.
Context {S K : Type} `{Store S, Cereal, Indeterminate, Rand, Clock, ConfigFiles}.
Context (h : Heap) (junk : Header) (stats : BlockStats) (fuel : nat).
Context (inet_addr : string → Z) (addEvent : M World unit).
Abbreviation node_main := (node_main (K:=K) (C:=Log K) h junk stats fuel inet_addr addEvent).
Abbreviation start_server := (start_server inet_addr addEvent).

(** A server that gets no listening socket is no reason to stop. *)
Lemma deaf_server flags w w' :
  FLAGS_channel flags <= 0 → 0 < FLAGS_port flags →
  createAcceptor inet_addr (Some "0.0.0.0"%string) (TcpServer_port (FLAGS_port flags)) w = (Ok false, w') →
  start_server flags w = (Ok true, w').
Proof.
  intros Hc Hp E. unfold Startup.start_server. destruct (Z.ltb_spec 0 (FLAGS_channel flags)); [lia|].
  destruct (Z.ltb_spec 0 (FLAGS_port flags)); [|lia]. unfold TcpServer_start. rewrite bind_assoc.
  by erewrite bind_Ok by exact E.
Qed.

(** What the node needs of its surroundings: an id, a configuration [c] that loads, a server
    that starts, room for the name of the host. *)
Record deployed (flags : NodeFlags) (p : NodeProc S K (Log K)) (c : Config) (files : Z) (w' : World) (hp : string) : Prop := {
  dp_id : FLAGS_id flags ≠ EmptyString;
  dp_load : Load (c_string (FLAGS_conf flags)) (np_config p) = (Ok true, (c, files));
  dp_server : start_server flags (np_world p) = (Ok true, w');
  dp_host : hostPort_of (host c) (u16 (FLAGS_port flags)) = Ok hp;
}.

(** The node's timer, started on a root. *)
Definition started_timer (c : Config) (sv : Service (S:=S)) (n : Node S (Log K)) : Node S (Log K) :=
  if sv_role sv =? kNodeRoleRoot
  then mkNode (Some sv) true true (u32 (blockSyncInterval c)) (nd_peer n)
  else mkNode (Some sv) true (tm_x n) (tm_to n) (nd_peer n).

(** A node whose service starts enters the loop with the table of forms in place, the writer
    known to the handler, and the timer started on a root. *)
Lemma node_starts path flags store masked fd p c files w' hp sv :
  deployed flags p c files w' hp →
  init c fuel hp true (new_Service (FLAGS_id flags) store) = (Ok true, sv) →
  ∃ ctx p', node_main (Some path) true flags store masked fd p = (Ok Running, p') ∧
    node_context (K:=K) (C:=Log K) h junk stats c fuel = Ok ctx ∧ np_context p' = Some ctx ∧
    np_node p' = started_timer c sv (np_node p) ∧ np_world p' = w' ∧
    np_signal p' = (sig_start masked fd (addSig SIGPIPE (np_signal p))).2.
Proof.
  intros [Hid Hl Hs Hh] Hi.
  destruct (node_context_entries (K:=K) (C:=Log K) h junk stats c fuel) as (ctx & Ec & Hw & _).
  unfold Startup.node_main. cbn [negb]. pose proof Hid as Hid'. apply str_empty_false in Hid' as ->.
  unfold on_load. erewrite bind_Ok by (rewrite Hl; reflexivity). cbn [negb].
  erewrite bind_Ok by reflexivity. unfold on_acceptor. erewrite bind_Ok by (cbn [np_world]; rewrite Hs; reflexivity). cbn [negb].
  unfold start_handler. erewrite bind_Ok by reflexivity. cbn [np_config fst].
  erewrite bind_Ok by (rewrite Ec; reflexivity). erewrite bind_Ok by reflexivity.
  erewrite bind_Ok by reflexivity. cbn [np_node np_world np_config np_signal np_context]. rewrite Hw.
  assert (init_handler c fuel (FLAGS_id flags) store (u16 (FLAGS_port flags))
    (mkNode (_service (np_node p)) true (tm_x (np_node p)) (tm_to (np_node p)) (nd_peer (np_node p))) =
    (Ok true, started_timer c sv (np_node p))) as E.
  { unfold init_handler. erewrite bind_Ok by reflexivity. rewrite Hh. erewrite bind_Ok by reflexivity.
    erewrite bind_Ok by (eapply on_service_run; [reflexivity|exact Hi]). cbn [negb].
    erewrite bind_Ok by reflexivity. unfold started_timer. by destruct (sv_role sv =? kNodeRoleRoot). }
  exists ctx. eexists. split.
  - unfold on_handler. erewrite bind_Ok by (cbn [np_node]; rewrite E; reflexivity). cbn [negb].
    by erewrite bind_Ok by reflexivity.
  - by split_and!.
Qed.

(** The ways [main] gives up before the loop, each with status -1 and before any server is made. *)
Lemma node_refuses path chdir flags store masked fd p :
  path = None ∨ chdir = false ∨ FLAGS_id flags = EmptyString ∨
    (∃ cf, Load (c_string (FLAGS_conf flags)) (np_config p) = (Ok false, cf)) →
  ∃ p', node_main path chdir flags store masked fd p = (Ok (Returned (-1)), p') ∧ np_world p' = np_world p.
Proof.
  unfold Startup.node_main. intros Hc. destruct path as [path|]; [|by eexists]. destruct chdir; cbn [negb]; [|by eexists].
  destruct (str_empty (FLAGS_id flags)) eqn:Ei; [by eexists|].
  destruct Hc as [Hc|[Hc|[Hc|[cf Hc]]]]; [done|done|by rewrite Hc in Ei|].
  unfold on_load. erewrite bind_Ok by (rewrite Hc; reflexivity). by eexists.
Qed.

End node_start.

(** ** From the genesis program to the client *)

Section minting.
Context {S K : Type} `{StoreLaws S, CerealLaw, Indeterminate, Rand, Clock, ConfigFiles}.
Context (h : Heap) (junk : Header) (stats : BlockStats) (fuel : nat).
Context (inet_addr : string → Z) (addEvent : M World unit).

(** A balance that is not zero is stored as its text. *)
Lemma balance_text (st : S) k z : balance st k = Some z → z ≠ 0 → view CacheDB st k = Some (VStr (dec_string z)).
Proof.
  unfold balance. destruct (view CacheDB st k) as [[t|l|m]|]; cbn; [|done|done|by intros [= <-]].
  destruct (strtoll_value t) as [z'|]; cbn; [|done]. destruct (bool_decide_reflect (dec_string z' = t)) as [<-|]; [|done].
  destruct (bool_decide _); cbn; [|done]. by intros [= <-].
Qed.

(** The answer a client gets for the balance of an account that has one. *)
Definition balance_answer (z : Z) : Z * string := (6, archive_out (mkRsp 0 "" ("balance = " +:+ dec_string z))).

Lemma query_replies c address z (sv : Service (S:=S)) :
  ready (sv_store sv) → address ≠ EmptyString → balance (sv_store sv) address = Some z → z ≠ 0 →
  ∃ sv', node_replies c fuel [MQuery (mkQB address)] sv = (Ok [balance_answer z], sv').
Proof.
  intros Hr Ha Hb Hz. apply balance_text in Hb; [|done].
  destruct (law_get CacheDB address EmptyString _ Hr Ha) as (st & E & _ & _). rewrite Hb in E. cbn [str_or] in E.
  exists (with_store st sv). cbn [node_replies node_reply]. rewrite bind_assoc.
  unfold queryBalanceString. cbn [qb_address]. by erewrite bind_Ok by (apply on_store_Ok; exact E).
Qed.

(** What the genesis program meets: a value and a server that answers. *)
Record mintable (argv : list string) (conf : string) (v : Z) (st0 st1 : S) : Prop := {
  mt_args : Genesis.parse argv None 10000000000 = Ok (Some (Some conf, v));
  mt_open : sOpen BlockDB conf st0 = (Ok true, st1);
  mt_ready : ready st1;
  mt_clock : in_u 64 ind_timestamp;
}.

(** The root reads the server the program wrote, in [st2]; it was never started on it. *)
Record first_start (c : Config) (store st2 st3 st4 : S) (v z : Z) : Prop := {
  fs_db : sOpen BlockDB (dbService c) store = (Ok true, st3);
  fs_cache : sOpen CacheDB (cacheService c) st3 = (Ok true, st4);
  fs_ready : ready st4;
  fs_block : view BlockDB st4 init_block_id = view BlockDB st2 init_block_id;
  fs_first : view CacheDB st4 INIT_LOCK = None;
  fs_balance : balance st4 Genesis.init_address = Some z;
  fs_fits : in_s 64 (z + v);
  fs_not_zero : z + v ≠ 0;
}.

Record root_config (c : Config) : Prop := {
  rc_role : nodeRole c = kNodeRoleRoot;
  rc_block : initBlockId c = init_block_id;
  rc_lock : BCLock c ∉ [EmptyString; INIT_LOCK; init_block_id; Genesis.init_address];
}.

(** C3: three programs and one value: the genesis program stores a block that mints a value; a
    root node started on the same server credits it and enters its loop; and when the
    client then asks for the genesis address, in however many pieces its request
    arrives, the node answers with one frame that names the balance the address had before
    plus exactly that value. *)
Theorem minted_value_answered argv conf v st0 st1 st3 st4 flags p c files w' hp path store masked fd z un
    (conn : K) chunks bytes :
  mintable argv conf v st0 st1 → root_config c → (1 < fuel)%nat → heap_avail h →
  deployed inet_addr addEvent flags p c files w' hp →
  build (AskBalance Genesis.init_address) [] = (Ok true, bytes) → ask_sized (AskBalance Genesis.init_address) →
  concat chunks = bytes → Forall (λ c, zlen c <= 2 ^ 30) chunks → fits (balance_answer (z + v)) →
  ∃ st2, Genesis.main argv st0 = (Ok 0, st2) ∧
    (first_start c store st2 st3 st4 v z →
     ∃ p' ctx n', node_main h junk stats fuel inet_addr addEvent (Some path) true flags store masked fd p = (Ok Running, p') ∧
       np_context p' = Some ctx ∧ feed un (doRequest ctx conn) [] chunks (np_node p') = (Ok (Some []), n') ∧
       nd_peer n' = nd_peer (np_node p) ++ [(conn, reply_frame (balance_answer (z + v)))]).
Proof.
  intros [Hargs Hopen Hr1 Hclk] [Hrole Hblk Hlock] Hfuel Hh Hdep Hb Hsz Hcat Hch Hfit.
  destruct (genesis_credits c argv conf v st0 st1 fuel hp (new_Service (FLAGS_id flags) store) st3 st4 z
    Hargs Hopen Hr1 Hclk Hrole Hblk Hlock) as (st2 & Eg & Hnode).
  exists st2. split; [exact Eg|]. intros [Hdb Hcache Hr4 Hv Hfirst Hz Hzv Hnz].
  destruct (Hnode Hdb Hcache Hr4 Hv Hfirst Hz Hzv Hfuel) as (sv & Ei & Hr & Hro & Hbal & _).
  destruct (node_starts h junk stats fuel inet_addr addEvent path flags store masked fd p c files w' hp sv Hdep Ei)
    as (ctx & p' & Em & Ec & Hctx & Hn & _).
  destruct (query_replies c Genesis.init_address (z + v) sv Hr) as (sv' & Eq); [done|done|done|].
  assert (np_node p' = mkNode (Some sv) true true (u32 (blockSyncInterval c)) (nd_peer (np_node p))) as Hn'.
  { rewrite Hn. unfold started_timer. by rewrite Hro. }
  set (ms := [(JShash Genesis.init_address, MQuery (mkQB Genesis.init_address))]).
  exists p', ctx, (answered conn sv' [balance_answer (z + v)] (np_node p')).
  split_and!; [exact Em|exact Hctx| |by rewrite Hn'].
  apply (feed_logged h junk stats c fuel ctx un conn ms chunks (np_node p') sv); [exact Hh|exact Ec|..].
  - by apply Forall_cons_2; [|constructor].
  - apply Forall_cons_2; [by cbn|constructor].
  - done.
  - rewrite Hcat. rewrite build_frame in Hb. injection Hb as <-. unfold stream. cbn. by rewrite app_nil_r.
  - by rewrite Hn'.
  - by rewrite Hn'.
  - exact Eq.
  - by apply Forall_cons_2; [|constructor].
Qed.

End minting.

(** ** The daemon's parent and child *)

(** The parent starts one child after the other, each after it waited once, and leaves the loop
    only in a child or when [fork] fails. *)
Lemma spawn_loop_rounds rounds x rest p :
  Forall (λ r : Z * Z, 0 < r.1) rounds → x <= 0 → tscript p = (rounds ≫= λ r, [r.1; r.2]) ++ x :: rest →
  spawn_loop (Datatypes.S (length rounds)) p =
    (Ok (if x =? 0 then None else Some (-1)), mkParent (tlog p ++ (rounds ≫= λ _, [TFork; TWait]) ++ [TFork]) rest).
Proof.
  intros Hr Hx. revert p. induction Hr as [|[pid w] rounds Hpid Hr IH]; intros [lg sc] E; cbn [tscript tlog] in *; subst sc.
  - cbn [length spawn_loop]. erewrite bind_Ok by reflexivity. cbn. destruct (Z.eqb_spec x 0); [done|].
    destruct (Z.ltb_spec 0 x); [lia|done].
  - cbn [length]. generalize dependent (Datatypes.S (length rounds)). intros n IH.
    cbn [spawn_loop]. erewrite bind_Ok by reflexivity. cbn [fst mbind list_bind app hd tscript] in *.
    destruct (Z.eqb_spec pid 0); [lia|]. destruct (Z.ltb_spec 0 pid); [|lia]. erewrite bind_Ok by reflexivity.
    unfold tcall. cbn [tscript tlog tl hd]. rewrite IH by done. cbn [tlog]. by rewrite <- !app_assoc.
Qed.

(** The child's manager has the low eight bits of the number asked for, or no worker at all when
    the port cannot be listened on. *)
Lemma daemon_child_workers flags junk acceptor masked fd mgr answers r s' :
  (∀ d d' b, acceptor d = (Ok b, d') → d'.2 = d.2) →
  daemon_child flags junk acceptor masked fd (mgr, mkMaster [] [] answers) = (Ok r, s') →
  workers_wf s'.2 ∧ (length (_workers s'.2) = Z.to_nat (FLAGS_workers flags mod 256) ∨ _workers s'.2 = []) ∧
  (u16 (FLAGS_listen flags) = 0 → length (_workers s'.2) = Z.to_nat (FLAGS_workers flags mod 256)).
Proof.
  intros Ha E. unfold daemon_child in E. apply bind_inv_Ok in E as ([] & s1 & E & [= _ <-]).
  unfold master_start, new_TcpServerMaster in E. cbn [_listenPort _numWorker m_exec m_confPath] in E.
  assert (∀ d, d.2 = mkMaster [] [] answers →
    on_master (startWorker junk (uwrap 8 (uwrap 8 (FLAGS_workers flags))) (c_string (FLAGS_exec flags)) (c_string (FLAGS_workerConf flags))) d
      = (Ok tt, s1) →
    workers_wf s1.2 ∧ length (_workers s1.2) = Z.to_nat (FLAGS_workers flags mod 256)) as Hs.
  { intros [d1 d2] Hd Es. cbn in Hd. subst d2. unfold on_master in Es. cbn [fst snd] in Es.
    destruct (startWorker _ _ _ _ _) as [r' m'] eqn:Em. injection Es as -> <-. cbn [snd].
    apply start_from_wf in Em as [W L]; [|constructor|reflexivity]. split; [exact W|]. rewrite L.
    cbn. unfold uwrap. by rewrite !Zmod_mod. }
  rewrite uwrap_idemp in E.
  destruct (Z.eqb_spec (uwrap 16 (FLAGS_listen flags)) 0) as [Hz|Hz]; cbn [negb] in E.
  - apply Hs in E as [W L]; [|done]. split_and!; [done|by left|done].
  - apply bind_inv_Ok in E as ([] & s2 & Ea & E).
    + apply Ha in Ea. cbn [snd] in Ea. apply Hs in E as [W L]; [|done]. split_and!; [done|by left|done].
    + injection E as <-. apply Ha in Ea. cbn [snd] in Ea. rewrite Ea. split_and!; [constructor|by right|done].
Qed.

(** ** Witnesses *)

(** A configuration file of a root. *)
Definition wroot_text : string → option string := λ m,
  if bool_decide (m = "initBlockId"%string) then Some init_block_id
  else if bool_decide (m = "host"%string) then Some "127.0.0.1"%string
  else if bool_decide (m = "dbService"%string) then Some "db.conf"%string
  else if bool_decide (m = "cacheService"%string) then Some "cache.conf"%string
  else if bool_decide (m = "lastBlockKey"%string) then Some "LAST_BLOCK"%string
  else if bool_decide (m = "txPoolKey"%string) then Some "TX_POOL"%string
  else if bool_decide (m = "BCLock"%string) then Some "BCLOCK"%string
  else if bool_decide (m = "nodeRole"%string) then Some "1"%string
  else if bool_decide (m = "childNodesKey"%string) then Some "CHILD_NODE"%string
  else None.
#[export] Instance wroot_file : ConfigFiles := {| config_file _ := Some (Some wroot_text) |}.

(** A node with the default flags, to which the kernel grants its calls. *)
Definition wflags : NodeFlags := default_flags.
Definition wproc : NodeProc (Storage (H:=MemHiredis)) Z (Log Z) :=
  mkProc (new_Config 0 0, 0) (mkWorld (Socket_new 0) [] (mkRes 7 0 0 0 [] :: repeat (mkRes 0 0 0 0 []) 15) []) (new_FPReqHandler [])
    new_SignalHandler None.
Definition wloaded : Config := (Load (c_string (FLAGS_conf wflags)) (np_config wproc)).2.1.
Definition waccepting : World := (start_server (λ _, 0) (mret tt) wflags (np_world wproc)).2.

Example waccepting_listens : m_socket (sock waccepting) = 7.
Proof. vm_compute. reflexivity. Qed.

Definition wask : list byte := (build (AskBalance Genesis.init_address) []).2.

Definition wopened (h : Handle) (m : db) (n : Z) : Storage (H:=MemHiredis) :=
  set_handle h (Some wcache) (@mkRW MemHiredis {[ ("h", 1)%string := m ]} 0 n) (wst m).

Lemma wfirst_start : first_start wloaded (wst wminted) (Genesis.main wargv (wst ∅)).2 (wopened BlockDB wminted 2)
  (wopened CacheDB wminted 3) 5000 0.
Proof.
  split.
  - reflexivity.
  - reflexivity.
  - apply wopened_ready.
  - vm_compute. reflexivity.
  - vm_compute. reflexivity.
  - vm_compute. reflexivity.
  - decide_by_compute.
  - discriminate.
Qed.

Lemma minted_value_answered_witness :
  ∃ p' ctx n', node_main wheap wjunk (mkStats 0 0) 2 (λ _, 0) (mret tt) (Some "/opt/node_server"%string) true wflags
      (wst wminted) 0 11 wproc = (Ok Running, p') ∧ np_context p' = Some ctx ∧
    feed wuninit (doRequest ctx 3) [] [ztake 5 wask; zdrop 5 wask] (np_node p') = (Ok (Some []), n') ∧
    nd_peer n' = [(3, reply_frame (balance_answer 5000))].
Proof.
  destruct (minted_value_answered (K:=Z) wheap wjunk (mkStats 0 0) 2 (λ _, 0) (mret tt) wargv "db.conf" 5000 (wst ∅)
    (wopened BlockDB ∅ 2) (wopened BlockDB wminted 2) (wopened CacheDB wminted 3) wflags wproc wloaded 1 waccepting
    "127.0.0.1:9090" "/opt/node_server" (wst wminted) 0 11 0 wuninit 3 [ztake 5 wask; zdrop 5 wask] wask)
    as (st2 & E & G).
  - split; [vm_compute; reflexivity|reflexivity|apply wopened_ready|decide_by_compute].
  - split; [reflexivity|reflexivity|apply (bool_decide_unpack _); vm_compute; exact I].
  - lia.
  - done.
  - split; [done|vm_compute; reflexivity|vm_compute; reflexivity|vm_compute; reflexivity].
  - vm_compute. reflexivity.
  - split; decide_by_compute.
  - cbn. rewrite app_nil_r. apply ztake_zdrop.
  - constructor; [decide_by_compute|]. constructor; [decide_by_compute|constructor].
  - decide_by_compute.
  - assert (st2 = (Genesis.main wargv (wst ∅)).2) as Est by (rewrite E; reflexivity).
    rewrite Est in G. destruct (G wfirst_start) as (p' & ctx & n' & E1 & E2 & E3 & E4).
    exists p', ctx, n'. exact (conj E1 (conj E2 (conj E3 E4))).
Defined.

(** A node whose port is taken enters its loop without a listening socket. *)
Example deaf_node :
  (node_main (K:=Z) (C:=Log Z) wheap wjunk (mkStats 0 0) 2 (λ _, 0) (mret tt) (Some "/opt/node_server"%string) true
    default_flags (wst wminted) 0 11
    (mkProc (new_Config 0 0, 0) bind_refused (new_FPReqHandler []) new_SignalHandler None)).1 = Ok Running ∧
  isValid (sock (start_server (λ _, 0) (mret tt) default_flags bind_refused).2) = false.
Proof. vm_compute. split; reflexivity. Qed.
